(* ===== verification/_CoqProject ===== *)
-Q . S2P
Prelude.v
StatusCodeRules.v
JsValue.v
Json.v
Zod.v
JsText.v
BillingExpr.v
BillingRules.v
PricingEditor.v
PricingProofs.v
TierExpr.v
TierRoundTrip.v
TierDisplay.v
AuthSession.v
PlaygroundMessages.v
PlaygroundStorage.v
PlaygroundState.v
StreamController.v
ChatHandler.v
RatioSync.v
ChannelMonitor.v
AdvancedCustom.v
ModelMapping.v
ChannelForm.v
ChannelReopen.v
BatchTest.v
BatchProofs.v
JsExact.v
Flow.v
FlowProofs.v
AccountPool.v
AccountPoolProofs.v
NavConfig.v
NavModules.v
NavProofs.v
ParamOverride.v
ParamReopen.v
ParamEditor.v
ParamEditorProofs.v
UpstreamRules.v
