(* ===== verification/Prelude.v ===== *)
(** * Verification of the wynth-api web client

    wynth-api is an API gateway with a TypeScript web client.  This library models
    the parts of the client (web/src) that carry logic of their own and proves what
    makes them correct.  The gateway itself, in Go, is not part of it.

    ** The parts and their files

    The files build on each other in the order of _CoqProject.

    - [Prelude] (this file): strings, white space, splitting and joining, decimal
      numerals, tactics and hint databases.
    - [StatusCodeRules]: lib/http-status-code-rules.ts, texts such as 400-404,500
      as sets of status codes.
    - [JsValue], [Json], [JsText], [Zod]: what the client uses of its platform.
      Binary64 numbers and untyped values; JSON.parse and JSON.stringify with their
      round trip; regular expressions with the backtracking semantics of the
      language, and Number(text); the validation schemas of the package zod.
    - [BillingExpr], [BillingRules]: features/pricing/lib/billing-expr.ts, the
      expressions that price a request.  The first file holds the functions, the
      second the theorems.
    - [AuthSession]: stores/auth-store.ts, lib/auth-session.ts,
      lib/auth-session-sync.ts and the listener of routes/__root.tsx: sign-in and
      sign-out, token rotation, refresh with retries and a browser lock, and the
      events between tabs.
    - [PlaygroundMessages]: features/playground/lib/message/ and the request
      payload: messages, reasoning tags, streaming, settling, editing.
    - [PlaygroundStorage], [PlaygroundState]: features/playground/lib/storage/ and
      hooks/use-playground-state.ts: what is kept of a conversation, within which
      bounds, and when it is saved.
    - [StreamController]: features/playground/hooks/use-stream-request.ts, the
      controller that owns at most one event source.
    - [ChatHandler]: hooks/use-chat-handler.ts and use-playground-conversation.ts,
      which join the controller, the messages and React's queue of updates.
    - [PricingEditor], [PricingProofs]: the editor of model prices in
      features/system-settings/models/ (model-pricing-snapshots.ts and the handlers
      of model-ratio-visual-editor.tsx): ten settings read into one row per model.
    - [TierExpr], [TierRoundTrip], [TierDisplay]: features/pricing/lib/tier-expr.ts,
      the visual editor of tiered prices, its round trip, and its composition with
      the parser by which the price page shows an expression.
    - [RatioSync]: upstream-ratio-sync-helpers.ts and the state of
      upstream-ratio-sync.tsx: prices taken over from upstream sources.
    - [AdvancedCustom], [ChannelMonitor], [ModelMapping], [ChannelForm],
      [ChannelReopen]: features/channels/lib/: the routes of a custom channel, the
      settings of the monitor, the checks of models and model mappings, the form of a
      channel, and form and monitor composed: what is saved, reopened and kept of the
      text they share.
    - [BatchTest], [BatchProofs]: channel-test-dialog-logic.ts, the manager of batch
      tests of a channel, over all interleavings of its runs.
    - [ParamOverride], [ParamReopen], [ParamEditor], [ParamEditorProofs]:
      param-override-editor-dialog.tsx, rules that change requests: the stored text,
      its validation, and the dialog as a state machine.
    - [JsExact], [Flow], [FlowProofs]: features/dashboard/lib/flow.ts, the flow chart
      of the dashboard, with exact sums of whole numbers.
    - [AccountPool], [AccountPoolProofs]: account-pools/lib/account-pool-form.ts, the
      forms of pools, accounts, proxies and imports and the requests that save them.
    - [NavConfig], [NavModules], [NavProofs]: the settings of the navigation, written
      by system-settings/maintenance/ and read by lib/nav-modules.ts,
      hooks/use-top-nav-links.ts, hooks/use-sidebar-config.ts and the guards of the
      routes.
    - [UpstreamRules]: features/upstream-sources/rules.ts, the rules that map
      upstream groups to local groups.

    ** How the code is modelled

    A function of the source is a function of the same name; a loop is a Fixpoint,
    with fuel where it is not structural; an object with mutable fields is a record
    that is passed along; a hook or a controller is a state machine whose events
    are calls, timers and responses, and whose schedules are arbitrary sequences of
    events.  An exception is a value: [option], [Decoded] or an error type of the
    component.  Strings are lists of UTF-16 code units and numbers binary64 values,
    so that lengths, indexes and comparisons are those of the language.

    Code outside the repository is a parameter.  [LowerCase] (String's
    toLowerCase) and [Zod] are classes with an instance each; the printing of
    numbers, the quota of local storage, the URL parser, i18next's [t], the clock
    and the identifiers of nanoid are arguments of the definitions that use them.
    Responses of the backend are events of the environment.

    ** Fuel

    [unwrap_loop] and [think_loop] have the length of the text as fuel, and every
    round consumes a unit; the iterations of a quantifier in [rmatch] are bounded
    by the units left, since an iteration that consumes nothing is refused; the
    searches of [matchAll], [replaceAll] and [split_re] consume a unit per round;
    the JSON parser takes twice the length plus two.  [unwrap_outer_parens],
    [parseThinkTags_correct] and [JSON_parse_stringify] show that this is enough.

    ** What is proved

    - Session: nothing in flight survives a sign-out, a refresh run settles within
      a bounded number of requests, credentials are those of the current session.
    - Playground: at most one source is open and stale requests are silent; a stop
      is final; pending text always has a timer; what a stream leaves as text and
      where batching changes it; the bounds of what is loaded; the soundness of the
      schema; saving and loading as a round trip; and, over all schedules in which
      no update is waiting when the conversation is loaded, that the next session
      restores a conversation within the bounds as the last one left it.
    - Texts: status code rules, billing rules, tiered prices, channel settings,
      parameter overrides, account forms and navigation settings are parsed and
      printed as inverses of each other, within stated conditions; their validations
      accept exactly what their declarative specifications accept.
    - Editors: every state the dialog of overrides reaches satisfies its invariant;
      selections of upstream prices stay consistent and are applied as selected; a
      saved price is read back for the models it was saved for and no other model
      changes; the form of a channel keeps the properties of the dialogs that share its
      text.
    - Runs: a batch of tests reports every model once, ends, and is silent after its
      cancellation.
    - Site: the navigation follows the switches of the administrator, in the links,
      in the guards and in the sidebar, and the settings of a user only hide; the
      flow chart conserves what flows, masks what is sensitive and highlights exactly
      the selected paths.
    - Defects: theorems state where the code loses data or disagrees with itself
      (increments that repeat the text so far, billing rules printed as conjunctions,
      conversations of more than a mebibyte, an update that overtakes the loading of
      the conversation, a pruning editor whose conditions cannot be changed, values
      whose quotes are lost, a test model the monitor no longer shows, a reserved name
      that escapes masking, switches of the navigation that the editor and the site
      read differently, a link to a page that is switched off).

    The hypotheses of the theorems are well-formedness of the data; where a parameter
    occurs, what its documentation promises (numbers that a printer prints so that they
    read back, texts of 16-bit units, laws of zod and of toLowerCase); and, in the
    round trips, that the input is not one of those the code loses, which the doc
    comment of the theorem lists and an example or a theorem on defects exhibits.

    ** Simplifications

    - The properties of an object are kept in the order of insertion; the language puts
      keys that are integers first.  No theorem depends on that order.
    - The synchronisation of upstream prices sends its options one by one; in the model a
      run that succeeds is one step, and a run that stops half way is a step that reloads
      the settings with any values.  The tables are values there, not their JSON text.
    - The callbacks of the stream controller neither throw nor call it back, and the
      constructor of the event source does not throw.
    - The reset of the session store in main.tsx, on an answer that was not authorised,
      is not a step of the session; it only removes credentials.

    ** Not modelled

    - React components (.tsx) beyond the handlers named above render the modelled
      state; routeTree.gen.ts is generated; the wrappers around axios (lib/api.ts,
      the api.ts files) only perform requests.
    - Formatting (lib/format.ts, lib/currency.ts, lib/time.ts, the price tables of
      features/pricing/lib and the summaries of prices) is the work of Intl, dayjs
      and toFixed, libraries the sources only call.
    - Tables and single lookups in them (lib/roles.ts, lib/admin-permissions.ts) and
      display helpers of tables (features/channels/lib/channel-utils.ts) have no
      state and no property beyond their definition.
    - The gateway, in Go, and the Electron shell are other programs; their answers
      are events of the environment. *)

From stdpp Require Export base list gmap strings numbers sorting.
From Stdlib Require Export NArith ZArith Lia.
From Stdlib Require Import Ascii.

(** ** Strings

    A JavaScript string is a sequence of UTF-16 code units.  [js] turns an
    ASCII literal of the source into such a sequence. *)

Abbreviation unit16 := N.
Abbreviation jsstr := (list N).

Definition js (s : string) : jsstr := N_of_ascii <$> String.list_ascii_of_string s.
Arguments js s%_stdpp_scope.

Declare Scope js_scope.
Delimit Scope js_scope with js.

Definition str_eqb (s t : jsstr) : bool := bool_decide (s = t).
Infix "=s?" := str_eqb (at level 70) : js_scope.

(** JavaScript truthiness of a string: [Boolean(s)]. *)
Definition truthy (s : jsstr) : bool := match s with [] => false | _ => true end.

(** [a || b] on strings. *)
Definition str_or (a b : jsstr) : jsstr := if truthy a then a else b.
Infix "|||" := str_or (at level 50, left associativity) : js_scope.
Open Scope js_scope.

(** White space of [String.prototype.trim] and of [\s]: the WhiteSpace and
    LineTerminator productions of ECMAScript. *)
Definition is_space (c : N) : bool :=
  ((9 <=? c) && (c <=? 13) || (c =? 32) || (c =? 160) || (c =? 5760)
   || (8192 <=? c) && (c <=? 8202) || (c =? 8232) || (c =? 8233)
   || (c =? 8239) || (c =? 8287) || (c =? 12288) || (c =? 65279))%N.

(** ASCII digits, [\d]. *)
Definition is_digit (c : N) : bool := ((48 <=? c) && (c <=? 57))%N.

Fixpoint drop_while (f : N -> bool) (s : jsstr) : jsstr :=
  match s with
  | [] => []
  | c :: s' => if f c then drop_while f s' else s
  end.

Definition trim_start (s : jsstr) : jsstr := drop_while is_space s.
Definition trim_end (s : jsstr) : jsstr := reverse (drop_while is_space (reverse s)).

(** [s.trim()] *)
Definition trim (s : jsstr) : jsstr := trim_end (trim_start s).

(** [s.startsWith(p)] *)
Fixpoint starts_with (p s : jsstr) : bool :=
  match p, s with
  | [], _ => true
  | _ :: _, [] => false
  | a :: p', b :: s' => (a =? b)%N && starts_with p' s'
  end.

(** [s.endsWith(p)] *)
Definition ends_with (p s : jsstr) : bool := starts_with (reverse p) (reverse s).

(** [s.indexOf(p)], [None] standing for [-1]. *)
Fixpoint index_of (p s : jsstr) : option nat :=
  if starts_with p s then Some 0
  else match s with
       | [] => None
       | _ :: s' => S <$> index_of p s'
       end.

(** [s.indexOf(p, from)] *)
Definition index_of_from (p s : jsstr) (from : nat) : option nat :=
  (Nat.add from) <$> index_of p (drop from s).

(** [s.includes(p)] *)
Definition includes (p s : jsstr) : bool :=
  match index_of p s with Some _ => true | None => false end.

(** [s.slice(i, j)] for [0 <= i]. *)
Definition slice (s : jsstr) (i j : nat) : jsstr := take (j - i) (drop i s).

(** [s.split(sep)] for a separator of one code unit. *)
Fixpoint split_go (sep : N) (cur : jsstr) (s : jsstr) : list jsstr :=
  match s with
  | [] => [reverse cur]
  | c :: s' => if (c =? sep)%N then reverse cur :: split_go sep [] s'
               else split_go sep (c :: cur) s'
  end.
Definition split (sep : N) (s : jsstr) : list jsstr := split_go sep [] s.

(** [parts.join(sep)] *)
Fixpoint join (sep : jsstr) (parts : list jsstr) : jsstr :=
  match parts with
  | [] => []
  | [p] => p
  | p :: ps => p ++ sep ++ join sep ps
  end.

(** [new Set(names)] in the order of insertion. *)
Fixpoint distinct (seen : list jsstr) (names : list jsstr) : list jsstr :=
  match names with
  | [] => []
  | x :: names' => if bool_decide (x ∈ seen) then distinct seen names' else x :: distinct (x :: seen) names'
  end.

(** The filter that drops empty strings and strings already seen, shared by
    every list normaliser of the client ([if (!item || seen.has(item))]). *)
Fixpoint dedup_nonempty (seen : list jsstr) (l : list jsstr) : list jsstr :=
  match l with
  | [] => []
  | x :: l' =>
      if negb (truthy x) || bool_decide (x ∈ seen) then dedup_nonempty seen l'
      else x :: dedup_nonempty (x :: seen) l'
  end.

(** ** Tactics *)

Ltac bool_to_prop :=
  repeat match goal with
  | H : _ && _ = true |- _ => apply andb_true_iff in H; destruct H
  | H : _ || _ = false |- _ => apply orb_false_iff in H; destruct H
  | H : _ && _ = false |- _ => apply andb_false_iff in H
  | H : _ || _ = true |- _ => apply orb_true_iff in H
  | H : negb _ = true |- _ => apply negb_true_iff in H
  | H : negb _ = false |- _ => apply negb_false_iff in H
  | H : bool_decide _ = true |- _ => apply bool_decide_eq_true in H
  | H : bool_decide _ = false |- _ => apply bool_decide_eq_false in H
  | H : str_eqb _ _ = true |- _ => apply bool_decide_eq_true in H
  | H : str_eqb _ _ = false |- _ => apply bool_decide_eq_false in H
  | H : (_ =? _)%N = true |- _ => apply N.eqb_eq in H
  | H : (_ =? _)%N = false |- _ => apply N.eqb_neq in H
  | H : (_ <=? _)%N = true |- _ => apply N.leb_le in H
  | H : (_ <=? _)%N = false |- _ => apply N.leb_gt in H
  | H : (_ <? _)%N = true |- _ => apply N.ltb_lt in H
  | H : (_ <? _)%N = false |- _ => apply N.ltb_ge in H
  | H : (_ =? _)%Z = true |- _ => apply Z.eqb_eq in H
  | H : (_ =? _)%Z = false |- _ => apply Z.eqb_neq in H
  | H : (_ <=? _)%Z = true |- _ => apply Z.leb_le in H
  | H : (_ <=? _)%Z = false |- _ => apply Z.leb_gt in H
  | H : (_ <? _)%Z = true |- _ => apply Z.ltb_lt in H
  | H : (_ <? _)%Z = false |- _ => apply Z.ltb_ge in H
  | H : (_ =? _)%nat = true |- _ => apply Nat.eqb_eq in H
  | H : (_ =? _)%nat = false |- _ => apply Nat.eqb_neq in H
  end.

(** Split on the condition of every [if] and [match] of the goal. *)
Ltac split_cases := repeat (case_match; simplify_eq/=; bool_to_prop).

(** A decidable goal about concrete values, by evaluation. *)
Ltac by_decision := refine (bool_decide_unpack _ _); vm_compute; exact I.

Create HintDb js discriminated.
Create Rewrite HintDb js_rw.

(** ** Lemmas on lists *)

Lemma filter_all {A} (P : A -> Prop) `{!forall x, Decision (P x)} l : Forall P l -> filter P l = l.
Proof. induction 1 as [|x l Hx _ IH]; [done|]. by rewrite filter_cons_True, IH. Qed.

(** ** Lemmas on strings *)

Lemma str_eqb_eq s t : (s =s? t) = true <-> s = t.
Proof. apply bool_decide_eq_true. Qed.

Lemma str_eqb_refl s : (s =s? s) = true.
Proof. by apply str_eqb_eq. Qed.

Lemma str_eqb_neq s t : (s =s? t) = false <-> s <> t.
Proof. apply bool_decide_eq_false. Qed.

Lemma truthy_true s : truthy s = true <-> s <> [].
Proof. by destruct s. Qed.

Lemma truthy_false s : truthy s = false <-> s = [].
Proof. by destruct s. Qed.

#[export] Hint Rewrite str_eqb_refl : js_rw.
#[export] Hint Resolve str_eqb_refl : js.

(** *** White space *)

Definition no_lead (s : jsstr) : Prop :=
  match s with [] => True | c :: _ => is_space c = false end.

Definition trimmed (s : jsstr) : Prop := no_lead s /\ no_lead (reverse s).

Lemma drop_while_no_lead s : no_lead (drop_while is_space s).
Proof. induction s as [|c s IH]; simpl; [done|]. by destruct (is_space c) eqn:?. Qed.

Lemma drop_while_id s : no_lead s -> drop_while is_space s = s.
Proof. destruct s as [|c s]; simpl; [done|]. by intros ->. Qed.

Lemma drop_while_suffix f s :
  exists p, s = p ++ drop_while f s /\ Forall (fun c => f c = true) p.
Proof.
  induction s as [|c s [p [Hp Hf]]]; simpl; [by exists []|].
  destruct (f c) eqn:Hc; [|by exists []].
  exists (c :: p). split; [simpl; by f_equal | by constructor].
Qed.

Lemma trim_end_prefix s :
  exists p, s = trim_end s ++ p /\ Forall (fun c => is_space c = true) p.
Proof.
  unfold trim_end. destruct (drop_while_suffix is_space (reverse s)) as [p [Hp Hf]].
  exists (reverse p). split; [|by apply Forall_reverse].
  rewrite <- reverse_app, <- Hp. by rewrite reverse_involutive.
Qed.

Lemma no_lead_trim_end s : no_lead s -> no_lead (trim_end s).
Proof.
  intros Hs. destruct (trim_end_prefix s) as [p [Hp _]].
  destruct (trim_end s) as [|c t] eqn:E; [done|]. rewrite Hp in Hs. exact Hs.
Qed.

Lemma trim_trimmed s : trimmed (trim s).
Proof.
  split.
  - apply no_lead_trim_end, drop_while_no_lead.
  - unfold trim, trim_end. rewrite reverse_involutive. apply drop_while_no_lead.
Qed.

Lemma trimmed_trim s : trimmed s -> trim s = s.
Proof.
  intros [H1 H2]. unfold trim, trim_start, trim_end.
  by rewrite (drop_while_id _ H1), (drop_while_id _ H2), reverse_involutive.
Qed.

Lemma trim_idem s : trim (trim s) = trim s.
Proof. apply trimmed_trim, trim_trimmed. Qed.

(** A string is its trimmed form between two runs of white space. *)
Lemma trim_decompose s :
  exists p q, s = p ++ trim s ++ q
    /\ Forall (fun c => is_space c = true) p /\ Forall (fun c => is_space c = true) q.
Proof.
  destruct (drop_while_suffix is_space s) as [p [Hp Hfp]].
  destruct (trim_end_prefix (trim_start s)) as [q [Hq Hfq]].
  exists p, q. unfold trim. rewrite <- Hq. done.
Qed.

Lemma trim_elem_of c s : c ∈ trim s -> c ∈ s.
Proof.
  intros H. destruct (trim_decompose s) as (p & q & -> & _).
  rewrite !elem_of_app. auto.
Qed.

Lemma trimmed_nil : trimmed [].
Proof. done. Qed.

#[export] Hint Resolve trim_trimmed trimmed_nil drop_while_no_lead : js.
#[export] Hint Rewrite trim_idem : js_rw.

(** *** Prefixes and occurrences *)

Lemma starts_with_spec p s : starts_with p s = true <-> exists t, s = p ++ t.
Proof.
  revert s; induction p as [|a p IH]; intros s; simpl.
  { split; [by exists s|done]. }
  destruct s as [|b s].
  { split; [done|by intros [t Ht]]. }
  rewrite andb_true_iff, N.eqb_eq, IH. split.
  - intros [-> [t ->]]. by exists t.
  - intros [t [= -> ->]]. eauto.
Qed.

Lemma starts_with_app p t : starts_with p (p ++ t) = true.
Proof. apply starts_with_spec. by exists t. Qed.

Lemma starts_with_refl p : starts_with p p = true.
Proof. apply starts_with_spec. exists []. by rewrite app_nil_r. Qed.

Lemma starts_with_trans p q s :
  starts_with p q = true -> starts_with q s = true -> starts_with p s = true.
Proof.
  rewrite !starts_with_spec. intros [t ->] [u ->]. exists (t ++ u). by rewrite app_assoc.
Qed.

Lemma starts_with_length p s : starts_with p s = true -> length p <= length s.
Proof. intros [t ->]%starts_with_spec. rewrite length_app. lia. Qed.

Lemma starts_with_drop p s : starts_with p s = true -> p ++ drop (length p) s = s.
Proof. intros [t ->]%starts_with_spec. by rewrite drop_app_length. Qed.

Lemma index_of_Some p s i :
  index_of p s = Some i ->
  take i s ++ p ++ drop (i + length p) s = s
  /\ (forall j, j < i -> starts_with p (drop j s) = false).
Proof.
  revert i. induction s as [|c s IH]; intros i; simpl.
  - destruct (starts_with p []) eqn:E; [|done]. intros [= <-].
    apply starts_with_drop in E. simpl. split; [done|lia].
  - destruct (starts_with p (c :: s)) eqn:E.
    + intros [= <-]. apply starts_with_drop in E. simpl. split; [done|lia].
    + destruct (index_of p s) as [k|] eqn:Ek; simpl; [|done]. intros [= <-].
      destruct (IH k eq_refl) as [IH1 IH2]. split.
      * simpl. by f_equal.
      * intros [|j] Hj; [done|]. apply IH2. lia.
Qed.

Lemma index_of_None p s : index_of p s = None -> forall j, starts_with p (drop j s) = false.
Proof.
  induction s as [|c s IH]; intros H j.
  - rewrite drop_nil. simpl in H. by destruct (starts_with p []).
  - simpl in H. destruct (starts_with p (c :: s)) eqn:E; [done|].
    destruct j as [|j]; [done|]. simpl. apply IH. by destruct (index_of p s).
Qed.

Lemma includes_spec p s : includes p s = true <-> exists a b, s = a ++ p ++ b.
Proof.
  unfold includes. destruct (index_of p s) as [i|] eqn:E.
  - split; [intros _|done]. destruct (index_of_Some _ _ _ E) as [H _]. eauto.
  - split; [done|]. intros (a & b & ->).
    pose proof (index_of_None _ _ E (length a)) as H.
    rewrite drop_app_length in H. by rewrite starts_with_app in H.
Qed.

Lemma index_of_intro p s i :
  i <= length s -> starts_with p (drop i s) = true ->
  (forall j, j < i -> starts_with p (drop j s) = false) -> index_of p s = Some i.
Proof.
  revert i; induction s as [|c s IH]; intros i Hi Hs Hj.
  - destruct i; [|simpl in Hi; lia]. simpl in *. by rewrite Hs.
  - destruct i as [|i]; simpl.
    + simpl in Hs. by rewrite Hs.
    + pose proof (Hj 0 ltac:(lia)) as H0. simpl in H0. rewrite H0.
      rewrite (IH i); [done|simpl in Hi; lia|done|]. intros j Hlt. apply (Hj (S j)). lia.
Qed.

Lemma includes_false p s : includes p s = false -> forall a b, s <> a ++ p ++ b.
Proof.
  intros H a b ->. assert (includes p (a ++ p ++ b) = true) by (apply includes_spec; eauto). congruence.
Qed.

(** The text before the first occurrence holds no occurrence. *)
Lemma index_of_take p s i :
  p <> [] -> index_of p s = Some i -> includes p (take i s) = false.
Proof.
  intros Hp H. apply index_of_Some in H as [_ Hmin].
  destruct (includes p (take i s)) eqn:E; [|done].
  apply includes_spec in E as (a & b & E).
  assert (Hl : length a + length p + length b <= i).
  { pose proof (f_equal length E) as Hl. rewrite length_take, !length_app in Hl. lia. }
  assert (0 < length p) by (destruct p; simpl; [done|lia]).
  rewrite <- (Hmin (length a)) by lia. symmetry.
  rewrite <- (take_drop i s), E, <- !app_assoc, drop_app_length.
  apply starts_with_app.
Qed.

(** A pattern whose first unit does not come back in it starts where the text
    that does not contain it ends. *)
Lemma index_of_app p v s :
  (exists c p', p = c :: p' /\ c ∉ p') -> includes p v = false ->
  index_of p (v ++ p ++ s) = Some (length v).
Proof.
  intros (c & p' & -> & Hc) Hv. apply index_of_intro.
  - rewrite length_app. lia.
  - rewrite drop_app_length. apply starts_with_app.
  - intros j Hj. destruct (starts_with _ _) eqn:E; [exfalso|done].
    apply starts_with_spec in E as [r E]. rewrite drop_app_le in E by lia.
    destruct (decide (length (c :: p') <= length (drop j v))) as [Hle|Hgt].
    + apply (f_equal (take (length (c :: p')))) in E.
      rewrite take_app_length, take_app_le in E by done.
      apply (includes_false _ _ Hv (take j v) (drop (length (c :: p')) (drop j v))).
      rewrite <- E at 1. by rewrite !take_drop.
    + apply app_eq_inv in E as [(k & E1 & E2)|(k & E1 & E2)].
      * apply (f_equal length) in E1. rewrite length_app in E1. lia.
      * destruct (drop j v) as [|d w] eqn:Ed.
        { apply (f_equal length) in Ed. rewrite length_drop in Ed. simpl in Ed. lia. }
        destruct k as [|e k].
        { apply (f_equal length) in E1. rewrite length_app in E1. simpl in *. lia. }
        simpl in E1, E2. injection E1 as -> ->. injection E2 as -> _. apply Hc. set_solver.
Qed.

Lemma starts_with_drop_length p s j :
  starts_with p (drop j s) = true -> p <> [] -> j + length p <= length s.
Proof.
  intros [r E]%starts_with_spec Hp. apply (f_equal length) in E.
  rewrite length_drop, length_app in E. destruct p; [done|]. simpl in *. lia.
Qed.

Lemma index_of_None_includes p s : includes p s = false -> index_of p s = None.
Proof. unfold includes. by destruct (index_of p s). Qed.

(** *** Splitting and joining *)

Lemma split_go_cons sep cur s :
  exists p ps, split_go sep cur s = p :: ps.
Proof.
  revert cur; induction s as [|c s IH]; intros cur; simpl; [by eauto|].
  destruct (c =? sep)%N; [by eauto|apply IH].
Qed.

Lemma join_cons sep p ps : ps <> [] -> join sep (p :: ps) = p ++ sep ++ join sep ps.
Proof. by destruct ps. Qed.

Lemma join_split_go sep cur s : join [sep] (split_go sep cur s) = reverse cur ++ s.
Proof.
  revert cur; induction s as [|c s IH]; intros cur; simpl.
  { by rewrite app_nil_r. }
  destruct (c =? sep)%N eqn:E; bool_to_prop.
  - rewrite join_cons, IH by (destruct (split_go_cons sep [] s) as (p & ps & ->); done).
    by subst.
  - rewrite IH, reverse_cons, <- app_assoc. done.
Qed.

Lemma join_split sep s : join [sep] (split sep s) = s.
Proof. apply join_split_go. Qed.

Lemma split_go_free sep cur s :
  sep ∉ cur -> Forall (fun p => sep ∉ p) (split_go sep cur s).
Proof.
  revert cur; induction s as [|c s IH]; intros cur Hc; simpl.
  { constructor; [|done]. by rewrite elem_of_reverse. }
  destruct (c =? sep)%N eqn:E; bool_to_prop.
  - constructor; [by rewrite elem_of_reverse|]. apply IH. set_solver.
  - apply IH. set_solver.
Qed.

Lemma split_free sep s : Forall (fun p => sep ∉ p) (split sep s).
Proof. apply split_go_free. set_solver. Qed.

Lemma split_go_app sep cur p s :
  sep ∉ p -> split_go sep cur (p ++ s) = split_go sep (reverse p ++ cur) s.
Proof.
  revert cur; induction p as [|c p IH]; intros cur Hp; simpl; [done|].
  apply not_elem_of_cons in Hp as [Hc Hp].
  destruct (c =? sep)%N eqn:E; bool_to_prop; [done|].
  rewrite IH, reverse_cons, <- app_assoc by done. done.
Qed.

Lemma split_single sep p : sep ∉ p -> split sep p = [p].
Proof.
  intros Hp. unfold split. rewrite <- (app_nil_r p), split_go_app by done. simpl.
  by rewrite !app_nil_r, reverse_involutive.
Qed.

Lemma split_cons sep p s : sep ∉ p -> split sep (p ++ sep :: s) = p :: split sep s.
Proof.
  intros Hp. unfold split. rewrite split_go_app by done. simpl.
  by rewrite N.eqb_refl, app_nil_r, reverse_involutive.
Qed.

Lemma split_join sep ps :
  ps <> [] -> Forall (fun p => sep ∉ p) ps -> split sep (join [sep] ps) = ps.
Proof.
  induction ps as [|p ps IH]; intros Hne Hf; [done|].
  apply Forall_cons in Hf as [Hp Hps]. destruct ps as [|q ps].
  - by apply split_single.
  - rewrite join_cons by done. change ([sep] ++ join [sep] (q :: ps)) with (sep :: join [sep] (q :: ps)).
    rewrite split_cons by done. f_equal. by apply IH.
Qed.

(** Reading the pieces off a list whose separators are inside the pieces too. *)
Lemma split_join_bind sep ps :
  ps <> [] -> split sep (join [sep] ps) = ps ≫= split sep.
Proof.
  induction ps as [|p ps IH]; intros Hne; [done|].
  destruct ps as [|q ps]; [simpl; by rewrite app_nil_r|].
  rewrite join_cons by done. rewrite bind_cons, <- IH by done. clear IH Hne.
  generalize (join [sep] (q :: ps)) as s. intros s. rewrite <- (join_split sep p) at 1.
  pose proof (split_free sep p) as Hf. unfold split at 3. unfold split in Hf.
  assert (Hne : split_go sep [] p <> []) by (destruct (split_go_cons sep [] p) as (?&?&->); done).
  unfold split at 2. revert Hf Hne. generalize (split_go sep [] p) as l. intros l.
  induction l as [|x l IH]; intros Hf Hne; [done|]. apply Forall_cons in Hf as [Hx Hl].
  destruct l as [|y l].
  - simpl. by apply split_cons.
  - rewrite join_cons by done. rewrite <- !app_assoc. simpl.
    rewrite split_cons by done. f_equal. by apply IH.
Qed.

(** *** Deduplication *)

Lemma dedup_elem_of seen l x :
  x ∈ dedup_nonempty seen l <-> x ∈ l /\ x <> [] /\ x ∉ seen.
Proof.
  revert seen; induction l as [|y l IH]; intros seen; simpl; [set_solver|].
  destruct (negb (truthy y) || bool_decide (y ∈ seen)) eqn:E; bool_to_prop.
  - rewrite IH, elem_of_cons. destruct E as [E|E]; bool_to_prop.
    + apply truthy_false in E. set_solver.
    + set_solver.
  - rewrite !elem_of_cons, IH. apply truthy_true in H. destruct (decide (x = y)); set_solver.
Qed.

Lemma dedup_NoDup seen l : NoDup (dedup_nonempty seen l).
Proof.
  revert seen; induction l as [|y l IH]; intros seen; simpl; [constructor|].
  destruct (negb (truthy y) || bool_decide (y ∈ seen)) eqn:E; [done|].
  constructor; [|done]. rewrite dedup_elem_of. set_solver.
Qed.

Lemma dedup_id seen l :
  NoDup l -> Forall (fun x => x <> [] /\ x ∉ seen) l -> dedup_nonempty seen l = l.
Proof.
  revert seen; induction l as [|y l IH]; intros seen Hnd Hf; simpl; [done|].
  apply Forall_cons in Hf as [[Hy Hs] Hf]. apply NoDup_cons in Hnd as [Hny Hnd].
  rewrite (proj2 (truthy_true y)) by done. rewrite bool_decide_eq_false_2 by done. simpl.
  f_equal. apply IH; [done|]. rewrite Forall_forall in Hf |- *.
  intros x Hx. destruct (Hf x Hx). set_solver.
Qed.

Lemma dedup_Forall (P : jsstr -> Prop) seen l :
  Forall P l -> Forall P (dedup_nonempty seen l).
Proof. rewrite !Forall_forall. intros H x [? _]%dedup_elem_of. auto. Qed.

Lemma dedup_idem l : dedup_nonempty [] (dedup_nonempty [] l) = dedup_nonempty [] l.
Proof.
  apply dedup_id; [apply dedup_NoDup|]. apply Forall_forall.
  intros x (_ & Hx & Hs)%dedup_elem_of. done.
Qed.

Lemma distinct_spec names : forall seen x, x ∈ distinct seen names <-> x ∈ names /\ x ∉ seen.
Proof.
  induction names as [|y names IH]; intros seen x; cbn [distinct]; [set_solver|].
  case_bool_decide as H.
  - rewrite IH, elem_of_cons. split; [tauto|]. intros [[->|Hx] Hs]; [done|done].
  - rewrite elem_of_cons, IH, !elem_of_cons. destruct (decide (x = y)) as [->|]; tauto.
Qed.

Lemma distinct_NoDup names : forall seen, NoDup (distinct seen names).
Proof.
  induction names as [|y names IH]; intros seen; cbn [distinct]; [apply NoDup_nil_2|].
  case_bool_decide; [apply IH|]. apply NoDup_cons. split; [|apply IH]. rewrite distinct_spec. set_solver.
Qed.

#[export] Hint Resolve dedup_NoDup dedup_Forall starts_with_app starts_with_refl : js.

(** ** Decimal numerals

    [parse_dec] is [Number.parseInt(s, 10)] on a string of digits, as an exact
    natural number; [show_dec] prints a natural number as a template literal
    does.  The fuel of [show_dec] is the number of binary digits, which bounds
    the number of decimal digits. *)

Definition dec_step (acc : N) (c : N) : N := (acc * 10 + (c - 48))%N.
Definition parse_dec (s : jsstr) : N := foldl dec_step 0%N s.

Fixpoint show_go (fuel : nat) (n : N) (acc : jsstr) : jsstr :=
  let acc' := (48 + n mod 10)%N :: acc in
  match fuel with
  | O => acc'
  | S fuel' => if (n / 10 =? 0)%N then acc' else show_go fuel' (n / 10)%N acc'
  end.
Definition show_dec (n : N) : jsstr := show_go (N.size_nat n) n [].

(** [/^\d+$/] *)
Definition all_digits (s : jsstr) : bool := truthy s && forallb is_digit s.

Lemma show_go_digits fuel n acc :
  forallb is_digit acc = true ->
  exists d, show_go fuel n acc = d ++ acc /\ d <> [] /\ forallb is_digit d = true.
Proof.
  assert (Hd : forall m, is_digit (48 + m mod 10) = true).
  { intros m. pose proof (N.mod_lt m 10 ltac:(done)) as H. unfold is_digit.
    revert H. generalize (m mod 10)%N as k. intros k H.
    apply andb_true_iff; split; apply N.leb_le; lia. }
  revert n acc; induction fuel as [|fuel IH]; intros n acc Ha; cbn [show_go].
  { exists [(48 + n mod 10)%N]. cbn [forallb app]. by rewrite Hd. }
  destruct (n / 10 =? 0)%N.
  { exists [(48 + n mod 10)%N]. cbn [forallb app]. by rewrite Hd. }
  destruct (IH (n / 10)%N ((48 + n mod 10)%N :: acc)) as (d & -> & Hne & Hf).
  { cbn [forallb]. by rewrite Hd, Ha. }
  exists (d ++ [(48 + n mod 10)%N]). split_and!.
  - by rewrite <- app_assoc.
  - by destruct d.
  - rewrite forallb_app, Hf. cbn [forallb]. by rewrite Hd.
Qed.

Lemma show_dec_all_digits n : all_digits (show_dec n) = true.
Proof.
  unfold show_dec. destruct (show_go_digits (N.size_nat n) n []) as (d & -> & Hne & Hf); [done|].
  rewrite app_nil_r. unfold all_digits. rewrite Hf. by destruct d.
Qed.

Lemma size_nat_bound n : (n < 2 ^ N.of_nat (N.size_nat n))%N.
Proof.
  destruct n as [|p]; [done|]. simpl. induction p as [p IH|p IH|]; simpl Pos.size_nat; try done;
    rewrite Nat2N.inj_succ, N.pow_succ_r'; lia.
Qed.

Lemma show_go_parse fuel n acc :
  (n < 2 ^ N.of_nat fuel)%N ->
  foldl dec_step 0%N (show_go fuel n acc) = foldl dec_step n acc.
Proof.
  revert n acc; induction fuel as [|fuel IH]; intros n acc Hn; cbn [show_go].
  { assert (n = 0)%N as -> by (simpl in Hn; lia). done. }
  destruct (n / 10 =? 0)%N eqn:E; bool_to_prop.
  - cbn [foldl]. f_equal. unfold dec_step.
    pose proof (N.div_mod' n 10) as H. rewrite E in H. revert H.
    generalize (n mod 10)%N. lia.
  - rewrite IH.
    + cbn [foldl]. f_equal. unfold dec_step. pose proof (N.div_mod' n 10) as H. revert H.
    generalize (n / 10)%N (n mod 10)%N. lia.
    + rewrite Nat2N.inj_succ, N.pow_succ_r' in Hn. apply N.Div0.div_lt_upper_bound. lia.
Qed.

Lemma parse_show_dec n : parse_dec (show_dec n) = n.
Proof. apply show_go_parse, size_nat_bound. Qed.

Lemma all_digits_elem_of s c : all_digits s = true -> c ∈ s -> is_digit c = true.
Proof.
  unfold all_digits. intros H Hc. bool_to_prop.
  rewrite forallb_forall in H0. by apply H0, list_elem_of_In.
Qed.

Lemma is_digit_not_space c : is_digit c = true -> is_space c = false.
Proof.
  unfold is_digit. intros H. bool_to_prop.
  assert (c ∈ [48;49;50;51;52;53;54;55;56;57])%N as Hc by (rewrite !elem_of_cons; lia).
  rewrite !elem_of_cons in Hc. repeat destruct Hc as [->|Hc]; done || set_solver.
Qed.

#[export] Hint Resolve show_dec_all_digits is_digit_not_space : js.
#[export] Hint Rewrite parse_show_dec : js_rw.
