(* ===== verification/StatusCodeRules.v ===== *)
(** * HTTP status code rules (web/src/lib/http-status-code-rules.ts)

    The parser behind the automatic-disable and automatic-retry settings: a
    comma separated list of codes and ranges is parsed, sorted, merged and
    printed back in a normal form.  The file models the parser, its token
    reader and the merge, and shows that the merge keeps exactly the codes of
    the tokens, that the normal form is canonical and that parsing it again
    gives the same result. *)

From S2P Require Import Prelude.

Local Open Scope N_scope.

(** ** Data *)

Record StatusCodeRange := Range { start : N; end_ : N }.

#[export] Instance StatusCodeRange_eq_dec : EqDecision StatusCodeRange.
Proof. solve_decision. Defined.

Record ParsedHttpStatusCodeRules := Parsed {
  ok : bool;
  ranges : list StatusCodeRange;
  tokens : list jsstr;
  normalized : jsstr;
  invalidTokens : list jsstr
}.

(** ** Operations *)

(** [isNumber]: a non-empty string of ASCII digits. *)
Definition isNumber (s : jsstr) : bool := all_digits s.

(** [isValidCode].  [Number.isFinite] holds of every result of [parseInt] on
    a string of digits shorter than 309 characters; a longer one parses to a
    number above 599 or to [Infinity], and both are refused, as here. *)
Definition isValidCode (code : N) : bool := (100 <=? code) && (code <=? 599).

(** [cleaned.split('-')] destructured as [[a, b]]: further parts are dropped. *)
Definition parseToken (token : jsstr) : option StatusCodeRange :=
  let cleaned := filter (fun c => is_space c = false) (trim token) in
  if negb (truthy cleaned) then None
  else if includes (js "-") cleaned then
    match split 45 cleaned with
    | a :: b :: _ =>
        if negb (isNumber a) || negb (isNumber b) then None
        else
          let s := parse_dec a in
          let e := parse_dec b in
          if negb (isValidCode s) || negb (isValidCode e) || (e <? s) then None
          else Some (Range s e)
    | _ => None
    end
  else if negb (isNumber cleaned) then None
  else
    let code := parse_dec cleaned in
    if negb (isValidCode code) then None else Some (Range code code).

(** The comparator of [sort]: by start, then by end. *)
Definition range_le (a b : StatusCodeRange) : Prop :=
  start a < start b \/ start a = start b /\ end_ a <= end_ b.

#[export] Instance range_le_dec : RelDecision range_le.
Proof. intros a b. unfold range_le. apply _. Defined.

(** One step of the [reduce]; the accumulator is kept last element first, so
    that [merged.at(-1)] is its head. *)
Definition merge_step (merged : list StatusCodeRange) (current : StatusCodeRange) :
    list StatusCodeRange :=
  match merged with
  | [] => [current]
  | last :: rest =>
      if end_ last + 1 <? start current then current :: last :: rest
      else Range (start last) (N.max (end_ last) (end_ current)) :: rest
  end.

Definition mergeRanges (rs : list StatusCodeRange) : list StatusCodeRange :=
  reverse (foldl merge_step [] (merge_sort range_le rs)).

(** The token of a range in the normal form. *)
Definition showRange (r : StatusCodeRange) : jsstr :=
  if start r =? end_ r then show_dec (start r)
  else show_dec (start r) ++ js "-" ++ show_dec (end_ r).

(** [replaceAll(/[，]/g, ',')], the full-width comma U+FF0C. *)
Definition sanitize (raw : jsstr) : jsstr :=
  (fun c => if c =? 65292 then 44 else c) <$> raw.

Definition segments (raw : jsstr) : list jsstr :=
  filter (fun s => truthy s = true) (trim <$> split 44 (sanitize raw)).

(** The loop over the segments: the parsed ranges and the tokens refused. *)
Fixpoint parseSegments (segs : list jsstr) : list StatusCodeRange * list jsstr :=
  match segs with
  | [] => ([], [])
  | seg :: segs' =>
      let '(rs, bad) := parseSegments segs' in
      match parseToken seg with
      | None => (rs, seg :: bad)
      | Some r => (r :: rs, bad)
      end
  end.

(** [input] is [None] for [null] and [undefined]; any other value enters as
    its [toString()]. *)
Definition parseHttpStatusCodeRules (input : option jsstr) : ParsedHttpStatusCodeRules :=
  let raw := trim (default [] input) in
  if negb (truthy raw) then Parsed true [] [] [] []
  else
    let '(rs, bad) := parseSegments (segments raw) in
    match bad with
    | _ :: _ => Parsed false [] [] raw bad
    | [] =>
        let merged := mergeRanges rs in
        let toks := showRange <$> merged in
        Parsed true merged toks (join (js ",") toks) []
    end.

(** ** Specification *)

(** A code is matched by a range, and by a list of ranges. *)
Definition covers (r : StatusCodeRange) (c : N) : Prop := start r <= c <= end_ r.
Definition covered (rs : list StatusCodeRange) (c : N) : Prop := Exists (fun r => covers r c) rs.

Definition valid_range (r : StatusCodeRange) : Prop :=
  100 <= start r /\ start r <= end_ r /\ end_ r <= 599.

(** Ranges in increasing order with at least one unmatched code between two
    neighbours. *)
Definition apart (a b : StatusCodeRange) : Prop := end_ a + 1 < start b.
Definition canonical (rs : list StatusCodeRange) : Prop :=
  Forall valid_range rs /\ StronglySorted apart rs.

(** ** The order of the sort *)

#[export] Instance range_le_trans : Transitive range_le.
Proof. intros a b c. unfold range_le. lia. Qed.

#[export] Instance range_le_total : Total range_le.
Proof. intros a b. unfold range_le. lia. Qed.

#[export] Instance range_le_antisym : AntiSymm eq range_le.
Proof. intros [s1 e1] [s2 e2]. unfold range_le; simpl. intros H1 H2. f_equal; lia. Qed.

(** ** Token reader *)

Lemma isValidCode_spec c : isValidCode c = true <-> 100 <= c <= 599.
Proof. unfold isValidCode. rewrite andb_true_iff, !N.leb_le. done. Qed.

Lemma parseToken_valid t r : parseToken t = Some r -> valid_range r.
Proof.
  unfold parseToken, valid_range. intros H. split_cases; rewrite ?isValidCode_spec in *; simpl; lia.
Qed.

Lemma Forall_parseSegments segs rs bad :
  parseSegments segs = (rs, bad) -> Forall valid_range rs.
Proof.
  revert rs bad; induction segs as [|seg segs IH]; simpl; intros rs bad H; simplify_eq; [done|].
  destruct (parseSegments segs) as [rs' bad']. specialize (IH _ _ eq_refl).
  case_match eqn:E; simplify_eq; [constructor; eauto using parseToken_valid|done].
Qed.

(** ** The merge *)

Lemma covered_cons r rs c : covered (r :: rs) c <-> covers r c \/ covered rs c.
Proof. apply Exists_cons. Qed.

Lemma covered_nil c : covered [] c <-> False.
Proof. apply Exists_nil. Qed.

Lemma covered_perm rs rs' c : rs ≡ₚ rs' -> covered rs c <-> covered rs' c.
Proof. unfold covered. by intros ->. Qed.

(** What the accumulator of the fold satisfies with respect to what is left of
    the sorted list. *)
Definition merge_inv (acc todo : list StatusCodeRange) : Prop :=
  Forall valid_range acc /\ StronglySorted (flip apart) acc
  /\ match acc with
     | [] => True
     | last :: _ => Forall (fun r => start last <= start r) todo
     end.

Lemma merge_step_inv acc r todo :
  Forall valid_range (r :: todo) -> StronglySorted range_le (r :: todo) ->
  merge_inv acc (r :: todo) -> merge_inv (merge_step acc r) todo.
Proof.
  intros Hv Hs (Ha & Hss & Hl). apply Forall_cons in Hv as [Hr Hv].
  inversion Hs as [|? ? Hs' Hle]; subst.
  assert (Hmin : forall m, m <= start r -> Forall (fun r' => m <= start r') todo).
  { intros m Hm. eapply Forall_impl; [exact Hle|]. intros x Hx. unfold range_le in Hx. simpl in Hx. lia. }
  destruct acc as [|last rest]; simpl.
  { split_and!; [by constructor|repeat constructor|by apply Hmin]. }
  apply Forall_cons in Ha as [Hlast Hrest]. apply Forall_cons in Hl as [Hl _].
  inversion Hss as [|? ? Hss' Hap]; subst. unfold valid_range in *.
  destruct (end_ last + 1 <? start r) eqn:E.
  - apply N.ltb_lt in E. split_and!; [by constructor; [|constructor]| |by apply Hmin].
    constructor; [done|]. constructor; [done|].
    eapply Forall_impl; [exact Hap|]. unfold apart; simpl. intros x Hx. lia.
  - apply N.ltb_ge in E. split_and!; [constructor; [unfold valid_range; simpl; lia|done]| |apply Hmin; simpl; lia].
    constructor; [done|]. eapply Forall_impl; [exact Hap|]. unfold apart. simpl. done.
Qed.

Lemma merge_step_covered acc r todo c :
  valid_range r -> merge_inv acc (r :: todo) ->
  covered (merge_step acc r) c <-> covers r c \/ covered acc c.
Proof.
  intros Hr (Ha & _ & Hl). destruct acc as [|last rest]; simpl.
  { by rewrite covered_cons. }
  apply Forall_cons in Ha as [Hlast _]. apply Forall_cons in Hl as [Hl _].
  destruct (end_ last + 1 <? start r) eqn:E; [by rewrite covered_cons|].
  apply N.ltb_ge in E. rewrite !covered_cons. unfold covers, valid_range in *; simpl.
  split; [|tauto || (intros [?|[?|?]]; [left; lia|left; lia|by right])].
  intros [H|H]; [|by auto]. destruct (decide (c <= end_ last)); [right; left; lia|left; lia].
Qed.

Lemma merge_fold todo : forall acc,
  Forall valid_range todo -> StronglySorted range_le todo -> merge_inv acc todo ->
  merge_inv (foldl merge_step acc todo) []
  /\ forall c, covered (foldl merge_step acc todo) c <-> covered acc c \/ covered todo c.
Proof.
  induction todo as [|r todo IH]; intros acc Hv Hs Hi; simpl.
  { split; [|intros c; rewrite covered_nil; tauto].
    destruct Hi as (? & ? & _). split_and!; [done|done|by case_match]. }
  pose proof (merge_step_inv _ _ _ Hv Hs Hi) as Hi'.
  apply Forall_cons in Hv as [Hr Hv]. inversion Hs; subst.
  destruct (IH (merge_step acc r)) as [IH1 IH2]; [done..|]. split; [done|].
  intros c. rewrite IH2, (merge_step_covered _ _ todo), covered_cons by done. tauto.
Qed.

Lemma sorted_merge_sort rs : StronglySorted range_le (merge_sort range_le rs).
Proof. apply StronglySorted_merge_sort; apply _. Qed.

Lemma Forall_valid_sorted rs :
  Forall valid_range rs -> Forall valid_range (merge_sort range_le rs).
Proof. intros H. by rewrite (merge_sort_Permutation range_le rs). Qed.

#[export] Hint Resolve sorted_merge_sort Forall_valid_sorted : js.

Lemma StronglySorted_reverse {A} (R : A -> A -> Prop) l :
  StronglySorted (flip R) l -> StronglySorted R (reverse l).
Proof.
  induction 1 as [|x l Hs IH Hf]; [constructor|]. rewrite reverse_cons.
  assert (Hr : Forall (fun y => R y x) (reverse l)) by (by apply Forall_reverse).
  clear Hs Hf. induction IH as [|y m Hs IH Hf]; simpl; [repeat constructor|].
  apply Forall_cons in Hr as [Hy Hr]. constructor; [by apply IH|].
  apply Forall_app. split; [done|by constructor].
Qed.

Lemma mergeRanges_spec rs :
  Forall valid_range rs ->
  canonical (mergeRanges rs) /\ forall c, covered (mergeRanges rs) c <-> covered rs c.
Proof.
  intros Hv. unfold mergeRanges.
  destruct (merge_fold (merge_sort range_le rs) []) as [(H1 & H2 & _) Hc];
    [auto with js..|by split_and!; repeat constructor|].
  split; [split; [by apply Forall_reverse|by apply StronglySorted_reverse]|].
  intros c. rewrite (covered_perm _ _ _ (reverse_Permutation _)), Hc, covered_nil.
  rewrite (covered_perm _ _ _ (merge_sort_Permutation range_le rs)). tauto.
Qed.

(** ** Canonical lists are normal forms *)

Lemma canonical_cons r rs : canonical (r :: rs) <-> valid_range r /\ Forall (apart r) rs /\ canonical rs.
Proof.
  unfold canonical. rewrite Forall_cons. split.
  - intros [[? ?] Hs]. by inversion Hs.
  - intros (? & ? & ? & ?). split; [done|by constructor].
Qed.

Lemma covered_apart r rs c : Forall (apart r) rs -> covered rs c -> end_ r + 1 < c.
Proof.
  unfold covered. rewrite Forall_forall, Exists_exists.
  intros H (x & Hx & Hc). specialize (H _ Hx). unfold apart, covers in *. lia.
Qed.

Lemma canonical_head_eq r1 rs1 r2 rs2 :
  canonical (r1 :: rs1) -> canonical (r2 :: rs2) ->
  (forall c, covered (r1 :: rs1) c -> covered (r2 :: rs2) c) ->
  start r2 <= start r1 /\ (start r1 = start r2 -> end_ r1 <= end_ r2).
Proof.
  rewrite !canonical_cons. intros (V1 & A1 & _) (V2 & A2 & _) H.
  unfold valid_range in *. split.
  - assert (Hc : covered (r2 :: rs2) (start r1)).
    { apply H, covered_cons. left. unfold covers. lia. }
    apply covered_cons in Hc as [Hc|Hc]; [unfold covers in Hc; lia|].
    apply (covered_apart _ _ _ A2) in Hc. lia.
  - intros E. destruct (decide (end_ r1 <= end_ r2)); [done|exfalso].
    assert (Hc : covered (r2 :: rs2) (end_ r2 + 1)).
    { apply H, covered_cons. left. unfold covers. lia. }
    apply covered_cons in Hc as [Hc|Hc]; [unfold covers in Hc; lia|].
    apply (covered_apart _ _ _ A2) in Hc. lia.
Qed.

Lemma canonical_ext rs1 rs2 :
  canonical rs1 -> canonical rs2 ->
  (forall c, covered rs1 c <-> covered rs2 c) -> rs1 = rs2.
Proof.
  assert (Hhd : forall r rs, canonical (r :: rs) -> covered (r :: rs) (start r)).
  { intros r rs ((? & ? & ?) & _)%canonical_cons. apply covered_cons. left. unfold covers. lia. }
  revert rs2; induction rs1 as [|r1 rs1 IH]; intros [|r2 rs2] H1 H2 H; [done| | |].
  - exfalso. eapply covered_nil, H, Hhd, H2.
  - exfalso. eapply covered_nil, H, Hhd, H1.
  - destruct (canonical_head_eq _ _ _ _ H1 H2) as [Ha Hb]; [by intros c; apply H|].
    destruct (canonical_head_eq _ _ _ _ H2 H1) as [Ha' Hb']; [by intros c; apply H|].
    assert (r1 = r2) as -> by (destruct r1, r2; simpl in *; f_equal; lia). f_equal.
    apply canonical_cons in H1 as (V1 & A1 & C1). apply canonical_cons in H2 as (_ & A2 & C2).
    apply IH; [done..|]. intros c. specialize (H c). rewrite !covered_cons in H.
    split; intros Hc.
    + destruct (proj1 H (or_intror Hc)) as [Hr|]; [|done].
      apply (covered_apart _ _ _ A1) in Hc. unfold covers in Hr. lia.
    + destruct (proj2 H (or_intror Hc)) as [Hr|]; [|done].
      apply (covered_apart _ _ _ A2) in Hc. unfold covers in Hr. lia.
Qed.

Lemma mergeRanges_canonical_id rs : canonical rs -> mergeRanges rs = rs.
Proof.
  intros H. destruct (mergeRanges_spec rs) as [Hc Hcov]; [by destruct H|].
  by apply canonical_ext.
Qed.

(** ** Reading the normal form back *)

Lemma parseSegments_eq segs :
  parseSegments segs = (omap parseToken segs, filter (fun s => parseToken s = None) segs).
Proof.
  induction segs as [|seg segs IH]; simpl; [done|]. rewrite IH.
  destruct (parseToken seg) eqn:E.
  - by rewrite filter_cons_False by congruence.
  - by rewrite filter_cons_True.
Qed.

(** Strings made of digits and [-] only, what the tokens of a normal form are. *)
Definition token_char (c : N) : bool := is_digit c || (c =? 45).

Lemma token_char_not_space c : token_char c = true -> is_space c = false.
Proof.
  unfold token_char. intros [H|H]%orb_true_iff; [by apply is_digit_not_space|].
  bool_to_prop. by subst.
Qed.

Lemma digits_token_chars s : all_digits s = true -> Forall (fun c => token_char c = true) s.
Proof.
  intros H. apply Forall_forall. intros c Hc. unfold token_char.
  by rewrite (all_digits_elem_of _ _ H Hc).
Qed.

Lemma no_space_filter s :
  Forall (fun c => token_char c = true) s -> filter (fun c => is_space c = false) s = s.
Proof. induction 1; [done|]. rewrite filter_cons_True by auto using token_char_not_space. by f_equal. Qed.

Lemma no_space_trimmed s : Forall (fun c => token_char c = true) s -> trimmed s.
Proof.
  assert (Hn : forall s, Forall (fun c => token_char c = true) s -> no_lead s).
  { intros t Ht. destruct Ht; simpl; auto using token_char_not_space. }
  intros H. split; apply Hn; [done|by apply Forall_reverse].
Qed.

Lemma show_dec_chars n : Forall (fun c => token_char c = true) (show_dec n).
Proof. apply digits_token_chars, show_dec_all_digits. Qed.

Lemma showRange_chars r : Forall (fun c => token_char c = true) (showRange r).
Proof.
  unfold showRange. case_match; [apply show_dec_chars|].
  rewrite !Forall_app. split_and!; [apply show_dec_chars|by repeat constructor|apply show_dec_chars].
Qed.

Lemma show_dec_no_dash n : 45 ∉ show_dec n.
Proof. intros H. by apply (all_digits_elem_of _ _ (show_dec_all_digits n)) in H. Qed.

Lemma show_dec_nonempty n : show_dec n <> [].
Proof. pose proof (show_dec_all_digits n) as H. intros E. by rewrite E in H. Qed.

#[export] Hint Resolve showRange_chars show_dec_chars show_dec_no_dash show_dec_nonempty : js.

Lemma includes_dash s : includes (js "-") s = true <-> 45 ∈ s.
Proof.
  rewrite includes_spec. split.
  - intros (a & b & ->). set_solver.
  - intros (a & b & ->)%list_elem_of_split. by exists a, b.
Qed.

Lemma showRange_nonempty r : showRange r <> [].
Proof.
  unfold showRange. pose proof (show_dec_nonempty (start r)). case_match; [done|].
  by destruct (show_dec (start r)).
Qed.

(** The token of a valid range reads back as that range. *)
Lemma parseToken_showRange r : valid_range r -> parseToken (showRange r) = Some r.
Proof.
  intros Hv. destruct r as [s e]. unfold valid_range in Hv; simpl in Hv.
  assert (Hs : isValidCode s = true) by (apply isValidCode_spec; lia).
  assert (He : isValidCode e = true) by (apply isValidCode_spec; lia).
  unfold parseToken. rewrite trimmed_trim, no_space_filter by auto using no_space_trimmed with js.
  rewrite (proj2 (truthy_true _)) by apply showRange_nonempty. simpl negb. cbv iota.
  unfold showRange; simpl. destruct (s =? e) eqn:E; bool_to_prop.
  - subst. destruct (includes (js "-") (show_dec e)) eqn:Ei.
    { apply includes_dash in Ei. by apply show_dec_no_dash in Ei. }
    unfold isNumber. by rewrite show_dec_all_digits, parse_show_dec, He.
  - rewrite (proj2 (includes_dash _)) by set_solver.
    change (js "-" ++ show_dec e) with (45 :: show_dec e).
    rewrite split_cons, split_single by auto with js. unfold isNumber.
    rewrite !show_dec_all_digits, !parse_show_dec, Hs, He. simpl.
    by rewrite (proj2 (N.ltb_ge e s)) by lia.
Qed.

Lemma token_char_ne c s : token_char c = false -> Forall (fun c => token_char c = true) s -> c ∉ s.
Proof. rewrite Forall_forall. intros Hc Hs Hin. apply Hs in Hin. congruence. Qed.

Lemma join_chars (P : N -> Prop) sep toks :
  Forall P sep -> Forall (Forall P) toks -> Forall P (join sep toks).
Proof.
  intros Hs. induction 1 as [|t toks Ht Hts IH]; simpl; [done|].
  destruct toks; [done|]. by rewrite !Forall_app.
Qed.

Lemma join_trimmed toks :
  toks <> [] -> Forall (fun t => t <> [] /\ Forall (fun c => token_char c = true) t) toks ->
  trimmed (join (js ",") toks) /\ join (js ",") toks <> [].
Proof.
  intros Hne Hf. set (P c := is_space c = false).
  assert (Hall : Forall P (join (js ",") toks)).
  { apply join_chars; [by repeat constructor|]. eapply Forall_impl; [exact Hf|].
    intros t [_ Ht]. eapply Forall_impl; [exact Ht|]. apply token_char_not_space. }
  assert (Hn : forall s, Forall P s -> no_lead s) by (intros ? []; done).
  split; [split; apply Hn; [done|by apply Forall_reverse]|].
  destruct Hf as [|t toks [Ht _] Hf]; [done|]. simpl. destruct toks; [done|]. by destruct t.
Qed.

(** The segments of a normal form are its tokens. *)
Lemma segments_join toks :
  toks <> [] -> Forall (fun t => t <> [] /\ Forall (fun c => token_char c = true) t) toks ->
  segments (join (js ",") toks) = toks.
Proof.
  intros Hne Hf. unfold segments, sanitize.
  assert (Hid : (fun c => if c =? 65292 then 44 else c) <$> join (js ",") toks = join (js ",") toks).
  { rewrite <- (list_fmap_id (join (js ",") toks)) at 2. apply list_fmap_ext.
    intros i c Hc. apply list_elem_of_lookup_2 in Hc.
    assert (Forall (fun c => c <> 65292) (join (js ",") toks)) as Hall.
    { apply join_chars; [by repeat constructor|]. eapply Forall_impl; [exact Hf|].
      intros t [_ Ht]. eapply Forall_impl; [exact Ht|]. by intros x Hx ->. }
    rewrite Forall_forall in Hall. simpl. rewrite (proj2 (N.eqb_neq _ _)); auto. }
  rewrite Hid. change (js ",") with [44]. rewrite split_join; [|done|].
  - clear Hid Hne. induction Hf as [|t toks [Hn Ht] Hf IH]; [done|]. rewrite fmap_cons.
    rewrite trimmed_trim by auto using no_space_trimmed.
    rewrite filter_cons_True by (by apply truthy_true). by f_equal.
  - eapply Forall_impl; [exact Hf|]. intros t [_ Ht]. by apply token_char_ne.
Qed.

Lemma showRange_tokens rs :
  Forall (fun t => t <> [] /\ Forall (fun c => token_char c = true) t) (showRange <$> rs).
Proof. apply Forall_fmap, Forall_true. intros r. split; [apply showRange_nonempty|apply showRange_chars]. Qed.

Lemma omap_parseToken_showRange rs :
  Forall valid_range rs ->
  omap parseToken (showRange <$> rs) = rs
  /\ filter (fun s => parseToken s = None) (showRange <$> rs) = [].
Proof.
  induction 1 as [|r rs Hr _ [IH1 IH2]]; [done|]. cbn [fmap list_fmap omap list_omap].
  rewrite (parseToken_showRange _ Hr). rewrite filter_cons_False by (by rewrite parseToken_showRange).
  split; [by f_equal|done].
Qed.

(** The result of parsing a canonical list that was printed. *)
Lemma parse_normal_form rs :
  canonical rs ->
  parseHttpStatusCodeRules (Some (join (js ",") (showRange <$> rs)))
  = Parsed true rs (showRange <$> rs) (join (js ",") (showRange <$> rs)) [].
Proof.
  intros Hc. destruct (decide (rs = [])) as [->|Hne]; [done|].
  assert (Hne' : showRange <$> rs <> []) by (by destruct rs).
  pose proof (showRange_tokens rs) as Ht.
  destruct (join_trimmed _ Hne' Ht) as [Htr Hj].
  unfold parseHttpStatusCodeRules. simpl default. rewrite (trimmed_trim _ Htr).
  rewrite (proj2 (truthy_true _) Hj). simpl negb. cbv iota.
  rewrite segments_join, parseSegments_eq by done.
  destruct (omap_parseToken_showRange rs) as [-> ->]; [by destruct Hc|].
  by rewrite mergeRanges_canonical_id.
Qed.

Lemma parse_ok_inv i :
  ok (parseHttpStatusCodeRules i) = true ->
  exists rs, Forall valid_range rs
    /\ rs = omap parseToken (segments (trim (default [] i)))
    /\ parseHttpStatusCodeRules i
       = Parsed true (mergeRanges rs) (showRange <$> mergeRanges rs)
           (join (js ",") (showRange <$> mergeRanges rs)) [].
Proof.
  unfold parseHttpStatusCodeRules. destruct (truthy _) eqn:E; simpl negb; cbv iota.
  - destruct (parseSegments (segments (trim (default [] i)))) as [rs bad] eqn:Es.
    pose proof (Forall_parseSegments _ _ _ Es) as Hv. rewrite parseSegments_eq in Es.
    simplify_eq. destruct (filter _ _); [|done]. intros _. eauto.
  - intros _. exists []. split_and!; [done| |done].
    apply truthy_false in E. by rewrite E.
Qed.

(** ** Properties *)

(** C26: When a rule text is accepted, the normalised ranges match exactly the
    status codes matched by the tokens the user wrote: sorting and merging
    neither lose nor add a code. *)
Theorem parse_covers_tokens i :
  ok (parseHttpStatusCodeRules i) = true ->
  forall c, covered (ranges (parseHttpStatusCodeRules i)) c
    <-> exists seg r, seg ∈ segments (trim (default [] i)) /\ parseToken seg = Some r /\ covers r c.
Proof.
  intros (rs & Hv & Hrs & ->)%parse_ok_inv c. simpl. rewrite (proj2 (mergeRanges_spec _ Hv)).
  unfold covered. rewrite Exists_exists. subst rs. setoid_rewrite list_elem_of_omap. naive_solver.
Qed.

Lemma parse_covers_tokens_witness :
  covered (ranges (parseHttpStatusCodeRules (Some (js "500, 400-404 ,403-410")))) 405.
Proof.
  apply parse_covers_tokens; [vm_compute; reflexivity|].
  exists (js "403-410"), (Range 403 410). split_and!; [|vm_compute; reflexivity|split; vm_compute; congruence].
  vm_compute. apply elem_of_cons; right. apply elem_of_cons; right. by apply list_elem_of_singleton.
Defined.

(** Whatever the input, the ranges returned are inside 100..599, in
    increasing order, and separated by at least one code that no range
    matches. *)
Theorem parse_ranges_canonical i : canonical (ranges (parseHttpStatusCodeRules i)).
Proof.
  destruct (ok (parseHttpStatusCodeRules i)) eqn:E.
  - destruct (parse_ok_inv _ E) as (rs & Hv & _ & ->). by apply mergeRanges_spec.
  - unfold parseHttpStatusCodeRules in *. split_cases; split; constructor.
Qed.

(** Parsing the normal form of an accepted text gives back the very same
    result: ranges, tokens and normal form are fixed points. *)
Theorem parse_normalized_roundtrip i :
  ok (parseHttpStatusCodeRules i) = true ->
  parseHttpStatusCodeRules (Some (normalized (parseHttpStatusCodeRules i)))
  = parseHttpStatusCodeRules i.
Proof.
  intros (rs & Hv & _ & ->)%parse_ok_inv. simpl.
  apply parse_normal_form. by apply mergeRanges_spec.
Qed.

Lemma parse_normalized_roundtrip_witness :
  parseHttpStatusCodeRules (Some (js "400-404,500,502-503"))
  = parseHttpStatusCodeRules (Some (js "502, 503 ,400-402,403-404,500")).
Proof.
  apply (parse_normalized_roundtrip (Some (js "502, 503 ,400-402,403-404,500"))).
  vm_compute; reflexivity.
Defined.

(** The normal form decides equality of rules: two accepted texts have the
    same normal form exactly when they match the same status codes. *)
Theorem normalized_eq_iff_same_codes i j :
  ok (parseHttpStatusCodeRules i) = true -> ok (parseHttpStatusCodeRules j) = true ->
  normalized (parseHttpStatusCodeRules i) = normalized (parseHttpStatusCodeRules j)
  <-> forall c, covered (ranges (parseHttpStatusCodeRules i)) c
                <-> covered (ranges (parseHttpStatusCodeRules j)) c.
Proof.
  intros (rs & Hv & _ & ->)%parse_ok_inv (rs' & Hv' & _ & ->)%parse_ok_inv. simpl.
  destruct (mergeRanges_spec rs Hv) as [Hc _], (mergeRanges_spec rs' Hv') as [Hc' _]. split.
  - intros E. apply parse_normal_form in Hc, Hc'. rewrite E, Hc' in Hc. by injection Hc as ->.
  - intros H. by rewrite (canonical_ext _ _ Hc Hc' H).
Qed.

Lemma normalized_eq_iff_same_codes_witness :
  normalized (parseHttpStatusCodeRules (Some (js "401,402,400")))
  = normalized (parseHttpStatusCodeRules (Some (js "400-402")))
  <-> forall c, covered (ranges (parseHttpStatusCodeRules (Some (js "401,402,400")))) c
                <-> covered (ranges (parseHttpStatusCodeRules (Some (js "400-402")))) c.
Proof. apply normalized_eq_iff_same_codes; vm_compute; reflexivity. Defined.

(** A text is refused exactly when one of its segments is not a code or a
    range inside 100..599; then no range is returned, the text is kept as it
    was written (trimmed) and the refused segments are listed in order. *)
Theorem parse_error_behaviour i :
  let raw := trim (default [] i) in
  let bad := filter (fun s => parseToken s = None) (segments raw) in
  (ok (parseHttpStatusCodeRules i) = false <-> bad <> [])
  /\ (bad <> [] -> parseHttpStatusCodeRules i = Parsed false [] [] raw bad).
Proof.
  intros raw bad. unfold parseHttpStatusCodeRules. fold raw.
  destruct (truthy raw) eqn:E; simpl negb; cbv iota.
  - rewrite parseSegments_eq. fold bad. destruct bad; simpl; naive_solver.
  - apply truthy_false in E. assert (bad = []) as -> by (unfold bad; by rewrite E). naive_solver.
Qed.

(** The token reader takes the first two parts of a token with several dashes
    and ignores the rest. *)
Lemma parseToken_drops_third_part :
  parseToken (js "400-410-999") = Some (Range 400 410).
Proof. vm_compute; reflexivity. Qed.
