(* ===== verification/JsValue.v ===== *)
(** * JavaScript numbers and unknown values

    A JavaScript number is an IEEE 754 binary64 value, modelled by the
    Standard Library's [spec_float], whose operations are executable and use
    no axiom.  A value of type [unknown] in the source, for instance the body
    of a response, is a [jsval].  The file holds the operators of the language
    the client uses on both: comparison, [Number.isInteger], [Math.max],
    [Math.trunc], [typeof] tests and property reads. *)

From Stdlib Require Import SpecFloat.
From S2P Require Import Prelude.

Local Open Scope Z_scope.

(** ** Numbers *)

Abbreviation jsnum := spec_float.

#[export] Instance jsnum_eq_dec : EqDecision jsnum.
Proof. solve_decision. Defined.

(** The number written as an integer literal. *)
Definition num (z : Z) : jsnum := binary_normalize 53 1024 z 0 false.

Definition num_lt (a b : jsnum) : bool := SFltb a b.
Definition num_le (a b : jsnum) : bool := SFleb a b.
(** [a === b] on numbers: false on [NaN], true on [0] and [-0]. *)
Definition num_eqb (a b : jsnum) : bool := SFeqb a b.

Definition num_add (a b : jsnum) : jsnum := SFadd 53 1024 a b.
Definition num_sub (a b : jsnum) : jsnum := SFsub 53 1024 a b.
Definition num_div (a b : jsnum) : jsnum := SFdiv 53 1024 a b.

(** [Number.isFinite] *)
Definition is_finite (n : jsnum) : bool :=
  match n with
  | S754_zero _ | S754_finite _ _ _ => true
  | _ => false
  end.

(** [Number.isInteger] *)
Definition is_integer (n : jsnum) : bool :=
  match n with
  | S754_zero _ => true
  | S754_finite _ m e => (0 <=? e) || (Zpos m mod 2 ^ (- e) =? 0)
  | _ => false
  end.

(** Truthiness of a number. *)
Definition num_truthy (n : jsnum) : bool :=
  match n with
  | S754_zero _ | S754_nan => false
  | _ => true
  end.

(** [Math.max(a, b)]: [NaN] is contagious and [0] is above [-0]. *)
Definition math_max (a b : jsnum) : jsnum :=
  match a, b with
  | S754_nan, _ => S754_nan
  | _, S754_nan => S754_nan
  | S754_zero sa, S754_zero sb => S754_zero (sa && sb)
  | _, _ => if num_lt a b then b else a
  end.

(** [Math.abs(a)] *)
Definition math_abs (a : jsnum) : jsnum := SFabs a.

(** Rounding to an integer: [q] is the integer part of the magnitude and
    [exact] tells that nothing was dropped. *)
Definition int_part (m : positive) (e : Z) : Z * bool :=
  if 0 <=? e then (Zpos m * 2 ^ e, true)
  else (Zpos m / 2 ^ (- e), Zpos m mod 2 ^ (- e) =? 0).

Definition signed (s : bool) (q : Z) : jsnum :=
  if q =? 0 then S754_zero s
  else binary_normalize 53 1024 (if s then - q else q) 0 s.

Definition math_trunc (n : jsnum) : jsnum :=
  match n with
  | S754_finite s m e => if 0 <=? e then n else signed s (fst (int_part m e))
  | _ => n
  end.

Definition math_floor (n : jsnum) : jsnum :=
  match n with
  | S754_finite s m e =>
      if 0 <=? e then n
      else let '(q, exact) := int_part m e in
           signed s (if s && negb exact then q + 1 else q)
  | _ => n
  end.

Definition math_ceil (n : jsnum) : jsnum :=
  match n with
  | S754_finite s m e =>
      if 0 <=? e then n
      else let '(q, exact) := int_part m e in
           signed s (if negb s && negb exact then q + 1 else q)
  | _ => n
  end.

(** ** Unknown values *)

Inductive jsval :=
| JUndefined
| JNull
| JBool (b : bool)
| JNumber (n : jsnum)
| JString (s : jsstr)
| JArray (l : list jsval)
| JObject (fields : list (jsstr * jsval)).

(** [Boolean(v) && typeof v === 'object']: objects and arrays. *)
Definition isRecord (v : jsval) : bool :=
  match v with JArray _ | JObject _ => true | _ => false end.

(** [v.key] on a value that is not [null] or [undefined].  Only an object has
    own properties with the names the client reads. *)
Fixpoint assoc (k : jsstr) (fs : list (jsstr * jsval)) : jsval :=
  match fs with
  | [] => JUndefined
  | (k', v) :: fs' => if k =s? k' then v else assoc k fs'
  end.
Definition field (k : string) (v : jsval) : jsval :=
  match v with JObject fs => assoc (js k) fs | _ => JUndefined end.
Arguments field k%_stdpp_scope v.

Definition as_string (v : jsval) : option jsstr :=
  match v with JString s => Some s | _ => None end.
Definition as_number (v : jsval) : option jsnum :=
  match v with JNumber n => Some n | _ => None end.
Definition as_bool (v : jsval) : option bool :=
  match v with JBool b => Some b | _ => None end.

(** [typeof v === 'string'], [typeof v === 'number'], [typeof v === 'boolean'] *)
Definition is_string (v : jsval) : bool := bool_decide (is_Some (as_string v)).
Definition is_number (v : jsval) : bool := bool_decide (is_Some (as_number v)).
Definition is_bool (v : jsval) : bool := bool_decide (is_Some (as_bool v)).

(** [v === 'literal'] *)
Definition is_literal (lit : string) (v : jsval) : bool :=
  match v with JString s => s =s? js lit | _ => false end.
Arguments is_literal lit%_stdpp_scope v.

(** [Boolean(v)] *)
Definition js_truthy (v : jsval) : bool :=
  match v with
  | JUndefined | JNull => false
  | JBool b => b
  | JNumber n => num_truthy n
  | JString s => truthy s
  | JArray _ | JObject _ => true
  end.

(** [a || b] *)
Definition js_or (a b : jsval) : jsval := if js_truthy a then a else b.

(** [v == null] *)
Definition nullish (v : jsval) : bool :=
  match v with JUndefined | JNull => true | _ => false end.

(** [v[0]]: the first element of an array, the first unit of a string, or the
    property named 0 of an object. *)
Definition index0 (v : jsval) : jsval :=
  match v with
  | JArray (x :: _) => x
  | JString (c :: _) => JString [c]
  | JObject fs => assoc (js "0") fs
  | _ => JUndefined
  end.

(** ** Reading an untyped value as a typed one

    [Throws] is an exception of the code that reads it; [IllTyped] a value whose
    type the declarations of the code exclude and the code does not check, a case
    the models do not follow further. *)
Inductive Decoded (A : Type) := Ok (x : A) | Throws | IllTyped.
Arguments Ok {A} x.
Arguments Throws {A}.
Arguments IllTyped {A}.

Definition decoded_map2 {A B C} (f : A -> B -> C) (a : Decoded A) (b : Decoded B) : Decoded C :=
  match a, b with
  | Throws, _ | _, Throws => Throws
  | IllTyped, _ | _, IllTyped => IllTyped
  | Ok x, Ok y => Ok (f x y)
  end.

(** ** Lemmas *)

Lemma is_string_inv v : is_string v = true -> exists s, v = JString s.
Proof. unfold is_string. destruct v; intros H; bool_to_prop; naive_solver. Qed.

Lemma is_number_inv v : is_number v = true -> exists n, v = JNumber n.
Proof. unfold is_number. destruct v; intros H; bool_to_prop; naive_solver. Qed.

Lemma is_bool_inv v : is_bool v = true -> exists b, v = JBool b.
Proof. unfold is_bool. destruct v; intros H; bool_to_prop; naive_solver. Qed.

(** [Math.max(0, x)] is never below zero. *)
Lemma math_max_0_nonneg x : num_lt (math_max (num 0) x) (num 0) = false.
Proof.
  destruct x as [[]|[]| |[] m e]; try reflexivity.
Qed.

(** ** Rounding to an integer is idempotent *)

Lemma digits2_bounds q : 2 ^ (Zpos (digits2_pos q) - 1) <= Zpos q < 2 ^ Zpos (digits2_pos q).
Proof.
  induction q as [q IH|q IH|]; cbn [digits2_pos]; [| |lia]; rewrite Pos2Z.inj_succ;
    set (d := Zpos (digits2_pos q)) in *; assert (1 <= d) by lia;
    rewrite Z.pow_succ_r by lia; replace (Z.succ d - 1) with (Z.succ (d - 1)) by lia;
    rewrite Z.pow_succ_r by lia; lia.
Qed.

Lemma digits2_shift n q : Zpos (digits2_pos (shift_pos n q)) = Zpos n + Zpos (digits2_pos q).
Proof.
  unfold shift_pos. induction n as [|n IH] using Pos.peano_ind; [simpl; lia|].
  rewrite Pos.iter_succ. cbn [digits2_pos]. rewrite !Pos2Z.inj_succ, IH. lia.
Qed.

Lemma shift_pos_value n q : Zpos (shift_pos n q) = Zpos q * 2 ^ Zpos n.
Proof. rewrite Zpower.shift_pos_correct. rewrite Z.mul_comm. f_equal. Qed.

Lemma fexp_small d : (1 <= d <= 53) -> fexp 53 1024 d = d - 53.
Proof. unfold fexp, emin. lia. Qed.
(** The 53-bit mantissa of an integer. *)
Definition mant (q : positive) : positive :=
  match (53 - Zpos (digits2_pos q))%Z with Zpos n => shift_pos n q | _ => q end.

Lemma mant_digits q : Zpos (digits2_pos q) <= 53 -> Zpos (digits2_pos (mant q)) = 53.
Proof. unfold mant. intros H. destruct (53 - _) eqn:E; [lia| |lia]. rewrite digits2_shift. lia. Qed.

Lemma mant_value q : Zpos (digits2_pos q) <= 53 -> Zpos (mant q) = Zpos q * 2 ^ (53 - Zpos (digits2_pos q)).
Proof. unfold mant. intros H. destruct (53 - _) eqn:E; [lia| |lia]. apply shift_pos_value. Qed.

Lemma digits_small q : Zpos q < 2 ^ 53 -> 1 <= Zpos (digits2_pos q) <= 53.
Proof.
  intros Hq. pose proof (digits2_bounds q) as [Hb _]. split; [lia|].
  destruct (Z.le_gt_cases (Zpos (digits2_pos q)) 53); [done|].
  assert (2 ^ 53 <= 2 ^ (Zpos (digits2_pos q) - 1)) by (apply Z.pow_le_mono_r; lia). lia.
Qed.

Lemma binary_round_small s q :
  Zpos q < 2 ^ 53 -> binary_round 53 1024 s q 0 = S754_finite s (mant q) (Zpos (digits2_pos q) - 53).
Proof.
  intros Hq. set (d := Zpos (digits2_pos q)).
  assert (Hd : 1 <= d <= 53) by (by apply digits_small).
  unfold binary_round. fold d. rewrite Z.add_0_r, fexp_small by done.
  assert (Hs : shl_align q 0 (d - 53) = (mant q, d - 53)).
  { unfold shl_align, mant. fold d. rewrite Z.sub_0_r. destruct (d - 53) eqn:E.
    - replace (53 - d) with 0 by lia. done.
    - lia.
    - replace (53 - d) with (Zpos p) by lia. done. }
  rewrite Hs. unfold binary_round_aux, shr_fexp.
  assert (Hz : Zdigits2 (Zpos (mant q)) = 53) by (apply mant_digits; lia).
  rewrite Hz. replace (53 + (d - 53)) with d by lia. rewrite fexp_small by done. rewrite Z.sub_diag.
  cbn [shr shr_record_of_loc shr_m loc_of_shr_record round_nearest_even].
  rewrite Hz. replace (53 + (d - 53)) with d by lia. rewrite fexp_small by done. rewrite Z.sub_diag.
  cbn [shr shr_record_of_loc shr_m]. rewrite (proj2 (Z.leb_le _ _)) by lia. done.
Qed.

(** An integer of at most 53 bits is represented exactly. *)
Lemma signed_value s q :
  Zpos q < 2 ^ 53 -> signed s (Zpos q) = S754_finite s (mant q) (Zpos (digits2_pos q) - 53).
Proof. intros Hq. unfold signed. cbn [Z.eqb]. by destruct s; apply binary_round_small. Qed.

Lemma trunc_signed s q : 0 <= q < 2 ^ 53 -> math_trunc (signed s q) = signed s q.
Proof.
  intros Hq. destruct q as [|q|]; [done| |lia]. pose proof (digits_small q (proj2 Hq)) as Hd.
  rewrite signed_value by lia. cbn [math_trunc].
  destruct (Z.leb_spec 0 (Zpos (digits2_pos q) - 53)) as [Hle|Hlt]; [done|]. rewrite <- signed_value by lia.
  unfold int_part. rewrite (proj2 (Z.leb_gt _ _)) by done. cbn [fst]. f_equal.
  rewrite mant_value by lia. replace (- (Zpos (digits2_pos q) - 53)) with (53 - Zpos (digits2_pos q)) by lia.
  apply Z.div_mul. apply Z.pow_nonzero; lia.
Qed.

(** The mantissa of a binary64 number has at most 53 bits. *)
Definition num_valid (n : jsnum) : bool :=
  match n with S754_finite _ m _ => Zpos m <? 2 ^ 53 | _ => true end.

(** The integer part of a number fits its mantissa. *)
Lemma int_part_small m e : Zpos m < 2 ^ 53 -> e < 0 -> 0 <= fst (int_part m e) < 2 ^ 53.
Proof.
  intros Hm He. unfold int_part. rewrite (proj2 (Z.leb_gt _ _)) by done. cbn [fst].
  assert (0 < 2 ^ (- e)) by (apply Z.pow_pos_nonneg; lia). split; [apply Z.div_pos; lia|].
  apply Z.le_lt_trans with (Zpos m); [apply Z.div_le_upper_bound; nia|done].
Qed.

Lemma math_trunc_idem n : num_valid n = true -> math_trunc (math_trunc n) = math_trunc n.
Proof.
  destruct n as [| | |s m e]; try done. unfold num_valid. intros Hm%Z.ltb_lt. cbn [math_trunc].
  destruct (Z.leb_spec 0 e) as [He|He]; [cbn [math_trunc]; by rewrite (proj2 (Z.leb_le _ _))|].
  by apply trunc_signed, int_part_small.
Qed.

(** [Math.max(k, Math.trunc(n))] for an integer constant [k]. *)
Lemma max_trunc_idem k n :
  num_valid n = true -> math_trunc k = k -> math_max k k = k ->
  math_max k (math_trunc (math_max k (math_trunc n))) = math_max k (math_trunc n).
Proof.
  intros Hn Hk Hkk. pose proof (math_trunc_idem n Hn) as Ht. set (x := math_trunc n) in *. clearbody x.
  assert (Hm : math_max k x = k \/ math_max k x = x).
  { destruct k as [[]|[]| |[]], x as [[]|[]| |[]]; simpl; auto; case_match; auto. }
  destruct Hm as [-> | E]; [by rewrite Hk|]. by rewrite E, Ht.
Qed.

Lemma signed_integer s q : 0 <= q < 2 ^ 53 -> is_integer (signed s q) = true.
Proof.
  intros Hq. destruct q as [|q|]; [done| |lia]. pose proof (digits_small q (proj2 Hq)) as Hd.
  rewrite signed_value by lia. cbn [is_integer]. apply orb_true_iff. right. apply Z.eqb_eq.
  rewrite mant_value by lia. replace (- (Zpos (digits2_pos q) - 53)) with (53 - Zpos (digits2_pos q)) by lia.
  apply Z_mod_mult.
Qed.

(** [Math.trunc] gives whole numbers. *)
Lemma math_trunc_integer n : num_valid n = true -> is_finite n = true -> is_integer (math_trunc n) = true.
Proof.
  destruct n as [| | |s m e]; try done. unfold num_valid. intros Hm%Z.ltb_lt _. cbn [math_trunc].
  destruct (Z.leb_spec 0 e) as [He|He]; [cbn [is_integer]; by rewrite (proj2 (Z.leb_le _ _))|].
  by apply signed_integer, int_part_small.
Qed.

Lemma integer_finite n : is_integer n = true -> is_finite n = true.
Proof. by destruct n. Qed.

Lemma math_trunc_finite n : num_valid n = true -> is_finite n = true -> is_finite (math_trunc n) = true.
Proof. intros. by apply integer_finite, math_trunc_integer. Qed.

Lemma math_max_finite a b : is_finite a = true -> is_finite b = true -> is_finite (math_max a b) = true.
Proof. destruct a as [[]|[]| |[]], b as [[]|[]| |[]]; simpl; try done; intros _ _; by case_match. Qed.

(** *** Order *)

Lemma SFcompare_antisym a b :
  SFcompare b a = match SFcompare a b with Some c => Some (CompOpp c) | None => None end.
Proof.
  destruct a as [[]|[]| |[] m e], b as [[]|[]| |[] m' e']; try reflexivity; cbn [SFcompare];
    change (Pos.compare_cont Eq) with Pos.compare;
    rewrite (Z.compare_antisym e e'), (Pos.compare_antisym m m'); destruct (e ?= e')%Z; try reflexivity;
    by destruct (m ?= m')%positive.
Qed.

Lemma num_lt_asym a b : num_lt a b = true -> num_lt b a = false.
Proof.
  unfold num_lt, SFltb. rewrite (SFcompare_antisym a b). by destruct (SFcompare a b) as [[]|].
Qed.

(** [Math.max(k, x)] is never below [k]. *)
Lemma math_max_ge k x : num_lt k k = false -> num_lt (math_max k x) k = false.
Proof.
  intros Hk. assert (Hm : math_max k x = k \/ num_lt k x = true /\ math_max k x = x \/ math_max k x = S754_nan
                         \/ exists s s' , k = S754_zero s /\ math_max k x = S754_zero s').
  { destruct k as [sk|sk| |sk mk ek], x as [sx|sx| |sx mx ex]; cbn [math_max]; try (by auto);
      try (match goal with |- context [num_lt ?a ?b] => destruct (num_lt a b) eqn:E end; by auto).
    right. right. right. by eauto. }
  destruct Hm as [-> | [[Hl ->] | [-> | (s & s' & -> & ->)]]]; [done|by apply num_lt_asym| |by destruct s, s'].
  by destruct k.
Qed.
