(* ===== verification/Json.v ===== *)
(** * JSON texts

    [JSON.parse] as an executable recursive-descent parser into [jsval], the
    conversion of a decimal numeral to the nearest binary64 number, and
    [JSON.stringify] of a string.  The fuel of the parser is twice the length
    of the text plus two: every second call consumes a code unit. *)

From Stdlib Require Import SpecFloat.
From S2P Require Import Prelude JsValue.

Local Open Scope N_scope.

(** ** Numbers *)

(** The binary64 number nearest to [m * 10^e]. *)
Definition dec_to_num (neg : bool) (m : N) (e : Z) : jsnum :=
  match m with
  | N0 => S754_zero neg
  | Npos p =>
      if (0 <=? e)%Z then
        let z := (Zpos p * 10 ^ e)%Z in
        binary_normalize 53 1024 (if neg then - z else z)%Z 0 neg
      else
        let '(q, ez, lz) := SFdiv_core_binary 53 1024 (Zpos p) 0 (10 ^ (- e))%Z 0 in
        binary_round_aux 53 1024 neg q ez lz
  end.

(** The longest prefix of digits, and the rest. *)
Fixpoint span (f : N -> bool) (s : jsstr) : jsstr * jsstr :=
  match s with
  | [] => ([], [])
  | c :: s' => if f c then let '(a, b) := span f s' in (c :: a, b) else ([], s)
  end.

(** An optional fraction: its digits and the rest; [None] when the point is not
    followed by a digit. *)
Definition json_frac (s : jsstr) : option (jsstr * jsstr) :=
  match s with
  | 46 :: s' => let '(ds, r) := span is_digit s' in
                if truthy ds then Some (ds, r) else None
  | _ => Some ([], s)
  end.

(** An optional exponent. *)
Definition json_exp (s : jsstr) : option (Z * jsstr) :=
  match s with
  | c :: s' =>
      if (c =? 101) || (c =? 69) then
        let '(neg, s'') := match s' with
                           | 45 :: r => (true, r)
                           | 43 :: r => (false, r)
                           | _ => (false, s')
                           end in
        let '(ds, r) := span is_digit s'' in
        if truthy ds
        then Some ((if neg then - Z.of_N (parse_dec ds) else Z.of_N (parse_dec ds))%Z, r)
        else None
      else Some (0%Z, s)
  | [] => Some (0%Z, s)
  end.

Definition json_number (s : jsstr) : option (jsnum * jsstr) :=
  let '(neg, s1) := match s with 45 :: r => (true, r) | _ => (false, s) end in
  let '(ds, r) := span is_digit s1 in
  if negb (truthy ds) || (match ds with 48 :: _ :: _ => true | _ => false end) then None
  else match json_frac r with
       | None => None
       | Some (fs, r') =>
           match json_exp r' with
           | None => None
           | Some (e, r'') =>
               Some (dec_to_num neg (parse_dec (ds ++ fs)) (e - Z.of_nat (length fs))%Z, r'')
           end
       end.

(** ** Strings *)

Definition hex_value (c : N) : option N :=
  if (48 <=? c) && (c <=? 57) then Some (c - 48)
  else if (97 <=? c) && (c <=? 102) then Some (c - 87)
  else if (65 <=? c) && (c <=? 70) then Some (c - 55)
  else None.

Definition hex4 (a b c d : N) : option N :=
  match hex_value a, hex_value b, hex_value c, hex_value d with
  | Some x, Some y, Some z, Some w => Some (x * 4096 + y * 256 + z * 16 + w)
  | _, _, _, _ => None
  end.

(** One-letter escapes. *)
Definition unescape (c : N) : option N :=
  if c =? 34 then Some 34 else if c =? 92 then Some 92 else if c =? 47 then Some 47
  else if c =? 98 then Some 8 else if c =? 102 then Some 12 else if c =? 110 then Some 10
  else if c =? 114 then Some 13 else if c =? 116 then Some 9 else None.

(** The rest of a string literal after its opening quote. *)
Fixpoint json_string (s : jsstr) : option (jsstr * jsstr) :=
  match s with
  | [] => None
  | 34 :: r => Some ([], r)
  | 92 :: 117 :: a :: b :: c :: d :: r =>
      match hex4 a b c d with
      | Some u => match json_string r with Some (t, r') => Some (u :: t, r') | None => None end
      | None => None
      end
  | 92 :: c :: r =>
      match unescape c with
      | Some u => match json_string r with Some (t, r') => Some (u :: t, r') | None => None end
      | None => None
      end
  | c :: r =>
      if (c <? 32) || (c =? 92) then None
      else match json_string r with Some (t, r') => Some (c :: t, r') | None => None end
  end.

Definition hex_digit (n : N) : N := if n <? 10 then 48 + n else 87 + n.

(** [\uXXXX] with lower-case digits. *)
Definition escape_u (c : N) : jsstr :=
  [92; 117; hex_digit (c / 4096 mod 16); hex_digit (c / 256 mod 16);
   hex_digit (c / 16 mod 16); hex_digit (c mod 16)].

Definition is_high (c : N) : bool := (55296 <=? c) && (c <=? 56319).
Definition is_low (c : N) : bool := (56320 <=? c) && (c <=? 57343).

(** The escapes of a unit that is not part of a surrogate pair. *)
Definition escape_unit (c : N) : jsstr :=
  if c =? 34 then [92; 34] else if c =? 92 then [92; 92]
  else if c =? 8 then [92; 98] else if c =? 12 then [92; 102] else if c =? 10 then [92; 110]
  else if c =? 13 then [92; 114] else if c =? 9 then [92; 116]
  else if (c <? 32) || is_high c || is_low c then escape_u c
  else [c].

(** A surrogate pair is copied, a lone surrogate is escaped. *)
Fixpoint escape (s : jsstr) : jsstr :=
  match s with
  | [] => []
  | c :: s' =>
      match s' with
      | d :: r => if is_high c && is_low d then c :: d :: escape r else escape_unit c ++ escape s'
      | [] => escape_unit c
      end
  end.

(** [JSON.stringify(s)] for a string. *)
Definition stringify_string (s : jsstr) : jsstr := 34 :: escape s ++ [34].

(** ** Values *)

Definition is_json_space (c : N) : bool := (c =? 32) || (c =? 9) || (c =? 10) || (c =? 13).
Definition skip_ws (s : jsstr) : jsstr := drop_while is_json_space s.

(** Assignment to a property: a key that exists keeps its place. *)
Fixpoint obj_set (k : jsstr) (v : jsval) (fs : list (jsstr * jsval)) : list (jsstr * jsval) :=
  match fs with
  | [] => [(k, v)]
  | (k', v') :: fs' => if k =s? k' then (k', v) :: fs' else (k', v') :: obj_set k v fs'
  end.

Definition keyword (s : jsstr) : option (jsval * jsstr) :=
  if starts_with (js "true") s then Some (JBool true, drop 4 s)
  else if starts_with (js "false") s then Some (JBool false, drop 5 s)
  else if starts_with (js "null") s then Some (JNull, drop 4 s)
  else None.

Fixpoint json_value (fuel : nat) (s : jsstr) : option (jsval * jsstr) :=
  match fuel with
  | O => None
  | S fuel' =>
      match s with
      | [] => None
      | 34 :: r => match json_string r with Some (t, r') => Some (JString t, r') | None => None end
      | 91 :: r =>
          match skip_ws r with
          | 93 :: r' => Some (JArray [], r')
          | r' => match json_elements fuel' r' with
                  | Some (vs, r'') => Some (JArray vs, r'')
                  | None => None
                  end
          end
      | 123 :: r =>
          match skip_ws r with
          | 125 :: r' => Some (JObject [], r')
          | r' => match json_members fuel' [] r' with
                  | Some (fs, r'') => Some (JObject fs, r'')
                  | None => None
                  end
          end
      | c :: _ =>
          if is_digit c || (c =? 45)
          then match json_number s with Some (n, r) => Some (JNumber n, r) | None => None end
          else keyword s
      end
  end
with json_elements (fuel : nat) (s : jsstr) : option (list jsval * jsstr) :=
  match fuel with
  | O => None
  | S fuel' =>
      match json_value fuel' s with
      | None => None
      | Some (v, r) =>
          match skip_ws r with
          | 93 :: r' => Some ([v], r')
          | 44 :: r' =>
              match json_elements fuel' (skip_ws r') with
              | Some (vs, r'') => Some (v :: vs, r'')
              | None => None
              end
          | _ => None
          end
      end
  end
with json_members (fuel : nat) (acc : list (jsstr * jsval)) (s : jsstr) :
    option (list (jsstr * jsval) * jsstr) :=
  match fuel with
  | O => None
  | S fuel' =>
      match s with
      | 34 :: r =>
          match json_string r with
          | None => None
          | Some (k, r1) =>
              match skip_ws r1 with
              | 58 :: r2 =>
                  match json_value fuel' (skip_ws r2) with
                  | None => None
                  | Some (v, r3) =>
                      match skip_ws r3 with
                      | 125 :: r4 => Some (obj_set k v acc, r4)
                      | 44 :: r4 => json_members fuel' (obj_set k v acc) (skip_ws r4)
                      | _ => None
                      end
                  end
              | _ => None
              end
          end
      | _ => None
      end
  end.

(** [JSON.parse(s)]; [None] is the [SyntaxError]. *)
Definition JSON_parse (s : jsstr) : option jsval :=
  match json_value (2 * length s + 2) (skip_ws s) with
  | Some (v, r) => if truthy (skip_ws r) then None else Some v
  | None => None
  end.

(** ** Printing

    [JSON.stringify] of a value; [show] prints the numbers, [nl d] is the line
    break and the indentation at depth [d] and [gap] what follows a colon.  A
    property whose value is [undefined] is left out and a number that is not
    finite is printed as [null].  The order of the properties is the order of
    insertion. *)
Section Stringify.
Variable show : jsnum -> jsstr.

Section Layout.
Variable nl : nat -> jsstr.
Variable gap : jsstr.

(** The items of an array or an object between its brackets. *)
Definition items (d : nat) (ps : list jsstr) : jsstr :=
  match ps with
  | [] => []
  | _ => nl (S d) ++ join (44 :: nl (S d)) ps ++ nl d
  end.

Fixpoint print (d : nat) (v : jsval) : jsstr :=
  match v with
  | JUndefined | JNull => js "null"
  | JBool b => if b then js "true" else js "false"
  | JNumber n => if is_finite n then show n else js "null"
  | JString s => stringify_string s
  | JArray l =>
      91 :: items d ((fix elements l :=
                        match l with
                        | [] => []
                        | v :: l' => print (S d) v :: elements l'
                        end) l) ++ [93]
  | JObject fs =>
      123 :: items d ((fix members fs :=
                         match fs with
                         | [] => []
                         | (k, JUndefined) :: fs' => members fs'
                         | (k, v) :: fs' =>
                             (stringify_string k ++ 58 :: gap ++ print (S d) v) :: members fs'
                         end) fs) ++ [125]
  end.
End Layout.

(** [JSON.stringify(v)] *)
Definition stringify (v : jsval) : jsstr := print (fun _ => []) [] 0 v.

(** [JSON.stringify(v, null, 2)] *)
Definition newline (d : nat) : jsstr := 10 :: repeat 32 (2 * d).
Definition stringify2 (v : jsval) : jsstr := print newline [32] 0 v.

(** Values that survive a round trip: no [undefined], strings of 16-bit units,
    numbers that the printer prints readably, distinct property names. *)
Definition str_ok (s : jsstr) : bool := forallb (fun c => c <? 65536) s.

Definition num_ok (n : jsnum) : bool :=
  is_finite n && match json_number (show n) with
                 | Some (m, []) => bool_decide (m = n)
                 | _ => false
                 end.

Fixpoint json_ok (v : jsval) : bool :=
  match v with
  | JUndefined => false
  | JNull | JBool _ => true
  | JNumber n => num_ok n
  | JString s => str_ok s
  | JArray l => forallb json_ok l
  | JObject fs =>
      forallb (fun kv => str_ok kv.1 && json_ok kv.2) fs && bool_decide (NoDup (fs.*1))
  end.

End Stringify.

(** ** Lemmas *)

Lemma jsval_nested_ind (P : jsval -> Prop) :
  P JUndefined -> P JNull -> (forall b, P (JBool b)) -> (forall n, P (JNumber n)) ->
  (forall s, P (JString s)) -> (forall l, Forall P l -> P (JArray l)) ->
  (forall fs, Forall (fun kv => P kv.2) fs -> P (JObject fs)) -> forall v, P v.
Proof.
  intros Hu Hn Hb Hm Hs Ha Ho. fix IH 1. intros [| |b|n|s|l|fs];
    [exact Hu|exact Hn|apply Hb|apply Hm|apply Hs| |].
  - apply Ha. induction l as [|v l IHl]; constructor; [apply IH|apply IHl].
  - apply Ho. induction fs as [|[k v] fs IHl]; constructor; [apply IH|apply IHl].
Qed.

(** A unit that is not one of the literals a [match] looks for: case analysis
    on its binary digits. *)
Ltac unit_cases c :=
  destruct c as [|c]; [|do 8 (try destruct c as [c|c|])]; try reflexivity; try congruence; try lia.

Lemma json_string_plain c r :
  32 <= c -> c <> 34 -> c <> 92 ->
  json_string (c :: r) = match json_string r with Some (t, r') => Some (c :: t, r') | None => None end.
Proof.
  intros H1 H2 H3.
  assert (Hb : (c <? 32) || (c =? 92) = false) by (apply orb_false_iff; split; [apply N.ltb_ge|apply N.eqb_neq]; lia).
  transitivity (if (c <? 32) || (c =? 92) then None
    else match json_string r with Some (t, r') => Some (c :: t, r') | None => None end); [|by rewrite Hb].
  clear Hb. unit_cases c.
Qed.

(** The units written as [\uXXXX]: control characters and surrogates. *)
Definition u_escaped (c : N) : bool := (c <? 32) || is_high c || is_low c.

Lemma u_escaped_hex c :
  u_escaped c = true ->
  hex4 (hex_digit (c / 4096 mod 16)) (hex_digit (c / 256 mod 16))
    (hex_digit (c / 16 mod 16)) (hex_digit (c mod 16)) = Some c.
Proof.
  intros H.
  set (f := fun c => bool_decide (hex4 (hex_digit (c / 4096 mod 16)) (hex_digit (c / 256 mod 16))
    (hex_digit (c / 16 mod 16)) (hex_digit (c mod 16)) = Some c)).
  assert (Ha : forallb f (N.of_nat <$> seq 0 32 ++ seq (Z.to_nat 55296) (Z.to_nat 2048)) = true) by (vm_compute; reflexivity).
  assert (Hf : f c = true); [|by apply bool_decide_eq_true in Hf].
  rewrite forallb_forall in Ha. apply Ha, list_elem_of_In, list_elem_of_fmap.
  exists (N.to_nat c). split; [lia|]. apply elem_of_app. unfold u_escaped, is_high, is_low in H.
  rewrite !elem_of_seq. repeat rewrite ?orb_true_iff, ?andb_true_iff, ?N.ltb_lt, ?N.leb_le in H. lia.
Qed.

Lemma json_string_escape_unit c r :
  c < 65536 ->
  json_string (escape_unit c ++ r)
  = match json_string r with Some (t, r') => Some (c :: t, r') | None => None end.
Proof.
  intros Hc. unfold escape_unit.
  repeat match goal with
         | |- context [c =? ?k] => destruct (N.eqb_spec c k); [subst; reflexivity|]
         end.
  fold (u_escaped c). destruct (u_escaped c) eqn:E.
  - pose proof (u_escaped_hex c E) as Hx. unfold escape_u.
    set (h1 := hex_digit (c / 4096 mod 16)) in *. set (h2 := hex_digit (c / 256 mod 16)) in *.
    set (h3 := hex_digit (c / 16 mod 16)) in *. set (h4 := hex_digit (c mod 16)) in *.
    clearbody h1 h2 h3 h4. cbn [app json_string]. by rewrite Hx.
  - apply json_string_plain; [|done|done]. unfold u_escaped in E.
    apply orb_false_iff in E as [[E%N.ltb_ge _]%orb_false_iff _]. done.
Qed.

Lemma json_string_escape s : forall r,
  str_ok s = true -> json_string (escape s ++ 34 :: r) = Some (s, r).
Proof.
  induction s as [s IH] using (induction_ltof1 _ (@length N)). unfold ltof in IH. intros r Hs.
  destruct s as [|c [|d s]]; [done| |].
  - simpl in Hs. rewrite andb_true_r in Hs. apply N.ltb_lt in Hs. cbn [escape].
    by rewrite json_string_escape_unit.
  - unfold str_ok in Hs. cbn [forallb] in Hs. apply andb_true_iff in Hs as [Hc%N.ltb_lt Hs].
    destruct (is_high c && is_low d) eqn:E.
    + apply andb_true_iff in Hs as [Hd%N.ltb_lt Hs]. cbn [escape]. rewrite E.
      unfold is_high, is_low in E. rewrite !andb_true_iff, !N.leb_le in E.
      cbn [app]. rewrite !json_string_plain by lia. rewrite IH by (simpl; lia || done). done.
    + change (escape (c :: d :: s)) with (if is_high c && is_low d then c :: d :: escape s
        else escape_unit c ++ escape (d :: s)).
      rewrite E, <- app_assoc, json_string_escape_unit by done. rewrite IH by (simpl; lia || done). done.
Qed.

(** Units that can continue a number. *)
Definition num_char (c : N) : bool :=
  is_digit c || (c =? 45) || (c =? 43) || (c =? 46) || (c =? 101) || (c =? 69).

Definition num_end (r : jsstr) : Prop := match r with [] => True | c :: _ => num_char c = false end.

Lemma span_app f a r ds b :
  span f a = (ds, b) -> match r with [] => True | c :: _ => f c = false end ->
  span f (a ++ r) = (ds, b ++ r).
Proof.
  intros H Hr. revert ds b H. induction a as [|c a IH]; intros ds b H; simpl in *.
  - injection H as <- <-. destruct r as [|c r]; [done|]. simpl. by rewrite Hr.
  - destruct (f c); [|by injection H as <- <-].
    destruct (span f a) as [x y]. injection H as <- <-. by rewrite (IH x y).
Qed.

Lemma num_end_digit r : num_end r -> match r with [] => True | c :: _ => is_digit c = false end.
Proof. destruct r as [|c r]; [done|]. unfold num_end, num_char. intros H. by destruct (is_digit c). Qed.

Lemma num_end_not r c r' k :
  num_end r -> num_char k = true -> r = c :: r' -> c <> k.
Proof. intros H Hk -> ->. simpl in H. congruence. Qed.

Lemma json_frac_app b fs b' r :
  json_frac b = Some (fs, b') -> num_end r -> json_frac (b ++ r) = Some (fs, b' ++ r).
Proof.
  intros H Hr. destruct b as [|c b].
  - injection H as <- <-. destruct r as [|c r]; [done|].
    pose proof (num_end_not _ c r 46 Hr eq_refl eq_refl). simpl app. clear Hr. unit_cases c.
  - destruct (N.eq_dec c 46) as [->|Hc].
    + cbn [json_frac app] in *. destruct (span is_digit b) as [ds x] eqn:E.
      rewrite (span_app _ _ _ _ _ E) by (by apply num_end_digit).
      destruct (truthy ds); [|done]. by injection H as <- <-.
    + assert (Hf : forall s, json_frac (c :: s) = Some ([], c :: s)) by (intros s; clear H; unit_cases c).
      simpl app. rewrite Hf in *. by injection H as <- <-.
Qed.

Lemma json_exp_app b e b' r :
  json_exp b = Some (e, b') -> num_end r -> json_exp (b ++ r) = Some (e, b' ++ r).
Proof.
  intros H Hr. destruct b as [|c b].
  - injection H as <- <-. destruct r as [|c r]; [done|].
    pose proof (num_end_not _ c r 101 Hr eq_refl eq_refl) as H1%N.eqb_neq.
    pose proof (num_end_not _ c r 69 Hr eq_refl eq_refl) as H2%N.eqb_neq.
    simpl. by rewrite H1, H2.
  - cbn [json_exp app] in *. destruct ((c =? 101) || (c =? 69)); [|by injection H as <- <-].
    set (sgn := fun s : jsstr => match s with 45 :: r => (true, r) | 43 :: r => (false, r) | _ => (false, s) end).
    assert (Hs : sgn (b ++ r) = let '(n, x) := sgn b in (n, x ++ r)).
    { destruct b as [|d b].
      - destruct r as [|d r]; [done|]. pose proof (num_end_not _ d r 45 Hr eq_refl eq_refl).
        pose proof (num_end_not _ d r 43 Hr eq_refl eq_refl). simpl app. clear Hr. unit_cases d.
      - simpl app. clear. unit_cases d. }
    fold (sgn b) in H. fold (sgn (b ++ r)). rewrite Hs. destruct (sgn b) as [n x].
    destruct (span is_digit x) as [ds y] eqn:E. rewrite (span_app _ _ _ _ _ E) by (by apply num_end_digit).
    destruct (truthy ds); [|done]. by injection H as <- <-.
Qed.

Lemma json_number_app a n r :
  json_number a = Some (n, []) -> num_end r -> json_number (a ++ r) = Some (n, r).
Proof.
  intros H Hr. unfold json_number in *.
  set (sgn := fun s : jsstr => match s with 45 :: r => (true, r) | _ => (false, s) end).
  destruct a as [|c a]; [done|].
  assert (Hs : sgn ((c :: a) ++ r) = let '(n, x) := sgn (c :: a) in (n, x ++ r)).
  { simpl app. clear. unit_cases c. }
  fold (sgn (c :: a)) in H. fold (sgn ((c :: a) ++ r)). rewrite Hs. destruct (sgn (c :: a)) as [neg x].
  destruct (span is_digit x) as [ds y] eqn:E. rewrite (span_app _ _ _ _ _ E) by (by apply num_end_digit).
  destruct (_ || _); [done|]. destruct (json_frac y) as [[fs z]|] eqn:Ef; [|done].
  rewrite (json_frac_app _ _ _ _ Ef Hr). destruct (json_exp z) as [[e w]|] eqn:Ee; [|done].
  rewrite (json_exp_app _ _ _ _ Ee Hr). by injection H as <- ->.
Qed.

Lemma json_number_head a x :
  json_number a = Some x -> exists c a', a = c :: a' /\ is_digit c || (c =? 45) = true.
Proof.
  destruct a as [|c a]; [done|]. intros H. exists c, a. split; [done|].
  destruct (N.eqb_spec c 45); [by rewrite orb_true_r|]. rewrite orb_false_r. unfold json_number in H.
  assert (Hs : match c :: a with 45 :: r => (true, r) | _ => (false, c :: a) end = (false, c :: a))
    by (clear H; unit_cases c).
  rewrite Hs in H. cbn [span] in H. destruct (is_digit c); [done|]. done.
Qed.

(** A number consumes units of numbers only. *)
Definition numeric (p : jsstr) : Prop := Forall (fun c => num_char c = true) p.

Lemma span_split f s a b : span f s = (a, b) -> s = a ++ b /\ Forall (fun c => f c = true) a.
Proof.
  revert a b. induction s as [|c s IH]; intros a b; cbn [span]; [by intros [= <- <-]|].
  destruct (f c) eqn:E; [|by intros [= <- <-]]. destruct (span f s) as [x y]. intros [= <- <-].
  destruct (IH x y eq_refl) as [-> H]. split; [done|]. by apply Forall_cons.
Qed.

Lemma digits_numeric ds : Forall (fun c => is_digit c = true) ds -> numeric ds.
Proof. intros H. eapply Forall_impl; [exact H|]. intros c Hc. unfold num_char. by rewrite Hc. Qed.

Lemma nothing_consumed s : exists p, s = p ++ s /\ numeric p.
Proof. exists []. split; [done|]. by apply Forall_nil. Qed.

Lemma one_consumed c s : num_char c = true -> exists p, c :: s = p ++ s /\ numeric p.
Proof. intros H. exists [c]. split; [done|]. by apply Forall_singleton. Qed.

Lemma json_frac_split s fs r : json_frac s = Some (fs, r) -> exists p, s = p ++ r /\ numeric p.
Proof.
  destruct s as [|c s]; [intros [= <- <-]; apply nothing_consumed|]. destruct (N.eq_dec c 46) as [->|Hc].
  - cbn [json_frac]. destruct (span is_digit s) as [ds x] eqn:E. destruct (truthy ds); [|done]. intros [= <- <-].
    apply span_split in E as [-> Hd]. exists (46 :: ds). split; [done|]. apply Forall_cons. split; [done|].
    by apply digits_numeric.
  - assert (Hf : json_frac (c :: s) = Some ([], c :: s)) by (unit_cases c). rewrite Hf. intros [= <- <-].
    apply nothing_consumed.
Qed.

Lemma json_exp_split s e r : json_exp s = Some (e, r) -> exists p, s = p ++ r /\ numeric p.
Proof.
  destruct s as [|c s]; [intros [= <- <-]; apply nothing_consumed|]. cbn [json_exp].
  destruct ((c =? 101) || (c =? 69)) eqn:Ec; [|intros [= <- <-]; apply nothing_consumed].
  set (sgn := match s with 45 :: r => (true, r) | 43 :: r => (false, r) | _ => (false, s) end).
  assert (Hs : exists q, s = q ++ sgn.2 /\ numeric q).
  { subst sgn. destruct s as [|d s]; [apply nothing_consumed|].
    destruct (N.eq_dec d 45) as [->|]; [by apply one_consumed|].
    destruct (N.eq_dec d 43) as [->|]; [by apply one_consumed|].
    exists []. split; [|by apply Forall_nil]. unit_cases d. }
  destruct sgn as [neg y]. destruct Hs as (q & -> & Hq). cbn [snd].
  destruct (span is_digit y) as [ds x] eqn:E. destruct (truthy ds); [|done]. intros [= <- <-].
  apply span_split in E as [-> Hd]. exists (c :: q ++ ds). split; [by rewrite app_assoc|].
  apply Forall_cons. split; [unfold num_char; rewrite !orb_true_iff in *; tauto|].
  apply Forall_app. split; [done|]. by apply digits_numeric.
Qed.

Lemma json_number_split s n r : json_number s = Some (n, r) -> exists p, s = p ++ r /\ numeric p.
Proof.
  unfold json_number. set (sgn := match s with 45 :: r => (true, r) | _ => (false, s) end).
  assert (Hs : exists q, s = q ++ sgn.2 /\ numeric q).
  { subst sgn. destruct s as [|d s]; [apply nothing_consumed|].
    destruct (N.eq_dec d 45) as [->|]; [by apply one_consumed|].
    exists []. split; [|by apply Forall_nil]. unit_cases d. }
  destruct sgn as [neg y]. destruct Hs as (q & -> & Hq). cbn [snd].
  destruct (span is_digit y) as [ds x] eqn:E. destruct (_ || _); [done|].
  destruct (json_frac x) as [[fs z]|] eqn:Ef; [|done]. destruct (json_exp z) as [[e w]|] eqn:Ee; [|done].
  intros [= _ <-]. apply span_split in E as [-> Hd]. apply json_frac_split in Ef as (p1 & -> & H1).
  apply json_exp_split in Ee as (p2 & -> & H2). exists (q ++ ds ++ p1 ++ p2). split; [by rewrite !app_assoc|].
  repeat (apply Forall_app; split); [done|by apply digits_numeric|done|done].
Qed.

Lemma num_char_not_space c : num_char c = true -> is_space c = false.
Proof.
  unfold num_char, is_digit. rewrite !orb_true_iff, andb_true_iff, !N.leb_le, !N.eqb_eq. intros H.
  destruct (is_space c) eqn:E; [|done]. exfalso. revert E. unfold is_space. rewrite ?orb_true_iff, ?andb_true_iff, ?N.leb_le, ?N.eqb_eq. lia.
Qed.

Lemma json_value_number f c s :
  is_digit c || (c =? 45) = true ->
  json_value (S f) (c :: s)
  = match json_number (c :: s) with Some (n, r) => Some (JNumber n, r) | None => None end.
Proof.
  intros H.
  transitivity (if is_digit c || (c =? 45)
    then match json_number (c :: s) with Some (n, r) => Some (JNumber n, r) | None => None end
    else keyword (c :: s)); [|by rewrite H].
  assert (c <> 34 /\ c <> 91 /\ c <> 123) as (H1 & H2 & H3).
  { unfold is_digit in H. rewrite orb_true_iff, andb_true_iff, !N.leb_le, N.eqb_eq in H. lia. }
  clear H. unit_cases c.
Qed.

Lemma skip_ws_head c s : is_json_space c = false -> skip_ws (c :: s) = c :: s.
Proof. unfold skip_ws. simpl. by intros ->. Qed.

(** The items of an array or an object, whose text may be empty. *)
Definition all_space (s : jsstr) : bool := forallb is_json_space s.

Lemma skip_ws_app w s : all_space w = true -> skip_ws (w ++ s) = skip_ws s.
Proof.
  unfold skip_ws. induction w as [|c w IH]; [done|]. cbn [all_space forallb]. rewrite andb_true_iff.
  intros [Hc Hw]. simpl. rewrite Hc. by apply IH.
Qed.

Lemma num_end_space w s :
  all_space w = true -> num_end s -> num_end (w ++ s).
Proof.
  destruct w as [|c w]; [done|]. cbn [all_space forallb]. rewrite andb_true_iff. intros [Hc _] _. simpl.
  unfold is_json_space in Hc. rewrite !orb_true_iff, !N.eqb_eq in Hc.
  destruct Hc as [[[-> | ->] | ->] | ->]; reflexivity.
Qed.

Section Roundtrip.
Variable show : jsnum -> jsstr.
Variable nl : nat -> jsstr.
Variable gap : jsstr.
Hypothesis nl_space : forall d, all_space (nl d) = true.
Hypothesis gap_space : all_space gap = true.

Abbreviation prt := (print show nl gap).
Definition member (d : nat) (kv : jsstr * jsval) : jsstr := stringify_string kv.1 ++ 58 :: gap ++ prt d kv.2.

Lemma print_array d l : prt d (JArray l) = 91 :: items nl d (prt (S d) <$> l) ++ [93].
Proof. reflexivity. Qed.

Lemma print_object d fs :
  Forall (fun kv => json_ok show kv.2 = true) fs ->
  prt d (JObject fs) = 123 :: items nl d (member (S d) <$> fs) ++ [125].
Proof.
  intros H. cbn [print]. do 3 f_equal. induction H as [|[k v] fs Hv _ IH]; [done|].
  rewrite IH. by destruct v.
Qed.

(** The first unit of a printed value. *)
Lemma print_head d v :
  json_ok show v = true ->
  exists c t, prt d v = c :: t /\ is_json_space c = false /\ c <> 93.
Proof.
  destruct v as [| |b|n|s|l|fs]; try done; intros H.
  - by exists 110, (js "ull").
  - destruct b; [by exists 116, (js "rue")|by exists 102, (js "alse")].
  - cbn [json_ok] in H. unfold num_ok in H. apply andb_true_iff in H as [Hf H]. cbn [print]. rewrite Hf.
    destruct (json_number (show n)) eqn:E; [|done]. apply json_number_head in E as (c & t & -> & Hc).
    exists c, t. unfold is_digit in Hc. rewrite orb_true_iff, andb_true_iff, !N.leb_le, N.eqb_eq in Hc.
    split_and!; [done| |lia]. unfold is_json_space. repeat (apply orb_false_iff; split); apply N.eqb_neq; lia.
  - by eexists 34, _.
  - by eexists 91, _.
  - by eexists 123, _.
Qed.

(** A text between two units that are not white space. *)
Lemma trimmed_between a s b : is_space a = false -> is_space b = false -> trimmed (a :: s ++ [b]).
Proof. intros Ha Hb. split; [done|]. rewrite reverse_cons, reverse_app. exact Hb. Qed.

Lemma solid_trimmed s : Forall (fun c => is_space c = false) s -> trimmed s.
Proof.
  intros H. assert (Hr : Forall (fun c => is_space c = false) (reverse s)) by (by apply Forall_reverse).
  by split; [destruct H|destruct Hr].
Qed.

Lemma print_trimmed d v : json_ok show v = true -> trimmed (prt d v).
Proof.
  destruct v as [| |[]|n|s|l|fs]; intros H; try done; try (by apply trimmed_between).
  cbn [json_ok] in H. unfold num_ok in H. apply andb_true_iff in H as [Hf H]. cbn [print]. rewrite Hf.
  destruct (json_number (show n)) as [[m [|? ?]]|] eqn:E; try done.
  apply json_number_split in E as (p & -> & Hp). rewrite app_nil_r. apply solid_trimmed.
  eapply Forall_impl; [exact Hp|]. intros c. apply num_char_not_space.
Qed.

Lemma skip_ws_print d v r : json_ok show v = true -> skip_ws (prt d v ++ r) = prt d v ++ r.
Proof. intros H. destruct (print_head d v H) as (c & t & -> & Hc & _). by apply skip_ws_head. Qed.

Definition reads (v : jsval) : Prop := forall d f r,
  json_ok show v = true -> num_end r -> (length (prt d v) < f)%nat -> json_value f (prt d v ++ r) = Some (v, r).

Definition sep (d : nat) : jsstr := 44 :: nl d.

Lemma json_elements_print d w l : forall f r,
  all_space w = true -> l <> [] -> Forall reads l -> forallb (json_ok show) l = true ->
  (length (join (sep d) (prt d <$> l)) + 1 < f)%nat ->
  json_elements f (join (sep d) (prt d <$> l) ++ w ++ 93 :: r) = Some (l, r).
Proof.
  induction l as [|v l IH]; intros f r Hw Hne HR Hok Hf; [done|].
  apply Forall_cons in HR as [Hv HR]. cbn [forallb] in Hok. apply andb_true_iff in Hok as [Hok1 Hok].
  destruct f as [|f]; [lia|]. cbn [json_elements]. destruct l as [|v' l].
  - cbn [fmap list_fmap join] in *. rewrite Hv by first [done|lia|by apply num_end_space].
    rewrite skip_ws_app by done. done.
  - rewrite fmap_cons, join_cons in Hf |- * by done. rewrite !length_app in Hf.
    rewrite <- !app_assoc. unfold sep at 1. cbn [app]. rewrite Hv by (done || lia).
    rewrite skip_ws_head by done. cbv iota. rewrite skip_ws_app by done.
    assert (Hsk : skip_ws (join (sep d) (prt d <$> v' :: l) ++ w ++ 93 :: r)
                  = join (sep d) (prt d <$> v' :: l) ++ w ++ 93 :: r).
    { cbn [forallb] in Hok. apply andb_true_iff in Hok as [Hw' _].
      destruct l; cbn [fmap list_fmap join]; rewrite <- ?app_assoc; by apply skip_ws_print. }
    rewrite Hsk, IH; [done|done|done|done|done|]. assert (1 <= length (sep d))%nat by (simpl; lia). lia.
Qed.

Lemma obj_set_fresh k v acc : k ∉ acc.*1 -> obj_set k v acc = acc ++ [(k, v)].
Proof.
  induction acc as [|[k' v'] acc IH]; intros H; [done|]. cbn [obj_set]. rewrite fmap_cons in H.
  apply not_elem_of_cons in H as [H1 H2]. unfold str_eqb. rewrite bool_decide_eq_false_2 by done.
  by rewrite IH.
Qed.

(** Reading one property. *)
Lemma json_members_one d f k v acc rest :
  str_ok k = true -> json_ok show v = true -> reads v -> k ∉ acc.*1 -> num_end rest ->
  (length (prt d v) < f)%nat ->
  json_members (S f) acc (member d (k, v) ++ rest)
  = match skip_ws rest with
    | 125 :: r4 => Some (acc ++ [(k, v)], r4)
    | 44 :: r4 => json_members f (acc ++ [(k, v)]) (skip_ws r4)
    | _ => None
    end.
Proof.
  intros Hk Hokv Hv Hfresh Hrest Hlen. unfold member, stringify_string. simpl fst. simpl snd.
  rewrite <- !app_assoc. cbn [app json_members]. rewrite <- app_assoc. cbn [app].
  rewrite json_string_escape by done. rewrite (skip_ws_head 58) by done. cbv iota.
  rewrite <- app_assoc, skip_ws_app, skip_ws_print, Hv by done. by rewrite obj_set_fresh.
Qed.

Lemma member_length d k v : (length (prt d v) < length (member d (k, v)))%nat.
Proof. unfold member. rewrite length_app. cbn [length snd]. rewrite !length_app. lia. Qed.

Lemma json_members_print d w fs : forall f acc r,
  all_space w = true -> fs <> [] -> Forall (fun kv => reads kv.2) fs ->
  Forall (fun kv => str_ok kv.1 = true /\ json_ok show kv.2 = true) fs ->
  NoDup ((acc ++ fs).*1) ->
  (length (join (sep d) (member d <$> fs)) + 1 < f)%nat ->
  json_members f acc (join (sep d) (member d <$> fs) ++ w ++ 125 :: r) = Some (acc ++ fs, r).
Proof.
  induction fs as [|[k v] fs IH]; intros f acc r Hw Hne HR Hok Hnd Hf; [done|].
  apply Forall_cons in HR as [Hv HR]. apply Forall_cons in Hok as [[Hk Hokv] Hok]. simpl in Hk, Hokv, Hv.
  assert (Hfresh : k ∉ acc.*1).
  { rewrite fmap_app, fmap_cons in Hnd. apply NoDup_app in Hnd as (_ & Hd & _).
    intros Hin. apply (Hd _ Hin). simpl. left. }
  destruct f as [|f]; [lia|].
  assert (Hlen : (length (prt d v) < f)%nat).
  { pose proof (member_length d k v). rewrite fmap_cons in Hf.
    destruct fs; [cbn [fmap list_fmap join] in Hf; lia|]. rewrite join_cons, length_app in Hf by done. lia. }
  destruct fs as [|kv fs].
  - cbn [fmap list_fmap join]. rewrite json_members_one by first [done|by apply num_end_space].
    rewrite skip_ws_app by done. done.
  - rewrite fmap_cons, join_cons by done. rewrite <- !app_assoc. unfold sep at 1. cbn [app].
    rewrite json_members_one by done. rewrite (skip_ws_head 44) by done. cbv iota.
    rewrite skip_ws_app by done.
    assert (Hsk : skip_ws (join (sep d) (member d <$> kv :: fs) ++ w ++ 125 :: r)
                  = join (sep d) (member d <$> kv :: fs) ++ w ++ 125 :: r) by (destruct fs; reflexivity).
    rewrite Hsk, IH; try done.
    + by rewrite <- app_assoc.
    + by rewrite <- app_assoc.
    + rewrite fmap_cons, join_cons in Hf by done. rewrite !length_app in Hf.
      assert (1 <= length (sep d))%nat by (simpl; lia). lia.
Qed.

Lemma items_cons d p ps : items nl d (p :: ps) = nl (S d) ++ join (sep (S d)) (p :: ps) ++ nl d.
Proof. done. Qed.

Lemma print_reads_array l d f r :
  Forall reads l -> forallb (json_ok show) l = true ->
  (length (prt d (JArray l)) < S f)%nat -> json_value (S f) (prt d (JArray l) ++ r) = Some (JArray l, r).
Proof.
  intros IH Hok Hf. rewrite print_array in *. destruct l as [|v l]; [done|].
  rewrite fmap_cons, items_cons in *. rewrite <- fmap_cons in *.
  cbn [length] in Hf. rewrite !length_app in Hf. cbn [length] in Hf.
  cbn [app json_value]. rewrite <- !app_assoc, skip_ws_app by done.
  pose proof (json_elements_print (S d) (nl d) (v :: l) f r (nl_space d) ltac:(done) IH Hok ltac:(lia)) as He.
  assert (Hh : exists c t, join (sep (S d)) (prt (S d) <$> v :: l) = c :: t /\ is_json_space c = false /\ c <> 93).
  { cbn [forallb] in Hok. apply andb_true_iff in Hok as [Hw _].
    destruct (print_head (S d) v Hw) as (c & t & E & Hsp).
    destruct l; cbn [fmap list_fmap join]; rewrite E; simpl; eauto. }
  destruct Hh as (c & t & E & Hsp & Hc). rewrite E in *. cbn [app] in *. rewrite skip_ws_head by done.
  transitivity (match json_elements f (c :: t ++ nl d ++ 93 :: r) with
                | Some (vs, r'') => Some (JArray vs, r'') | None => None end); [|by rewrite He].
  clear -Hc. unit_cases c.
Qed.

Lemma print_reads_object fs d f r :
  Forall (fun kv => reads kv.2) fs ->
  Forall (fun kv => str_ok kv.1 = true /\ json_ok show kv.2 = true) fs -> NoDup (fs.*1) ->
  (length (prt d (JObject fs)) < S f)%nat -> json_value (S f) (prt d (JObject fs) ++ r) = Some (JObject fs, r).
Proof.
  intros IH Hall Hnd Hf. rewrite print_object in * by (eapply Forall_impl; [exact Hall|]; by intros ? [_ ?]).
  destruct fs as [|kv fs]; [done|].
  rewrite fmap_cons, items_cons in *. rewrite <- fmap_cons in *.
  cbn [length] in Hf. rewrite !length_app in Hf. cbn [length] in Hf.
  cbn [app json_value]. rewrite <- !app_assoc, skip_ws_app by done.
  pose proof (json_members_print (S d) (nl d) (kv :: fs) f [] r (nl_space d) ltac:(done) IH Hall Hnd ltac:(lia)) as He.
  assert (Hh : exists t, join (sep (S d)) (member (S d) <$> kv :: fs) = 34 :: t) by (destruct fs; eexists; reflexivity).
  destruct Hh as (t & E). rewrite E in *. cbn [app] in *. rewrite (skip_ws_head 34) by done.
  cbv iota. by rewrite He.
Qed.

Lemma print_reads v : reads v.
Proof.
  induction v as [| |b|n|s|l IH|fs IH] using jsval_nested_ind; intros d f r Hok Hr Hf; try done;
    (destruct f as [|f]; [lia|]).
  - done.
  - by destruct b.
  - cbn [json_ok] in Hok. unfold num_ok in Hok. apply andb_true_iff in Hok as [Hfin Hok].
    cbn [print]. rewrite Hfin. destruct (json_number (show n)) as [[m [|? ?]]|] eqn:E; try done.
    apply bool_decide_eq_true in Hok as ->.
    pose proof (json_number_app _ _ r E Hr) as Ha. pose proof (json_number_head _ _ E) as (c & t & Ec & Hc).
    rewrite Ec in *. cbn [app] in *. rewrite json_value_number by done. by rewrite Ha.
  - cbn [json_ok print] in *. unfold stringify_string. cbn [app json_value].
    rewrite <- app_assoc. cbn [app]. by rewrite json_string_escape.
  - by apply print_reads_array.
  - cbn [json_ok] in Hok. apply andb_true_iff in Hok as [Hok Hnd%bool_decide_eq_true].
    apply print_reads_object; try done.
    apply Forall_forall. intros kv Hin%list_elem_of_In. rewrite forallb_forall in Hok.
    by apply andb_true_iff, Hok.
Qed.

Lemma JSON_parse_print v : json_ok show v = true -> JSON_parse (prt 0 v) = Some v.
Proof.
  intros Hok. unfold JSON_parse.
  pose proof (skip_ws_print 0 v [] Hok) as Hsk. rewrite app_nil_r in Hsk. rewrite Hsk.
  pose proof (print_reads v 0%nat (2 * length (prt 0 v) + 2)%nat [] Hok I ltac:(lia)) as H.
  rewrite app_nil_r in H. by rewrite H.
Qed.

End Roundtrip.

(** Parsing what was printed gives the value back. *)
Lemma JSON_parse_stringify show v : json_ok show v = true -> JSON_parse (stringify show v) = Some v.
Proof. by apply JSON_parse_print. Qed.

Lemma all_space_newline d : all_space (newline d) = true.
Proof. unfold all_space, newline. cbn [forallb]. generalize (2 * d)%nat. by induction n. Qed.

Lemma JSON_parse_stringify2 show v : json_ok show v = true -> JSON_parse (stringify2 show v) = Some v.
Proof. apply JSON_parse_print; [apply all_space_newline|done]. Qed.

(** ** Objects with optional properties *)

(** The property [k], present when the value is. *)
Definition of_option {A} (f : A -> jsval) (k : string) (o : option A) : list (jsstr * jsval) :=
  match o with Some x => [(js k, f x)] | None => [] end.
Arguments of_option {A} f k%_stdpp_scope o.

Definition opt_val {A} (f : A -> jsval) (o : option A) : jsval :=
  match o with Some x => f x | None => JUndefined end.

Lemma assoc_here {A} (f : A -> jsval) k o rest :
  assoc (js k) (of_option f k o ++ rest) = match o with Some x => f x | None => assoc (js k) rest end.
Proof. destruct o; simpl; [|done]. by rewrite str_eqb_refl. Qed.

Lemma assoc_skip {A} (f : A -> jsval) k k' o rest :
  (js k =s? js k') = false -> assoc (js k) (of_option f k' o ++ rest) = assoc (js k) rest.
Proof. destruct o; simpl; [|done]. by intros ->. Qed.

Lemma assoc_skip_field k k' v rest :
  (js k =s? js k') = false -> assoc (js k) ((js k', v) :: rest) = assoc (js k) rest.
Proof. simpl. by intros ->. Qed.

(** *** Setting and deleting properties *)

(** [delete object[k]] *)
Definition obj_del (k : jsstr) (fs : list (jsstr * jsval)) : list (jsstr * jsval) :=
  filter (fun kv => kv.1 <> k) fs.

(** [k in object] *)
Definition has_key (k : jsstr) (fs : list (jsstr * jsval)) : bool := bool_decide (k ∈ fs.*1).

Lemma assoc_set_eq k v fs : assoc k (obj_set k v fs) = v.
Proof.
  induction fs as [|[k' w] fs IH]; cbn [obj_set assoc]; [by rewrite str_eqb_refl|].
  destruct (k =s? k') eqn:E; cbn [assoc]; by rewrite E.
Qed.

Lemma assoc_set_ne k k' v fs : k <> k' -> assoc k (obj_set k' v fs) = assoc k fs.
Proof.
  intros Hne. induction fs as [|[k2 w] fs IH]; cbn [obj_set assoc].
  - by rewrite (proj2 (str_eqb_neq k k')).
  - destruct (k' =s? k2) eqn:E; cbn [assoc]; [|by rewrite IH].
    apply str_eqb_eq in E as <-. by rewrite (proj2 (str_eqb_neq k k')).
Qed.

Lemma assoc_del_eq k fs : assoc k (obj_del k fs) = JUndefined.
Proof.
  unfold obj_del. induction fs as [|[k2 w] fs IH]; [done|]. rewrite filter_cons. cbn [fst].
  case_decide as E; [|exact IH]. cbn [assoc]. by rewrite (proj2 (str_eqb_neq k k2)) by (by intros ->).
Qed.

Lemma assoc_del_ne k k' fs : k <> k' -> assoc k (obj_del k' fs) = assoc k fs.
Proof.
  intros Hne. unfold obj_del. induction fs as [|[k2 w] fs IH]; [done|]. rewrite filter_cons. cbn [fst assoc].
  case_decide as E; cbn [assoc]; [by rewrite IH|].
  destruct (decide (k2 = k')) as [->|]; [|done]. by rewrite (proj2 (str_eqb_neq k k')).
Qed.

Lemma set_same k v fs : assoc k fs = v -> v <> JUndefined -> obj_set k v fs = fs.
Proof.
  intros <- Hv. induction fs as [|[k' w] fs IH]; [done|]. cbn [obj_set assoc] in Hv |- *.
  destruct (k =s? k') eqn:E; [done|]. f_equal. by apply IH.
Qed.

Lemma obj_set_keys k v fs x : x ∈ (obj_set k v fs).*1 <-> x = k \/ x ∈ fs.*1.
Proof.
  induction fs as [|[k2 w] fs IH]; cbn [obj_set]; [set_solver|].
  destruct (k =s? k2) eqn:E; rewrite !fmap_cons, !elem_of_cons; cbn [fst]; [|rewrite IH; tauto].
  apply str_eqb_eq in E as <-. tauto.
Qed.

Lemma obj_set_NoDup k v fs : NoDup fs.*1 -> NoDup (obj_set k v fs).*1.
Proof.
  induction fs as [|[k2 w] fs IH]; cbn [obj_set]; intros H; [apply NoDup_singleton|].
  rewrite fmap_cons in H. apply NoDup_cons in H as [Hk Hf]. cbn [fst] in Hk.
  destruct (k =s? k2) eqn:E; rewrite fmap_cons; cbn [fst]; [by apply NoDup_cons|].
  apply NoDup_cons. split; [|by apply IH]. rewrite obj_set_keys. intros [->|]; [|done].
  by rewrite str_eqb_refl in E.
Qed.

Section ObjectOk.
Variable show : jsnum -> jsstr.
Definition fields_ok (fs : list (jsstr * jsval)) : bool := json_ok show (JObject fs).

Lemma fields_ok_iff fs :
  fields_ok fs = true <-> Forall (fun kv => str_ok kv.1 = true /\ json_ok show kv.2 = true) fs /\ NoDup fs.*1.
Proof.
  unfold fields_ok. cbn [json_ok]. rewrite andb_true_iff, bool_decide_eq_true, forallb_forall, Forall_forall.
  setoid_rewrite andb_true_iff. by setoid_rewrite list_elem_of_In.
Qed.

Lemma fields_ok_set k v fs :
  fields_ok fs = true -> str_ok k = true -> json_ok show v = true -> fields_ok (obj_set k v fs) = true.
Proof.
  rewrite !fields_ok_iff. intros [Hf Hn] Hk Hv. split; [|by apply obj_set_NoDup].
  clear Hn. induction Hf as [|[k2 w] fs [Hk2 Hw] Hf IH]; cbn [obj_set].
  - by apply Forall_cons.
  - destruct (k =s? k2); apply Forall_cons; by split.
Qed.

Lemma fields_ok_del k fs : fields_ok fs = true -> fields_ok (obj_del k fs) = true.
Proof.
  rewrite !fields_ok_iff. unfold obj_del. intros [Hf Hn]. split.
  - rewrite Forall_forall in Hf |- *. intros kv [_ H]%list_elem_of_filter. by apply Hf.
  - clear Hf. induction fs as [|[k2 w] fs IH]; [done|]. rewrite fmap_cons in Hn. apply NoDup_cons in Hn as [Hk Hf].
    rewrite filter_cons. case_decide; [|by apply IH]. rewrite fmap_cons. apply NoDup_cons. split; [|by apply IH].
    intros ([k3 w3] & E & [_ Hin]%list_elem_of_filter)%list_elem_of_fmap. apply Hk. rewrite E.
    by apply list_elem_of_fmap_2.
Qed.

Lemma parse_fields fs : fields_ok fs = true -> JSON_parse (stringify show (JObject fs)) = Some (JObject fs).
Proof. apply JSON_parse_stringify. Qed.
End ObjectOk.

(** A printer of numbers that is right on the numbers of the examples: natural numbers. *)
Definition show_int (n : jsnum) : jsstr :=
  match n with
  | S754_finite false m e => show_dec (Z.to_N (fst (int_part m e)))
  | _ => js "0"
  end.
