(* ===== verification/Zod.v ===== *)
(** * Validation schemas

    The client validates what it reads from local storage with the package zod.
    The schemas are data, built with the constructors the sources use; [parse] is
    the package's, a parameter of the models, and the class [Zod] states what the
    code relies on.  [reference_parse] is an instance.

    [parse] returns the validated copy of its argument, [None] when it throws. *)

From Stdlib Require Import SpecFloat.
From S2P Require Import Prelude JsValue Json.

Inductive schema :=
| ZString
| ZNumber
| ZBoolean
| ZEnum (values : list jsstr)
| ZArray (min : nat) (item : schema)
| ZObject (shape : list (jsstr * schema))
| ZOptional (s : schema)
| ZNullable (s : schema).

(** The properties named in the shape, in its order; other properties are dropped
    and a missing property stays missing. *)
Fixpoint parse_shape (parse : schema -> jsval -> option jsval) (shape : list (jsstr * schema))
    (fs : list (jsstr * jsval)) : option (list (jsstr * jsval)) :=
  match shape with
  | [] => Some []
  | (k, s) :: shape' =>
      w ← parse s (assoc k fs);
      ws ← parse_shape parse shape' fs;
      Some (if has_key k fs then (k, w) :: ws else ws)
  end.

Class Zod (parse : schema -> jsval -> option jsval) : Prop := {
  zod_string v : parse ZString v = match v with JString _ => Some v | _ => None end;
  zod_number n : is_finite n = true -> parse ZNumber (JNumber n) = Some (JNumber n);
  zod_number_inv v w : parse ZNumber v = Some w -> w = v /\ exists n, v = JNumber n;
  zod_boolean v : parse ZBoolean v = match v with JBool _ => Some v | _ => None end;
  zod_enum values v :
    parse (ZEnum values) v
    = match v with JString s => if bool_decide (s ∈ values) then Some v else None | _ => None end;
  zod_array min item v :
    parse (ZArray min item) v
    = match v with
      | JArray l => if Nat.leb min (length l) then JArray <$> mapM (parse item) l else None
      | _ => None
      end;
  zod_object shape fs : parse (ZObject shape) (JObject fs) = JObject <$> parse_shape parse shape fs;
  (** An array is rejected or read as an object without the properties of the shape. *)
  zod_object_inv shape v w :
    parse (ZObject shape) v = Some w ->
    exists fs, parse (ZObject shape) (JObject fs) = Some w;
  zod_optional s v :
    parse (ZOptional s) v = match v with JUndefined => Some JUndefined | _ => parse s v end;
  zod_nullable s v :
    parse (ZNullable s) v = match v with JNull => Some JNull | _ => parse s v end }.

(** ** An instance *)

Fixpoint reference_parse (s : schema) (v : jsval) : option jsval :=
  match s with
  | ZString => match v with JString _ => Some v | _ => None end
  | ZNumber => match v with JNumber n => if is_finite n then Some v else None | _ => None end
  | ZBoolean => match v with JBool _ => Some v | _ => None end
  | ZEnum values =>
      match v with JString s => if bool_decide (s ∈ values) then Some v else None | _ => None end
  | ZArray min item =>
      match v with
      | JArray l => if Nat.leb min (length l) then JArray <$> mapM (reference_parse item) l else None
      | _ => None
      end
  | ZObject shape =>
      match v with
      | JObject fs =>
          JObject <$> (fix go shape :=
            match shape with
            | [] => Some []
            | (k, s) :: shape' =>
                w ← reference_parse s (assoc k fs);
                ws ← go shape';
                Some (if has_key k fs then (k, w) :: ws else ws)
            end) shape
      | _ => None
      end
  | ZOptional s => match v with JUndefined => Some JUndefined | _ => reference_parse s v end
  | ZNullable s => match v with JNull => Some JNull | _ => reference_parse s v end
  end.

Lemma reference_shape fs shape :
  (fix go shape :=
     match shape with
     | [] => Some []
     | (k, s) :: shape' =>
         w ← reference_parse s (assoc k fs);
         ws ← go shape';
         Some (if has_key k fs then (k, w) :: ws else ws)
     end) shape = parse_shape reference_parse shape fs.
Proof. induction shape as [|[k s] shape IH]; [done|]. cbn [parse_shape]. by rewrite <- IH. Qed.

#[export] Instance reference_Zod : Zod reference_parse.
Proof.
  split; intros; cbn [reference_parse]; try done.
  - by rewrite H.
  - destruct v as [| | |n| | |]; try done. cbn in H. destruct (is_finite n); [|done]. simplify_eq. eauto.
  - by rewrite reference_shape.
  - destruct v; try done. eauto.
Qed.

(** ** Lemmas *)

Section Laws.
Context (parse : schema -> jsval -> option jsval) `{HZ : !Zod parse}.

(** Reading one property of an accepted object. *)
Lemma parse_shape_field shape fs gs k s :
  NoDup (shape.*1) -> parse_shape parse shape fs = Some gs -> (k, s) ∈ shape ->
  exists w, parse s (assoc k fs) = Some w /\ assoc k gs = if has_key k fs then w else JUndefined.
Proof.
  revert gs. induction shape as [|[k' s'] shape IH]; intros gs Hnd H Hin; [set_solver|].
  cbn [parse_shape] in H. rewrite fmap_cons in Hnd. apply NoDup_cons in Hnd as [Hk' Hnd].
  apply bind_Some in H as (w & Hw & (ws & Hws & H)%bind_Some). simplify_eq.
  assert (Hkeys : forall k0, k0 ∉ shape.*1 -> assoc k0 ws = JUndefined).
  { clear -Hws. revert ws Hws. induction shape as [|[k1 s1] shape IH]; intros ws Hws k0 Hk0; simpl in *.
    - by simplify_eq.
    - apply bind_Some in Hws as (w & _ & (ws' & Hws' & H)%bind_Some). simplify_eq.
      rewrite not_elem_of_cons in Hk0. destruct Hk0 as [Hne Hk0].
      destruct (has_key k1 fs); [|by apply IH]. cbn [assoc]. rewrite (proj2 (str_eqb_neq k0 k1)) by done.
      by apply IH. }
  apply elem_of_cons in Hin as [Heq|Hin].
  - simplify_eq. exists w. split; [done|]. destruct (has_key k' fs); [|by apply Hkeys].
    cbn [assoc]. by rewrite str_eqb_refl.
  - destruct (IH ws Hnd Hws Hin) as (w' & Hw' & Ha). exists w'. split; [done|].
    assert (k <> k') by (intros ->; apply Hk'; apply list_elem_of_fmap; by exists (k', s)).
    destruct (has_key k' fs); [|done]. cbn [assoc]. by rewrite (proj2 (str_eqb_neq k k')).
Qed.

(** A property of an accepted object, on its own: the value the schema returned for
    some value, or nothing where the schema accepts [undefined]. *)
Lemma object_field shape v w k s :
  NoDup (shape.*1) -> parse (ZObject shape) v = Some w -> (k, s) ∈ shape ->
  (exists x, parse s x = Some (match w with JObject gs => assoc k gs | _ => JUndefined end))
  \/ ((match w with JObject gs => assoc k gs | _ => JUndefined end) = JUndefined
      /\ exists y, parse s JUndefined = Some y).
Proof.
  intros Hnd H Hin. destruct (zod_object_inv _ _ _ H) as [fs Hfs]. rewrite zod_object in Hfs.
  apply fmap_Some in Hfs as (gs & Hgs & ->).
  destruct (parse_shape_field shape fs gs k s Hnd Hgs Hin) as (x & Hx & ->).
  destruct (has_key k fs) eqn:E; [left; eauto|]. right. split; [done|].
  assert (Hu : assoc k fs = JUndefined).
  { apply bool_decide_eq_false in E. clear -E. induction fs as [|[k' v'] fs IH]; [done|].
    rewrite fmap_cons, not_elem_of_cons in E. destruct E as [Hne E]. cbn [assoc].
    rewrite (proj2 (str_eqb_neq k k')) by done. by apply IH. }
  rewrite Hu in Hx. eauto.
Qed.

Lemma object_is_object shape v w : parse (ZObject shape) v = Some w -> exists gs, w = JObject gs.
Proof.
  intros H. destruct (zod_object_inv _ _ _ H) as [fs Hfs]. rewrite zod_object in Hfs.
  apply fmap_Some in Hfs as (gs & _ & ->). eauto.
Qed.

(** Accepting an object property by property: an optional one, then a required one. *)
Lemma parse_shape_optional {A} (f : A -> jsval) k s o shape fs :
  assoc (js k) fs = opt_val f o -> has_key (js k) fs = bool_decide (is_Some o) ->
  (forall x, o = Some x -> parse s (f x) = Some (f x) /\ f x <> JUndefined) ->
  parse_shape parse ((js k, ZOptional s) :: shape) fs
  = (fun ws => of_option f k o ++ ws) <$> parse_shape parse shape fs.
Proof.
  intros Ha Hk Hp. cbn [parse_shape]. rewrite Ha, Hk, zod_optional. destruct o as [x|]; simpl.
  - destruct (Hp x eq_refl) as [Hx Hu].
    assert (match f x with JUndefined => Some JUndefined | _ => parse s (f x) end = Some (f x)) as ->
      by (by destruct (f x)).
    simpl. by destruct (parse_shape parse shape fs).
  - by destruct (parse_shape parse shape fs).
Qed.

Lemma parse_shape_required k s v shape fs :
  assoc (js k) fs = v -> has_key (js k) fs = true -> parse s v = Some v ->
  parse_shape parse ((js k, s) :: shape) fs = cons (js k, v) <$> parse_shape parse shape fs.
Proof.
  intros Ha Hk Hp. cbn [parse_shape]. rewrite Ha, Hk, Hp. simpl. by destruct (parse_shape parse shape fs).
Qed.

Lemma zod_array_all min item l :
  (min <= length l)%nat -> Forall (fun v => parse item v = Some v) l ->
  parse (ZArray min item) (JArray l) = Some (JArray l).
Proof.
  intros Hm Hl. rewrite zod_array. rewrite (proj2 (Nat.leb_le _ _)) by done.
  assert (mapM (parse item) l = Some l) as ->; [|done].
  apply mapM_Some. clear Hm. induction Hl as [|v l Hv _ IH]; [apply List.Forall2_nil|by apply List.Forall2_cons].
Qed.

End Laws.
