(* ===== verification/JsText.v ===== *)
(** * Regular expressions and numeric texts of JavaScript

    The part of ECMAScript's regular expressions that the client uses, with the
    backtracking semantics of the language: a matcher takes a position, with the
    captures made so far, and a continuation, and tries the alternatives in
    order, greedy quantifiers longest first.  The file also holds [Number(v)],
    [String(v)] and the lemmas that make the matcher compute: a quantified class followed by
    something that refuses the class takes the whole run. *)

From Stdlib Require Import SpecFloat.
From S2P Require Import Prelude JsValue Json.

Local Open Scope N_scope.

(** ** Syntax *)

Inductive regex :=
| Empty
| Unit (f : N -> bool)           (* a character, an escape or a class *)
| Seq (a b : regex)
| Alt (a b : regex)              (* a|b *)
| Star (a : regex)               (* a*, greedy *)
| Group (n : nat) (a : regex)    (* the n-th capturing parentheses *)
| Backref (n : nat)              (* \n *)
| Start                          (* ^ *)
| End                            (* $ *)
| WordB.                         (* \b *)

Infix ">>" := Seq (at level 60, right associativity) : js_scope.
Infix "|:" := Alt (at level 65, right associativity) : js_scope.

(** Literal text. *)
Fixpoint lit (t : jsstr) : regex :=
  match t with [] => Empty | c :: t' => Unit (N.eqb c) >> lit t' end.
Definition txt (s : string) : regex := lit (js s).
Arguments txt s%_stdpp_scope.

Definition cls (f : N -> bool) : regex := Unit f.
Definition plus (a : regex) : regex := a >> Star a.
Definition opt (a : regex) : regex := a |: Empty.

(** One of the texts, in order. *)
Fixpoint one_of (ts : list jsstr) : regex :=
  match ts with
  | [] => Unit (fun _ => false)
  | [t] => lit t
  | t :: ts' => lit t |: one_of ts'
  end.

(** Classes: every unit but one, [\w], [.] (not a line terminator) and [[\s\S]]. *)
Definition not_unit (q : N) (c : N) : bool := negb (c =? q).
Definition is_word (c : N) : bool :=
  is_digit c || (65 <=? c) && (c <=? 90) || (97 <=? c) && (c <=? 122) || (c =? 95).
Definition line_end (c : N) : bool := (c =? 10) || (c =? 13) || (c =? 8232) || (c =? 8233).
Definition not_line_end (c : N) : bool := negb (line_end c).
Definition any_unit (c : N) : bool := true.

(** ** Matching *)

(** A position: the units before it in reverse, the units after it, and the
    captures, the latest first. *)
Record pos := mkPos { before : jsstr; after : jsstr; caps : list (nat * jsstr) }.

Fixpoint capture (n : nat) (cs : list (nat * jsstr)) : option jsstr :=
  match cs with
  | [] => None
  | (k, t) :: cs' => if Nat.eqb n k then Some t else capture n cs'
  end.

Definition forward (n : nat) (p : pos) : pos :=
  mkPos (reverse (take n (after p)) ++ before p) (drop n (after p)) (caps p).

Definition word_at (s : jsstr) : bool := match s with c :: _ => is_word c | [] => false end.

Section Match.
(** The [m] flag: [^] and [$] also match at line terminators. *)
Variable multiline : bool.

Definition at_start (p : pos) : bool :=
  match before p with [] => true | c :: _ => multiline && line_end c end.
Definition at_end (p : pos) : bool :=
  match after p with [] => true | c :: _ => multiline && line_end c end.

Definition cont := pos -> option pos.

Definition or_else (a : option pos) (b : option pos) : option pos :=
  match a with Some x => Some x | None => b end.

(** An iteration of a quantifier that consumes nothing is refused, so that the
    number of iterations is at most the number [n] of units left. *)
Definition star (m : cont -> cont) (k : cont) : nat -> cont :=
  fix go (n : nat) (p : pos) {struct n} : option pos :=
    match n with
    | O => k p
    | S n' =>
        or_else
          (m (fun p' => if Nat.ltb (length (after p')) (length (after p)) then go n' p' else None) p)
          (k p)
    end.

Fixpoint rmatch (r : regex) (k : cont) (p : pos) {struct r} : option pos :=
  match r with
  | Empty => k p
  | Unit f =>
      match after p with
      | c :: s => if f c then k (mkPos (c :: before p) s (caps p)) else None
      | [] => None
      end
  | Seq a b => rmatch a (rmatch b k) p
  | Alt a b => or_else (rmatch a k p) (rmatch b k p)
  | Star a => star (rmatch a) k (length (after p)) p
  | Group n a =>
      rmatch a (fun p' =>
        k (mkPos (before p') (after p')
             ((n, take (length (after p) - length (after p')) (after p)) :: caps p'))) p
  | Backref n =>
      match capture n (caps p) with
      | None => k p
      | Some t => if starts_with t (after p) then k (forward (length t) p) else None
      end
  | Start => if at_start p then k p else None
  | End => if at_end p then k p else None
  | WordB => if xorb (word_at (before p)) (word_at (after p)) then k p else None
  end.

(** A match at a position: the text matched, group 0, and the captures. *)
Definition match_at (r : regex) (p : pos) : option pos := rmatch (Group 0 r) Some p.

(** The first match at or after a position, with the units skipped to reach it. *)
Fixpoint search (r : regex) (b s : jsstr) (skipped : nat) : option (nat * pos) :=
  match match_at r (mkPos b s []) with
  | Some p => Some (skipped, p)
  | None => match s with
            | [] => None
            | c :: s' => search r (c :: b) s' (S skipped)
            end
  end.

(** [text.match(re)] without the [g] flag, and [re.test(text)]. *)
Definition exec (r : regex) (s : jsstr) : option (nat -> option jsstr) :=
  match search r [] s 0 with
  | Some (_, p) => Some (fun n => capture n (caps p))
  | None => None
  end.
Definition test (r : regex) (s : jsstr) : bool :=
  match search r [] s 0 with Some _ => true | None => false end.

(** A loop [while ((m = re.exec(text)) !== null)] and [text.matchAll(re)] with
    the [g] flag: the matches with their indexes, each search starting where the
    previous match ended.  Every expression used this way consumes a unit. *)
Fixpoint exec_all (fuel : nat) (r : regex) (b s : jsstr) (base : nat) :
  list (nat * (nat -> option jsstr)) :=
  match fuel with
  | O => []
  | S fuel' =>
      match search r b s 0 with
      | None => []
      | Some (i, p) =>
          (base + i, fun n => capture n (caps p))%nat
          :: exec_all fuel' r (before p) (after p) (base + (length s - length (after p)))%nat
      end
  end.
Definition matchAll (r : regex) (s : jsstr) : list (nat * (nat -> option jsstr)) :=
  exec_all (S (length s)) r [] s 0.

(** [text.replaceAll(re, by)] for a replacement text without [$]. *)
Fixpoint replace_go (fuel : nat) (r : regex) (by_ : jsstr) (b s : jsstr) : jsstr :=
  match fuel with
  | O => s
  | S fuel' =>
      match search r b s 0 with
      | None => s
      | Some (i, p) => take i s ++ by_ ++ replace_go fuel' r by_ (before p) (after p)
      end
  end.
Definition replaceAll (r : regex) (by_ s : jsstr) : jsstr := replace_go (S (length s)) r by_ [] s.

(** [text.split(re)] for an expression that does not match the empty text. *)
Fixpoint split_re_go (fuel : nat) (r : regex) (b s : jsstr) : list jsstr :=
  match fuel with
  | O => [s]
  | S fuel' =>
      match search r b s 0 with
      | None => [s]
      | Some (i, p) => take i s :: split_re_go fuel' r (before p) (after p)
      end
  end.
Definition split_re (r : regex) (s : jsstr) : list jsstr := split_re_go (S (length s)) r [] s.

End Match.

(** The text of a capture the code reads without a test: present in every match. *)
Definition cap (m : nat -> option jsstr) (n : nat) : jsstr := default [] (m n).

(** ** [Number(text)]

    The decimal literals of StringNumericLiteral, with optional sign, and the
    hexadecimal, octal and binary ones, which take no sign; blank text is zero
    and anything else [NaN]. *)
Definition digits_in (base : N) (s : jsstr) : option N :=
  foldl (fun acc c =>
    a ← acc; d ← hex_value c; if d <? base then Some (a * base + d) else None) (Some 0) s.

Definition radix_number (s : jsstr) : option jsnum :=
  match s with
  | 48 :: x :: ds =>
      let base := if (x =? 120) || (x =? 88) then Some 16
                  else if (x =? 111) || (x =? 79) then Some 8
                  else if (x =? 98) || (x =? 66) then Some 2 else None in
      b ← base;
      if truthy ds then (fun v => num (Z.of_N v)) <$> digits_in b ds else None
  | _ => None
  end.

Definition unsigned_decimal (neg : bool) (s : jsstr) : jsnum :=
  if s =s? js "Infinity" then S754_infinity neg
  else
    let '(ds, r) := span is_digit s in
    let '(fs, r') := match r with 46 :: r1 => span is_digit r1 | _ => ([], r) end in
    if negb (truthy (ds ++ fs)) then S754_nan
    else match json_exp r' with
         | Some (e, []) => dec_to_num neg (parse_dec (ds ++ fs)) (e - Z.of_nat (length fs))%Z
         | _ => S754_nan
         end.

Definition to_number (text : jsstr) : jsnum :=
  let s := trim text in
  if negb (truthy s) then S754_zero false
  else match radix_number s with
       | Some n => n
       | None => match s with
                 | 45 :: r => unsigned_decimal true r
                 | 43 :: r => unsigned_decimal false r
                 | _ => unsigned_decimal false s
                 end
       end.

(** ** [String(v)], template literals and [Number(v)] on any value

    [show] prints a number ([Number.prototype.toString]).  An array is the list
    of its elements with commas, [null] and [undefined] elements empty; a plain
    object prints as its tag. *)
Section Conversions.
Variable show : jsnum -> jsstr.

Fixpoint js_string (v : jsval) : jsstr :=
  match v with
  | JUndefined => js "undefined"
  | JNull => js "null"
  | JBool b => if b then js "true" else js "false"
  | JNumber n => show n
  | JString s => s
  | JArray l =>
      join [44] ((fix elements l :=
                    match l with
                    | [] => []
                    | v :: l' => (if nullish v then [] else js_string v) :: elements l'
                    end) l)
  | JObject _ => js "[object Object]"
  end.

Definition js_number (v : jsval) : jsnum :=
  match v with
  | JUndefined => S754_nan
  | JNull => num 0
  | JBool b => if b then num 1 else num 0
  | JNumber n => n
  | JString s => to_number s
  | JArray _ | JObject _ => to_number (js_string v)
  end.

(** [Number(v) || 0] *)
Definition number_or_0 (v : jsval) : jsnum :=
  let n := js_number v in if num_truthy n then n else num 0.
End Conversions.

(** [toLowerCase] and [toUpperCase] on ASCII letters, for comparisons with texts no
    other unit is mapped to. *)
Definition lower_ascii (s : jsstr) : jsstr :=
  (fun c => if (65 <=? c) && (c <=? 90) then c + 32 else c) <$> s.
Definition upper_ascii (s : jsstr) : jsstr :=
  (fun c => if (97 <=? c) && (c <=? 122) then c - 32 else c) <$> s.

(** ** Lemmas *)

Section MatchLemmas.
Notation rm := (rmatch false).

(** A continuation that refuses every position whose next unit is in [f]. *)
Definition refuses (f : N -> bool) (k : cont) : Prop :=
  forall b c s cs, f c = true -> k (mkPos b (c :: s) cs) = None.

(** What is left does not begin with a unit of [f]. *)
Definition stops (f : N -> bool) (u : jsstr) : Prop :=
  match u with [] => True | x :: _ => f x = false end.

Lemma or_else_None x : or_else x None = x.
Proof. by destruct x. Qed.

Lemma rmatch_seq a b k p : rm (a >> b) k p = rm a (rm b k) p.
Proof. reflexivity. Qed.

Lemma rmatch_unit f k b x s c :
  rm (Unit f) k (mkPos b (x :: s) c) = if f x then k (mkPos (x :: b) s c) else None.
Proof. reflexivity. Qed.

Lemma rmatch_group n a k b s c :
  rm (Group n a) k (mkPos b s c)
  = rm a (fun p' => k (mkPos (before p') (after p') ((n, take (length s - length (after p')) s) :: caps p')))
      (mkPos b s c).
Proof. reflexivity. Qed.

Lemma rmatch_lit t : forall k b u c, rm (lit t) k (mkPos b (t ++ u) c) = k (mkPos (reverse t ++ b) u c).
Proof.
  induction t as [|x t IH]; intros k b u c; [reflexivity|]. simpl. rewrite N.eqb_refl, IH.
  by rewrite reverse_cons, <- (assoc_L (++)).
Qed.

Lemma rmatch_lit_fail t : forall k b s c, starts_with t s = false -> rm (lit t) k (mkPos b s c) = None.
Proof.
  induction t as [|x t IH]; intros k b [|y s] c H; simpl in *; try done.
  destruct (x =? y); simpl in H; [by apply IH|done].
Qed.

Lemma refuses_lit f x t k : f x = false -> refuses f (rm (lit (x :: t)) k).
Proof. intros Hx b c s cs Hc. simpl. destruct (N.eqb_spec x c); [congruence|done]. Qed.

Lemma refuses_end f k : refuses f (rm End k).
Proof. by intros b c s cs _. Qed.

(** A piece of text that one iteration of [a] consumes, and nothing else does. *)
Definition piece (a : regex) (k : cont) (x : jsstr) : Prop :=
  x <> [] /\ (forall k' b u c, rm a k' (mkPos b (x ++ u) c) = k' (mkPos (reverse x ++ b) u c))
  /\ (forall b u c, k (mkPos b (x ++ u) c) = None).

Lemma star_go_pieces a k xs : forall n b u c,
  Forall (piece a k) xs -> (length (concat xs) <= n)%nat ->
  (forall k' b c, rm a k' (mkPos b u c) = None) ->
  star (rm a) k n (mkPos b (concat xs ++ u) c) = k (mkPos (reverse (concat xs) ++ b) u c).
Proof.
  induction xs as [|x xs IH]; intros n b u c Hxs Hn Hu; simpl in *.
  - destruct n as [|n]; [reflexivity|]. simpl. by rewrite Hu.
  - apply Forall_cons in Hxs as [(Hne & Hx & Hk) Hxs]. rewrite length_app in Hn.
    destruct n as [|n]; [destruct x; simpl in *; [done|lia]|]. simpl.
    rewrite <- (assoc_L (++)). rewrite Hx, Hk, or_else_None. simpl.
    destruct (Nat.ltb_spec (length (concat xs ++ u)) (length (x ++ concat xs ++ u))) as [_|Hl].
    + rewrite IH; [|done|destruct x; simpl in *; [done|lia]|done].
      by rewrite reverse_app, <- (assoc_L (++)).
    + rewrite (length_app x) in Hl. destruct x; simpl in *; [done|lia].
Qed.

Lemma star_pieces a k xs b u c :
  Forall (piece a k) xs -> (forall k' b c, rm a k' (mkPos b u c) = None) ->
  rm (Star a) k (mkPos b (concat xs ++ u) c) = k (mkPos (reverse (concat xs) ++ b) u c).
Proof. intros Hxs Hu. apply star_go_pieces; [done|simpl; rewrite length_app; lia|done]. Qed.

(** The run of a class is consumed whole when what follows refuses the class. *)
Lemma star_run f k run b u c :
  forallb f run = true -> stops f u -> refuses f k ->
  rm (Star (Unit f)) k (mkPos b (run ++ u) c) = k (mkPos (reverse run ++ b) u c).
Proof.
  intros Hf Hu Hk.
  assert (Hc : concat ((fun x => [x]) <$> run) = run) by (clear; induction run; simpl; by f_equal).
  pose proof (star_pieces (Unit f) k ((fun x => [x]) <$> run) b u c) as H. rewrite Hc in H. apply H.
  - apply Forall_fmap, Forall_forall. intros x Hx. rewrite forallb_forall in Hf.
    assert (f x = true) as Hfx by (apply Hf; by apply list_elem_of_In).
    split; [done|]. split; [intros; simpl; by rewrite Hfx|intros; by apply Hk].
  - intros k' b' c'. destruct u as [|y u]; [done|]. simpl in *. by rewrite Hu.
Qed.

(** A captured run: [([class]+)] *)
Lemma group_run n f k run b u c :
  forallb f run = true -> run <> [] -> stops f u -> refuses f k ->
  rm (Group n (plus (cls f))) k (mkPos b (run ++ u) c)
  = k (mkPos (reverse run ++ b) u ((n, run) :: c)).
Proof.
  intros Hf Hne Hu Hk. destruct run as [|x run]; [done|].
  assert (Hx : f x = true /\ forallb f run = true) by (by apply andb_true_iff in Hf).
  unfold plus, cls. rewrite rmatch_group, rmatch_seq, <- app_comm_cons, rmatch_unit, (proj1 Hx).
  rewrite (star_run f _ run); [|tauto|done|intros b' y s cs Hy; by apply Hk].
  cbn [after before caps length]. rewrite length_app.
  replace (S (length run + length u) - length u)%nat with (length (x :: run)) by (simpl; lia).
  rewrite (app_comm_cons run u x), take_app_length. f_equal. f_equal.
  by rewrite reverse_cons, <- (assoc_L (++)).
Qed.

Lemma group_run_end n f k run b c :
  forallb f run = true -> run <> [] -> refuses f k ->
  rm (Group n (plus (cls f))) k (mkPos b run c) = k (mkPos (reverse run ++ b) [] ((n, run) :: c)).
Proof.
  intros Hf Hne Hk. pose proof (group_run n f k run b [] c Hf Hne I Hk) as H. by rewrite app_nil_r in H.
Qed.

(** Anchored expressions are tried at the start only. *)
Lemma search_anchored_later r s : forall b n, b <> [] -> search false (Start >> r) b s n = None.
Proof.
  induction s as [|c s IH]; intros b n Hb; (destruct b as [|d b]; [done|]); simpl; [done|].
  by apply IH.
Qed.

Definition run_anchored (r : regex) (s : jsstr) : option pos :=
  rm r (fun p => Some (mkPos (before p) (after p)
          ((0%nat, take (length s - length (after p)) s) :: caps p))) (mkPos [] s []).

Lemma search_anchored r s : search false (Start >> r) [] s 0 = pair 0%nat <$> run_anchored r s.
Proof.
  assert (E : match_at false (Start >> r) (mkPos [] s []) = run_anchored r s) by reflexivity.
  destruct s as [|c s]; cbn [search]; rewrite E; [by destruct (run_anchored r [])|].
  rewrite search_anchored_later by done. by destruct (run_anchored r (c :: s)).
Qed.

Lemma exec_anchored r s :
  exec false (Start >> r) s = (fun p n => capture n (caps p)) <$> run_anchored r s.
Proof. unfold exec. rewrite search_anchored. by destruct (run_anchored r s). Qed.

Lemma test_anchored r s : test false (Start >> r) s = bool_decide (is_Some (run_anchored r s)).
Proof. unfold test. rewrite search_anchored. by destruct (run_anchored r s). Qed.

(** What a successful match consumed: a prefix made of units of the expression,
    after which the continuation succeeded. *)
Fixpoint units_ok (P : N -> Prop) (r : regex) : Prop :=
  match r with
  | Unit f => forall c, f c = true -> P c
  | Seq a b | Alt a b => units_ok P a /\ units_ok P b
  | Star a | Group _ a => units_ok P a
  | Backref _ => False
  | Empty | Start | End | WordB => True
  end.

Lemma rmatch_units P r : units_ok P r -> forall k p q,
  rm r k p = Some q ->
  exists a u b c, after p = a ++ u /\ Forall P a /\ k (mkPos b u c) = Some q.
Proof.
  induction r as [|f|r1 IH1 r2 IH2|r1 IH1 r2 IH2|r IH|n r IH| | | |]; simpl; intros Hok k p q H.
  - exists [], (after p), (before p), (caps p). by destruct p.
  - destruct (after p) as [|c s] eqn:E; [done|]. destruct (f c) eqn:Ef; [|done].
    exists [c], s, (c :: before p), (caps p). split; [done|]. split; [|done].
    apply Forall_singleton. by apply Hok.
  - destruct (IH1 (proj1 Hok) _ _ _ H) as (a & u & b & c & E & Ha & H').
    destruct (IH2 (proj2 Hok) _ _ _ H') as (a' & u' & b' & c' & E' & Ha' & H''). simpl in E'. subst u.
    exists (a ++ a'), u', b', c'. rewrite E, (assoc_L (++)). split; [done|].
    split; [by apply Forall_app_2|done].
  - unfold or_else in H. destruct (rm r1 k p) as [x|] eqn:E; [|exact (IH2 (proj2 Hok) _ _ _ H)].
    injection H as ->. exact (IH1 (proj1 Hok) _ _ _ E).
  - revert H. generalize (length (after p)). intros n. revert p.
    assert (Hz : forall p, k p = Some q ->
      exists a u b c, after p = a ++ u /\ Forall P a /\ k (mkPos b u c) = Some q).
    { intros p Hp. exists [], (after p), (before p), (caps p). by destruct p. }
    induction n as [|n IHn]; intros p H; [by apply Hz|]. simpl in H. unfold or_else in H.
    destruct (rm r _ p) as [x|] eqn:E; [injection H as ->|by apply Hz].
    destruct (IH Hok _ _ _ E) as (a & u & b & c & Ea & Ha & H'). cbn [after] in H'.
    destruct (Nat.ltb _ _); [|done]. destruct (IHn _ H') as (a' & u' & b' & c' & E' & Ha' & H'').
    simpl in E'. subst u. exists (a ++ a'), u', b', c'. rewrite Ea, (assoc_L (++)).
    split; [done|]. split; [by apply Forall_app_2|done].
  - destruct (IH Hok _ _ _ H) as (a & u & b & c & E & Ha & H'). simpl in H'. eauto 10.
  - done.
  - destruct (at_start false p); [|done]. exists [], (after p), (before p), (caps p). by destruct p.
  - destruct (at_end false p); [|done]. exists [], (after p), (before p), (caps p). by destruct p.
  - destruct (xorb _ _); [|done]. exists [], (after p), (before p), (caps p). by destruct p.
Qed.

Lemma rmatch_end k p q : rm End k p = Some q -> after p = [] /\ k p = Some q.
Proof. simpl. unfold at_end. by destruct (after p). Qed.

Lemma rmatch_lit_inv t k p q :
  rm (lit t) k p = Some q -> exists b u, after p = t ++ u /\ k (mkPos b u (caps p)) = Some q.
Proof.
  destruct p as [b s c]. simpl. destruct (starts_with t s) eqn:E.
  - apply starts_with_spec in E as [u ->]. rewrite rmatch_lit. eauto.
  - by rewrite rmatch_lit_fail.
Qed.

(** The greedy capture of any text finds the last place where the rest matches. *)
Lemma star_any_last k a u b c r :
  k (mkPos (reverse a ++ b) u c) = Some r ->
  (forall x y b', u = x ++ y -> x <> [] -> k (mkPos b' y c) = None) ->
  rm (Star (Unit any_unit)) k (mkPos b (a ++ u) c) = Some r.
Proof.
  intros Hk Hlater. cbn [rmatch after]. generalize (length_app a u). generalize (length (a ++ u)).
  intros n Hn. assert (Hn' : (length (a ++ u) <= n)%nat) by (rewrite length_app; lia). clear Hn.
  assert (Hrest : forall n y x b', u = x ++ y -> x <> [] ->
    star (rm (Unit any_unit)) k n (mkPos b' y c) = None).
  { clear n Hn'. induction n as [|n IH]; intros y x b' Hu Hx; [by apply (Hlater x)|].
    simpl. destruct y as [|z y]; simpl; [by apply (Hlater x)|].
    destruct (Nat.ltb _ _); [rewrite (IH y (x ++ [z])); [|by rewrite Hu, <- (assoc_L (++))|by destruct x]|];
      simpl; by apply (Hlater x). }
  revert n b Hk Hn'. induction a as [|z a IH]; intros n b Hk Hn; simpl in *.
  - destruct n as [|n]; [done|]. simpl. destruct u as [|z u]; simpl; [done|].
    destruct (Nat.ltb _ _); [rewrite (Hrest n u [z]) by done|]; done.
  - destruct n as [|n]; [lia|]. simpl.
    destruct (Nat.ltb_spec (length (a ++ u)) (S (length (a ++ u)))) as [_|?]; [|lia].
    rewrite IH; [done|by rewrite reverse_cons, <- (assoc_L (++)) in Hk|lia].
Qed.

(** A captured text, and a captured alternative. *)
Lemma group_lit n t k b u c :
  rm (Group n (lit t)) k (mkPos b (t ++ u) c) = k (mkPos (reverse t ++ b) u ((n, t) :: c)).
Proof.
  rewrite rmatch_group, rmatch_lit. cbn [after before caps]. do 3 f_equal. f_equal.
  rewrite length_app, Nat.add_sub. apply take_app_length.
Qed.

Lemma group_alt n a r k p :
  rm (Group n (a |: r)) k p = or_else (rm (Group n a) k p) (rm (Group n r) k p).
Proof. reflexivity. Qed.

Lemma group_lit_fail n t k b s c :
  starts_with t s = false -> rm (Group n (lit t)) k (mkPos b s c) = None.
Proof. intros H. rewrite rmatch_group. by apply rmatch_lit_fail. Qed.

(** *** Forward success

    [takes a x cs P]: in front of a text that satisfies [P], the expression [a]
    consumes [x] and captures [cs] as soon as the continuation accepts what is
    left; unlike the equations above it asks nothing of the continuation on the
    other ways to match.  [misses a P]: [a] matches at no text that satisfies [P]. *)
Definition takes (a : regex) (x : jsstr) (cs : list (nat * jsstr)) (P : jsstr -> Prop) : Prop :=
  forall k b u c r, P u -> k (mkPos (reverse x ++ b) u (cs ++ c)) = Some r ->
  rm a k (mkPos b (x ++ u) c) = Some r.

Definition misses (a : regex) (P : jsstr -> Prop) : Prop :=
  forall k b u c, P u -> rm a k (mkPos b u c) = None.

Definition anything (u : jsstr) : Prop := True.

Lemma takes_weaken a x cs (P Q : jsstr -> Prop) :
  takes a x cs P -> (forall u, Q u -> P u) -> takes a x cs Q.
Proof. intros H HQ k b u c r Hu. by apply H, HQ. Qed.

Lemma takes_seq a b x y cs ds (P Q : jsstr -> Prop) :
  takes a x cs P -> takes b y ds Q -> (forall u, Q u -> P (y ++ u)) ->
  takes (a >> b) (x ++ y) (ds ++ cs) Q.
Proof.
  intros Ha Hb HPQ k b0 u c r Hu Hk. rewrite rmatch_seq, <- (assoc_L (++)).
  apply Ha; [by apply HPQ|]. apply Hb; [done|]. by rewrite reverse_app, <- !(assoc_L (++)) in *.
Qed.

Lemma takes_lit t : takes (lit t) t [] anything.
Proof. intros k b u c r _ Hk. by rewrite rmatch_lit. Qed.

Lemma takes_empty P : takes Empty [] [] P.
Proof. by intros k b u c r _ Hk. Qed.

Lemma takes_group n a x cs P : takes a x cs P -> takes (Group n a) x ((n, x) :: cs) P.
Proof.
  intros Ha k b u c r Hu Hk. rewrite rmatch_group. apply Ha; [done|]. cbn [before after caps].
  rewrite length_app. replace (length x + length u - length u)%nat with (length x) by lia.
  by rewrite take_app_length.
Qed.

Lemma takes_alt_l a b x cs P : takes a x cs P -> takes (a |: b) x cs P.
Proof. intros Ha k b0 u c r Hu Hk. cbn [rmatch]. by rewrite (Ha k b0 u c r Hu Hk). Qed.

Lemma takes_alt_r a b x cs (P : jsstr -> Prop) :
  (forall k b0 u c, P u -> rm a k (mkPos b0 (x ++ u) c) = None) -> takes b x cs P -> takes (a |: b) x cs P.
Proof. intros Ha Hb k b0 u c r Hu Hk. cbn [rmatch]. rewrite Ha by done. by apply Hb. Qed.

Lemma takes_opt_none a P : misses a P -> takes (opt a) [] [] P.
Proof. intros Ha. apply takes_alt_r; [exact Ha|apply takes_empty]. Qed.

(** Iterations of a quantifier, one per piece; after the last one [a] misses. *)
Lemma takes_star a xs (P : jsstr -> Prop) :
  Forall (fun x => x <> [] /\ takes a x [] P /\ forall u, P (x ++ u)) xs ->
  takes (Star a) (concat xs) [] (fun u => P u /\ forall k b c, rm a k (mkPos b u c) = None).
Proof.
  intros Hxs k b u c r [HP Hu] Hk. cbn [rmatch after].
  assert (Hn : (length (concat xs) <= length (concat xs ++ u))%nat) by (rewrite length_app; lia).
  revert Hn. generalize (length (concat xs ++ u)). intros n. revert n b Hk.
  induction Hxs as [|x xs (Hne & Hx & HPx) Hxs IH]; intros n b Hk Hn; cbn [concat] in *.
  - cbn in Hk |- *. destruct n as [|n]; [done|]. cbn [star]. by rewrite Hu.
  - rewrite length_app in Hn. assert (0 < length x)%nat by (destruct x; simpl; [done|lia]).
    destruct n as [|n]; [lia|]. cbn [star]. rewrite <- (assoc_L (++)). erewrite Hx; [done| |].
    + destruct Hxs as [|y ys (_ & _ & HPy)]; [exact HP|]. cbn [concat]. rewrite <- (assoc_L (++)). apply HPy.
    + cbn [after app]. destruct (Nat.ltb_spec (length (concat xs ++ u)) (length (x ++ concat xs ++ u))) as [_|Hl].
      * apply IH; [by rewrite reverse_app, <- (assoc_L (++)) in Hk|lia].
      * rewrite (length_app x) in Hl. lia.
Qed.

Lemma takes_run f s : forallb f s = true -> takes (Star (Unit f)) s [] (stops f).
Proof.
  intros Hf. assert (Hc : concat ((fun x => [x]) <$> s) = s) by (clear; induction s; simpl; by f_equal).
  assert (H : takes (Star (Unit f)) (concat ((fun x => [x]) <$> s)) []
                (fun u => anything u /\ forall k b c, rm (Unit f) k (mkPos b u c) = None)).
  { apply takes_star, Forall_fmap, Forall_forall. intros x Hx.
    assert (Hfx : f x = true) by (rewrite forallb_forall in Hf; apply Hf; by apply list_elem_of_In).
    split; [done|]. split; [|done]. intros k b u c r _ Hk. cbn. by rewrite Hfx. }
  rewrite Hc in H. apply (takes_weaken _ _ _ _ _ H). intros u Hu. split; [done|].
  intros k b c. destruct u as [|y u]; [done|]. cbn. by rewrite Hu.
Qed.

Lemma takes_plus f s : s <> [] -> forallb f s = true -> takes (plus (cls f)) s [] (stops f).
Proof.
  intros Hne Hf. destruct s as [|x s]; [done|]. apply andb_true_iff in Hf as [Hx Hs].
  intros k b u c r Hu Hk. unfold plus, cls. rewrite rmatch_seq, <- app_comm_cons, rmatch_unit, Hx.
  apply takes_run; [done|done|]. by rewrite reverse_cons, <- (assoc_L (++)) in Hk.
Qed.

(** A search that matches at once, and one that first skips a unit. *)
Lemma search_takes r x cs (P : jsstr -> Prop) b u n :
  takes r x cs P -> P u ->
  search false r b (x ++ u) n = Some (n, mkPos (reverse x ++ b) u ((0%nat, x) :: cs)).
Proof.
  intros Hr Hu.
  assert (E : match_at false r (mkPos b (x ++ u) []) = Some (mkPos (reverse x ++ b) u ((0%nat, x) :: cs))).
  { apply (takes_group 0 _ _ _ _ Hr); [done|]. by rewrite app_nil_r. }
  destruct (x ++ u); cbn [search]; by rewrite E.
Qed.

Lemma search_skip r b y s n :
  (forall k c, rm r k (mkPos b (y :: s) c) = None) ->
  search false r b (y :: s) n = search false r (y :: b) s (S n).
Proof. intros H. cbn [search]. unfold match_at. by rewrite rmatch_group, H. Qed.

End MatchLemmas.
