(* ===== verification/BillingExpr.v ===== *)
(** * Billing expressions

    web/src/features/pricing/lib/billing-expr.ts: the registry of billing
    variables, the parser of tiered prices, the parser and the printer of request
    rules (conditional multipliers), and the functions that split an expression
    into its price part and its rules and put the two together again.

    Every regular expression of the source is a term of [JsText.regex], written
    group by group as in the source, and run by the backtracking matcher.

    [JSON.parse] of a literal throws on a malformed escape; the parser does not
    catch it, so that it returns a [Decoded] value: [Ok None] is [null]. *)

From Stdlib Require Import SpecFloat.
From S2P Require Import Prelude JsValue Json JsText.

Local Open Scope N_scope.

(** ** Variable registry *)

Inductive VarSide := input_side | output_side | condition_side.

Record BillingVar := mkVar {
  bv_key : jsstr; bv_field : option jsstr; bv_tierField : option jsstr;
  bv_label : jsstr; bv_shortLabel : jsstr; bv_side : VarSide;
  bv_isBase : bool; bv_isConditionOnly : bool; bv_group : option jsstr }.

Definition BILLING_VARS : list BillingVar :=
  [ mkVar (js "p") (Some (js "inputPrice")) (Some (js "input_unit_cost"))
      (js "Input price") (js "Input") input_side true false None;
    mkVar (js "c") (Some (js "outputPrice")) (Some (js "output_unit_cost"))
      (js "Completion price") (js "Output") output_side true false None;
    mkVar (js "len") None None (js "Input length") (js "Length") condition_side false true None;
    mkVar (js "cr") (Some (js "cacheReadPrice")) (Some (js "cache_read_unit_cost"))
      (js "Cache read price") (js "Cache Read") input_side false false (Some (js "cache"));
    mkVar (js "cc") (Some (js "cacheCreatePrice")) (Some (js "cache_create_unit_cost"))
      (js "Cache create price") (js "Cache Write") input_side false false (Some (js "cache"));
    mkVar (js "cc1h") (Some (js "cacheCreate1hPrice")) (Some (js "cache_create_1h_unit_cost"))
      (js "Cache create (1h) price") (js "Cache Write (1h)") input_side false false (Some (js "cache"));
    mkVar (js "img") (Some (js "imagePrice")) (Some (js "image_unit_cost"))
      (js "Image input price") (js "Image In") input_side false false (Some (js "media"));
    mkVar (js "img_o") (Some (js "imageOutputPrice")) (Some (js "image_output_unit_cost"))
      (js "Image output price") (js "Image Out") output_side false false (Some (js "media"));
    mkVar (js "ai") (Some (js "audioInputPrice")) (Some (js "audio_input_unit_cost"))
      (js "Audio input price") (js "Audio In") input_side false false (Some (js "media"));
    mkVar (js "ao") (Some (js "audioOutputPrice")) (Some (js "audio_output_unit_cost"))
      (js "Audio output price") (js "Audio Out") output_side false false (Some (js "media")) ].

Definition BILLING_PRICING_VARS : list BillingVar :=
  filter (fun v => bv_isConditionOnly v = false) BILLING_VARS.

Definition BILLING_CONDITION_VARS : list jsstr :=
  bv_key <$> filter (fun v => bv_isBase v || bv_isConditionOnly v = true) BILLING_VARS.

(** [field as string]: the pricing variables all have one. *)
Definition BILLING_VAR_KEY_TO_FIELD : list (jsstr * jsstr) :=
  (fun v => (bv_key v, default [] (bv_field v))) <$> BILLING_PRICING_VARS.

Definition BILLING_EXTRA_VARS : list BillingVar :=
  filter (fun v => negb (bv_isBase v) && negb (bv_isConditionOnly v) = true) BILLING_VARS.

(** Pairs of a tier field and its variable. *)
Definition BILLING_CACHE_VAR_MAP : list (jsstr * jsstr) :=
  (fun v => (default [] (bv_tierField v), bv_key v)) <$> BILLING_EXTRA_VARS.

(** The class of digits, point, exponent and signs; without the minus sign in tier conditions. *)
Definition num_unit (c : N) : bool :=
  is_digit c || (c =? 46) || (c =? 101) || (c =? 69) || (c =? 43) || (c =? 45).
Definition cond_unit (c : N) : bool :=
  is_digit c || (c =? 46) || (c =? 101) || (c =? 69) || (c =? 43).

Definition nums : regex := plus (cls num_unit).
Definition spaces : regex := Star (cls is_space).

Definition BILLING_VAR_REGEX : regex :=
  WordB >> Group 1 (one_of (bv_key <$> BILLING_PRICING_VARS))
  >> spaces >> txt "*" >> spaces >> Group 2 nums.

(** ** Request rule constants *)

Definition SOURCE_PARAM := js "param".
Definition SOURCE_HEADER := js "header".
Definition SOURCE_TIME := js "time".
Definition MATCH_EQ := js "eq".
Definition MATCH_CONTAINS := js "contains".
Definition MATCH_GT := js "gt".
Definition MATCH_GTE := js "gte".
Definition MATCH_LT := js "lt".
Definition MATCH_LTE := js "lte".
Definition MATCH_EXISTS := js "exists".
Definition MATCH_RANGE := js "range".

Definition TIME_FUNCS : list jsstr := [js "hour"; js "minute"; js "weekday"; js "month"; js "day"].

(** An optional sign, digits with an optional point or a point and digits, an
    optional exponent. *)
Definition digit : regex := cls is_digit.
Definition NUMERIC_LITERAL_REGEX : regex :=
  Start >> opt (txt "-")
  >> (plus digit >> opt (txt ".") >> Star digit |: txt "." >> plus digit)
  >> opt (cls (fun c => (c =? 101) || (c =? 69)) >> opt (cls (fun c => (c =? 43) || (c =? 45))) >> plus digit)
  >> End.
Definition is_numeric (text : jsstr) : bool := test false NUMERIC_LITERAL_REGEX text.

Inductive RequestCondition :=
| ParamHeaderCondition (isHeader : bool) (path mode value : jsstr)
| TimeCondition (timeFunc timezone mode value rangeStart rangeEnd : jsstr).

Record RequestRuleGroup := mkGroup { conditions : list RequestCondition; multiplier : jsstr }.

Record TierCondition := mkTierCond { tc_var : jsstr; tc_op : jsstr; tc_value : jsnum }.

(** A tier: its label, its conditions and a price per field of the registry. *)
Record ParsedTier := mkTier {
  t_label : jsstr; t_conditions : list TierCondition; t_prices : list (jsstr * jsnum) }.

#[export] Instance RequestCondition_eq_dec : EqDecision RequestCondition.
Proof. solve_decision. Defined.
#[export] Instance RequestRuleGroup_eq_dec : EqDecision RequestRuleGroup.
Proof. solve_decision. Defined.
#[export] Instance TierCondition_eq_dec : EqDecision TierCondition.
Proof. solve_decision. Defined.
#[export] Instance ParsedTier_eq_dec : EqDecision ParsedTier.
Proof. solve_decision. Defined.

(** ** Tier parser *)

Definition quo : jsstr := [34].

Definition version_regex : regex :=
  Start >> txt "v" >> Group 1 (plus digit) >> txt ":" >> Group 2 (Star (cls any_unit)) >> End.

Definition stripExprVersion (exprStr : jsstr) : jsnum * jsstr :=
  if negb (truthy exprStr) then (num 1, [])
  else match exec false version_regex exprStr with
       | Some m => (to_number (cap m 1), cap m 2)
       | None => (num 1, exprStr)
       end.

(** The coefficients read so far; the first one of a variable counts. *)
Definition coefficients (bodyStr : jsstr) : list (jsstr * jsnum) :=
  foldl (fun coeffs m =>
    if bool_decide (cap m.2 1 ∈ coeffs.*1) then coeffs
    else coeffs ++ [(cap m.2 1, to_number (cap m.2 2))])
    [] (matchAll false BILLING_VAR_REGEX bodyStr).

Fixpoint coefficient (v : jsstr) (coeffs : list (jsstr * jsnum)) : option jsnum :=
  match coeffs with
  | [] => None
  | (k, n) :: rest => if v =s? k then Some n else coefficient v rest
  end.

(** [x || 0] on a number or [undefined]. *)
Definition num_or_zero (n : option jsnum) : jsnum :=
  match n with Some n => if num_truthy n then n else num 0 | None => num 0 end.

Definition parseTierBody (bodyStr : jsstr) : list (jsstr * jsnum) :=
  let coeffs := coefficients bodyStr in
  (fun vf => (vf.2, num_or_zero (coefficient vf.1 coeffs))) <$> BILLING_VAR_KEY_TO_FIELD.

(** A comparison of [p], [c] or [len] with a number. *)
Definition tier_vars : list jsstr := [js "p"; js "c"; js "len"].
Definition tier_ops : list jsstr := [js "<"; js "<="; js ">"; js ">="].
Definition comparison : regex :=
  one_of tier_vars >> spaces >> one_of tier_ops >> spaces >> plus (cls cond_unit).
Definition condGroup : regex :=
  Group 1 (comparison >> Star (spaces >> txt "&&" >> spaces >> comparison)).
Definition tierRe : regex :=
  opt (condGroup >> spaces >> txt "?" >> spaces)
  >> lit (js "tier(" ++ quo) >> Group 2 (Star (cls (not_unit 34))) >> lit (quo ++ js ",")
  >> spaces >> Group 3 (plus (cls (not_unit 41))) >> txt ")".

Definition and_sep : regex := spaces >> txt "&&" >> spaces.
Definition comparison_parts : regex :=
  Start >> Group 1 (one_of tier_vars) >> spaces >> Group 2 (one_of tier_ops)
  >> spaces >> Group 3 (plus (cls cond_unit)) >> End.

Definition parseTierConditions (condStr : jsstr) : list TierCondition :=
  if negb (truthy condStr) then []
  else omap (fun cp => match exec false comparison_parts (trim cp) with
                       | Some cm => Some (mkTierCond (cap cm 1) (cap cm 2) (to_number (cap cm 3)))
                       | None => None
                       end) (split_re false and_sep condStr).

Definition parseTiersFromExpr (exprStr : jsstr) : list ParsedTier :=
  if negb (truthy exprStr) then []
  else (fun m => mkTier (cap m.2 2) (parseTierConditions (default [] (m.2 1%nat)))
                   (parseTierBody (cap m.2 3)))
       <$> matchAll false tierRe (stripExprVersion exprStr).2.

(** The comparison signs and their full-width forms; [lower] is [toLowerCase]. *)
Definition eq_sign : regex := cls (fun c => (c =? 61) || (c =? 65309)).
Definition less_regex : regex :=
  txt "<" >> opt eq_sign |: lit [8804] |: lit [65308] >> opt eq_sign.
Definition greater_regex : regex :=
  txt ">" >> opt eq_sign |: lit [8805] |: lit [65310] >> opt eq_sign.
Definition normalizeTierLabel (lower : jsstr -> jsstr) (label : option jsstr) : jsstr :=
  match label with
  | None | Some [] => []
  | Some label =>
      lower (replaceAll false (plus (cls is_space)) []
               (replaceAll false greater_regex (js ">")
                  (replaceAll false less_regex (js "<") label)))
  end.

(** ** Request rule parser *)

(** Depth of parentheses after one unit. *)
Definition depth_step (depth : Z) (c : N) : Z :=
  (depth + (if (c =? 40)%N then 1 else 0) - (if (c =? 41)%N then 1 else 0))%Z.

(** The loop of both splitters: [cur] holds the units since [start] in reverse and
    [skip] the units of a separator still to jump over. *)
Fixpoint split_top (sep : jsstr) (skip : nat) (depth : Z) (cur s : jsstr) : list jsstr :=
  match s with
  | [] => [trim (reverse cur)]
  | c :: s' =>
      match skip with
      | S k => split_top sep k depth cur s'
      | O =>
          let depth' := depth_step depth c in
          if ((depth' =? 0)%Z && starts_with sep s)%bool
          then trim (reverse cur) :: split_top sep (length sep - 1) depth' [] s'
          else split_top sep 0 depth' (c :: cur) s'
      end
  end.

Definition times_sep : jsstr := js " * ".
Definition both_sep : jsstr := js " && ".

Definition nonempty (parts : list jsstr) : list jsstr := filter (fun p => p <> []) parts.

Definition splitTopLevelMultiply (expr : jsstr) : list jsstr :=
  nonempty (split_top times_sep 0 0 [] expr).

Definition splitTopLevelAnd (expr : jsstr) : list jsstr :=
  nonempty (split_top both_sep 0 0 [] expr).

(** [JSON.parse(text) as string]: [null] is a failure; an array or an object is a
    value the declared type excludes. *)
Definition parseExprLiteral (raw : jsstr) : Decoded (option jsstr) :=
  let text := trim raw in
  if (text =s? js "true") || (text =s? js "false") then Ok (Some text)
  else if is_numeric text then Ok (Some text)
  else match JSON_parse text with
       | Some (JString s) => Ok (Some s)
       | Some JNull | None => Ok None
       | Some _ => IllTyped
       end.

(** [JSON.parse] of a string literal, not caught. *)
Definition parse_string (text : jsstr) : Decoded jsstr :=
  match JSON_parse text with
  | Some (JString s) => Ok s
  | Some _ => IllTyped
  | None => Throws
  end.

(** A call of a function with one quoted argument, captured in group [n]. *)
Definition quoted (n : nat) : regex := lit quo >> Group n (plus (cls (not_unit 34))) >> lit quo.
Definition time_call : regex := Group 1 (one_of TIME_FUNCS) >> txt "(" >> quoted 2 >> txt ")".
Definition same_time_call : regex :=
  Backref 1 >> txt "(" >> lit quo >> Backref 2 >> lit quo >> txt ")".
Definition time_range : regex :=
  time_call >> txt " >= " >> Group 3 nums >> txt " || " >> same_time_call >> txt " < " >> Group 4 nums.
Definition time_range_regex : regex := Start >> time_range >> End.
Definition time_range_paren_regex : regex := Start >> txt "(" >> time_range >> txt ")" >> End.
Definition time_regex : regex :=
  Start >> time_call >> txt " " >> Group 3 (one_of [js "=="; js ">="; js "<"]) >> txt " "
  >> Group 4 nums >> End.

Definition time_op_map (op : jsstr) : jsstr :=
  if op =s? js "==" then MATCH_EQ
  else if op =s? js ">=" then MATCH_GTE
  else if op =s? js "<" then MATCH_LT
  else MATCH_EQ.

Definition range_condition (m : nat -> option jsstr) : RequestCondition :=
  TimeCondition (cap m 1) (cap m 2) MATCH_RANGE [] (cap m 3) (cap m 4).

Definition tryParseTimeCondition (expr : jsstr) : option RequestCondition :=
  match exec false time_range_regex expr with
  | Some m => Some (range_condition m)
  | None =>
  match exec false time_range_paren_regex expr with
  | Some m => Some (range_condition m)
  | None =>
  match exec false time_regex expr with
  | Some m => Some (TimeCondition (cap m 1) (cap m 2) (time_op_map (cap m 3)) (cap m 4) [] [])
  | None => None
  end end end.

(** A string literal: units other than the quote and the backslash, and escapes. *)
Definition string_literal : regex :=
  lit quo >> Star (cls (fun c => negb (c =? 34) && negb (c =? 92)) |: txt "\" >> cls not_line_end)
  >> lit quo.
Definition header_call (n : nat) : regex := txt "header(" >> quoted n >> txt ")".
Definition param_call (n : nat) : regex := txt "param(" >> quoted n >> txt ")".

Definition header_exists_regex : regex := Start >> header_call 1 >> txt " != " >> lit (quo ++ quo) >> End.
Definition param_exists_regex : regex := Start >> param_call 1 >> txt " != nil" >> End.
Definition header_contains_regex : regex :=
  Start >> txt "has(" >> header_call 1 >> txt ", " >> Group 2 string_literal >> txt ")" >> End.
Definition param_contains_regex : regex :=
  Start >> param_call 1 >> txt " != nil && has(" >> param_call 2 >> txt ", "
  >> Group 3 string_literal >> txt ")" >> End.
Definition param_compare_regex : regex :=
  Start >> param_call 1 >> txt " != nil && " >> param_call 2 >> txt " "
  >> Group 3 (one_of [js ">"; js ">="; js "<"; js "<="]) >> txt " " >> Group 4 nums >> End.
Definition equals_regex : regex :=
  Start >> Group 1 (one_of [js "param"; js "header"]) >> txt "(" >> quoted 2 >> txt ") == "
  >> Group 3 (plus (cls not_line_end)) >> End.

Definition compare_op_map (op : jsstr) : jsstr :=
  if op =s? js ">" then MATCH_GT
  else if op =s? js ">=" then MATCH_GTE
  else if op =s? js "<" then MATCH_LT
  else MATCH_LTE.

(** A match whose two paths agree. *)
Definition same_path (m : option (nat -> option jsstr)) : option (nat -> option jsstr) :=
  match m with
  | Some g => if cap g 1 =s? cap g 2 then Some g else None
  | None => None
  end.

Definition decoded_bind {A B} (d : Decoded A) (f : A -> Decoded B) : Decoded B :=
  match d with Ok x => f x | Throws => Throws | IllTyped => IllTyped end.

Definition tryParseRequestCondition (expr : jsstr) : Decoded (option RequestCondition) :=
  match tryParseTimeCondition expr with
  | Some tc => Ok (Some tc)
  | None =>
  match exec false header_exists_regex expr with
  | Some m => Ok (Some (ParamHeaderCondition true (cap m 1) MATCH_EXISTS []))
  | None =>
  match exec false param_exists_regex expr with
  | Some m => Ok (Some (ParamHeaderCondition false (cap m 1) MATCH_EXISTS []))
  | None =>
  match exec false header_contains_regex expr with
  | Some m =>
      decoded_bind (parse_string (cap m 2)) (fun v =>
        Ok (Some (ParamHeaderCondition true (cap m 1) MATCH_CONTAINS v)))
  | None =>
  match same_path (exec false param_contains_regex expr) with
  | Some m =>
      decoded_bind (parse_string (cap m 3)) (fun v =>
        Ok (Some (ParamHeaderCondition false (cap m 1) MATCH_CONTAINS v)))
  | None =>
  match same_path (exec false param_compare_regex expr) with
  | Some m => Ok (Some (ParamHeaderCondition false (cap m 1) (compare_op_map (cap m 3)) (cap m 4)))
  | None =>
  match exec false equals_regex expr with
  | Some m =>
      decoded_bind (parseExprLiteral (cap m 3)) (fun v =>
        Ok (match v with
            | Some v => Some (ParamHeaderCondition (cap m 1 =s? js "header") (cap m 2) MATCH_EQ v)
            | None => None
            end))
  | None => Ok None
  end end end end end end end.

(** A loop over parts that stops with [null] at the first part without a result. *)
Fixpoint parse_each {A} (f : jsstr -> Decoded (option A)) (parts : list jsstr) : Decoded (option (list A)) :=
  match parts with
  | [] => Ok (Some [])
  | p :: ps =>
      decoded_bind (f p) (fun a =>
        match a with
        | None => Ok None
        | Some x => decoded_bind (parse_each f ps) (fun r => Ok (cons x <$> r))
        end)
  end.

Definition factor_regex : regex :=
  Start >> txt "(" >> Group 1 (plus (cls any_unit)) >> txt " ? " >> Group 2 nums >> txt " : 1)" >> End.

Definition tryParseRuleGroupFactor (part : jsstr) : Decoded (option RequestRuleGroup) :=
  match exec false factor_regex part with
  | None => Ok None
  | Some m =>
      decoded_bind
        (parse_each (fun ap => tryParseRequestCondition (trim ap)) (splitTopLevelAnd (cap m 1)))
        (fun r => Ok (match r with
                      | None | Some [] => None
                      | Some conds => Some (mkGroup conds (cap m 2))
                      end))
  end.

Definition tryParseRequestRuleExpr (expr : jsstr) : Decoded (option (list RequestRuleGroup)) :=
  let trimmed := trim expr in
  if negb (truthy trimmed) then Ok (Some [])
  else parse_each tryParseRuleGroupFactor (splitTopLevelMultiply trimmed).

(** ** Combine and split *)

(** The loop of [hasFullOuterParens] from a given depth: [None] when it returns
    false early, else the final depth. *)
Fixpoint outer_depth (depth : Z) (s : jsstr) : option Z :=
  match s with
  | [] => Some depth
  | c :: s' =>
      let depth' := depth_step depth c in
      if ((depth' =? 0)%Z && truthy s')%bool then None else outer_depth depth' s'
  end.

Definition hasFullOuterParens (expr : jsstr) : bool :=
  if negb (starts_with [40] expr) || negb (ends_with [41] expr) then false
  else match outer_depth 0 expr with Some d => (d =? 0)%Z | None => false end.

(** [slice(1, -1)] *)
Definition strip_ends (s : jsstr) : jsstr := take (length s - 2) (drop 1 s).

(** Each round shortens the text, so its length is enough fuel. *)
Fixpoint unwrap_loop (fuel : nat) (current : jsstr) : jsstr :=
  match fuel with
  | O => current
  | S fuel' => if hasFullOuterParens current then unwrap_loop fuel' (trim (strip_ends current)) else current
  end.
Definition unwrapOuterParens (expr : jsstr) : jsstr := unwrap_loop (length expr) (trim expr).

(** A part is a rule when it parses to at least one group. *)
Fixpoint classify (parts : list jsstr) : Decoded (list jsstr * list jsstr) :=
  match parts with
  | [] => Ok ([], [])
  | p :: ps =>
      decoded_bind (tryParseRequestRuleExpr p) (fun r =>
        decoded_bind (classify ps) (fun '(rules, bases) =>
          Ok (match r with
              | Some (_ :: _) => (p :: rules, bases)
              | _ => (rules, p :: bases)
              end)))
  end.

(** The pair of [billingExpr] and [requestRuleExpr]. *)
Definition splitBillingExprAndRequestRules (expr : jsstr) : Decoded (jsstr * jsstr) :=
  let trimmed := trim expr in
  if negb (truthy trimmed) then Ok ([], [])
  else
    let parts := splitTopLevelMultiply trimmed in
    if (length parts <=? 1)%nat then Ok (trimmed, [])
    else decoded_bind (classify parts) (fun '(ruleParts, baseParts) =>
      match ruleParts, baseParts with
      | _ :: _, [base] => Ok (unwrapOuterParens base, join times_sep ruleParts)
      | _, _ => Ok (trimmed, [])
      end).

Definition combineBillingExpr (baseExpr requestRuleExpr : jsstr) : jsstr :=
  let base := trim baseExpr in
  let rules := trim requestRuleExpr in
  if negb (truthy base) then []
  else if negb (truthy rules) then base
  else js "(" ++ base ++ js ") * " ++ rules.

(** ** Editor *)

Definition createEmptyCondition : RequestCondition := ParamHeaderCondition false [] MATCH_EQ [].
Definition createEmptyTimeCondition : RequestCondition :=
  TimeCondition (js "hour") (js "Asia/Shanghai") MATCH_GTE [] [] [].
Definition createEmptyRuleGroup : RequestRuleGroup := mkGroup [createEmptyCondition] [].
Definition createEmptyTimeRuleGroup : RequestRuleGroup := mkGroup [createEmptyTimeCondition] [].

(** The options as pairs of a mode and the key of its label. *)
Definition getRequestRuleMatchOptions (source : jsstr) : list (jsstr * jsstr) :=
  if source =s? SOURCE_TIME then
    [(MATCH_EQ, js "Equals"); (MATCH_GTE, js "Greater than or equal");
     (MATCH_LT, js "Less than"); (MATCH_RANGE, js "Overnight range")]
  else
    let base := [(MATCH_EQ, js "Equals"); (MATCH_CONTAINS, js "Contains"); (MATCH_EXISTS, js "Exists")] in
    if source =s? SOURCE_HEADER then base
    else base ++ [(MATCH_GT, js "Greater than"); (MATCH_GTE, js "Greater than or equal");
                  (MATCH_LT, js "Less than"); (MATCH_LTE, js "Less than or equal")].

Definition isTimeFunc (v : option jsstr) : bool :=
  match v with Some s => bool_decide (s ∈ TIME_FUNCS) | None => false end.

(** [Partial<RequestCondition>]: every property may be missing. *)
Record PartialCondition := mkPartial {
  pc_source : option jsstr; pc_path : option jsstr; pc_timeFunc : option jsstr;
  pc_timezone : option jsstr; pc_mode : option jsstr; pc_value : option jsstr;
  pc_rangeStart : option jsstr; pc_rangeEnd : option jsstr }.

Definition partial_of (cond : RequestCondition) : PartialCondition :=
  match cond with
  | ParamHeaderCondition h path mode value =>
      mkPartial (Some (if h then SOURCE_HEADER else SOURCE_PARAM)) (Some path) None None
        (Some mode) (Some value) None None
  | TimeCondition f tz mode value rs re =>
      mkPartial (Some SOURCE_TIME) None (Some f) (Some tz) (Some mode) (Some value) (Some rs) (Some re)
  end.

(** A mode among the options of a source, or the default. *)
Definition valid_mode (source : jsstr) (mode : option jsstr) (dflt : jsstr) : jsstr :=
  match mode with
  | Some m => if bool_decide (m ∈ (getRequestRuleMatchOptions source).*1) then m else dflt
  | None => dflt
  end.

Definition normalizeCondition (cond : PartialCondition) : RequestCondition :=
  if bool_decide (pc_source cond = Some SOURCE_TIME) then
    TimeCondition
      (if isTimeFunc (pc_timeFunc cond) then default [] (pc_timeFunc cond) else js "hour")
      (default [] (pc_timezone cond) ||| js "Asia/Shanghai")
      (valid_mode SOURCE_TIME (pc_mode cond) MATCH_GTE)
      (default [] (pc_value cond)) (default [] (pc_rangeStart cond)) (default [] (pc_rangeEnd cond))
  else
    let header := bool_decide (pc_source cond = Some SOURCE_HEADER) in
    ParamHeaderCondition header (default [] (pc_path cond))
      (valid_mode (if header then SOURCE_HEADER else SOURCE_PARAM) (pc_mode cond) MATCH_EQ)
      (default [] (pc_value cond)).

Definition buildExprLiteral (mode value : jsstr) : jsstr :=
  let text := trim value in
  if mode =s? MATCH_CONTAINS then stringify_string text
  else if (text =s? js "true") || (text =s? js "false") then text
  else if is_numeric text then text
  else stringify_string text.

Definition time_op (mode : jsstr) : jsstr :=
  if mode =s? MATCH_EQ then js "=="
  else if mode =s? MATCH_GTE then js ">="
  else if mode =s? MATCH_LT then js "<"
  else js "==".

Definition buildTimeConditionExpr (timeFunc timezone mode value rangeStart rangeEnd : jsstr) : jsstr :=
  let fn := timeFunc ++ js "(" ++ stringify_string timezone ++ js ")" in
  if mode =s? MATCH_RANGE then
    let s := trim rangeStart in
    let e := trim rangeEnd in
    if negb (is_numeric s) || negb (is_numeric e) then []
    else fn ++ js " >= " ++ s ++ js " || " ++ fn ++ js " < " ++ e
  else
    let v := trim value in
    if negb (is_numeric v) then []
    else fn ++ js " " ++ time_op mode ++ js " " ++ v.

Definition compare_op (mode : jsstr) : option jsstr :=
  if mode =s? MATCH_GT then Some (js ">")
  else if mode =s? MATCH_GTE then Some (js ">=")
  else if mode =s? MATCH_LT then Some (js "<")
  else if mode =s? MATCH_LTE then Some (js "<=")
  else None.

Definition buildParamHeaderExpr (header : bool) (rawPath mode value : jsstr) : jsstr :=
  let path := trim rawPath in
  if negb (truthy path) then []
  else
    let sourceExpr :=
      (if header then js "header(" else js "param(") ++ stringify_string path ++ js ")" in
    if mode =s? MATCH_EXISTS then
      sourceExpr ++ (if header then js " != " ++ quo ++ quo else js " != nil")
    else if mode =s? MATCH_CONTAINS then
      (if header then [] else sourceExpr ++ js " != nil && ")
      ++ js "has(" ++ sourceExpr ++ js ", " ++ buildExprLiteral mode value ++ js ")"
    else match compare_op mode with
         | Some op =>
             let numText := trim value in
             if negb (is_numeric numText) then []
             else sourceExpr ++ js " != nil && " ++ sourceExpr ++ js " " ++ op ++ js " " ++ numText
         | None => sourceExpr ++ js " == " ++ buildExprLiteral mode value
         end.

(** Both builders work on the normalised condition. *)
Definition buildRequestConditionExpr (cond : RequestCondition) : jsstr :=
  match normalizeCondition (partial_of cond) with
  | TimeCondition f tz mode value rs re => buildTimeConditionExpr f tz mode value rs re
  | ParamHeaderCondition h path mode value => buildParamHeaderExpr h path mode value
  end.

Definition buildRuleGroupFactor (group : RequestRuleGroup) : jsstr :=
  let mult := trim (multiplier group) in
  if negb (is_numeric mult) then []
  else match nonempty (buildRequestConditionExpr <$> conditions group) with
       | [] => []
       | condExprs =>
           let combined :=
             match condExprs with
             | [e] => e
             | _ => join both_sep ((fun e => if includes (js " || ") e then js "(" ++ e ++ js ")" else e)
                                   <$> condExprs)
             end in
           js "(" ++ combined ++ js " ? " ++ mult ++ js " : 1)"
       end.

Definition buildRequestRuleExpr (groups : list RequestRuleGroup) : jsstr :=
  join times_sep (nonempty (buildRuleGroupFactor <$> groups)).
