(* ===== verification/BillingRules.v ===== *)
(** * Request rules: printing, parsing, splitting

    The theorems on billing expressions ([BillingExpr]): what the editor prints
    for a set of request rules is parsed back to the same rules, an expression
    put together from a price and rules is split into the same two parts, and
    which rules are lost on the way. *)

From Stdlib Require Import SpecFloat.
From S2P Require Import Prelude JsValue Json JsText BillingExpr.

Local Open Scope N_scope.

Notation rm := (rmatch false).

(** ** Texts *)

(** The units of a path that are written as they are and do not disturb the
    splitters: no control unit, quote, backslash, parenthesis, bar, surrogate. *)
Definition path_unit (c : N) : bool :=
  (32 <=? c) && negb (c =? 34) && negb (c =? 92) && negb (c =? 40) && negb (c =? 41)
  && negb (c =? 124) && negb (is_high c) && negb (is_low c).

(** The units of a value: escapes are allowed, parentheses, ampersands, bars and
    the Unicode line separators are not. *)
Definition value_unit (c : N) : bool :=
  (c <? 65536) && negb (c =? 38) && negb (c =? 40) && negb (c =? 41) && negb (c =? 124)
  && negb (c =? 8232) && negb (c =? 8233).

(** Units that neither splitter nor [.] minds. *)
Definition quiet (c : N) : bool :=
  negb (c =? 38) && negb (c =? 40) && negb (c =? 41) && negb (c =? 124) && not_line_end c.

Ltac unit_bools :=
  repeat match goal with
    | H : context [negb _ = true] |- _ => rewrite negb_true_iff in H
    | H : _ && _ = true |- _ => apply andb_true_iff in H as [? ?]
    | H : _ || _ = false |- _ => apply orb_false_iff in H as [? ?]
    | H : (_ =? _) = false |- _ => apply N.eqb_neq in H
    | H : (_ =? _) = true |- _ => apply N.eqb_eq in H
    | H : (_ <=? _) = true |- _ => apply N.leb_le in H
    | H : (_ <=? _) = false |- _ => apply N.leb_gt in H
    | H : (_ <? _) = true |- _ => apply N.ltb_lt in H
    | H : (_ <? _) = false |- _ => apply N.ltb_ge in H
    end.

(** Decide a class at a unit from bounds on it. *)
Ltac unit_decide :=
  repeat match goal with
    | |- context [?a =? ?b] => destruct (N.eqb_spec a b); try lia
    | |- context [?a <=? ?b] => destruct (N.leb_spec a b); try lia
    | |- context [?a <? ?b] => destruct (N.ltb_spec a b); try lia
    end; try reflexivity; try lia.

Lemma escape_plain s : forallb path_unit s = true -> escape s = s.
Proof.
  assert (Hu : forall c, path_unit c = true -> escape_unit c = [c]).
  { intros c H. unfold path_unit in H. unit_bools. unfold escape_unit.
    repeat match goal with H : is_high _ = _ |- _ => rewrite H | H : is_low _ = _ |- _ => rewrite H end.
    unit_decide. }
  induction s as [|c s IH]; [done|]. intros H. cbn [forallb] in H. apply andb_true_iff in H as [Hc Hs].
  destruct s as [|d s]; [by apply Hu|].
  change (escape (c :: d :: s)) with (if is_high c && is_low d then c :: d :: escape s
    else escape_unit c ++ escape (d :: s)).
  assert (is_high c = false) as -> by (unfold path_unit in Hc; unit_bools; done).
  simpl andb. cbv iota. by rewrite Hu, IH.
Qed.

Lemma hex_digit_bounds n : n < 16 -> 48 <= hex_digit n <= 102 /\ hex_digit n <> 92.
Proof. intros H. unfold hex_digit. destruct (N.ltb_spec n 10); lia. Qed.

(** A string literal without its quotes: units and escapes. *)
Inductive lit_body : jsstr -> Prop :=
| lit_nil : lit_body []
| lit_unit c s : c <> 34 -> c <> 92 -> lit_body s -> lit_body (c :: s)
| lit_escape c s : not_line_end c = true -> lit_body s -> lit_body (92 :: c :: s).

Lemma lit_body_app a b : lit_body a -> lit_body b -> lit_body (a ++ b).
Proof. induction 1; simpl; intros; [done|apply lit_unit; auto|apply lit_escape; auto]. Qed.

Lemma escape_unit_cases c :
  escape_unit c = [c] /\ 32 <= c /\ c <> 34 /\ c <> 92
  \/ (exists d, escape_unit c = [92; d] /\ (d = 34 \/ d = 92 \/ 98 <= d <= 116))
  \/ (exists d1 d2 d3 d4, escape_unit c = [92; 117; d1; d2; d3; d4]
        /\ Forall (fun d => 48 <= d <= 102 /\ d <> 92) [d1; d2; d3; d4]).
Proof.
  unfold escape_unit.
  repeat match goal with
    | |- context [c =? ?k] => destruct (N.eqb_spec c k); [right; left; eexists; split; [done|lia]|]
    end.
  destruct (_ || _) eqn:E.
  - right; right. unfold escape_u. do 4 eexists. split; [done|].
    repeat constructor; apply hex_digit_bounds, N.mod_lt; done.
  - left. unit_bools. repeat split; done.
Qed.

Lemma escape_unit_body c : lit_body (escape_unit c).
Proof.
  destruct (escape_unit_cases c) as [(-> & ? & ? & ?)|[(d & -> & Hd)|(d1 & d2 & d3 & d4 & -> & Hd)]].
  - by repeat constructor.
  - apply lit_escape; [|constructor]. unfold not_line_end, line_end. unit_decide.
  - rewrite !Forall_cons in Hd. apply lit_escape; [done|]. repeat (apply lit_unit; [lia|lia|]). constructor.
Qed.

(** Unit by unit reasoning on an escaped text. *)
Lemma escape_ind (P : jsstr -> Prop) s :
  P [] -> (forall a b, P a -> P b -> P (a ++ b)) ->
  (forall c, c ∈ s -> P (escape_unit c)) ->
  (forall c, c ∈ s -> 32 <= c -> c <> 34 -> c <> 92 -> P [c]) -> P (escape s).
Proof.
  intros Hn Happ. induction s as [s IH] using (induction_ltof1 _ (@length N)). unfold ltof in IH.
  intros Hu Hp. destruct s as [|c [|d s]]; [done|apply Hu; set_solver|].
  change (escape (c :: d :: s)) with (if is_high c && is_low d then c :: d :: escape s
    else escape_unit c ++ escape (d :: s)).
  destruct (is_high c && is_low d) eqn:E.
  - unfold is_high, is_low in E. unit_bools.
    apply (Happ [c]); [apply Hp; [set_solver|lia..]|].
    apply (Happ [d]); [apply Hp; [set_solver|lia..]|].
    apply IH; [simpl; lia|intros; apply Hu; set_solver|intros; apply Hp; [set_solver|done..]].
  - apply Happ; [apply Hu; set_solver|].
    apply IH; [simpl; lia|intros; apply Hu; set_solver|intros; apply Hp; [set_solver|done..]].
Qed.

Lemma escape_body s : lit_body (escape s).
Proof.
  apply escape_ind; [constructor|apply lit_body_app|intros; apply escape_unit_body|].
  intros. by repeat constructor.
Qed.

Lemma escape_quiet s : forallb value_unit s = true -> forallb quiet (escape s) = true.
Proof.
  intros Hs. rewrite forallb_forall in Hs.
  assert (Hraw : forall c, c ∈ s -> 32 <= c -> quiet c = true).
  { intros c Hc H. specialize (Hs c ltac:(by apply list_elem_of_In)). unfold value_unit in Hs. unit_bools.
    unfold quiet, not_line_end, line_end. unit_decide. }
  apply escape_ind; [done|by intros; rewrite forallb_app; apply andb_true_iff| |].
  - intros c Hc. destruct (escape_unit_cases c) as [(-> & ? & ? & ?)|[(d & -> & Hd)|(d1 & d2 & d3 & d4 & -> & Hd)]].
    + simpl. by rewrite Hraw.
    + simpl. unfold quiet, not_line_end, line_end. unit_decide.
    + rewrite !Forall_cons in Hd. destruct Hd as (? & ? & ? & ? & _). simpl.
      assert (Hq : forall d, 48 <= d <= 102 /\ d <> 92 -> quiet d = true).
      { intros d ?. unfold quiet, not_line_end, line_end. unit_decide. }
      by rewrite !Hq.
  - intros c Hc ? _ _. simpl. by rewrite Hraw.
Qed.

(** ** Matching the texts of the printer *)

Lemma string_literal_run t k b u c :
  lit_body t ->
  rm string_literal k (mkPos b (quo ++ t ++ quo ++ u) c)
  = k (mkPos (reverse quo ++ reverse t ++ reverse quo ++ b) u c).
Proof.
  intros Ht. unfold string_literal. rewrite rmatch_seq, rmatch_lit, rmatch_seq.
  set (body := cls _ |: _).
  assert (Hp : exists xs, concat xs = t /\ Forall (piece body (rm (lit quo) k)) xs).
  { clear -Ht. induction Ht as [|x s H1 H2 _ (xs & <- & Hxs)|x s Hx _ (xs & <- & Hxs)].
    - by exists [].
    - exists ([x] :: xs). split; [done|]. constructor; [|done]. split; [done|]. split; intros.
      + simpl. unfold cls. apply N.eqb_neq in H1, H2. simpl. rewrite H1, H2. simpl.
        match goal with |- or_else _ (if ?e then _ else _) = _ => change e with (92 =? x) end.
        rewrite (N.eqb_sym 92), H2. apply or_else_None.
      + apply rmatch_lit_fail. apply not_true_iff_false. intros [t E]%starts_with_spec.
        by injection E as ->.
    - exists ([92; x] :: xs). split; [done|]. constructor; [|done]. split; [done|]. split; intros.
      + simpl. by rewrite Hx.
      + done. }
  destruct Hp as (xs & <- & Hxs). rewrite star_pieces; [|done|done]. by rewrite rmatch_lit.
Qed.

Lemma group_string_literal n t k b u c :
  lit_body t ->
  rm (Group n string_literal) k (mkPos b (quo ++ t ++ quo ++ u) c)
  = k (mkPos (reverse quo ++ reverse t ++ reverse quo ++ b) u ((n, quo ++ t ++ quo) :: c)).
Proof.
  intros Ht. rewrite rmatch_group, string_literal_run by done. cbn [after before caps].
  do 3 f_equal. f_equal.
  replace (quo ++ t ++ quo ++ u) with ((quo ++ t ++ quo) ++ u) by by rewrite <- !(assoc_L (++)).
  rewrite length_app, Nat.add_sub. apply take_app_length.
Qed.

Definition path_ok (p : jsstr) : bool := truthy p && forallb path_unit p.

Lemma path_not_quote p : path_ok p = true -> p <> [] /\ forallb (not_unit 34) p = true.
Proof.
  intros [H1%truthy_true H2]%andb_true_iff. split; [done|].
  rewrite forallb_forall in *. intros c Hc. specialize (H2 c Hc). unfold path_unit in H2. unit_bools.
  unfold not_unit. by apply negb_true_iff, N.eqb_neq.
Qed.

Lemma quoted_run n p k b u c :
  path_ok p = true ->
  rm (quoted n) k (mkPos b (quo ++ p ++ quo ++ u) c)
  = k (mkPos (reverse quo ++ reverse p ++ reverse quo ++ b) u ((n, p) :: c)).
Proof.
  intros [Hne Hp]%path_not_quote. unfold quoted.
  rewrite rmatch_seq, rmatch_lit, rmatch_seq, group_run; [|done|done|done|by apply refuses_lit].
  by rewrite rmatch_lit.
Qed.

(** A call with a quoted argument, as the printer writes it. *)
Definition call (f arg : jsstr) : jsstr := f ++ js "(" ++ quo ++ arg ++ quo ++ js ")".

Lemma call_app f arg u : call f arg ++ u = f ++ js "(" ++ quo ++ arg ++ quo ++ js ")" ++ u.
Proof. unfold call. by rewrite <- !(assoc_L (++)). Qed.

Lemma call_run name n p k b u c :
  path_ok p = true ->
  rm (lit (name ++ js "(") >> quoted n >> txt ")") k (mkPos b (call name p ++ u) c)
  = k (mkPos (reverse (call name p) ++ b) u ((n, p) :: c)).
Proof.
  intros Hp. rewrite call_app, (assoc_L (++) name (js "(")).
  unfold txt. rewrite rmatch_seq, rmatch_lit, rmatch_seq, quoted_run, rmatch_lit by done.
  unfold call. by rewrite !reverse_app, <- !(assoc_L (++)).
Qed.

Lemma header_call_run n p k b u c :
  path_ok p = true ->
  rm (header_call n) k (mkPos b (call (js "header") p ++ u) c)
  = k (mkPos (reverse (call (js "header") p) ++ b) u ((n, p) :: c)).
Proof. apply (call_run (js "header")). Qed.

Lemma param_call_run n p k b u c :
  path_ok p = true ->
  rm (param_call n) k (mkPos b (call (js "param") p ++ u) c)
  = k (mkPos (reverse (call (js "param") p) ++ b) u ((n, p) :: c)).
Proof. apply (call_run (js "param")). Qed.

(** One of several texts, captured. *)
Lemma group_one_of n ts t k b u c :
  t ∈ ts -> NoDup ts ->
  (forall t', t' ∈ ts -> t' <> t -> starts_with t' (t ++ u) = false) ->
  rm (Group n (one_of ts)) k (mkPos b (t ++ u) c) = k (mkPos (reverse t ++ b) u ((n, t) :: c)).
Proof.
  induction ts as [|t1 [|t2 ts] IH]; intros Ht Hnd Hother; [set_solver| |].
  - apply list_elem_of_singleton in Ht as ->. apply group_lit.
  - apply NoDup_cons in Hnd as [Hn1 Hnd]. change (one_of (t1 :: t2 :: ts)) with (lit t1 |: one_of (t2 :: ts)).
    rewrite group_alt. destruct (decide (t = t1)) as [->|Hne].
    + rewrite group_lit.
      assert (Hrest : rm (Group n (one_of (t2 :: ts))) k (mkPos b (t1 ++ u) c) = None); [|by rewrite Hrest, or_else_None].
      assert (Hall : forall t', t' ∈ t2 :: ts -> starts_with t' (t1 ++ u) = false).
      { intros t' Ht'. apply Hother; [set_solver|]. intros ->. done. }
      clear -Hall. revert t2 Hall. induction ts as [|t3 ts IH]; intros t2 Hall.
      * apply group_lit_fail, Hall. set_solver.
      * change (one_of (t2 :: t3 :: ts)) with (lit t2 |: one_of (t3 :: ts)).
        rewrite group_alt, group_lit_fail by (apply Hall; set_solver). apply IH. set_solver.
    + rewrite group_lit_fail by (apply Hother; set_solver).
      apply IH; [set_solver|done|]. intros t' Ht'. apply Hother. set_solver.
Qed.

(** Numbers *)

Lemma is_numeric_units s : is_numeric s = true -> s <> [] /\ forallb num_unit s = true.
Proof.
  unfold is_numeric, NUMERIC_LITERAL_REGEX. rewrite test_anchored. intros [q H]%bool_decide_eq_true.
  split; [intros ->; discriminate H|].
  unfold run_anchored in H.
  match type of H with rm (?a >> ?b >> ?c >> End) ?k _ = _ =>
    change (rm ((a >> b >> c) >> End) k (mkPos [] s []) = Some q) in H end.
  rewrite rmatch_seq in H. apply (rmatch_units (fun c => num_unit c = true)) in H as (a & u & b & c & E & Ha & H).
  - apply rmatch_end in H as [Hu _]. simpl in E, Hu. subst. rewrite app_nil_r.
    rewrite forallb_forall. intros x Hx. rewrite Forall_forall in Ha. apply Ha. by apply list_elem_of_In.
  - unfold opt, plus, digit, cls, txt. cbn [units_ok].
    repeat split; intros x Hx;
      first [by apply N.eqb_eq in Hx as <- | unfold num_unit; rewrite ?orb_true_iff in *; tauto].
Qed.

Lemma group_nums n s k b u c :
  is_numeric s = true -> stops num_unit u -> refuses num_unit k ->
  rm (Group n nums) k (mkPos b (s ++ u) c) = k (mkPos (reverse s ++ b) u ((n, s) :: c)).
Proof. intros [Hne Hs]%is_numeric_units Hu Hk. by apply group_run. Qed.

Lemma group_nums_end n s k b c :
  is_numeric s = true -> refuses num_unit k ->
  rm (Group n nums) k (mkPos b s c) = k (mkPos (reverse s ++ b) [] ((n, s) :: c)).
Proof. intros [Hne Hs]%is_numeric_units Hk. by apply group_run_end. Qed.

Lemma backref_run n t k b u c :
  capture n c = Some t -> rm (Backref n) k (mkPos b (t ++ u) c) = k (mkPos (reverse t ++ b) u c).
Proof.
  intros H. cbn [rmatch caps after]. rewrite H, starts_with_app. unfold forward. cbn [after before caps].
  by rewrite take_app_length, drop_app_length.
Qed.

(** The call at the head of a time condition. *)
Lemma time_funcs_apart f f' u :
  f ∈ TIME_FUNCS -> f' ∈ TIME_FUNCS -> f' <> f -> starts_with f' (f ++ js "(" ++ u) = false.
Proof.
  intros Hf Hf' Hne. unfold TIME_FUNCS in *. repeat setoid_rewrite elem_of_cons in Hf.
  repeat setoid_rewrite elem_of_cons in Hf'. rewrite elem_of_nil in Hf, Hf'.
  by destruct_or! Hf; destruct_or! Hf'; subst.
Qed.

Lemma time_call_run f tz k b u c :
  f ∈ TIME_FUNCS -> path_ok tz = true ->
  rm time_call k (mkPos b (call f tz ++ u) c)
  = k (mkPos (reverse (call f tz) ++ b) u ((2%nat, tz) :: (1%nat, f) :: c)).
Proof.
  intros Hf Htz. rewrite call_app. unfold time_call, txt.
  rewrite rmatch_seq, group_one_of;
    [|done|by_decision|intros; by apply time_funcs_apart].
  rewrite rmatch_seq, rmatch_lit, rmatch_seq, quoted_run, rmatch_lit by done.
  unfold call. by rewrite !reverse_app, <- !(assoc_L (++)).
Qed.

Lemma same_time_call_run f tz k b u c :
  capture 1 c = Some f -> capture 2 c = Some tz ->
  rm same_time_call k (mkPos b (call f tz ++ u) c) = k (mkPos (reverse (call f tz) ++ b) u c).
Proof.
  intros H1 H2. rewrite call_app. unfold same_time_call, txt.
  rewrite rmatch_seq, (backref_run 1 f) by done.
  rewrite rmatch_seq, rmatch_lit, rmatch_seq, rmatch_lit, rmatch_seq, (backref_run 2 tz) by done.
  rewrite rmatch_seq, !rmatch_lit. unfold call. by rewrite !reverse_app, <- !(assoc_L (++)).
Qed.

(** The range, between parentheses or not, is matched up to what follows. *)
Definition range_text (f tz s e : jsstr) : jsstr :=
  call f tz ++ js " >= " ++ s ++ js " || " ++ call f tz ++ js " < " ++ e.

Lemma range_text_app f tz s e u :
  range_text f tz s e ++ u
  = call f tz ++ js " >= " ++ s ++ js " || " ++ call f tz ++ js " < " ++ e ++ u.
Proof. unfold range_text. by rewrite <- !(assoc_L (++)). Qed.

Lemma time_range_run f tz s e k b u :
  f ∈ TIME_FUNCS -> path_ok tz = true -> is_numeric s = true -> is_numeric e = true ->
  stops num_unit u -> refuses num_unit k ->
  exists b', rm time_range k (mkPos b (range_text f tz s e ++ u) [])
    = k (mkPos b' u [(4%nat, e); (3%nat, s); (2%nat, tz); (1%nat, f)]).
Proof.
  intros Hf Htz Hs He Hu Hk. rewrite range_text_app. unfold time_range, txt.
  rewrite rmatch_seq, time_call_run, rmatch_seq, rmatch_lit, rmatch_seq, group_nums;
    [|done|done|by apply refuses_lit|done|done].
  rewrite rmatch_seq, rmatch_lit, rmatch_seq, (same_time_call_run f tz) by done.
  rewrite rmatch_seq, rmatch_lit, group_nums by done. eauto.
Qed.

(** ** Conditions *)

(** The source of a condition and the text of its literal. *)
Definition source_name (header : bool) : jsstr := if header then js "header" else js "param".

(** An expression that fails on the first units of the text. *)
Ltac refuse_regex R :=
  match goal with |- context [exec false R ?e] =>
    let H := fresh in
    assert (H : exec false R e = None) by (unfold R; rewrite exec_anchored; reflexivity);
    rewrite H; clear H
  end.

(** The same, for an expression that fails after its call. *)
Ltac refuse_regex_after R lem :=
  match goal with |- context [exec false R ?e] =>
    let H := fresh in
    assert (H : exec false R e = None)
      by (unfold R; rewrite exec_anchored; unfold run_anchored; rewrite rmatch_seq, lem by done; reflexivity);
    rewrite H; clear H
  end.

(** A text that begins with a call of [header], [param] or [has] is no time condition. *)
Lemma not_time h p u : tryParseTimeCondition (call (source_name h) p ++ u) = None.
Proof.
  rewrite call_app. unfold tryParseTimeCondition, time_range_regex, time_range_paren_regex, time_regex.
  rewrite !exec_anchored. by destruct h.
Qed.

Lemma not_time_has u : tryParseTimeCondition (js "has(" ++ u) = None.
Proof.
  unfold tryParseTimeCondition, time_range_regex, time_range_paren_regex, time_regex.
  by rewrite !exec_anchored.
Qed.

Lemma parse_exists h p :
  path_ok p = true ->
  tryParseRequestCondition
    (call (source_name h) p ++ (if h then js " != " ++ quo ++ quo else js " != nil"))
  = Ok (Some (ParamHeaderCondition h p MATCH_EXISTS [])).
Proof.
  intros Hp. unfold tryParseRequestCondition. rewrite not_time. destruct h; simpl source_name.
  - unfold header_exists_regex. rewrite exec_anchored. unfold run_anchored.
    rewrite rmatch_seq, header_call_run by done. reflexivity.
  - rewrite (call_app (js "param")) at 1. refuse_regex header_exists_regex.
    unfold param_exists_regex. rewrite exec_anchored. unfold run_anchored.
    rewrite rmatch_seq, param_call_run by done. reflexivity.
Qed.

Lemma exec_header_contains p v :
  path_ok p = true ->
  exists m, exec false header_contains_regex
              (js "has(" ++ call (js "header") p ++ js ", " ++ quo ++ escape v ++ quo ++ js ")") = Some m
    /\ cap m 1 = p /\ cap m 2 = quo ++ escape v ++ quo.
Proof.
  intros Hp. unfold header_contains_regex, txt. rewrite exec_anchored. unfold run_anchored.
  rewrite rmatch_seq, rmatch_lit, rmatch_seq, header_call_run by done.
  rewrite rmatch_seq, rmatch_lit, rmatch_seq, group_string_literal by apply escape_body.
  eexists. split; [reflexivity|done].
Qed.

Lemma JSON_parse_literal v : str_ok v = true -> JSON_parse (quo ++ escape v ++ quo) = Some (JString v).
Proof. apply (JSON_parse_stringify (fun _ => []) (JString v)). Qed.

Lemma parse_contains p v :
  path_ok p = true -> str_ok v = true ->
  tryParseRequestCondition
    (js "has(" ++ call (js "header") p ++ js ", " ++ quo ++ escape v ++ quo ++ js ")")
  = Ok (Some (ParamHeaderCondition true p MATCH_CONTAINS v)).
Proof.
  intros Hp Hv. unfold tryParseRequestCondition. rewrite not_time_has.
  refuse_regex header_exists_regex. refuse_regex param_exists_regex.
  destruct (exec_header_contains p v Hp) as (m & -> & -> & ->).
  unfold parse_string. by rewrite JSON_parse_literal.
Qed.

(** The literal of an equality: printed and read back. *)
Definition literal_ok (v : jsstr) : bool := bool_decide (trim v = v) && forallb value_unit v.

Lemma value_str_ok v : forallb value_unit v = true -> str_ok v = true.
Proof.
  unfold str_ok. rewrite !forallb_forall. intros H c Hc. specialize (H c Hc). unfold value_unit in H.
  unit_bools. by apply N.ltb_lt.
Qed.

Lemma literal_str_ok v : literal_ok v = true -> str_ok v = true.
Proof. intros [_ H]%andb_true_iff. by apply value_str_ok. Qed.

Lemma num_unit_props c : num_unit c = true -> quiet c = true /\ is_space c = false.
Proof.
  unfold num_unit, is_digit. intros H.
  assert (Hc : 48 <= c <= 57 \/ c = 46 \/ c = 101 \/ c = 69 \/ c = 43 \/ c = 45).
  { repeat rewrite orb_true_iff in H. rewrite andb_true_iff, !N.leb_le, !N.eqb_eq in H. lia. }
  clear H. unfold quiet, not_line_end, line_end, is_space.
  split; destruct_or! Hc; subst; try reflexivity; unit_decide.
Qed.

Lemma num_unit_quiet s : forallb num_unit s = true -> forallb quiet s = true.
Proof. rewrite !forallb_forall. intros H c Hc. by apply num_unit_props, H. Qed.

(** *** The ends of a text *)

Definition no_trail (s : jsstr) : Prop := no_lead (reverse s).

Lemma no_trail_app a b : b <> [] -> no_trail b -> no_trail (a ++ b).
Proof.
  unfold no_trail. rewrite reverse_app. intros Hb. destruct (reverse b) as [|c r] eqn:E; [|done].
  apply (f_equal reverse) in E. by rewrite reverse_involutive in E.
Qed.

Lemma no_lead_app a b : a <> [] -> no_lead a -> no_lead (a ++ b).
Proof. by destruct a. Qed.

Lemma ends_well_app a b : b <> [] /\ no_trail b -> a ++ b <> [] /\ no_trail (a ++ b).
Proof. intros [Hb Ht]. split; [by destruct a|by apply no_trail_app]. Qed.

Lemma num_unit_ends s : forallb num_unit s = true -> no_lead s /\ no_trail s.
Proof.
  intros H. assert (Hall : forall c, c ∈ s -> is_space c = false).
  { intros c Hc. rewrite forallb_forall in H. by apply num_unit_props, H, list_elem_of_In. }
  unfold no_trail. split; [destruct s as [|c s]|destruct (reverse s) as [|c r] eqn:E]; try done; simpl; apply Hall.
  - by left.
  - apply elem_of_reverse. rewrite E. by left.
Qed.

Lemma quoted_trimmed t : no_lead (quo ++ t ++ quo) /\ no_trail (quo ++ t ++ quo).
Proof. split; [done|]. apply no_trail_app; [by destruct t|]. by apply no_trail_app. Qed.

(** A literal is quiet, its ends are not white space, and it is read back. *)
Lemma buildExprLiteral_spec mode v :
  literal_ok v = true ->
  let l := buildExprLiteral mode v in
  l <> [] /\ forallb quiet l = true /\ trimmed l
  /\ (mode <> MATCH_CONTAINS -> parseExprLiteral l = Ok (Some v)).
Proof.
  intros [Htr%bool_decide_eq_true Hv]%andb_true_iff l.
  assert (Hq : forall t, t = v -> let s := stringify_string t in
    s <> [] /\ forallb quiet s = true /\ trimmed s
    /\ ((t =s? js "true") || (t =s? js "false") = false -> parseExprLiteral s = Ok (Some v))).
  { intros t -> s. change s with (quo ++ escape v ++ quo).
    split; [done|]. split; [rewrite !forallb_app; by rewrite escape_quiet|].
    split; [apply quoted_trimmed|]. intros _. unfold parseExprLiteral.
    rewrite trimmed_trim by apply quoted_trimmed.
    assert (is_numeric (quo ++ escape v ++ quo) = false) as ->
      by (unfold is_numeric, NUMERIC_LITERAL_REGEX; rewrite test_anchored; reflexivity).
    rewrite JSON_parse_literal by by apply value_str_ok. by destruct (_ || _) eqn:E. }
  unfold l, buildExprLiteral. rewrite Htr.
  destruct (str_eqb_eq mode MATCH_CONTAINS) as [Hm _]. destruct (mode =s? MATCH_CONTAINS).
  { destruct (Hq v eq_refl) as (? & ? & ? & _). repeat split; try apply H1; try done. by rewrite Hm by done. }
  clear Hm. destruct ((v =s? js "true") || (v =s? js "false")) eqn:Eb.
  { assert (Ht : v = js "true" \/ v = js "false") by (by rewrite <- !str_eqb_eq, <- orb_true_iff).
    destruct Ht as [-> | ->]; repeat split; try done; vm_compute; done. }
  destruct (is_numeric v) eqn:En; [|destruct (Hq v eq_refl) as (? & ? & ? & Hp); by auto].
  destruct (is_numeric_units v En) as [Hne Hu]. destruct (num_unit_ends v Hu) as [? ?].
  repeat split; [done|by apply num_unit_quiet|done|done|].
  intros _. unfold parseExprLiteral. rewrite Htr, Eb, En. done.
Qed.

Lemma quiet_line s : forallb quiet s = true -> forallb not_line_end s = true.
Proof. rewrite !forallb_forall. intros H c Hc. specialize (H c Hc). unfold quiet in H. unit_bools. done. Qed.

Lemma exec_equals h p l :
  path_ok p = true -> l <> [] -> forallb not_line_end l = true ->
  exists m, exec false equals_regex (call (source_name h) p ++ js " == " ++ l) = Some m
    /\ cap m 1 = source_name h /\ cap m 2 = p /\ cap m 3 = l.
Proof.
  intros Hp Hl Hline. unfold equals_regex, txt. rewrite exec_anchored. unfold run_anchored.
  rewrite call_app, rmatch_seq, group_one_of; [|by destruct h; set_solver|
    by_decision|
    by intros t' Ht' ?; rewrite !elem_of_cons, elem_of_nil in Ht'; destruct h; destruct_or! Ht'; subst].
  rewrite rmatch_seq, rmatch_lit, rmatch_seq, quoted_run by done.
  change (js ")" ++ js " == " ++ l) with (js ") == " ++ l).
  rewrite rmatch_seq, rmatch_lit, rmatch_seq.
  rewrite group_run_end; [|done|done|apply refuses_end].
  eexists. split; [reflexivity|done].
Qed.

(** Expressions with two calls fail on a text whose first call is not followed by [ != nil && ]. *)
Lemma parse_equals h p v :
  path_ok p = true -> literal_ok v = true ->
  tryParseRequestCondition (call (source_name h) p ++ js " == " ++ buildExprLiteral MATCH_EQ v)
  = Ok (Some (ParamHeaderCondition h p MATCH_EQ v)).
Proof.
  intros Hp Hv. destruct (buildExprLiteral_spec MATCH_EQ v Hv) as (Hne & Hq & _ & Hparse).
  set (l := buildExprLiteral MATCH_EQ v) in *.
  unfold tryParseRequestCondition. rewrite not_time.
  destruct (exec_equals h p l Hp Hne (quiet_line _ Hq)) as (m & -> & -> & -> & ->).
  rewrite Hparse by done. destruct h; simpl source_name.
  - refuse_regex_after header_exists_regex header_call_run.
    rewrite call_app. refuse_regex param_exists_regex. refuse_regex header_contains_regex.
    refuse_regex param_contains_regex. refuse_regex param_compare_regex. reflexivity.
  - refuse_regex_after param_exists_regex param_call_run.
    refuse_regex_after param_contains_regex param_call_run.
    refuse_regex_after param_compare_regex param_call_run.
    rewrite call_app. refuse_regex header_exists_regex. refuse_regex header_contains_regex. reflexivity.
Qed.

Lemma parse_time_compare f tz op v :
  f ∈ TIME_FUNCS -> path_ok tz = true -> op ∈ [js "=="; js ">="; js "<"] -> is_numeric v = true ->
  tryParseTimeCondition (call f tz ++ js " " ++ op ++ js " " ++ v)
  = Some (TimeCondition f tz (time_op_map op) v [] []).
Proof.
  intros Hf Htz Hop Hv. unfold tryParseTimeCondition.
  assert (H1 : exec false time_range_regex (call f tz ++ js " " ++ op ++ js " " ++ v) = None).
  { unfold time_range_regex, time_range, txt. rewrite exec_anchored. unfold run_anchored.
    rewrite !rmatch_seq, time_call_run by done. rewrite rmatch_seq.
    rewrite !elem_of_cons, elem_of_nil in Hop. destruct_or! Hop; subst op; [reflexivity| |reflexivity].
    change (js " " ++ js ">=" ++ js " " ++ v) with (js " >= " ++ v).
    rewrite rmatch_lit, rmatch_seq, group_nums_end; [reflexivity|done|by apply refuses_lit]. }
  assert (H2 : exec false time_range_paren_regex (call f tz ++ js " " ++ op ++ js " " ++ v) = None).
  { unfold time_range_paren_regex. rewrite exec_anchored, call_app.
    unfold TIME_FUNCS in Hf. rewrite !elem_of_cons, elem_of_nil in Hf. by destruct_or! Hf; subst f. }
  rewrite H1, H2. unfold time_regex, txt. rewrite exec_anchored. unfold run_anchored.
  rewrite rmatch_seq, time_call_run, rmatch_seq, rmatch_lit, rmatch_seq by done.
  rewrite group_one_of; [|done|by_decision|
    by intros t' Ht' ?; rewrite !elem_of_cons, elem_of_nil in Ht', Hop; destruct_or! Hop; destruct_or! Ht'; subst].
  rewrite rmatch_seq, rmatch_lit, rmatch_seq, group_nums_end; [reflexivity|done|apply refuses_end].
Qed.

Lemma parse_time_range f tz s e paren :
  f ∈ TIME_FUNCS -> path_ok tz = true -> is_numeric s = true -> is_numeric e = true ->
  tryParseTimeCondition (if paren : bool then js "(" ++ range_text f tz s e ++ js ")" else range_text f tz s e)
  = Some (TimeCondition f tz MATCH_RANGE [] s e).
Proof.
  intros Hf Htz Hs He. unfold tryParseTimeCondition. destruct paren.
  - refuse_regex time_range_regex. unfold time_range_paren_regex, txt. rewrite exec_anchored.
    unfold run_anchored. rewrite rmatch_seq, rmatch_lit, rmatch_seq.
    edestruct (time_range_run f tz s e) as [b' ->]; [done..|by apply refuses_lit|].
    reflexivity.
  - unfold time_range_regex. rewrite exec_anchored. unfold run_anchored. rewrite rmatch_seq.
    rewrite <- (app_nil_r (range_text f tz s e)).
    edestruct (time_range_run f tz s e) as [b' ->]; [done..|by apply refuses_end|].
    reflexivity.
Qed.

(** ** Splitting *)

(** The depth after a text that never closes more parentheses than are open and
    has no ampersand outside parentheses; [None] otherwise. *)
Fixpoint calm (d : Z) (s : jsstr) : option Z :=
  match s with
  | [] => Some d
  | c :: s' =>
      let d' := depth_step d c in
      if ((d' <? 0)%Z || (d' =? 0)%Z && (c =? 38))%bool then None else calm d' s'
  end.

(** The same for a text inside parentheses. *)
Fixpoint deep (d : Z) (s : jsstr) : option Z :=
  match s with
  | [] => Some d
  | c :: s' => let d' := depth_step d c in if (d' <=? 0)%Z then None else deep d' s'
  end.

Lemma calm_app d a b : calm d (a ++ b) = d' ← calm d a; calm d' b.
Proof. revert d. induction a as [|c a IH]; intros d; simpl; [done|]. by destruct (_ || _). Qed.

Lemma deep_app d a b : deep d (a ++ b) = d' ← deep d a; deep d' b.
Proof. revert d. induction a as [|c a IH]; intros d; simpl; [done|]. by destruct (_ <=? _)%Z. Qed.

Lemma calm_deep d a d' : calm d a = Some d' -> deep (d + 1) a = Some (d' + 1)%Z.
Proof.
  revert d. induction a as [|c a IH]; intros d H; simpl in *; [by simplify_eq|].
  destruct (_ || _) eqn:E; [done|]. apply orb_false_iff in E as [E%Z.ltb_ge _].
  assert (Hs : depth_step (d + 1) c = (depth_step d c + 1)%Z) by (unfold depth_step; lia).
  rewrite Hs. destruct (Z.leb_spec (depth_step d c + 1) 0); [lia|]. by apply IH.
Qed.

Lemma calm_deep0 a : calm 0 a = Some 0%Z -> deep 1 a = Some 1%Z.
Proof. apply (calm_deep 0 a 0). Qed.

Lemma depth_step_flat d c : c <> 40 -> c <> 41 -> depth_step d c = d.
Proof. intros H1%N.eqb_neq H2%N.eqb_neq. unfold depth_step. rewrite H1, H2. lia. Qed.

Lemma calm_quiet d s : (0 <= d)%Z -> forallb quiet s = true -> calm d s = Some d.
Proof.
  intros Hd. induction s as [|c s IH]; simpl; [done|]. intros [Hc Hs]%andb_true_iff.
  unfold quiet in Hc. unit_bools. rewrite depth_step_flat by done.
  destruct (Z.ltb_spec d 0); [lia|]. rewrite (proj2 (N.eqb_neq c 38)) by done.
  rewrite andb_false_r. by apply IH.
Qed.

Lemma calm_path d s : (0 < d)%Z -> forallb path_unit s = true -> calm d s = Some d.
Proof.
  intros Hd. induction s as [|c s IH]; simpl; [done|]. intros [Hc Hs]%andb_true_iff.
  unfold path_unit in Hc. unit_bools. rewrite depth_step_flat by done.
  destruct (Z.ltb_spec d 0); [lia|]. destruct (Z.eqb_spec d 0); [lia|]. by apply IH.
Qed.

Lemma calm_open d s : (0 <= d)%Z -> calm d (js "(" ++ s) = calm (d + 1) s.
Proof.
  intros Hd. simpl. unfold depth_step at 1 2. simpl.
  destruct (Z.ltb_spec (d + 1 - 0) 0); [lia|]. destruct (Z.eqb_spec (d + 1 - 0) 0); [lia|].
  unfold depth_step. simpl. by rewrite Z.sub_0_r.
Qed.

Lemma calm_close d s : (0 < d)%Z -> calm d (js ")" ++ s) = calm (d - 1) s.
Proof.
  intros Hd. simpl. unfold depth_step. simpl. rewrite Z.add_0_r.
  destruct (Z.ltb_spec (d - 1) 0); [lia|]. by rewrite andb_false_r.
Qed.

Lemma calm_call d f p u :
  (0 <= d)%Z -> forallb quiet f = true -> path_ok p = true -> calm d (call f p ++ u) = calm d u.
Proof.
  intros Hd Hf [_ Hp]%andb_true_iff. rewrite call_app, calm_app, (calm_quiet _ f) by done. cbn [mbind option_bind].
  rewrite calm_open by done.
  change (calm (d + 1) (quo ++ p ++ quo ++ js ")" ++ u) = calm d u).
  rewrite (calm_app _ quo), (calm_quiet _ quo) by (lia || done). cbn [mbind option_bind].
  rewrite (calm_app _ p), calm_path by (lia || done). cbn [mbind option_bind].
  rewrite (calm_app _ quo), (calm_quiet _ quo) by (lia || done). cbn [mbind option_bind].
  rewrite calm_close by lia. by rewrite Z.add_simpl_r.
Qed.

Lemma calm_seg d s u : (0 <= d)%Z -> forallb quiet s = true -> calm d (s ++ u) = calm d u.
Proof. intros. rewrite calm_app, calm_quiet by done. done. Qed.

(** A calm text is not split, in whatever follows that does not begin with an ampersand. *)
Lemma split_calm a : forall d d' cur u,
  calm d a = Some d' -> match u with c :: _ => c <> 38 | [] => True end ->
  split_top both_sep 0 d cur (a ++ u) = split_top both_sep 0 d' (reverse a ++ cur) u.
Proof.
  induction a as [|c a IH]; intros d d' cur u H Hu; cbn [calm] in H; [by simplify_eq|].
  destruct (_ || _) eqn:E; [done|]. cbn [app split_top].
  destruct ((depth_step d c =? 0)%Z && starts_with both_sep (c :: a ++ u)) eqn:Es.
  - exfalso. apply andb_true_iff in Es as [Ez [t Et]%starts_with_spec].
    injection Et as -> Et. unfold depth_step in H. rewrite Z.add_0_r, Z.sub_0_r in H.
    apply Z.eqb_eq in Ez. unfold depth_step in Ez. simpl in Ez.
    destruct a as [|x a]; cbn [app] in Et; [subst u; done|]. injection Et as -> Et.
    cbn [calm] in H. assert (Hd : d = 0%Z) by lia. subst d. by cbn in H.
  - rewrite (IH _ d') by done. by rewrite reverse_cons, <- (assoc_L (++)).
Qed.

(** Nothing inside parentheses is split. *)
Lemma split_deep sep a : forall d d' cur u,
  deep d a = Some d' -> split_top sep 0 d cur (a ++ u) = split_top sep 0 d' (reverse a ++ cur) u.
Proof.
  induction a as [|c a IH]; intros d d' cur u H; cbn [deep] in H; [by simplify_eq|].
  destruct (Z.leb_spec (depth_step d c) 0); [done|]. cbn [app split_top].
  destruct (Z.eqb_spec (depth_step d c) 0); [lia|]. simpl andb. cbv iota.
  rewrite (IH _ d') by done. by rewrite reverse_cons, <- (assoc_L (++)).
Qed.

Lemma split_skip sep sk d cur s u :
  length s = sk -> split_top sep sk d cur (s ++ u) = split_top sep 0 d cur u.
Proof. revert sk. induction s as [|c s IH]; intros sk H; subst; [done|]. by apply IH. Qed.

(** At a separator outside parentheses a part ends. *)
Lemma split_at sep cur u :
  sep = times_sep \/ sep = both_sep ->
  split_top sep 0 0 cur (sep ++ u) = trim (reverse cur) :: split_top sep 0 0 [] u.
Proof.
  intros [-> | ->]; unfold split_top at 1; fold split_top; cbn [app]; by rewrite ?andb_true_r.
Qed.

(** The texts of conditions: not blank, trimmed, calm. *)
Definition text_ok (e : jsstr) : Prop := e <> [] /\ trimmed e /\ calm 0 e = Some 0%Z.

Lemma nonempty_id es : Forall (fun e : jsstr => e <> []) es -> nonempty es = es.
Proof.
  unfold nonempty. induction 1 as [|e es He _ IH]; [done|]. by rewrite filter_cons_True, IH.
Qed.

Lemma splitTopLevelAnd_join es :
  es <> [] -> Forall text_ok es -> splitTopLevelAnd (join both_sep es) = es.
Proof.
  intros Hne Hes. unfold splitTopLevelAnd.
  assert (H : split_top both_sep 0 0 [] (join both_sep es) = es).
  { induction Hes as [|e es (He & Ht & Hc) Hes IH]; [done|]. destruct es as [|e' es].
    - simpl join. rewrite <- (app_nil_r e), (split_calm e 0 0) by done. simpl.
      by rewrite !app_nil_r, reverse_involutive, trimmed_trim.
    - rewrite join_cons by done. rewrite (split_calm e 0 0), app_nil_r, split_at by (done || by right).
      rewrite reverse_involutive, trimmed_trim, IH by done. done. }
  rewrite H. apply nonempty_id. eapply Forall_impl; [done|]. by intros e (? & _).
Qed.

(** Factors: a text between parentheses. *)
Definition paren (t : jsstr) : jsstr := js "(" ++ t ++ js ")".

Lemma paren_trimmed t : trimmed (paren t).
Proof. split; [done|]. apply no_trail_app; [by destruct t|]. by apply no_trail_app. Qed.

Lemma split_paren sep t cur u :
  sep = times_sep \/ sep = both_sep -> deep 1 t = Some 1%Z ->
  split_top sep 0 0 cur (paren t ++ u) = split_top sep 0 0 (reverse (paren t) ++ cur) u.
Proof.
  intros Hsep Ht. unfold paren. rewrite <- !(assoc_L (++)).
  transitivity (split_top sep 0 1 (40 :: cur) (t ++ js ")" ++ u)); [reflexivity|].
  rewrite (split_deep sep t 1 1) by done.
  transitivity (split_top sep 0 0 (41 :: reverse t ++ 40 :: cur) u).
  { unfold split_top at 1; fold split_top. by destruct Hsep as [-> | ->]. }
  f_equal. by rewrite !reverse_app, <- !(assoc_L (++)).
Qed.

Lemma splitTopLevelMultiply_join ts :
  ts <> [] -> Forall (fun t => deep 1 t = Some 1%Z) ts ->
  splitTopLevelMultiply (join times_sep (paren <$> ts)) = paren <$> ts.
Proof.
  intros Hne Hts. unfold splitTopLevelMultiply.
  assert (H : split_top times_sep 0 0 [] (join times_sep (paren <$> ts)) = paren <$> ts).
  { induction Hts as [|t ts Ht Hts IH]; [done|]. destruct ts as [|t' ts].
    - change (join times_sep (paren <$> [t])) with (paren t).
      rewrite <- (app_nil_r (paren t)), split_paren by auto.
      change (split_top times_sep 0 0 ?c []) with [trim (reverse c)].
      rewrite !app_nil_r, reverse_involutive, trimmed_trim by apply paren_trimmed. done.
    - rewrite fmap_cons, join_cons by done. rewrite split_paren, app_nil_r, split_at by auto.
      rewrite reverse_involutive, trimmed_trim, IH by (done || apply paren_trimmed). done. }
  rewrite H. apply nonempty_id, Forall_fmap, Forall_forall. done.
Qed.

(** The expression of a factor finds the condition and the multiplier. *)
Definition factor_text (cond mult : jsstr) : jsstr := cond ++ js " ? " ++ mult ++ js " : 1".

Lemma factor_paren cond mult : paren (factor_text cond mult) = js "(" ++ cond ++ js " ? " ++ mult ++ js " : 1)".
Proof. unfold paren, factor_text. by rewrite <- !(assoc_L (++)). Qed.

Lemma no_question s : forallb num_unit s = true -> 63 ∉ s.
Proof. rewrite forallb_forall. intros H Hq%list_elem_of_In%H. discriminate. Qed.

Lemma exec_factor cond mult :
  cond <> [] -> is_numeric mult = true ->
  exists m, exec false factor_regex (paren (factor_text cond mult)) = Some m
    /\ cap m 1 = cond /\ cap m 2 = mult.
Proof.
  intros Hc Hm. destruct (is_numeric_units mult Hm) as [Hmne Hmu]. rewrite factor_paren.
  unfold factor_regex, txt. rewrite exec_anchored. unfold run_anchored.
  rewrite rmatch_seq, rmatch_lit, rmatch_seq. destruct cond as [|c cond]; [done|].
  rewrite rmatch_group. unfold plus, cls. rewrite rmatch_seq. cbn [app]. rewrite rmatch_unit. cbn [any_unit].
  erewrite star_any_last; cycle 1.
  - cbn [before after caps].
    rewrite rmatch_seq, rmatch_lit, rmatch_seq, group_nums; [|done|done|by apply refuses_lit].
    rewrite rmatch_seq, <- (app_nil_r (js " : 1)")), rmatch_lit.
    cbn [rmatch after at_end before caps]. reflexivity.
  - intros x y b' E Hx. cbn [before after caps]. rewrite rmatch_seq. apply rmatch_lit_fail.
    apply not_true_iff_false. intros [t ->]%starts_with_spec.
    change (32 :: 63 :: 32 :: mult ++ js " : 1)" = x ++ 32 :: 63 :: 32 :: t) in E.
    destruct x as [|x0 [|x1 x]]; simpl in E; [done|by simplify_eq|].
    assert (Hq : 63 ∈ js " " ++ mult ++ js " : 1)").
    { change (63 ∈ 32 :: (mult ++ js " : 1)")). simplify_eq.
      match goal with H : _ = x ++ _ |- _ => rewrite H end. set_solver. }
    rewrite !elem_of_app in Hq. pose proof (no_question mult Hmu). set_solver.
  - eexists. split; [reflexivity|]. split; [|done].
    unfold cap. cbn [capture caps Nat.eqb default from_option id]. cbn [length]. rewrite length_app.
    match goal with |- take (S (_ + ?n) - _) (_ :: _ ++ ?u) = _ =>
      replace (S (length cond + n) - n)%nat with (length (c :: cond)) by (simpl; lia);
      exact (take_app_length (c :: cond) u) end.
Qed.

(** ** Rules that survive printing *)

(** Conditions whose printed form is read back: existence, equality, containment in
    a header, and the comparisons of times; the strings avoid the units that the
    splitters and the path expressions mistake. *)
Definition cond_ok (c : RequestCondition) : bool :=
  match c with
  | ParamHeaderCondition h p mode v =>
      path_ok p && bool_decide (trim p = p)
      && ((mode =s? MATCH_EXISTS) && negb (truthy v)
          || (mode =s? MATCH_CONTAINS) && h && literal_ok v
          || (mode =s? MATCH_EQ) && literal_ok v)
  | TimeCondition f tz mode v s e =>
      bool_decide (f ∈ TIME_FUNCS) && path_ok tz
      && ((mode =s? MATCH_RANGE) && negb (truthy v) && is_numeric s && is_numeric e
          || bool_decide (mode ∈ [MATCH_EQ; MATCH_GTE; MATCH_LT]) && is_numeric v
             && negb (truthy s) && negb (truthy e))
  end.

Definition group_ok (g : RequestRuleGroup) : bool :=
  bool_decide (conditions g <> []) && forallb cond_ok (conditions g)
  && is_numeric (multiplier g).

Lemma is_numeric_trim v : is_numeric v = true -> trim v = v.
Proof. intros [_ H]%is_numeric_units. apply trimmed_trim. split; by apply num_unit_ends. Qed.

Lemma stringify_path p : path_ok p = true -> stringify_string p = quo ++ p ++ quo.
Proof. intros [_ H]%andb_true_iff. unfold stringify_string. by rewrite escape_plain. Qed.

Ltac split_bools :=
  repeat match goal with
    | H : _ && _ = true |- _ => apply andb_true_iff in H as [? ?]
    | H : _ || _ = true |- _ => apply orb_true_iff in H as [H|H]
    | H : bool_decide _ = true |- _ => apply bool_decide_eq_true in H
    | H : (_ =s? _) = true |- _ => apply str_eqb_eq in H
    | H : negb (truthy _) = true |- _ => rewrite negb_true_iff in H; apply truthy_false in H
    end.

(** What is printed for such a condition. *)
Lemma build_param_header h p mode v :
  cond_ok (ParamHeaderCondition h p mode v) = true ->
  buildRequestConditionExpr (ParamHeaderCondition h p mode v)
  = if mode =s? MATCH_EXISTS
    then call (source_name h) p ++ (if h then js " != " ++ quo ++ quo else js " != nil")
    else if mode =s? MATCH_CONTAINS
    then js "has(" ++ call (js "header") p ++ js ", " ++ quo ++ escape v ++ quo ++ js ")"
    else call (source_name h) p ++ js " == " ++ buildExprLiteral MATCH_EQ v.
Proof.
  cbn [cond_ok]. intros H. unfold literal_ok in H.
  assert (Hs : (if h then js "header(" else js "param(") ++ (quo ++ p ++ quo) ++ js ")" = call (source_name h) p).
  { unfold call. rewrite <- !(assoc_L (++)). by destruct h. }
  assert (Htr : truthy p = true) by (by split_bools; apply andb_true_iff in H as [? _]).
  assert (Hnorm : valid_mode (if h then SOURCE_HEADER else SOURCE_PARAM) (Some mode) MATCH_EQ = mode).
  { split_bools; subst mode; by destruct h. }
  unfold buildRequestConditionExpr, normalizeCondition. cbn [partial_of pc_source pc_path pc_mode pc_value].
  assert (bool_decide (Some (if h then SOURCE_HEADER else SOURCE_PARAM) = Some SOURCE_TIME) = false) as ->
    by by destruct h.
  assert (bool_decide (Some (if h then SOURCE_HEADER else SOURCE_PARAM) = Some SOURCE_HEADER) = h) as ->
    by by destruct h.
  rewrite Hnorm. cbn [default from_option id]. unfold buildParamHeaderExpr.
  assert (Hp : path_ok p = true /\ trim p = p) by (by split_bools). destruct Hp as [Hp ->].
  rewrite Htr, stringify_path, Hs by done. cbn [negb].
  split_bools; subst mode; try done. destruct h; [|done]. cbn [source_name].
  unfold buildExprLiteral. replace (trim v) with v by congruence.
  change (MATCH_CONTAINS =s? MATCH_EXISTS) with false. rewrite !str_eqb_refl.
  change (stringify_string v) with (quo ++ escape v ++ quo). by rewrite <- !(assoc_L (++)).
Qed.

Lemma build_time f tz mode v s e :
  cond_ok (TimeCondition f tz mode v s e) = true ->
  buildRequestConditionExpr (TimeCondition f tz mode v s e)
  = if mode =s? MATCH_RANGE then range_text f tz s e
    else call f tz ++ js " " ++ time_op mode ++ js " " ++ v.
Proof.
  cbn [cond_ok]. intros H.
  assert (Hp : f ∈ TIME_FUNCS /\ path_ok tz = true) by (by split_bools). destruct Hp as [Hf Hp].
  assert (Hs : f ++ js "(" ++ (quo ++ tz ++ quo) ++ js ")" = call f tz)
    by (unfold call; by rewrite <- !(assoc_L (++))).
  assert (Htr : tz ||| js "Asia/Shanghai" = tz)
    by (unfold str_or; apply andb_true_iff in Hp as [-> _]; done).
  assert (Hnorm : valid_mode SOURCE_TIME (Some mode) MATCH_GTE = mode).
  { unfold valid_mode. rewrite bool_decide_eq_true_2; [done|]. cbn. split_bools; subst; set_solver. }
  unfold buildRequestConditionExpr, normalizeCondition.
  cbn [partial_of pc_source pc_timeFunc pc_timezone pc_mode pc_value pc_rangeStart pc_rangeEnd].
  rewrite Hnorm. cbn [isTimeFunc default from_option id].
  rewrite !bool_decide_eq_true_2 by done. unfold buildTimeConditionExpr.
  rewrite Htr, stringify_path, Hs by done.
  destruct (str_eqb_eq mode MATCH_RANGE) as [Hr _]. destruct (mode =s? MATCH_RANGE) eqn:Em.
  - rewrite Hr in H by done. split_bools; [|set_solver].
    rewrite !is_numeric_trim by done.
    repeat match goal with H : is_numeric _ = true |- _ => rewrite H end. done.
  - split_bools; [done|]. rewrite !is_numeric_trim by done.
    repeat match goal with H : is_numeric _ = true |- _ => rewrite H end. done.
Qed.

(** A condition inside a conjunction: a disjunction is put between parentheses. *)
Definition wrap (e : jsstr) : jsstr := if includes (js " || ") e then paren e else e.

Definition no_bar (s : jsstr) : bool := forallb (not_unit 124) s.

Lemma no_bar_wrap e : no_bar e = true -> wrap e = e.
Proof.
  intros H. unfold wrap. destruct (includes (js " || ") e) eqn:E; [|done].
  apply includes_spec in E as (a & b & ->). unfold no_bar in H.
  by rewrite !forallb_app, (andb_comm (forallb _ a)), <- !andb_assoc in H.
Qed.

Lemma path_no_bar p : path_ok p = true -> no_bar p = true.
Proof.
  intros [_ H]%andb_true_iff. unfold no_bar. rewrite forallb_forall in *. intros c Hc. specialize (H c Hc).
  unfold path_unit in H. unit_bools. unfold not_unit. by apply negb_true_iff, N.eqb_neq.
Qed.

Lemma quiet_no_bar s : forallb quiet s = true -> no_bar s = true.
Proof.
  unfold no_bar. rewrite !forallb_forall. intros H c Hc. specialize (H c Hc).
  unfold quiet in H. unit_bools. unfold not_unit. by apply negb_true_iff, N.eqb_neq.
Qed.

Lemma call_no_bar f p u : no_bar f = true -> path_ok p = true -> no_bar (call f p ++ u) = no_bar u.
Proof.
  intros Hf Hp%path_no_bar. unfold no_bar, call in *. by rewrite !forallb_app, Hf, Hp.
Qed.

Lemma seg_no_bar s u : no_bar s = true -> no_bar (s ++ u) = no_bar u.
Proof. unfold no_bar. intros H. by rewrite forallb_app, H. Qed.

Lemma call_head f p u : no_lead f -> f <> [] -> no_lead (call f p ++ u) /\ call f p ++ u <> [].
Proof. intros Hf Hne. unfold call. by destruct f. Qed.

Lemma source_facts h :
  no_lead (source_name h) /\ source_name h <> [] /\ forallb quiet (source_name h) = true
  /\ no_bar (source_name h) = true.
Proof. by destruct h. Qed.

Lemma time_func_facts f :
  f ∈ TIME_FUNCS -> no_lead f /\ f <> [] /\ forallb quiet f = true /\ no_bar f = true.
Proof.
  unfold TIME_FUNCS. rewrite !elem_of_cons, elem_of_nil. intros Hf. by destruct_or! Hf; subst f.
Qed.

(** A call, an operator and a quiet tail that does not end with a space. *)
Lemma call_text f p u :
  no_lead f /\ f <> [] /\ forallb quiet f = true /\ no_bar f = true -> path_ok p = true ->
  u <> [] -> forallb quiet u = true -> no_trail u ->
  text_ok (call f p ++ u) /\ no_bar (call f p ++ u) = true.
Proof.
  intros (H1 & H2 & H3 & H4) Hp Hu Hq Ht. destruct (call_head f p u H1 H2) as [Hl Hne].
  split; [|by rewrite call_no_bar by done; apply quiet_no_bar]. split; [done|]. split.
  - split; [done|]. by apply no_trail_app.
  - rewrite calm_call by (lia || done). by apply calm_quiet.
Qed.

Lemma quiet_app a b : forallb quiet a = true -> forallb quiet b = true -> forallb quiet (a ++ b) = true.
Proof. intros. rewrite forallb_app. by apply andb_true_iff. Qed.

Lemma contains_text h p v :
  path_ok p = true -> literal_ok v = true ->
  let e := js "has(" ++ call (source_name h) p ++ js ", " ++ quo ++ escape v ++ quo ++ js ")" in
  text_ok e /\ no_bar e = true.
Proof.
  intros Hp [_ Hv]%andb_true_iff e. pose proof (escape_quiet v Hv) as Hq.
  destruct (source_facts h) as (_ & _ & Hsq & Hsb).
  split; [split; [done|split; [split; [done|]|]]|].
  - unfold e. apply ends_well_app. do 5 apply ends_well_app. done.
  - unfold e. change (js "has(") with (js "has" ++ js "("). rewrite <- (assoc_L (++)).
    rewrite calm_seg, calm_open, calm_call by done.
    rewrite !(calm_seg (0 + 1)) by (lia || done). done.
  - unfold e. rewrite seg_no_bar, call_no_bar, !seg_no_bar by (done || by apply quiet_no_bar). done.
Qed.

Lemma range_text_ok f tz s e :
  f ∈ TIME_FUNCS -> path_ok tz = true -> is_numeric s = true -> is_numeric e = true ->
  text_ok (range_text f tz s e).
Proof.
  intros Hf%time_func_facts Htz [_ Hs]%is_numeric_units [Hne He]%is_numeric_units.
  destruct Hf as (H1 & H2 & H3 & H4).
  pose proof (num_unit_quiet s Hs). pose proof (num_unit_quiet e He). unfold range_text. split; [|split; [split|]].
  - by apply call_head.
  - by apply call_head.
  - apply ends_well_app. do 5 apply ends_well_app. split; [done|]. by apply num_unit_ends.
  - rewrite calm_call by done. rewrite (calm_seg 0 (js " >= ")), (calm_seg 0 s) by done.
    change (js " || ") with (js " " ++ [124; 124] ++ js " "). rewrite <- !(assoc_L (++)).
    rewrite (calm_seg 0 (js " ")) by done.
    change (calm 0 ([124; 124] ++ js " " ++ ?u)) with (calm 0 u).
    rewrite calm_call by done. rewrite (calm_seg 0 (js " < ")) by done. by apply calm_quiet.
Qed.

Lemma calm_shift d a d' : calm d a = Some d' -> calm (d + 1) a = Some (d' + 1)%Z.
Proof.
  revert d. induction a as [|c a IH]; intros d H; simpl in *; [by simplify_eq|].
  destruct (_ || _) eqn:E; [done|]. apply orb_false_iff in E as [E%Z.ltb_ge _].
  assert (Hs : depth_step (d + 1) c = (depth_step d c + 1)%Z) by (unfold depth_step; lia).
  rewrite Hs. destruct (Z.ltb_spec (depth_step d c + 1) 0); [lia|].
  destruct (Z.eqb_spec (depth_step d c + 1) 0); [lia|]. by apply IH.
Qed.

Lemma paren_text e : text_ok e -> text_ok (paren e).
Proof.
  intros (Hne & Ht & Hc). split; [done|]. split; [apply paren_trimmed|].
  unfold paren. rewrite calm_open, calm_app by done. by rewrite (calm_shift 0 e 0).
Qed.

(** Every condition of the class is printed to a text that is parsed back, with or
    without the parentheses of a conjunction. *)
Lemma cond_text c :
  cond_ok c = true ->
  let e := buildRequestConditionExpr c in
  text_ok e /\ tryParseRequestCondition e = Ok (Some c)
  /\ text_ok (wrap e) /\ tryParseRequestCondition (wrap e) = Ok (Some c).
Proof.
  intros Hc e.
  assert (Hplain : text_ok e /\ no_bar e = true -> tryParseRequestCondition e = Ok (Some c) ->
    text_ok e /\ tryParseRequestCondition e = Ok (Some c)
    /\ text_ok (wrap e) /\ tryParseRequestCondition (wrap e) = Ok (Some c)).
  { intros [He Hb] Hp. by rewrite no_bar_wrap. }
  destruct c as [h p mode v|f tz mode v s en]; unfold e in *; clear e.
  - rewrite build_param_header in * by done. cbn [cond_ok] in Hc. clear -Hc Hplain.
    split_bools; subst mode; apply Hplain.
    + subst v. apply call_text; try done; [apply source_facts|by destruct h..].
    + subst v. by apply parse_exists.
    + destruct h; [|done]. by apply (contains_text true).
    + destruct h; [|done]. apply parse_contains; [done|]. by apply literal_str_ok.
    + destruct (buildExprLiteral_spec MATCH_EQ v) as (Hl & Hlq & [_ Hlt] & _); [done|].
      apply call_text; try done; [apply source_facts|by apply no_trail_app].
    + by apply parse_equals.
  - rewrite build_time in * by done. cbn [cond_ok] in Hc. clear -Hc Hplain.
    split_bools; subst.
    + change (MATCH_RANGE =s? MATCH_RANGE) with true. cbv iota.
      assert (Ht : text_ok (range_text f tz s en)) by by apply range_text_ok.
      assert (Hp : tryParseRequestCondition (range_text f tz s en) = Ok (Some (TimeCondition f tz MATCH_RANGE [] s en)))
        by (unfold tryParseRequestCondition; by rewrite (parse_time_range f tz s en false)).
      unfold wrap. destruct (includes _ _); [|done].
      split; [done|]. split; [done|]. split; [by apply paren_text|].
      unfold tryParseRequestCondition, paren. by rewrite (parse_time_range f tz s en true).
    + assert (Hm : (mode =s? MATCH_RANGE) = false /\ time_op mode ∈ [js "=="; js ">="; js "<"]
               /\ time_op_map (time_op mode) = mode).
      { match goal with H : mode ∈ _ |- _ => rewrite !elem_of_cons, elem_of_nil in H; destruct_or! H end;
        subst mode; (split; [reflexivity|split; [|reflexivity]]);
        by_decision. }
      destruct Hm as (Hm & Hop & Hmap). rewrite Hm in *. destruct (is_numeric_units v) as [Hne Hu]; [done|].
      apply Hplain.
      * apply call_text; try done; [by apply time_func_facts| |].
        -- apply (quiet_app (js " ")); [done|].
           apply quiet_app; [|apply (quiet_app (js " ")); [done|by apply num_unit_quiet]].
           rewrite !elem_of_cons, elem_of_nil in Hop. by destruct_or! Hop; rewrite Hop.
        -- apply ends_well_app. do 2 apply ends_well_app. split; [done|]. by apply num_unit_ends.
      * unfold tryParseRequestCondition. by rewrite parse_time_compare, Hmap.
Qed.

(** ** Groups *)

(** The printed conditions of a group, as they are joined. *)
Definition cond_texts (g : RequestRuleGroup) : list jsstr :=
  match buildRequestConditionExpr <$> conditions g with
  | [e] => [e]
  | es => wrap <$> es
  end.

Lemma cond_texts_ok g :
  group_ok g = true ->
  cond_texts g <> [] /\ Forall text_ok (cond_texts g)
  /\ parse_each (fun ap => tryParseRequestCondition (trim ap)) (cond_texts g) = Ok (Some (conditions g)).
Proof.
  unfold group_ok, cond_texts. destruct g as [cs mult]. cbn [conditions multiplier].
  intros [[Hne Hcs]%andb_true_iff _]%andb_true_iff. apply bool_decide_eq_true in Hne.
  rewrite forallb_forall in Hcs.
  assert (Hall : Forall (fun c => cond_ok c = true) cs)
    by (apply Forall_forall; intros c Hc; apply Hcs; by apply list_elem_of_In). clear Hcs.
  assert (Hparse : forall e c, text_ok e -> tryParseRequestCondition e = Ok (Some c) ->
    tryParseRequestCondition (trim e) = Ok (Some c)) by (intros e c (_ & Ht & _) H; by rewrite trimmed_trim).
  assert (Hwrap : Forall text_ok (wrap <$> (buildRequestConditionExpr <$> cs))
    /\ parse_each (fun ap => tryParseRequestCondition (trim ap)) (wrap <$> (buildRequestConditionExpr <$> cs))
       = Ok (Some cs)).
  { clear Hne. induction Hall as [|c cs Hc _ [IH1 IH2]]; [done|].
    destruct (cond_text c Hc) as (_ & _ & H1 & H2). split; [by constructor|].
    cbn [fmap list_fmap parse_each]. rewrite (Hparse _ c) by done. cbn [decoded_bind].
    change (list_fmap _ _ wrap (list_fmap _ _ buildRequestConditionExpr cs))
      with (wrap <$> (buildRequestConditionExpr <$> cs)). by rewrite IH2. }
  destruct cs as [|c [|c' cs]]; [done| |].
  - apply Forall_cons in Hall as [Hall _]. destruct (cond_text c Hall) as (H1 & H2 & _).
    split; [done|]. split; [by apply Forall_singleton|]. simpl. by rewrite (Hparse _ c).
  - split; [done|]. exact Hwrap.
Qed.

(** The text of a group between its parentheses. *)
Definition group_text (g : RequestRuleGroup) : jsstr :=
  factor_text (join both_sep (cond_texts g)) (multiplier g).

Lemma join_nonempty sep es : es <> [] -> Forall (fun e : jsstr => e <> []) es -> join sep es <> [].
Proof. intros Hne H. destruct H as [|e es He _]; [done|]. by destruct es, e. Qed.

Lemma build_group g : group_ok g = true -> buildRuleGroupFactor g = paren (group_text g).
Proof.
  intros Hg. destruct (cond_texts_ok g Hg) as (Hne & Htexts & _).
  unfold group_ok in Hg. split_bools. unfold buildRuleGroupFactor.
  rewrite is_numeric_trim by done.
  match goal with H : is_numeric _ = true |- _ => rewrite H end. cbn [negb].
  rewrite nonempty_id.
  2:{ apply Forall_fmap, Forall_forall. intros c Hc. rewrite forallb_forall in H1.
      apply list_elem_of_In in Hc. by destruct (cond_text c (H1 c Hc)) as ((? & _) & _). }
  unfold group_text, cond_texts. rewrite factor_paren.
  destruct (conditions g) as [|c [|c' cs]]; [done|done|done].
Qed.

Lemma join_deep es u : Forall text_ok es -> deep 1 (join both_sep es ++ u) = deep 1 u.
Proof.
  intros Hes. revert u. induction Hes as [|e es (_ & _ & He) _ IH]; intros u; [done|].
  assert (Hd : forall u, deep 1 (e ++ u) = deep 1 u)
    by (intros; rewrite deep_app, calm_deep0 by done; done).
  destruct es as [|e' es]; [apply Hd|]. rewrite join_cons, <- !(assoc_L (++)), Hd by done.
  change (deep 1 (both_sep ++ ?w)) with (deep 1 w). apply IH.
Qed.

Lemma deep_nums s u : is_numeric s = true -> deep 1 (s ++ u) = deep 1 u.
Proof.
  intros [_ Hs]%is_numeric_units. rewrite deep_app, calm_deep0; [done|].
  by apply calm_quiet, num_unit_quiet.
Qed.

Lemma group_text_deep g : group_ok g = true -> deep 1 (group_text g) = Some 1%Z.
Proof.
  intros Hg. destruct (cond_texts_ok g Hg) as (_ & Htexts & _). unfold group_ok in Hg. split_bools.
  unfold group_text, factor_text. rewrite join_deep by done.
  change (deep 1 (js " ? " ++ ?w)) with (deep 1 w). by rewrite deep_nums.
Qed.

(** A printed group is parsed back. *)
Lemma parse_group g : group_ok g = true -> tryParseRuleGroupFactor (paren (group_text g)) = Ok (Some g).
Proof.
  intros Hg. destruct (cond_texts_ok g Hg) as (Hne & Htexts & Hparse).
  assert (Hc : conditions g <> [] /\ is_numeric (multiplier g) = true)
    by (unfold group_ok in Hg; by split_bools).
  destruct (exec_factor (join both_sep (cond_texts g)) (multiplier g)) as (m & Hm & H1 & H2).
  - apply join_nonempty; [done|]. eapply Forall_impl; [done|]. by intros e (? & _).
  - apply Hc.
  - unfold tryParseRuleGroupFactor, group_text. rewrite Hm, H1, H2, splitTopLevelAnd_join, Hparse by done.
    cbn [decoded_bind]. destruct g as [[|c cs] mult]; [by destruct Hc|done].
Qed.

Lemma parse_each_map {A B} (f : jsstr -> Decoded (option A)) (t : B -> jsstr) (h : B -> A) l :
  Forall (fun x => f (t x) = Ok (Some (h x))) l -> parse_each f (t <$> l) = Ok (Some (h <$> l)).
Proof. induction 1 as [|x l Hx _ IH]; [done|]. rewrite !fmap_cons. cbn [parse_each]. by rewrite Hx, IH. Qed.

Lemma build_rules gs :
  Forall (fun g => group_ok g = true) gs ->
  buildRequestRuleExpr gs = join times_sep (paren <$> (group_text <$> gs)).
Proof.
  intros H. unfold buildRequestRuleExpr. f_equal.
  assert (E : buildRuleGroupFactor <$> gs = paren <$> (group_text <$> gs)).
  { induction H as [|g gs Hg _ IH]; [done|]. rewrite !fmap_cons, build_group, IH by done. done. }
  rewrite E. apply nonempty_id, Forall_fmap, Forall_forall. done.
Qed.

Lemma join_parens_trimmed ts : trimmed (join times_sep (paren <$> ts)).
Proof.
  assert (H : forall t ts, join times_sep (paren <$> (t :: ts)) <> []
    /\ no_trail (join times_sep (paren <$> (t :: ts)))).
  { clear. intros t ts. revert t. induction ts as [|t' ts IH]; intros t.
    - split; [done|apply paren_trimmed].
    - rewrite fmap_cons, join_cons by done. apply ends_well_app, ends_well_app, IH. }
  destruct ts as [|t ts]; [done|]. split; [by destruct ts|apply H].
Qed.

Lemma parse_rules gs :
  gs <> [] -> Forall (fun g => group_ok g = true) gs ->
  splitTopLevelMultiply (buildRequestRuleExpr gs) = paren <$> (group_text <$> gs)
  /\ tryParseRequestRuleExpr (buildRequestRuleExpr gs) = Ok (Some gs).
Proof.
  intros Hne Hgs. rewrite build_rules by done.
  assert (Hs : splitTopLevelMultiply (join times_sep (paren <$> (group_text <$> gs))) = paren <$> (group_text <$> gs)).
  { apply splitTopLevelMultiply_join; [by destruct gs|]. apply Forall_fmap.
    eapply Forall_impl; [done|]. intros g. apply group_text_deep. }
  split; [done|]. unfold tryParseRequestRuleExpr.
  rewrite trimmed_trim by apply join_parens_trimmed.
  rewrite (proj2 (truthy_true _)) by (apply join_nonempty; [by destruct gs|by apply Forall_fmap, Forall_forall]).
  cbn [negb]. rewrite Hs, <- list_fmap_compose.
  rewrite (parse_each_map _ (paren ∘ group_text) (fun g => g)); [by rewrite list_fmap_id|].
  eapply Forall_impl; [done|]. intros g. apply parse_group.
Qed.

(** C18: Request rules of the class [group_ok] are parsed back from what the editor prints
    for them to the same rules, group by group and condition by condition; in particular the
    parser neither fails nor throws on them.  The class: every group has a condition and a
    numeric multiplier, and every condition asks whether a parameter or a header exists or
    equals a plain text, whether a header contains one, or compares a time with a number or
    with a range.  Names, time zones and texts are not blank at the ends and have no
    parenthesis and no bar; names and time zones have no quote, backslash, control character or
    surrogate either, and texts no ampersand and no line separator.  The other conditions on a parameter (contains, above and
    below a number) are outside the class and are lost: [conjunction_rules_lost]. *)
Theorem request_rules_roundtrip gs :
  Forall (fun g => group_ok g = true) gs ->
  tryParseRequestRuleExpr (buildRequestRuleExpr gs) = Ok (Some gs).
Proof. intros Hgs. destruct gs as [|g gs]; [done|]. by apply parse_rules. Qed.

(** A group of every kind of condition of the class. *)
Definition sample_conditions : list RequestCondition :=
  [ ParamHeaderCondition true (js "x-tier") MATCH_EQ (js "gold + silver");
    ParamHeaderCondition false (js "stream") MATCH_EQ (js "true");
    ParamHeaderCondition false (js "service_tier") MATCH_EXISTS [];
    ParamHeaderCondition true (js "user-agent") MATCH_CONTAINS (js "a");
    TimeCondition (js "hour") (js "Asia/Shanghai") MATCH_RANGE [] (js "21") (js "6");
    TimeCondition (js "month") (js "UTC") MATCH_GTE (js "11") [] [] ].
Definition sample_groups : list RequestRuleGroup :=
  [mkGroup sample_conditions (js "1.5"); mkGroup (take 1 sample_conditions) (js "0.5")].

Lemma request_rules_roundtrip_witness :
  tryParseRequestRuleExpr (buildRequestRuleExpr sample_groups) = Ok (Some sample_groups).
Proof. apply request_rules_roundtrip. repeat constructor. Defined.

(** ** Rules that are lost *)

(** The conditions on a parameter that are printed as a conjunction. *)
Definition printed_as_conjunction (c : RequestCondition) : bool :=
  match c with
  | ParamHeaderCondition false p mode v =>
      path_ok p && bool_decide (trim p = p)
      && ((mode =s? MATCH_CONTAINS) && literal_ok v
          || bool_decide (mode ∈ [MATCH_GT; MATCH_GTE; MATCH_LT; MATCH_LTE]) && is_numeric v)
  | _ => false
  end.

(** The second half of such a condition is read by no expression of the parser. *)
Lemma parse_has_param p u : tryParseRequestCondition (js "has(" ++ call (js "param") p ++ u) = Ok None.
Proof.
  rewrite call_app. unfold tryParseRequestCondition. rewrite not_time_has.
  refuse_regex header_exists_regex. refuse_regex param_exists_regex. refuse_regex header_contains_regex.
  refuse_regex param_contains_regex. refuse_regex param_compare_regex. refuse_regex equals_regex. reflexivity.
Qed.

Definition compare_ops : list jsstr := [js ">"; js ">="; js "<"; js "<="].

Lemma parse_bare_compare p op v :
  path_ok p = true -> op ∈ compare_ops ->
  tryParseRequestCondition (call (js "param") p ++ js " " ++ op ++ js " " ++ v) = Ok None.
Proof.
  intros Hp Hop. unfold tryParseRequestCondition. rewrite (not_time false).
  unfold compare_ops in Hop. rewrite !elem_of_cons, elem_of_nil in Hop.
  assert (He : exec false equals_regex (call (js "param") p ++ js " " ++ op ++ js " " ++ v) = None).
  { unfold equals_regex, txt. rewrite exec_anchored. unfold run_anchored.
    rewrite call_app, rmatch_seq, group_one_of; [|by left|
      by_decision|
      by intros t' Ht' ?; rewrite !elem_of_cons, elem_of_nil in Ht'; destruct_or! Ht'; subst].
    rewrite rmatch_seq, rmatch_lit, rmatch_seq, quoted_run, rmatch_seq by done.
    by destruct_or! Hop; subst op; rewrite rmatch_lit_fail. }
  rewrite He. destruct_or! Hop; subst op;
    refuse_regex_after param_exists_regex param_call_run;
    refuse_regex_after param_contains_regex param_call_run;
    refuse_regex_after param_compare_regex param_call_run;
    rewrite call_app; refuse_regex header_exists_regex; refuse_regex header_contains_regex; reflexivity.
Qed.

(** The parser of one condition accepts the conjunction. *)
Lemma compare_op_run op k b u c :
  op ∈ compare_ops ->
  exists b', rm (Group 3 (one_of compare_ops)) (rm (lit (js " ")) k) (mkPos b (op ++ js " " ++ u) c)
    = k (mkPos b' u ((3%nat, op) :: c)).
Proof.
  unfold compare_ops. rewrite !elem_of_cons, elem_of_nil. intros Hop.
  destruct_or! Hop; subst op; simpl; rewrite ?or_else_None; replace (length u - length u)%nat with 0%nat by lia;
    rewrite ?Nat.sub_succ_l, ?Nat.sub_diag by lia; eexists; reflexivity.
Qed.

Lemma parse_param_contains p v :
  path_ok p = true -> literal_ok v = true ->
  tryParseRequestCondition (call (js "param") p ++ js " != nil && has(" ++ call (js "param") p ++ js ", "
    ++ quo ++ escape v ++ quo ++ js ")")
  = Ok (Some (ParamHeaderCondition false p MATCH_CONTAINS v)).
Proof.
  intros Hp Hv. set (text := call _ _ ++ _).
  assert (Hm : exists m, exec false param_contains_regex text = Some m
    /\ cap m 1 = p /\ cap m 2 = p /\ cap m 3 = quo ++ escape v ++ quo).
  { unfold param_contains_regex, txt, text. rewrite exec_anchored. unfold run_anchored.
    rewrite rmatch_seq, param_call_run, rmatch_seq, rmatch_lit, rmatch_seq, param_call_run by done.
    rewrite rmatch_seq, rmatch_lit, rmatch_seq, group_string_literal by apply escape_body.
    eexists. split; [reflexivity|done]. }
  destruct Hm as (m & Hm & H1 & H2 & H3). unfold tryParseRequestCondition. rewrite Hm. unfold text.
  rewrite (not_time false). refuse_regex_after param_exists_regex param_call_run.
  rewrite call_app. refuse_regex header_exists_regex. refuse_regex header_contains_regex.
  unfold same_path. rewrite H1, H2, str_eqb_refl, H3, H1. unfold parse_string.
  by rewrite JSON_parse_literal by by apply literal_str_ok.
Qed.

Lemma parse_param_compare p op v :
  path_ok p = true -> op ∈ compare_ops -> is_numeric v = true ->
  tryParseRequestCondition (call (js "param") p ++ js " != nil && " ++ call (js "param") p ++ js " "
    ++ op ++ js " " ++ v)
  = Ok (Some (ParamHeaderCondition false p (compare_op_map op) v)).
Proof.
  intros Hp Hop Hv. set (text := call _ _ ++ _).
  assert (Hm : exists m, exec false param_compare_regex text = Some m
    /\ cap m 1 = p /\ cap m 2 = p /\ cap m 3 = op /\ cap m 4 = v).
  { unfold param_compare_regex, txt, text. rewrite exec_anchored. unfold run_anchored.
    rewrite rmatch_seq, param_call_run, rmatch_seq, rmatch_lit, rmatch_seq, param_call_run by done.
    rewrite rmatch_seq, rmatch_lit, rmatch_seq.
    match goal with |- context [rm (lit (js " ") >> ?r) ?k] =>
      change (rm (lit (js " ") >> r) k) with (rm (lit (js " ")) (rm r k)) end.
    edestruct (compare_op_run op) as [b' Hb]; [done|]. unfold compare_ops in Hb. rewrite Hb.
    rewrite rmatch_seq, group_nums_end; [|done|apply refuses_end].
    eexists. split; [reflexivity|done]. }
  destruct Hm as (m & Hm & H1 & H2 & H3 & H4). unfold tryParseRequestCondition. rewrite Hm.
  assert (Hc : exec false param_contains_regex text = None).
  { unfold param_contains_regex, txt, text. rewrite exec_anchored. unfold run_anchored.
    rewrite rmatch_seq, param_call_run, rmatch_seq, call_app by done. by rewrite rmatch_lit_fail. }
  rewrite Hc. unfold text. rewrite (not_time false). refuse_regex_after param_exists_regex param_call_run.
  rewrite call_app. refuse_regex header_exists_regex. refuse_regex header_contains_regex.
  unfold same_path. by rewrite H1, H2, str_eqb_refl, H1, H3, H4.
Qed.

(** What is printed for such a condition: an existence test and a second half. *)
Lemma build_param_conjunction p mode v :
  printed_as_conjunction (ParamHeaderCondition false p mode v) = true ->
  let exists_text := call (js "param") p ++ js " != nil" in
  let text := buildRequestConditionExpr (ParamHeaderCondition false p mode v) in
  path_ok p = true
  /\ (mode = MATCH_CONTAINS /\ literal_ok v = true
       /\ text = join both_sep [exists_text; js "has(" ++ call (js "param") p ++ js ", " ++ quo ++ escape v ++ quo ++ js ")"]
      \/ exists op, op ∈ compare_ops /\ compare_op_map op = mode /\ is_numeric v = true
       /\ text = join both_sep [exists_text; call (js "param") p ++ js " " ++ op ++ js " " ++ v]).
Proof.
  cbn [printed_as_conjunction]. intros H.
  assert (Hp : path_ok p = true /\ trim p = p /\ truthy p = true)
    by (split_bools; repeat split; try done; unfold path_ok in *; by split_bools).
  destruct Hp as (Hp & Htr & Htruthy).
  assert (Hs : js "param(" ++ (quo ++ p ++ quo) ++ js ")" = call (js "param") p)
    by (unfold call; rewrite <- !(assoc_L (++)); done).
  assert (Hnorm : valid_mode SOURCE_PARAM (Some mode) MATCH_EQ = mode).
  { unfold valid_mode. rewrite bool_decide_eq_true_2; [done|]. cbn. split_bools; subst; set_solver. }
  assert (Hb : buildRequestConditionExpr (ParamHeaderCondition false p mode v) = buildParamHeaderExpr false p mode v).
  { unfold buildRequestConditionExpr, normalizeCondition. cbn [partial_of pc_source pc_path pc_mode pc_value].
    rewrite !bool_decide_eq_false_2 by done. by rewrite Hnorm. }
  rewrite Hb. unfold buildParamHeaderExpr. rewrite Htr, Htruthy, stringify_path, Hs by done. cbn [negb].
  change (js " != nil && ") with (js " != nil" ++ both_sep).
  change (join both_sep [?a; ?b]) with (a ++ both_sep ++ b).
  apply andb_true_iff in H as [_ [Hc|Hc]%orb_true_iff]; split_bools; (split; [done|]).
  - subst mode. left. split; [done|]. split; [done|].
    change (MATCH_CONTAINS =s? MATCH_EXISTS) with false. change (MATCH_CONTAINS =s? MATCH_CONTAINS) with true.
    cbv iota. unfold buildExprLiteral. change (MATCH_CONTAINS =s? MATCH_CONTAINS) with true. cbv iota.
    replace (trim v) with v by (unfold literal_ok in *; by split_bools).
    change (stringify_string v) with (quo ++ escape v ++ quo). by rewrite <- !(assoc_L (++)).
  - right. assert (Hop : (mode =s? MATCH_EXISTS) = false /\ (mode =s? MATCH_CONTAINS) = false
      /\ exists op, compare_op mode = Some op /\ op ∈ compare_ops /\ compare_op_map op = mode).
    { match goal with H : mode ∈ _ |- _ => rewrite !elem_of_cons, elem_of_nil in H; destruct_or! H end;
        subst mode; (split; [reflexivity|split; [reflexivity|]]);
        (eexists; split; [reflexivity|split; [|reflexivity]]);
        by_decision. }
    destruct Hop as (-> & -> & op & -> & Hop & Hmap). exists op. split; [done|]. split; [done|]. split; [done|].
    rewrite is_numeric_trim by done. match goal with H : is_numeric v = true |- _ => rewrite H end.
    by rewrite <- !(assoc_L (++)).
Qed.

Lemma build_conjunction c :
  printed_as_conjunction c = true ->
  exists p e, path_ok p = true /\ text_ok e
    /\ buildRequestConditionExpr c = join both_sep [call (js "param") p ++ js " != nil"; e]
    /\ tryParseRequestCondition e = Ok None
    /\ tryParseRequestCondition (buildRequestConditionExpr c) = Ok (Some c).
Proof.
  destruct c as [[|] p mode v|]; try done. intros H. exists p.
  destruct (build_param_conjunction p mode v H) as (Hp & [(-> & Hv & Ht)|(op & Hop & <- & Hv & Ht)]);
    rewrite Ht; eexists; (split; [done|]).
  - split; [by apply (contains_text false)|]. split; [done|]. split; [apply parse_has_param|].
    rewrite <- (parse_param_contains p v) by done. f_equal. change (join both_sep [?a; ?b]) with (a ++ both_sep ++ b).
    by rewrite <- !(assoc_L (++)).
  - destruct (is_numeric_units v Hv) as [Hne Hu]. split; [|split; [done|split; [by apply parse_bare_compare|]]].
    + apply call_text; try done.
      * apply (quiet_app (js " ")); [done|].
        apply quiet_app; [|apply (quiet_app (js " ")); [done|by apply num_unit_quiet]].
        unfold compare_ops in Hop. rewrite !elem_of_cons, elem_of_nil in Hop. by destruct_or! Hop; subst op.
      * apply ends_well_app. do 2 apply ends_well_app. split; [done|]. by apply num_unit_ends.
    + rewrite <- (parse_param_compare p op v) by done. f_equal. change (join both_sep [?a; ?b]) with (a ++ both_sep ++ b).
      by rewrite <- !(assoc_L (++)).
Qed.

(** ** Price part and rules *)

Lemma ends_with_app p a : ends_with p (a ++ p) = true.
Proof. unfold ends_with. rewrite reverse_app. apply starts_with_app. Qed.

(** A text between parentheses that does not end with the default multiplier is no factor. *)
Lemma exec_factor_fail t : ends_with (js " : 1") t = false -> exec false factor_regex (paren t) = None.
Proof.
  intros Ht. unfold factor_regex. rewrite exec_anchored.
  destruct (run_anchored _ (paren t)) as [q|] eqn:E; [|done]. exfalso. unfold run_anchored in E.
  match type of E with rm (?a >> ?b >> ?c >> ?d >> ?e >> End) ?k ?p = _ =>
    change (rm (a >> b >> c >> d) (rm (e >> End) k) p = Some q) in E end.
  apply (rmatch_units (fun _ => True)) in E as (a & u & b & c & E & _ & H).
  2:{ unfold txt, plus, nums, cls. cbn [units_ok]. repeat split; done. }
  rewrite rmatch_seq in H. apply rmatch_lit_inv in H as (b' & u' & Hu & H).
  apply rmatch_end in H as [Hend _]. cbn [after] in Hu, Hend, E. subst u u'. rewrite app_nil_r in E.
  unfold paren in E. change (js " : 1)") with (js " : 1" ++ js ")") in E.
  rewrite !(assoc_L (++)) in E. apply app_inj_2 in E as [E _]; [|done].
  destruct a as [|x a]; [discriminate E|]. injection E as _ E. subst t.
  by rewrite ends_with_app in Ht.
Qed.

(** A text that is not a factor, read as rules. *)
Lemma parse_not_factor t :
  deep 1 t = Some 1%Z -> tryParseRuleGroupFactor (paren t) = Ok None ->
  tryParseRequestRuleExpr (paren t) = Ok None.
Proof.
  intros Ht Hf. unfold tryParseRequestRuleExpr. rewrite trimmed_trim by apply paren_trimmed.
  change (truthy (paren t)) with true. cbn [negb].
  pose proof (splitTopLevelMultiply_join [t] ltac:(done) ltac:(by constructor)) as Hs.
  change (join times_sep (paren <$> [t])) with (paren t) in Hs. rewrite Hs. cbn [fmap list_fmap parse_each].
  by rewrite Hf.
Qed.

Lemma parse_one_factor g : group_ok g = true -> tryParseRequestRuleExpr (paren (group_text g)) = Ok (Some [g]).
Proof.
  intros Hg. destruct (parse_rules [g]) as [_ H]; [done|by constructor|].
  rewrite build_rules in H by by constructor. exact H.
Qed.

Lemma classify_groups gs :
  Forall (fun g => group_ok g = true) gs -> classify (paren <$> (group_text <$> gs)) = Ok (paren <$> (group_text <$> gs), []).
Proof.
  induction 1 as [|g gs Hg _ IH]; [done|]. rewrite !fmap_cons. cbn [classify].
  rewrite parse_one_factor by done. cbn [decoded_bind]. by rewrite IH.
Qed.

(** *** Outer parentheses *)

Lemma outer_deep a : forall d d' u,
  deep d a = Some d' -> u <> [] -> outer_depth d (a ++ u) = outer_depth d' u.
Proof.
  induction a as [|c a IH]; intros d d' u H Hu; cbn [deep] in H; [by simplify_eq|].
  destruct (Z.leb_spec (depth_step d c) 0); [done|]. cbn [app outer_depth].
  destruct (Z.eqb_spec (depth_step d c) 0); [lia|]. simpl andb. cbv iota. by apply IH.
Qed.

Lemma paren_full t : deep 1 t = Some 1%Z -> hasFullOuterParens (paren t) = true.
Proof.
  intros Ht. unfold hasFullOuterParens.
  assert (ends_with [41] (paren t) = true) as ->
    by (unfold paren; rewrite (assoc_L (++)); apply (ends_with_app [41])).
  change (starts_with [40] (paren t)) with true. cbn [negb orb].
  assert (outer_depth 0 (paren t) = Some 0%Z) as ->; [|done].
  unfold paren. transitivity (outer_depth 1 (t ++ js ")")).
  - cbn [app js]. by destruct t.
  - by rewrite (outer_deep t 1 1).
Qed.

Lemma strip_paren t : strip_ends (paren t) = t.
Proof.
  unfold strip_ends, paren. rewrite !length_app. change (length (js "(")) with 1%nat.
  change (length (js ")")) with 1%nat. replace (1 + (length t + 1) - 2)%nat with (length t) by lia.
  change (drop 1 (js "(" ++ t ++ js ")")) with (t ++ js ")"). apply take_app_length.
Qed.

Lemma full_shape e : hasFullOuterParens e = true -> exists t, e = paren t.
Proof.
  unfold hasFullOuterParens. destruct (negb (starts_with [40] e) || _) eqn:E; [done|]. intros _.
  apply orb_false_iff in E as [E1%negb_false_iff E2%negb_false_iff].
  apply starts_with_spec in E1 as [a Ha]. unfold ends_with in E2.
  apply starts_with_spec in E2 as [b Hb]. apply (f_equal reverse) in Hb.
  rewrite reverse_involutive, reverse_app in Hb. change (reverse (reverse [41])) with [41] in Hb.
  subst e. destruct (reverse b) as [|x t] eqn:Er; [by destruct a|]. simpl in Hb. simplify_eq. by exists t.
Qed.

Lemma trim_length s : (length (trim s) <= length s)%nat.
Proof. destruct (trim_decompose s) as (p & q & H & _). rewrite H at 2. rewrite !length_app. lia. Qed.

Lemma unwrap_loop_spec fuel : forall e,
  (length e <= fuel)%nat -> trimmed e ->
  hasFullOuterParens (unwrap_loop fuel e) = false /\ trimmed (unwrap_loop fuel e)
  /\ (length (unwrap_loop fuel e) <= length e)%nat.
Proof.
  induction fuel as [|fuel IH]; intros e Hf Ht; simpl.
  - destruct e; [done|simpl in Hf; lia].
  - destruct (hasFullOuterParens e) eqn:E; [|done].
    destruct (full_shape e E) as [t ->]. rewrite strip_paren. unfold paren in Hf. rewrite !length_app in Hf.
    simpl in Hf. pose proof (trim_length t). destruct (IH (trim t)) as (H1 & H2 & H3); [lia|apply trim_trimmed|].
    split; [done|]. split; [done|]. unfold paren. rewrite !length_app. lia.
Qed.

Lemma deep_shift d a d' : deep d a = Some d' -> deep (d + 1) a = Some (d' + 1)%Z.
Proof.
  revert d. induction a as [|c a IH]; intros d H; simpl in *; [by simplify_eq|].
  destruct (Z.leb_spec (depth_step d c) 0); [done|].
  assert (Hs : depth_step (d + 1) c = (depth_step d c + 1)%Z) by (unfold depth_step; lia).
  rewrite Hs. destruct (Z.leb_spec (depth_step d c + 1) 0); [lia|]. by apply IH.
Qed.

Lemma deep_paren t : deep 1 t = Some 1%Z -> deep 1 (paren t) = Some 1%Z.
Proof.
  intros Ht%deep_shift. unfold paren. transitivity (deep (1 + 1) (t ++ js ")")); [done|].
  by rewrite deep_app, Ht.
Qed.

Lemma length_paren t : length (paren t) = S (S (length t)).
Proof. unfold paren. rewrite !length_app. change (1 + (length t + 1) = S (S (length t)))%nat. lia. Qed.

Lemma iter_paren_facts n t :
  trimmed t -> deep 1 t = Some 1%Z ->
  trimmed (Nat.iter n paren t) /\ deep 1 (Nat.iter n paren t) = Some 1%Z
  /\ (n <= length (Nat.iter n paren t))%nat.
Proof.
  intros Ht Hd. induction n as [|n (IH1 & IH2 & IH3)]; [split; [done|split; [done|simpl; lia]]|].
  change (Nat.iter (S n) paren t) with (paren (Nat.iter n paren t)).
  split; [apply paren_trimmed|]. split; [by apply deep_paren|]. rewrite length_paren. lia.
Qed.

Lemma unwrap_loop_iter t : trimmed t -> deep 1 t = Some 1%Z -> hasFullOuterParens t = false ->
  forall n fuel, (n <= fuel)%nat -> unwrap_loop fuel (Nat.iter n paren t) = t.
Proof.
  intros Ht Hd Hf n. induction n as [|n IH]; intros fuel Hn; simpl.
  - destruct fuel; simpl; [done|]. by rewrite Hf.
  - destruct fuel as [|fuel]; [lia|]. destruct (iter_paren_facts n t Ht Hd) as (H1 & H2 & _).
    simpl. rewrite paren_full, strip_paren, trimmed_trim by done. apply IH. lia.
Qed.

(** The loop that removes outer parentheses ends: its result has none left
    around the whole text, is trimmed and never longer, a second run changes
    nothing, and a well-parenthesised text is recovered from under any number of
    pairs. *)
Theorem unwrap_outer_parens e :
  let r := unwrapOuterParens e in
  hasFullOuterParens r = false /\ trimmed r /\ (length r <= length e)%nat
  /\ unwrapOuterParens r = r
  /\ (deep 1 (trim e) = Some 1%Z /\ hasFullOuterParens (trim e) = false ->
      forall n, unwrapOuterParens (Nat.iter n paren (trim e)) = trim e).
Proof.
  pose proof (trim_length e). intros r.
  destruct (unwrap_loop_spec (length e) (trim e)) as (H1 & H2 & H3); [done|apply trim_trimmed|].
  fold (unwrapOuterParens e) in H1, H2, H3. fold r in H1, H2, H3.
  split; [done|]. split; [done|]. split; [lia|]. split.
  - unfold unwrapOuterParens. rewrite trimmed_trim by done. destruct (length r); cbn [unwrap_loop]; [done|]. by rewrite H1.
  - intros [Hd Hf] n. unfold unwrapOuterParens.
    destruct (iter_paren_facts n (trim e) (trim_trimmed e) Hd) as (Ht & _ & Hn).
    rewrite (trimmed_trim (Nat.iter n paren (trim e))) by done.
    apply unwrap_loop_iter; [apply trim_trimmed|done|done|lia].
Qed.

(** The price part: not blank, trimmed, well parenthesised but not within one outer
    pair, and not ending like a rule. *)
Definition base_ok (base : jsstr) : bool :=
  truthy base && bool_decide (trim base = base) && bool_decide (deep 1 base = Some 1%Z)
  && negb (hasFullOuterParens base) && negb (ends_with (js " : 1") base).

(** Splitting what was combined, for any texts of rules between parentheses. *)
Lemma split_combined base ts :
  base_ok base = true -> ts <> [] -> Forall (fun t => deep 1 t = Some 1%Z) ts ->
  let full := combineBillingExpr base (join times_sep (paren <$> ts)) in
  trim full = full
  /\ splitBillingExprAndRequestRules full
     = decoded_bind (classify (paren <$> ts)) (fun '(rules, bases) =>
         match rules, bases with
         | _ :: _, [] => Ok (base, join times_sep rules)
         | _, _ => Ok (full, [])
         end).
Proof.
  intros Hb Hne Hts full. unfold base_ok in Hb. rewrite !andb_true_iff, !negb_true_iff in Hb.
  destruct Hb as ((((Htr & Htrim) & Hdeep) & Hfull) & Hend). apply bool_decide_eq_true in Htrim, Hdeep.
  assert (Ej : full = join times_sep (paren <$> (base :: ts))).
  { unfold full, combineBillingExpr. rewrite Htrim, Htr, trimmed_trim by apply join_parens_trimmed.
    rewrite (proj2 (truthy_true _)) by (apply join_nonempty; [by destruct ts|by apply Forall_fmap, Forall_forall]).
    cbn [negb]. rewrite fmap_cons, join_cons by by destruct ts. unfold paren at 2.
    change (js ") * ") with (js ")" ++ times_sep). by rewrite <- !(assoc_L (++)). }
  assert (Hft : trim full = full) by (rewrite Ej; apply trimmed_trim, join_parens_trimmed).
  split; [done|]. unfold splitBillingExprAndRequestRules. rewrite Hft.
  assert (Hs : splitTopLevelMultiply full = paren <$> (base :: ts))
    by (rewrite Ej; apply splitTopLevelMultiply_join; [done|by constructor]).
  rewrite Hs. assert (truthy full = true) as -> by (rewrite Ej; by destruct ts). cbn [negb].
  destruct ts as [|t ts]; [done|]. change (length (paren <$> (base :: t :: ts)) <=? 1)%nat with false. cbv iota.
  rewrite (fmap_cons paren base). cbn [classify].
  rewrite (parse_not_factor base); [|done|unfold tryParseRuleGroupFactor; by rewrite exec_factor_fail].
  cbn [decoded_bind].
  assert (Hu : unwrapOuterParens (paren base) = base).
  { pose proof (trim_trimmed base) as Ht. rewrite Htrim in Ht. unfold unwrapOuterParens.
    rewrite (trimmed_trim (paren base)) by apply paren_trimmed.
    apply (unwrap_loop_iter base Ht Hdeep Hfull 1). rewrite length_paren. lia. }
  destruct (classify (paren <$> (t :: ts))) as [[rules bases]| |]; [|done|done].
  cbn [decoded_bind]. destruct rules, bases; try done. by rewrite Hu.
Qed.

(** C31: An expression combined from a price part and a non-empty list of rules of the class
    [group_ok] of request_rules_roundtrip is split into the same price part and the same text
    of rules.  The price part is a trimmed text, not empty, with balanced parentheses,
    that is not itself inside one pair of parentheses and does not end in the else branch of
    a rule (a colon and 1).  With a rule outside the class the whole expression is taken as the price part:
    [conjunction_rules_lost]. *)
Theorem combine_split base gs :
  base_ok base = true -> gs <> [] -> Forall (fun g => group_ok g = true) gs ->
  splitBillingExprAndRequestRules (combineBillingExpr base (buildRequestRuleExpr gs))
  = Ok (base, buildRequestRuleExpr gs).
Proof.
  intros Hb Hne Hgs. rewrite build_rules by done.
  destruct (split_combined base (group_text <$> gs)) as [_ ->]; [done|by destruct gs| |].
  - apply Forall_fmap. eapply Forall_impl; [done|]. intros g. apply group_text_deep.
  - rewrite classify_groups by done. cbn [decoded_bind]. by destruct gs.
Qed.

Definition sample_base : jsstr :=
  js "len <= 200000 ? tier(" ++ quo ++ js "std" ++ quo ++ js ", p * 3 + c * 15) : tier("
  ++ quo ++ js "long" ++ quo ++ js ", p * 6 + c * 22.5)".

Lemma combine_split_witness :
  splitBillingExprAndRequestRules (combineBillingExpr sample_base (buildRequestRuleExpr sample_groups))
  = Ok (sample_base, buildRequestRuleExpr sample_groups).
Proof. apply combine_split; [reflexivity|discriminate|repeat constructor]. Defined.

(** A rule that asks a parameter to contain a text or to be above or below a
    number is printed as a conjunction, and lost: the printed rule is not parsed,
    and in an expression combined with a price part the rule becomes part of the
    price part, although the parser of one condition accepts the printed text. *)
Theorem conjunction_rules_lost base c mult :
  printed_as_conjunction c = true -> is_numeric mult = true -> base_ok base = true ->
  let rules := buildRequestRuleExpr [mkGroup [c] mult] in
  let full := combineBillingExpr base rules in
  tryParseRequestCondition (buildRequestConditionExpr c) = Ok (Some c)
  /\ rules <> [] /\ tryParseRequestRuleExpr rules = Ok None
  /\ splitBillingExprAndRequestRules full = Ok (full, []).
Proof.
  intros Hc Hm Hb rules full. destruct (build_conjunction c Hc) as (p & e & Hp & He & Hbuild & Hnone & Hone).
  split; [done|]. clear Hone.
  set (a := call (js "param") p ++ js " != nil") in *.
  assert (Ha : text_ok a /\ no_bar a = true) by (by apply call_text).
  assert (Hpa : tryParseRequestCondition a = Ok (Some (ParamHeaderCondition false p MATCH_EXISTS [])))
    by by apply (parse_exists false).
  assert (Hall : Forall text_ok [a; e]) by (constructor; [apply Ha|by constructor]).
  set (t := factor_text (join both_sep [a; e]) mult).
  assert (Hj : join both_sep [a; e] <> []).
  { apply join_nonempty; [done|]. eapply Forall_impl; [done|]. by intros x (? & _). }
  assert (Hr : rules = paren t).
  { unfold rules, buildRequestRuleExpr, buildRuleGroupFactor. cbn [fmap list_fmap conditions multiplier].
    rewrite is_numeric_trim, Hm by done. cbn [negb]. rewrite Hbuild.
    rewrite (nonempty_id [join both_sep [a; e]]) by (by apply Forall_singleton).
    rewrite nonempty_id by (by apply Forall_singleton).
    unfold t. by rewrite factor_paren. }
  assert (Hf : tryParseRuleGroupFactor (paren t) = Ok None).
  { destruct (exec_factor (join both_sep [a; e]) mult) as (m & Hx & H1 & H2); [done|done|].
    unfold tryParseRuleGroupFactor, t. rewrite Hx, H1, splitTopLevelAnd_join by done.
    cbn [parse_each]. rewrite (trimmed_trim a), (trimmed_trim e) by (apply Ha || apply He).
    by rewrite Hpa, Hnone. }
  assert (Hd : deep 1 t = Some 1%Z).
  { unfold t, factor_text. rewrite join_deep by done.
    change (deep 1 (js " ? " ++ ?w)) with (deep 1 w). by rewrite deep_nums. }
  rewrite Hr. split; [done|]. split; [by apply parse_not_factor|].
  unfold full. rewrite Hr. destruct (split_combined base [t]) as [_ Hsplit]; [done|done|by constructor|].
  change (join times_sep (paren <$> [t])) with (paren t) in Hsplit. rewrite Hsplit.
  cbn [fmap list_fmap classify]. by rewrite parse_not_factor.
Qed.

Lemma conjunction_rules_lost_witness :
  tryParseRequestRuleExpr
    (buildRequestRuleExpr [mkGroup [ParamHeaderCondition false (js "max_tokens") MATCH_GT (js "1000")] (js "2")])
  = Ok None.
Proof.
  refine (proj1 (proj2 (proj2 (conjunction_rules_lost sample_base
    (ParamHeaderCondition false (js "max_tokens") MATCH_GT (js "1000")) (js "2") _ _ _)))); reflexivity.
Defined.
