(* ===== verification/PricingEditor.v ===== *)
(** * The editor of model prices

    web/src/features/system-settings/models/model-pricing-snapshots.ts and the handlers of
    model-ratio-visual-editor.tsx: the prices of all models are kept in ten settings, each the
    JSON text of an object from model names to values.  The page reads them into one snapshot
    per model, compares the drafts with what is saved, and writes the ten texts back when a
    model is saved, copied to other models or deleted.

    Eight of the settings are numbers of the same kind, the lanes; the other two are the mode
    and the expression of models that are billed by an expression.  A text that is undefined is
    the empty text, since the code treats both alike.  The order of [localeCompare] and the
    printing of numbers are parameters. *)

From Stdlib Require Import SpecFloat.
From S2P Require Import Prelude JsValue Json JsText BillingExpr.

Local Open Scope N_scope.

(** ** Data *)

Record Lanes (A : Type) := mkLanes {
  price : A; ratio : A; cacheRatio : A; createCacheRatio : A; completionRatio : A; imageRatio : A; audioRatio : A;
  audioCompletionRatio : A }.
Arguments mkLanes {A}.
Arguments price {A}.
Arguments ratio {A}.
Arguments cacheRatio {A}.
Arguments createCacheRatio {A}.
Arguments completionRatio {A}.
Arguments imageRatio {A}.
Arguments audioRatio {A}.
Arguments audioCompletionRatio {A}.

Definition lanes_map {A B} (f : A -> B) (l : Lanes A) : Lanes B :=
  mkLanes (f (price l)) (f (ratio l)) (f (cacheRatio l)) (f (createCacheRatio l)) (f (completionRatio l)) (f (imageRatio l))
    (f (audioRatio l)) (f (audioCompletionRatio l)).
Definition lanes_zip {A B C} (f : A -> B -> C) (a : Lanes A) (b : Lanes B) : Lanes C :=
  mkLanes (f (price a) (price b)) (f (ratio a) (ratio b)) (f (cacheRatio a) (cacheRatio b))
    (f (createCacheRatio a) (createCacheRatio b)) (f (completionRatio a) (completionRatio b)) (f (imageRatio a) (imageRatio b))
    (f (audioRatio a) (audioRatio b)) (f (audioCompletionRatio a) (audioCompletionRatio b)).
Definition lanes_list {A} (l : Lanes A) : list A :=
  [price l; ratio l; cacheRatio l; createCacheRatio l; completionRatio l; imageRatio l; audioRatio l; audioCompletionRatio l].

(** The ten settings, as texts or as the objects they hold. *)
Record PricingSettings (A : Type) := mkSettings { lanes : Lanes A; billingMode : A; billingExpr : A }.
Arguments mkSettings {A}.
Arguments lanes {A}.
Arguments billingMode {A}.
Arguments billingExpr {A}.

Abbreviation ModelPricingSnapshotInput := (PricingSettings jsstr).
Abbreviation price_map := (list (jsstr * jsval)).
Definition settings_list {A} (s : PricingSettings A) : list A := lanes_list (lanes s) ++ [billingMode s; billingExpr s].
Definition settings_map {A B} (f : A -> B) (s : PricingSettings A) : PricingSettings B :=
  mkSettings (lanes_map f (lanes s)) (f (billingMode s)) (f (billingExpr s)).

Record ModelPricingSnapshot := mkSnapshot {
  s_name : jsstr; s_lanes : Lanes jsstr; s_billingMode : jsstr; s_billingExpr : jsstr; s_requestRuleExpr : jsstr;
  s_hasConflict : bool }.

(** What the editor of one model hands over. *)
Record ModelRatioData := mkData {
  d_name : jsstr; d_lanes : Lanes jsstr; d_billingMode : jsstr; d_billingExpr : jsstr; d_requestRuleExpr : jsstr }.

Definition tiered_expr : jsstr := js "tiered_expr".

Section Editor.
Variable show : jsnum -> jsstr.

(** ** Reading *)

(** [safeJsonParse] with an empty object as the fall-back. *)
Definition safeJsonParse (value : jsstr) : jsval :=
  if trim value =s? [] then JObject [] else default (JObject []) (JSON_parse (trim value)).

(** A value declared as a record; reading a key of [null] throws. *)
Definition as_object (value : jsval) : Decoded price_map :=
  match value with JObject fs => Ok fs | JNull => Throws | _ => IllTyped end.

Fixpoint decoded_all {A} (l : list (Decoded A)) : Decoded (list A) :=
  match l with
  | [] => Ok []
  | d :: l' => decoded_map2 cons d (decoded_all l')
  end.

Definition settings_of {A} (l : list A) : option (PricingSettings A) :=
  match l with
  | [a; b; c; d; e; f; g; h; i; j] => Some (mkSettings (mkLanes a b c d e f g h) i j)
  | _ => None
  end.

Definition read_settings (input : ModelPricingSnapshotInput) : Decoded (PricingSettings price_map) :=
  decoded_bind (decoded_all (settings_list (settings_map (fun text => as_object (safeJsonParse text)) input)))
    (fun l => match settings_of l with Some s => Ok s | None => IllTyped end).

(** [value?.toString() || ''] *)
Definition value_text (value : jsval) : jsstr := if nullish value then [] else js_string show value.

(** A lane other than the price is given. *)
Definition other_lane (l : Lanes jsstr) : bool := existsb truthy (tail (lanes_list l)).

Definition snapshot_of (maps : PricingSettings price_map) (name : jsstr) : Decoded ModelPricingSnapshot :=
  let texts := lanes_map (fun m => value_text (assoc name m)) (lanes maps) in
  let modeForModel := assoc name (billingMode maps) in
  if is_literal "tiered_expr" modeForModel then
    match js_or (assoc name (billingExpr maps)) (JString []) with
    | JString fullExpr =>
        decoded_bind (splitBillingExprAndRequestRules fullExpr)
          (fun '(pureExpr, requestRuleExpr) => Ok (mkSnapshot name texts tiered_expr pureExpr requestRuleExpr false))
    | _ => IllTyped
    end
  else
    Ok (mkSnapshot name texts (if truthy (price texts) then js "per-request" else js "per-token") [] []
          (truthy (price texts) && other_lane texts)).

Definition model_names (maps : PricingSettings price_map) : list jsstr :=
  distinct [] (mjoin (settings_list (settings_map (fun m : price_map => m.*1) maps))).

Definition buildModelSnapshots (input : ModelPricingSnapshotInput) : Decoded (list ModelPricingSnapshot) :=
  decoded_bind (read_settings input) (fun maps => decoded_all (snapshot_of maps <$> model_names maps)).

(** ** Comparing *)

Definition getSnapshotSignature (snapshot : option ModelPricingSnapshot) : jsstr :=
  match snapshot with
  | None => []
  | Some s =>
      stringify show (JObject
        [(js "price", JString (price (s_lanes s))); (js "ratio", JString (ratio (s_lanes s)));
         (js "cacheRatio", JString (cacheRatio (s_lanes s))); (js "createCacheRatio", JString (createCacheRatio (s_lanes s)));
         (js "completionRatio", JString (completionRatio (s_lanes s))); (js "imageRatio", JString (imageRatio (s_lanes s)));
         (js "audioRatio", JString (audioRatio (s_lanes s))); (js "audioCompletionRatio", JString (audioCompletionRatio (s_lanes s)));
         (js "billingMode", JString (str_or (s_billingMode s) (js "per-token"))); (js "billingExpr", JString (s_billingExpr s));
         (js "requestRuleExpr", JString (s_requestRuleExpr s))])
  end.

Definition isBasePricingUnset (snapshot : option ModelPricingSnapshot) : bool :=
  match snapshot with
  | None => true
  | Some s => negb (s_billingMode s =s? tiered_expr) && negb (truthy (price (s_lanes s))) && negb (truthy (ratio (s_lanes s)))
  end.

(** [new Map(rows.map((row) => [row.name, row])).get(name)]: the last row of a name. *)
Definition row_named (name : jsstr) (rows : list ModelPricingSnapshot) : option ModelPricingSnapshot :=
  last (filter (fun r => s_name r = name) rows).

Record ModelRow := mkRow {
  row_shown : ModelPricingSnapshot; row_saved : option ModelPricingSnapshot; row_draft : option ModelPricingSnapshot;
  isDraftChanged : bool; isDraftDeleted : bool; isDraftNew : bool }.

Definition no_lanes : Lanes jsstr := mkLanes [] [] [] [] [] [] [] [].

Definition model_row (savedRows draftRows : list ModelPricingSnapshot) (name : jsstr) : ModelRow :=
  let saved := row_named name savedRows in
  let draft := row_named name draftRows in
  mkRow (match saved with
         | Some s => s
         | None => default (mkSnapshot name no_lanes (js "per-token") [] [] false) draft
         end) saved draft
    (negb (getSnapshotSignature saved =s? getSnapshotSignature draft))
    (match saved, draft with Some _, None => true | _, _ => false end)
    (match saved, draft with None, Some _ => true | _, _ => false end).

Section Sorted.
Variable localeCompare : jsstr -> jsstr -> bool.

Fixpoint insert_row {A} (key : A -> jsstr) (r : A) (l : list A) : list A :=
  match l with
  | [] => [r]
  | r' :: l' => if localeCompare (key r) (key r') then r :: l else r' :: insert_row key r l'
  end.

(** The rows of the page; [unset] holds the candidates when only models without a price are shown. *)
Definition model_rows (savedRows draftRows : list ModelPricingSnapshot) (unset : option (list jsstr)) : list ModelRow :=
  let modelNames := match unset with
                    | Some candidates => distinct [] candidates
                    | None => distinct [] ((s_name <$> savedRows) ++ (s_name <$> draftRows))
                    end in
  foldr (insert_row (fun r => s_name (row_shown r))) []
    (filter (fun r => match unset with Some _ => isBasePricingUnset (row_saved r) | None => true end = true)
       (filter (fun r => isDraftDeleted r = false) (model_row savedRows draftRows <$> modelNames))).

(** The rows of enabled models without a price, saved or not. *)
Definition deriveUnsetPriceModels (enabledChannelModels : list jsstr) (snapshots : list ModelPricingSnapshot) : list ModelRow :=
  let enabledNames := distinct [] (filter (fun name => name <> []) (trim <$> enabledChannelModels)) in
  let names := foldr (insert_row (fun n => n)) [] (filter (fun name => isBasePricingUnset (row_named name snapshots) = true) enabledNames) in
  (fun name => let saved := row_named name snapshots in
               mkRow (default (mkSnapshot name no_lanes [] [] [] false) saved) saved saved false false
                 (match saved with Some _ => false | None => true end)) <$> names.
End Sorted.

(** ** Writing *)

(** [Number.parseFloat(text)]: the longest prefix that is a decimal literal. *)
Definition float_prefix : regex :=
  let digits := plus (cls is_digit) in
  let exponent := opt (cls (fun c => (c =? 101) || (c =? 69)) >> opt (cls (fun c => (c =? 43) || (c =? 45))) >> digits) in
  Start >> opt (cls (fun c => (c =? 43) || (c =? 45))) >>
  (txt "Infinity" |: (digits >> opt (txt "." >> Star (cls is_digit)) >> exponent) |: (txt "." >> digits >> exponent)).

Definition parseFloat (text : jsstr) : jsnum :=
  match exec false float_prefix (trim_start text) with
  | Some m => to_number (cap m 0)
  | None => S754_nan
  end.

Definition setIfPresent (name value : jsstr) (target : price_map) : price_map :=
  if negb (truthy value) then target
  else let parsed := parseFloat value in if is_finite parsed then obj_set name (JNumber parsed) target else target.

Definition delete_model (name : jsstr) (maps : PricingSettings price_map) : PricingSettings price_map := settings_map (obj_del name) maps.

(** The lanes that are written: all of an expression, the price alone, or all but the price. *)
Definition written_lanes (data : ModelRatioData) : Lanes jsstr :=
  let l := d_lanes data in
  if d_billingMode data =s? tiered_expr then l
  else if truthy (price l) then mkLanes (price l) [] [] [] [] [] [] []
  else mkLanes [] (ratio l) (cacheRatio l) (createCacheRatio l) (completionRatio l) (imageRatio l) (audioRatio l) (audioCompletionRatio l).

Definition persist_model (data : ModelRatioData) (maps : PricingSettings price_map) (name : jsstr) : PricingSettings price_map :=
  let cleared := delete_model name maps in
  let combined := combineBillingExpr (d_billingExpr data) (d_requestRuleExpr data) in
  let '(modes, exprs) :=
    if (d_billingMode data =s? tiered_expr) && truthy combined
    then (obj_set name (JString tiered_expr) (billingMode cleared), obj_set name (JString combined) (billingExpr cleared))
    else (billingMode cleared, billingExpr cleared) in
  mkSettings (lanes_zip (setIfPresent name) (written_lanes data) (lanes cleared)) modes exprs.

Definition write_settings (maps : PricingSettings price_map) : ModelPricingSnapshotInput :=
  settings_map (fun m => stringify2 show (JObject m)) maps.

Definition persistPricingData (input : ModelPricingSnapshotInput) (data : ModelRatioData) (targetNames : list jsstr)
    : Decoded ModelPricingSnapshotInput :=
  decoded_bind (read_settings input) (fun maps => Ok (write_settings (foldl (persist_model data) maps targetNames))).

Definition handleDelete (input : ModelPricingSnapshotInput) (name : jsstr) : Decoded ModelPricingSnapshotInput :=
  decoded_bind (read_settings input) (fun maps => Ok (write_settings (delete_model name maps))).

Definition buildBatchPricingCopyTargets (sourceName : jsstr) (targetNames : list jsstr) : list jsstr :=
  distinct [] (sourceName :: targetNames).

(** The data the editor of a model is opened with. *)
Definition handleEdit (row : ModelRow) : ModelRatioData :=
  let editableModel := match row_draft row with Some d => d | None => default (row_shown row) (row_saved row) end in
  mkData (s_name editableModel) (s_lanes editableModel)
    (if s_billingMode editableModel =s? tiered_expr then tiered_expr
     else if truthy (price (s_lanes editableModel)) then js "per-request" else js "per-token")
    (s_billingExpr editableModel) (s_requestRuleExpr editableModel).
End Editor.
