(* ===== verification/PricingProofs.v ===== *)
(** * Properties of the editor of model prices

    Saving a model writes ten texts.  All ten maps are changed the same way, by [puts], so one
    lemma per question describes them all; the snapshots of PricingEditor.v read the maps at
    one name only, which separates the models that are saved from the others. *)

From Stdlib Require Import SpecFloat.
From S2P Require Import Prelude JsValue Json JsText BillingExpr PricingEditor.

Local Open Scope N_scope.

(** ** Sets of names *)

Lemma model_names_spec maps k : k ∈ model_names maps <-> exists m : price_map, m ∈ settings_list maps /\ k ∈ m.*1.
Proof.
  unfold model_names. rewrite distinct_spec.
  assert (E : settings_list (settings_map (fun m : price_map => m.*1) maps) = (fun m : price_map => m.*1) <$> settings_list maps) by (by destruct maps as [[m1 m2 m3 m4 m5 m6 m7 m8] m9 m10]).
  rewrite E. split.
  - intros [Hk _]. apply list_elem_of_join in Hk as (l & Hk & Hl). apply list_elem_of_fmap in Hl as (m & -> & Hm). by exists m.
  - intros (m & Hm & Hk). split; [|apply not_elem_of_nil]. apply list_elem_of_join. exists m.*1. split; [done|].
    by apply (list_elem_of_fmap_2 (fun m : price_map => m.*1)).
Qed.

(** ** One map *)

(** A map in which the names lose their value and get a new one, if there is one. *)
Definition put_opt (o : option jsval) (m : price_map) (name : jsstr) : price_map :=
  match o with Some v => obj_set name v (obj_del name m) | None => obj_del name m end.
Definition puts (o : option jsval) (names : list jsstr) (m : price_map) : price_map := foldl (put_opt o) m names.

Lemma put_assoc o m name k : assoc k (put_opt o m name) = if decide (k = name) then default JUndefined o else assoc k m.
Proof.
  unfold put_opt. case_decide as H; destruct o as [v|]; subst.
  - apply assoc_set_eq.
  - apply assoc_del_eq.
  - by rewrite assoc_set_ne, assoc_del_ne.
  - by apply assoc_del_ne.
Qed.

Lemma del_keys k name (m : price_map) : k ∈ (obj_del name m).*1 <-> k <> name /\ k ∈ m.*1.
Proof.
  unfold obj_del. rewrite !list_elem_of_fmap. split.
  - intros ([k' v] & -> & [Hn Hin]%list_elem_of_filter). split; [done|]. by exists (k', v).
  - intros [Hn ([k' v] & -> & Hin)]. exists (k', v). split; [done|]. by apply list_elem_of_filter.
Qed.

Lemma put_keys o m name k : k ∈ (put_opt o m name).*1 <-> (k = name /\ is_Some o) \/ (k <> name /\ k ∈ m.*1).
Proof.
  unfold put_opt. destruct o as [v|]; [rewrite obj_set_keys|]; rewrite del_keys.
  - destruct (decide (k = name)); split; [|tauto|tauto|tauto]. left. by split.
  - split; [tauto|]. intros [[_ []]|]; [done|done].
Qed.

Lemma puts_assoc o names : forall m k, assoc k (puts o names m) = (if decide (k ∈ names) then default JUndefined o else assoc k m).
Proof.
  induction names as [|n names IH]; intros m k; [done|]. unfold puts in *. cbn [foldl]. rewrite IH, put_assoc.
  destruct (decide (k ∈ names)) as [Hk|Hk]; [rewrite decide_True; [done|by right]|].
  destruct (decide (k = n)) as [->|Hn]; [rewrite decide_True; [done|by left]|]. rewrite decide_False; [done|]. by intros [|]%elem_of_cons.
Qed.

Lemma puts_keys o names : forall m k,
  k ∈ (puts o names m).*1 <-> (k ∈ names /\ is_Some o) \/ ((k ∉ names) /\ k ∈ m.*1).
Proof.
  induction names as [|n names IH]; intros m k; [cbn [puts foldl]; set_solver|].
  change (puts o (n :: names) m) with (puts o names (put_opt o m n)). rewrite IH, put_keys, elem_of_cons. destruct (decide (k ∈ names)), (decide (k = n)); tauto.
Qed.

Section Pricing.
Variable show : jsnum -> jsstr.

Lemma puts_ok o names : forall m,
  fields_ok show m = true -> Forall (fun n => str_ok n = true) names -> (forall v, o = Some v -> json_ok show v = true) ->
  fields_ok show (puts o names m) = true.
Proof.
  induction names as [|n names IH]; intros m Hm Hn Ho; [done|]. apply Forall_cons in Hn as [Hn Hns].
  cbn [puts foldl]. apply IH; [|done|done]. unfold put_opt.
  destruct o as [v|]; [apply fields_ok_set; [|done|by apply Ho]|]; by apply fields_ok_del.
Qed.

(** ** All maps *)

(** The number a text of the editor stands for, if it is saved. *)
Definition lane_value (text : jsstr) : option jsval :=
  if truthy text && is_finite (parseFloat text) then Some (JNumber (parseFloat text)) else None.

Definition expr_of (data : ModelRatioData) : jsstr := combineBillingExpr (d_billingExpr data) (d_requestRuleExpr data).
Definition has_expr (data : ModelRatioData) : bool := (d_billingMode data =s? tiered_expr) && truthy (expr_of data).

Lemma set_is_put name value m : setIfPresent name value (obj_del name m) = put_opt (lane_value value) m name.
Proof. unfold setIfPresent, lane_value, put_opt. destruct (truthy value); [|done]. cbn [negb andb]. by destruct (is_finite _). Qed.

(** What saving a model for some names does to the ten maps. *)
Definition saved_maps (data : ModelRatioData) (names : list jsstr) (maps : PricingSettings price_map) : PricingSettings price_map :=
  let given (v : jsstr) := if has_expr data then Some (JString v) else None in
  mkSettings (lanes_zip (fun text m => puts (lane_value text) names m) (written_lanes data) (lanes maps))
    (puts (given tiered_expr) names (billingMode maps)) (puts (given (expr_of data)) names (billingExpr maps)).

Lemma persist_saved data names : forall maps, foldl (persist_model data) maps names = saved_maps data names maps.
Proof.
  induction names as [|n names IH]; intros maps; [by destruct maps as [[]]|]. cbn [foldl]. rewrite IH.
  unfold saved_maps, persist_model. fold (expr_of data). fold (has_expr data). destruct maps as [ls modes exprs].
  unfold delete_model, settings_map. cbn [lanes billingMode billingExpr].
  destruct (written_lanes data) as [w1 w2 w3 w4 w5 w6 w7 w8], ls as [m1 m2 m3 m4 m5 m6 m7 m8], (has_expr data); cbn [lanes billingMode billingExpr]; f_equal;
    unfold lanes_zip, lanes_map; cbn [price ratio cacheRatio createCacheRatio completionRatio imageRatio audioRatio audioCompletionRatio];
    rewrite !set_is_put; done.
Qed.

Lemma read_written maps :
  Forall (fun m => fields_ok show m = true) (settings_list maps) -> read_settings (write_settings show maps) = Ok maps.
Proof.
  intros Hok. assert (Hr : forall m, fields_ok show m = true -> as_object (safeJsonParse (stringify2 show (JObject m))) = Ok m).
  { intros m Hm. pose proof (JSON_parse_stringify2 show _ Hm) as Hp. unfold safeJsonParse.
    assert (Ht : trim (stringify2 show (JObject m)) = stringify2 show (JObject m)) by (exact (trimmed_trim _ (print_trimmed show newline [32] 0 _ Hm))).
    rewrite Ht. rewrite (proj2 (str_eqb_neq _ _)) by (intros E; by rewrite E in Hp). by rewrite Hp. }
  unfold read_settings, write_settings. destruct maps as [[m1 m2 m3 m4 m5 m6 m7 m8] m9 m10]. unfold settings_list, lanes_list in Hok.
  cbn [lanes billingMode billingExpr price ratio cacheRatio createCacheRatio completionRatio imageRatio audioRatio audioCompletionRatio app] in Hok.
  repeat (apply Forall_cons in Hok as [? Hok]).
  unfold settings_list, settings_map, lanes_map, lanes_list.
  cbn [lanes billingMode billingExpr price ratio cacheRatio createCacheRatio completionRatio imageRatio audioRatio audioCompletionRatio app].
  by rewrite !Hr.
Qed.

(** ** Snapshots *)

Lemma decoded_all_ok {A} (l : list (Decoded A)) rows : decoded_all l = Ok rows <-> l = Ok <$> rows.
Proof.
  revert rows. induction l as [|d l IH]; intros rows; cbn [decoded_all].
  - split; [by intros [= <-]|]. by destruct rows.
  - split.
    + intros H. destruct d as [x| |], (decoded_all l) as [xs| |]; try done. injection H as <-. rewrite fmap_cons. f_equal. by apply IH.
    + intros H. destruct rows as [|x rows]; [done|]. rewrite fmap_cons in H. injection H as -> H.
      apply IH in H. by rewrite H.
Qed.

Lemma snapshots_spec maps rows :
  decoded_all (snapshot_of show maps <$> model_names maps) = Ok rows ->
  forall r, r ∈ rows <-> exists name, name ∈ model_names maps /\ snapshot_of show maps name = Ok r.
Proof.
  intros H%decoded_all_ok r. split.
  - intros Hr. assert (Hin : Ok r ∈ (Ok <$> rows)) by (by apply list_elem_of_fmap_2).
    rewrite <- H in Hin. apply list_elem_of_fmap in Hin as (name & E & Hn). by exists name.
  - intros (name & Hn & E). assert (Hin : Ok r ∈ (snapshot_of show maps <$> model_names maps)).
    { rewrite <- E. by apply list_elem_of_fmap_2. }
    rewrite H in Hin. by apply list_elem_of_fmap in Hin as (r' & [= <-] & Hr).
Qed.

Lemma snapshot_name maps name r : snapshot_of show maps name = Ok r -> s_name r = name.
Proof.
  unfold snapshot_of. destruct (is_literal _ _); [|by intros [= <-]].
  destruct (js_or _ _) as [| | | |e| |]; try done. destruct (splitBillingExprAndRequestRules e) as [[p r0]| |]; try done.
  by intros [= <-].
Qed.

Lemma snapshots_names maps rows :
  decoded_all (snapshot_of show maps <$> model_names maps) = Ok rows -> s_name <$> rows = model_names maps.
Proof.
  intros H%decoded_all_ok. revert rows H. induction (model_names maps) as [|n ns IH]; intros [|r rows] H; try done.
  rewrite !fmap_cons in *. injection H as H1 H2. f_equal; [by eapply snapshot_name|by apply IH].
Qed.

(** The ten values a snapshot is read from. *)
Definition values_at (maps : PricingSettings price_map) (name : jsstr) : PricingSettings jsval := settings_map (assoc name) maps.

Lemma snapshot_ext maps maps' name : values_at maps name = values_at maps' name -> snapshot_of show maps name = snapshot_of show maps' name.
Proof.
  intros E. unfold snapshot_of.
  assert (El : lanes_map (fun m => value_text show (assoc name m)) (lanes maps) = lanes_map (value_text show) (lanes (values_at maps name)))
    by (by destruct maps as [[m1 m2 m3 m4 m5 m6 m7 m8] m9 m10]).
  assert (El' : lanes_map (fun m => value_text show (assoc name m)) (lanes maps') = lanes_map (value_text show) (lanes (values_at maps' name)))
    by (by destruct maps' as [[m1 m2 m3 m4 m5 m6 m7 m8] m9 m10]).
  rewrite El, El', E. change (assoc name (billingMode maps)) with (billingMode (values_at maps name)).
  change (assoc name (billingExpr maps)) with (billingExpr (values_at maps name)). by rewrite E.
Qed.

(** *** Snapshots after saving *)

(** The values written for a model, in the order of the settings. *)
Definition written_values (data : ModelRatioData) : PricingSettings (option jsval) :=
  let given (v : jsstr) := if has_expr data then Some (JString v) else None in
  mkSettings (lanes_map lane_value (written_lanes data)) (given tiered_expr) (given (expr_of data)).

Lemma saved_list data names maps :
  settings_list (saved_maps data names maps)
  = zip_with (fun o m => puts o names m) (settings_list (written_values data)) (settings_list maps).
Proof. unfold saved_maps, written_values. by destruct (written_lanes data) as [w1 w2 w3 w4 w5 w6 w7 w8], maps as [[m1 m2 m3 m4 m5 m6 m7 m8] m9 m10]. Qed.

Lemma settings_length {A} (s : PricingSettings A) : length (settings_list s) = 10%nat.
Proof. by destruct s as [[m1 m2 m3 m4 m5 m6 m7 m8] m9 m10]. Qed.

Lemma saved_map_in data names maps m' :
  m' ∈ settings_list (saved_maps data names maps) <->
  exists i o m, settings_list (written_values data) !! i = Some o /\ settings_list maps !! i = Some m /\ m' = puts o names m.
Proof.
  rewrite saved_list, list_elem_of_lookup. setoid_rewrite lookup_zip_with_Some. split.
  - intros (i & o & m & -> & Ho & Hm). by exists i, o, m.
  - intros (i & o & m & Ho & Hm & ->). by exists i, o, m.
Qed.

Lemma same_index {A B} (a : PricingSettings A) (b : PricingSettings B) i x :
  settings_list a !! i = Some x -> exists y, settings_list b !! i = Some y.
Proof. intros H. apply lookup_lt_is_Some_2. rewrite settings_length, <- (settings_length a). by eapply lookup_lt_Some. Qed.

Lemma names_kept data names maps k : k ∉ names -> k ∈ model_names (saved_maps data names maps) <-> k ∈ model_names maps.
Proof.
  intros Hk. rewrite !model_names_spec. setoid_rewrite saved_map_in. split.
  - intros (m' & (i & o & m & _ & Hm & ->) & Hin). apply puts_keys in Hin as [[? _]|[_ Hin]]; [done|].
    exists m. split; [by eapply list_elem_of_lookup_2|done].
  - intros (m & [i Hm]%list_elem_of_lookup & Hin). destruct (same_index maps (written_values data) i m Hm) as [o Ho].
    exists (puts o names m). split; [by exists i, o, m|]. apply puts_keys. by right.
Qed.

Lemma names_written data names maps k :
  k ∈ names -> k ∈ model_names (saved_maps data names maps) <-> exists v, Some v ∈ settings_list (written_values data).
Proof.
  intros Hk. rewrite !model_names_spec. setoid_rewrite saved_map_in. split.
  - intros (m' & (i & o & m & Ho & _ & ->) & Hin). apply puts_keys in Hin as [[_ [v ->]]|[? _]]; [|done].
    exists v. by eapply list_elem_of_lookup_2.
  - intros (v & [i Ho]%list_elem_of_lookup). destruct (same_index (written_values data) maps i _ Ho) as [m Hm].
    exists (puts (Some v) names m). split; [by exists i, (Some v), m|]. apply puts_keys. left. by split; [|exists v].
Qed.

Lemma values_saved data names maps k :
  values_at (saved_maps data names maps) k =
  if decide (k ∈ names) then settings_map (default JUndefined) (written_values data) else values_at maps k.
Proof.
  unfold values_at, saved_maps, written_values, settings_map, lanes_zip, lanes_map. destruct maps as [[m1 m2 m3 m4 m5 m6 m7 m8] m9 m10].
  cbn [lanes billingMode billingExpr price ratio cacheRatio createCacheRatio completionRatio imageRatio audioRatio audioCompletionRatio].
  rewrite !puts_assoc. by case_decide.
Qed.

(** The snapshot of a model that was saved. *)
Definition saved_snapshot (data : ModelRatioData) (expr : jsstr * jsstr) (name : jsstr) : ModelPricingSnapshot :=
  let texts := lanes_map (fun text => value_text show (default JUndefined (lane_value text))) (written_lanes data) in
  if has_expr data then mkSnapshot name texts tiered_expr (fst expr) (snd expr) false
  else mkSnapshot name texts (if truthy (price texts) then js "per-request" else js "per-token") [] []
         (truthy (price texts) && other_lane texts).

Lemma saved_snapshot_spec data names maps name expr :
  name ∈ names -> (has_expr data = true -> splitBillingExprAndRequestRules (expr_of data) = Ok expr) ->
  snapshot_of show (saved_maps data names maps) name = Ok (saved_snapshot data expr name).
Proof.
  intros Hn He. set (w := settings_map (default JUndefined) (written_values data)).
  rewrite (snapshot_ext _ (settings_map (fun v => [(name, v)]) w)).
  2:{ rewrite values_saved, decide_True by done. fold w. unfold values_at, settings_map, lanes_map.
      destruct w as [[m1 m2 m3 m4 m5 m6 m7 m8] m9 m10]. cbn [lanes billingMode billingExpr price ratio cacheRatio createCacheRatio completionRatio
        imageRatio audioRatio audioCompletionRatio assoc]. by rewrite !str_eqb_refl. }
  unfold snapshot_of, saved_snapshot, w, written_values.
  destruct (written_lanes data) as [w1 w2 w3 w4 w5 w6 w7 w8]. unfold settings_map, lanes_map.
  cbn [lanes billingMode billingExpr price ratio cacheRatio createCacheRatio completionRatio imageRatio audioRatio audioCompletionRatio assoc].
  rewrite !str_eqb_refl. destruct (has_expr data) eqn:Hx; cbn [default id]; [|done].
  change (is_literal "tiered_expr" (JString tiered_expr)) with true. cbv iota.
  assert (Ht : truthy (expr_of data) = true) by (by apply andb_true_iff in Hx as [_ Hx]).
  unfold js_or. cbn [js_truthy]. rewrite Ht. cbn [decoded_bind]. rewrite He by done. cbn [decoded_bind]. by destruct expr.
Qed.

Lemma decoded_all_exists {A B} (f : A -> Decoded B) l :
  (forall x, x ∈ l -> exists y, f x = Ok y) -> exists ys, decoded_all (f <$> l) = Ok ys.
Proof.
  induction l as [|x l IH]; intros H; [by exists []|]. rewrite fmap_cons. cbn [decoded_all].
  destruct (H x ltac:(by left)) as [y ->], IH as [ys ->]; [|by exists (y :: ys)]. intros z Hz. apply H. by right.
Qed.

Lemma snapshot_exists maps rows name :
  decoded_all (snapshot_of show maps <$> model_names maps) = Ok rows -> name ∈ model_names maps ->
  exists r, snapshot_of show maps name = Ok r.
Proof.
  intros H%decoded_all_ok Hn. assert (Hin : snapshot_of show maps name ∈ Ok <$> rows).
  { rewrite <- H. by apply list_elem_of_fmap_2. }
  apply list_elem_of_fmap in Hin as (r & -> & _). by exists r.
Qed.

Lemma values_ok data i v :
  Forall (fun text => forall n, lane_value text = Some (JNumber n) -> num_ok show n = true) (lanes_list (d_lanes data)) ->
  str_ok (expr_of data) = true -> settings_list (written_values data) !! i = Some (Some v) -> json_ok show v = true.
Proof.
  intros Hl Hs H%list_elem_of_lookup_2. unfold written_values, settings_list in H. cbn [lanes billingMode billingExpr] in H.
  apply elem_of_app in H as [H|H].
  - assert (Ew : forall text, text ∈ lanes_list (written_lanes data) -> text = [] \/ text ∈ lanes_list (d_lanes data)).
    { unfold written_lanes. destruct (d_lanes data) as [w1 w2 w3 w4 w5 w6 w7 w8].
      cbn [price]. destruct (d_billingMode data =s? tiered_expr), (truthy w1); unfold lanes_list; cbn [price ratio cacheRatio createCacheRatio completionRatio imageRatio audioRatio audioCompletionRatio];
        intros text; rewrite !elem_of_cons; tauto. }
    assert (El : lanes_list (lanes_map lane_value (written_lanes data)) = lane_value <$> lanes_list (written_lanes data))
      by (by destruct (written_lanes data)).
    rewrite El in H. apply list_elem_of_fmap in H as (text & E & Hin). rewrite Forall_forall in Hl.
    destruct (Ew text Hin) as [->|Ht]; [done|]. unfold lane_value in E. destruct (_ && _) eqn:Ex in E; [|done].
    injection E as ->. apply (Hl text Ht). unfold lane_value. by rewrite Ex.
  - destruct (has_expr data); rewrite !elem_of_cons in H; destruct H as [H|[H|[]%not_elem_of_nil]]; try done; by injection H as ->.
Qed.

Lemma saved_ok data names maps :
  Forall (fun m => fields_ok show m = true) (settings_list maps) -> Forall (fun n => str_ok n = true) names ->
  Forall (fun text => forall n, lane_value text = Some (JNumber n) -> num_ok show n = true) (lanes_list (d_lanes data)) ->
  str_ok (expr_of data) = true ->
  Forall (fun m => fields_ok show m = true) (settings_list (saved_maps data names maps)).
Proof.
  intros Hm Hn Hl Hs. apply Forall_forall. intros m' (i & o & m & Ho & Hi & ->)%saved_map_in. rewrite Forall_forall in Hm.
  apply puts_ok; [apply Hm; by eapply list_elem_of_lookup_2|done|]. intros v ->. by eapply values_ok.
Qed.

(** The snapshots after a change of the maps, read from the texts. *)
Lemma saved_rows maps rows data targets expr :
  Forall (fun m => fields_ok show m = true) (settings_list maps) ->
  decoded_all (snapshot_of show maps <$> model_names maps) = Ok rows ->
  Forall (fun n => str_ok n = true) targets -> str_ok (expr_of data) = true ->
  Forall (fun text => forall n, lane_value text = Some (JNumber n) -> num_ok show n = true) (lanes_list (d_lanes data)) ->
  (has_expr data = true -> splitBillingExprAndRequestRules (expr_of data) = Ok expr) ->
  exists rows',
    buildModelSnapshots show (write_settings show (saved_maps data targets maps)) = Ok rows' /\ NoDup (s_name <$> rows') /\
    (forall r, s_name r ∉ targets -> (r ∈ rows' <-> r ∈ rows)) /\
    (forall r, s_name r ∈ targets ->
       (r ∈ rows' <-> (exists v, Some v ∈ settings_list (written_values data)) /\ r = saved_snapshot data expr (s_name r))).
Proof.
  intros Hok Hrows Htargets Hexpr Hlanes Hsplit. set (maps' := saved_maps data targets maps). unfold buildModelSnapshots.
  assert (Hok' := saved_ok data targets maps Hok Htargets Hlanes Hexpr). fold maps' in Hok'.
  assert (Hsame : forall name, name ∉ targets -> snapshot_of show maps' name = snapshot_of show maps name).
  { intros name Hn. apply snapshot_ext. unfold maps'. by rewrite values_saved, decide_False. }
  assert (Hnew : forall name, name ∈ targets -> snapshot_of show maps' name = Ok (saved_snapshot data expr name)).
  { intros name Hn. by apply saved_snapshot_spec. }
  destruct (decoded_all_exists (snapshot_of show maps') (model_names maps')) as [rows' Hrows'].
  { intros name Hn. destruct (decide (name ∈ targets)) as [Ht|Ht]; [rewrite Hnew by done; by eexists|].
    rewrite Hsame by done. apply (snapshot_exists maps rows); [done|]. by eapply names_kept. }
  exists rows'. rewrite read_written by done. cbn [decoded_bind].
  split; [done|]. split; [rewrite (snapshots_names _ _ Hrows'); apply distinct_NoDup|]. split.
  - intros r Hr. rewrite (snapshots_spec _ _ Hrows'), (snapshots_spec _ _ Hrows). split; intros (name & Hn & E);
      assert (En := snapshot_name _ _ _ E); subst name; exists (s_name r).
    + split; [by apply (names_kept data targets maps)|by rewrite <- Hsame].
    + split; [by apply (names_kept data targets maps)|by rewrite Hsame].
  - intros r Hr. rewrite (snapshots_spec _ _ Hrows'), <- (names_written data targets maps (s_name r)) by done. split.
    + intros (name & Hn & E). assert (En := snapshot_name _ _ _ E). subst name. rewrite Hnew in E by done. injection E as E. by split.
    + intros [Hn E]. exists (s_name r). rewrite Hnew by done. by rewrite <- E.
Qed.

(** ** Claims *)

(** C14: saving a model.  The settings are read, changed and written as texts; reading them again,
    every saved name has the snapshot of the saved data (its numbers as they are printed, its
    expression split into price and rules; none when nothing was given), every other model has
    the snapshots it had, and no name has two. *)
Theorem saved_prices_shown input maps rows data targets expr :
  read_settings input = Ok maps -> Forall (fun m => fields_ok show m = true) (settings_list maps) ->
  buildModelSnapshots show input = Ok rows ->
  Forall (fun n => str_ok n = true) targets -> str_ok (expr_of data) = true ->
  Forall (fun text => forall n, lane_value text = Some (JNumber n) -> num_ok show n = true) (lanes_list (d_lanes data)) ->
  (has_expr data = true -> splitBillingExprAndRequestRules (expr_of data) = Ok expr) ->
  exists output rows',
    persistPricingData show input data targets = Ok output /\ buildModelSnapshots show output = Ok rows' /\
    NoDup (s_name <$> rows') /\
    (forall r, s_name r ∉ targets -> (r ∈ rows' <-> r ∈ rows)) /\
    (forall r, s_name r ∈ targets ->
       (r ∈ rows' <-> (exists v, Some v ∈ settings_list (written_values data)) /\ r = saved_snapshot data expr (s_name r))).
Proof.
  intros Hread Hok Hrows Htargets Hexpr Hlanes Hsplit. unfold buildModelSnapshots at 1 in Hrows. rewrite Hread in Hrows.
  destruct (saved_rows maps rows data targets expr Hok Hrows Htargets Hexpr Hlanes Hsplit) as (rows' & Hrows' & H).
  exists (write_settings show (saved_maps data targets maps)), rows'. split; [|done].
  unfold persistPricingData. rewrite Hread. cbn [decoded_bind]. by rewrite persist_saved.
Qed.

(** *** Deleting *)

Definition nothing : ModelRatioData := mkData [] no_lanes [] [] [].

Lemma delete_saved name maps : delete_model name maps = saved_maps nothing [name] maps.
Proof. by destruct maps as [[m1 m2 m3 m4 m5 m6 m7 m8] m9 m10]. Qed.

(** A deleted model has no snapshot any more; every other model keeps its own. *)
Theorem deleted_prices_gone input maps rows name :
  read_settings input = Ok maps -> Forall (fun m => fields_ok show m = true) (settings_list maps) ->
  buildModelSnapshots show input = Ok rows -> str_ok name = true ->
  exists output rows', handleDelete show input name = Ok output /\ buildModelSnapshots show output = Ok rows' /\
    (forall r, r ∈ rows' <-> r ∈ rows /\ s_name r <> name).
Proof.
  intros Hread Hok Hrows Hname. unfold buildModelSnapshots at 1 in Hrows. rewrite Hread in Hrows.
  destruct (saved_rows maps rows nothing [name] ([], []) Hok Hrows) as (rows' & Hrows' & _ & Hother & Hgone).
  { by apply Forall_singleton. } { done. }
  { unfold nothing, no_lanes, lanes_list. repeat (apply Forall_cons; split; [done|]). by apply Forall_nil. } { done. }
  exists (write_settings show (saved_maps nothing [name] maps)), rows'.
  split; [unfold handleDelete; rewrite Hread; cbn [decoded_bind]; by rewrite delete_saved|]. split; [done|].
  intros r. destruct (decide (s_name r = name)) as [E|E].
  - split; [|by intros []]. intros Hr. exfalso. apply Hgone in Hr as [(v & Hv) _]; [|by apply list_elem_of_singleton].
    assert (Hnone : Forall (fun o => o = None) (settings_list (written_values nothing))).
    { unfold settings_list, lanes_list. repeat (apply Forall_cons; split; [done|]). by apply Forall_nil. }
    rewrite Forall_forall in Hnone. by apply Hnone in Hv.
  - rewrite Hother by (by rewrite list_elem_of_singleton). tauto.
Qed.

(** *** Changed drafts *)

Definition snapshot_texts (s : ModelPricingSnapshot) : list jsstr :=
  lanes_list (s_lanes s) ++ [str_or (s_billingMode s) (js "per-token"); s_billingExpr s; s_requestRuleExpr s].

Definition signature_keys : list jsstr :=
  [js "price"; js "ratio"; js "cacheRatio"; js "createCacheRatio"; js "completionRatio"; js "imageRatio"; js "audioRatio";
   js "audioCompletionRatio"; js "billingMode"; js "billingExpr"; js "requestRuleExpr"].

Lemma signature_fields s :
  getSnapshotSignature show (Some s) = stringify show (JObject (zip signature_keys (JString <$> snapshot_texts s))).
Proof. by destruct s as [n [w1 w2 w3 w4 w5 w6 w7 w8] m e r c]. Qed.

Lemma signature_ok s :
  Forall (fun t => str_ok t = true) (snapshot_texts s) -> json_ok show (JObject (zip signature_keys (JString <$> snapshot_texts s))) = true.
Proof.
  intros Hs. apply fields_ok_iff. split.
  - destruct s as [n [w1 w2 w3 w4 w5 w6 w7 w8] m e r c]. unfold snapshot_texts, lanes_list in *.
    cbn [s_lanes s_billingMode s_billingExpr s_requestRuleExpr price ratio cacheRatio createCacheRatio completionRatio imageRatio
      audioRatio audioCompletionRatio app fmap list_fmap zip signature_keys] in *.
    repeat (apply Forall_cons in Hs as [? Hs]). repeat (apply Forall_cons; split; [by split|]). by apply Forall_nil.
  - rewrite fst_zip by (rewrite length_fmap; by destruct s as [n [w1 w2 w3 w4 w5 w6 w7 w8] m e r c]). by_decision.
Qed.

(** A row is marked as changed exactly when the draft and the saved model differ in a price, in the
    mode or in an expression. *)
Theorem unchanged_iff_same a b :
  Forall (fun t => str_ok t = true) (snapshot_texts a) -> Forall (fun t => str_ok t = true) (snapshot_texts b) ->
  (getSnapshotSignature show (Some a) =s? getSnapshotSignature show (Some b)) = true <-> snapshot_texts a = snapshot_texts b.
Proof.
  intros Ha Hb. rewrite str_eqb_eq, !signature_fields. split; [|by intros ->]. intros E.
  apply (f_equal JSON_parse) in E. rewrite !JSON_parse_stringify in E by (by apply signature_ok).
  assert (El : JString <$> snapshot_texts a = JString <$> snapshot_texts b).
  { assert (Hlen : forall s, length signature_keys = length (JString <$> snapshot_texts s)) by (intros [n [w1 w2 w3 w4 w5 w6 w7 w8] m e r c]; done).
    assert (Ez : zip signature_keys (JString <$> snapshot_texts a) = zip signature_keys (JString <$> snapshot_texts b))
      by exact (f_equal (fun o => match o with Some (JObject fs) => fs | _ => [] end) E).
    apply (f_equal (fmap snd)) in Ez. by rewrite !snd_zip in Ez by (by rewrite <- Hlen). }
  eapply list_fmap_eq_inj; [|exact El]. by intros x y [= ->].
Qed.
End Pricing.

(** ** Witness *)

Definition example_input : ModelPricingSnapshotInput :=
  mkSettings (mkLanes [] (js "{" ++ [34] ++ js "gpt-4o" ++ [34] ++ js ": 2}") [] [] [] [] [] []) [] [].
Definition example_maps : PricingSettings price_map := mkSettings (mkLanes [] [(js "gpt-4o", JNumber (num 2))] [] [] [] [] [] []) [] [].
Definition example_rows : list ModelPricingSnapshot :=
  [mkSnapshot (js "gpt-4o") (mkLanes [] (js "2") [] [] [] [] [] []) (js "per-token") [] [] false].
Definition example_data : ModelRatioData :=
  mkData (js "o3") (mkLanes [] (js "1.0") [] [] (js "4") [] [] []) tiered_expr (js "p * 3 + c * 15") [].

Lemma saved_prices_shown_witness :
  exists output rows', persistPricingData show_int example_input example_data [js "o3"] = Ok output /\
    buildModelSnapshots show_int output = Ok rows' /\
    (mkSnapshot (js "o3") (mkLanes [] (js "1") [] [] (js "4") [] [] []) tiered_expr (js "p * 3 + c * 15") [] false ∈ rows').
Proof.
  assert (H1 : read_settings example_input = Ok example_maps) by (vm_compute; reflexivity).
  assert (H2 : Forall (fun m => fields_ok show_int m = true) (settings_list example_maps)).
  { unfold example_maps, settings_list, lanes_list. repeat (apply Forall_cons; split; [vm_compute; reflexivity|]). by apply Forall_nil. }
  assert (H3 : buildModelSnapshots show_int example_input = Ok example_rows) by (vm_compute; reflexivity).
  assert (H4 : Forall (fun n => str_ok n = true) [js "o3"]) by (by apply Forall_singleton).
  assert (H5 : str_ok (expr_of example_data) = true) by (vm_compute; reflexivity).
  assert (H6 : Forall (fun text => forall n, lane_value text = Some (JNumber n) -> num_ok show_int n = true) (lanes_list (d_lanes example_data))).
  { assert (He : forall n, lane_value [] = Some (JNumber n) -> num_ok show_int n = true) by done.
    assert (H1' : lane_value (js "1.0") = Some (JNumber (num 1))) by (vm_compute; reflexivity).
    assert (H4' : lane_value (js "4") = Some (JNumber (num 4))) by (vm_compute; reflexivity).
    unfold example_data, lanes_list. repeat (apply Forall_cons; split; [|]); try apply He; try by apply Forall_nil.
    - intros n. cbn [d_lanes ratio]. rewrite H1'. intros [= <-]. vm_compute. reflexivity.
    - intros n. cbn [d_lanes completionRatio]. rewrite H4'. intros [= <-]. vm_compute. reflexivity. }
  assert (H7 : splitBillingExprAndRequestRules (expr_of example_data) = Ok (js "p * 3 + c * 15", [])) by (vm_compute; reflexivity).
  destruct (saved_prices_shown show_int example_input example_maps example_rows example_data [js "o3"] (js "p * 3 + c * 15", [])
    H1 H2 H3 H4 H5 H6 (fun _ => H7)) as (output & rows' & Hp & Hb & _ & _ & Hin).
  exists output, rows'. split; [exact Hp|]. split; [exact Hb|]. apply Hin; [by apply list_elem_of_singleton|].
  split; [exists (JString tiered_expr)|vm_compute; reflexivity].
  apply elem_of_app. right. by left.
Defined.
