(* ===== verification/TierExpr.v ===== *)
(** * Editor of tiered prices

    web/src/features/pricing/lib/tier-expr.ts: the visual configuration of a
    tiered price, its normalisation, the printer that turns it into a billing
    expression and the parser that reads an expression back when the editor can
    show it.

    A tier is a JavaScript object with an index signature, modelled as a map from
    property names to values; an object literal with a spread is a union of maps.
    The parser builds its expressions from the registry of billing variables, as
    the source does. *)

From Stdlib Require Import SpecFloat.
From S2P Require Import Prelude JsValue Json JsText BillingExpr.

Local Open Scope N_scope.

(** ** Data *)

Definition CACHE_MODE_TIMED : jsstr := js "timed".
Definition CACHE_MODE_GENERIC : jsstr := js "generic".

(** [VisualTier] and [Partial<VisualTier>] *)
Abbreviation VisualTier := (gmap jsstr jsval).
Abbreviation VisualConfig := (list VisualTier).

(** [tier.key] *)
Definition prop (k : jsstr) (t : VisualTier) : jsval := default JUndefined (t !! k).

(** An object literal; a later property of the same name replaces an earlier one. *)
Definition object (fields : list (jsstr * jsval)) : VisualTier :=
  foldl (fun m kv => <[kv.1 := kv.2]> m) ∅ fields.

Section Editor.
(** [Number.prototype.toString] *)
Variable show : jsnum -> jsstr.

(** ** Normalisation *)

(** A missing tier ([null], [undefined]) reads as one without properties. *)
Definition getTierCacheMode (tier : VisualTier) : jsstr :=
  if is_literal "timed" (prop (js "cache_mode") tier) then CACHE_MODE_TIMED
  else if is_literal "generic" (prop (js "cache_mode") tier) then CACHE_MODE_GENERIC
  else if num_lt (num 0) (js_number show (prop (js "cache_create_1h_unit_cost") tier))
       then CACHE_MODE_TIMED else CACHE_MODE_GENERIC.

(** The properties given before and after the spread of [tier]. *)
Definition tier_defaults (tier : VisualTier) : VisualTier :=
  object
    [ (js "label", if nullish (prop (js "label") tier) then JString [] else prop (js "label") tier);
      (js "input_unit_cost", JNumber (number_or_0 show (prop (js "input_unit_cost") tier)));
      (js "output_unit_cost", JNumber (number_or_0 show (prop (js "output_unit_cost") tier)));
      (js "cache_mode", JString (getTierCacheMode tier));
      (js "conditions", match prop (js "conditions") tier with JArray l => JArray l | _ => JArray [] end) ].

Definition extra_costs : list jsstr :=
  [ js "cache_read_unit_cost"; js "cache_create_unit_cost"; js "cache_create_1h_unit_cost";
    js "image_unit_cost"; js "image_output_unit_cost"; js "audio_input_unit_cost";
    js "audio_output_unit_cost" ].

Definition tier_costs (tier : VisualTier) : VisualTier :=
  object ((fun k => (k, JNumber (number_or_0 show (prop k tier)))) <$> extra_costs).

Definition normalizeVisualTier (tier : VisualTier) : VisualTier :=
  tier_costs tier ∪ (tier ∪ tier_defaults tier).

Definition createDefaultVisualConfig : VisualConfig :=
  [ normalizeVisualTier (object
      [ (js "conditions", JArray []);
        (js "input_unit_cost", JNumber (num 0));
        (js "output_unit_cost", JNumber (num 0));
        (js "label", JString (js "base"));
        (js "cache_mode", JString CACHE_MODE_GENERIC) ]) ].

(** [None] is a missing configuration or one whose [tiers] is not an array. *)
Definition normalizeVisualConfig (config : option VisualConfig) : VisualConfig :=
  match config with
  | None | Some [] => createDefaultVisualConfig
  | Some tiers => normalizeVisualTier <$> tiers
  end.

(** ** Printer *)

(** [c.var && c.op && c.value != null && c.value !== ''] *)
Definition condition_set (c : jsval) : bool :=
  js_truthy (field "var" c) && js_truthy (field "op" c) && negb (nullish (field "value" c))
  && match field "value" c with JString [] => false | _ => true end.

Definition condition_text (c : jsval) : jsstr :=
  js_string show (field "var" c) ++ js " " ++ js_string show (field "op" c) ++ js " "
  ++ js_string show (field "value" c).

Definition buildConditionStr (conditions : jsval) : jsstr :=
  match conditions with
  | JArray l => join (js " && ") (condition_text <$> filter (fun c => condition_set c = true) l)
  | _ => []
  end.

Definition product (var : jsstr) (n : jsnum) : jsstr := var ++ js " * " ++ show n.

Definition extra_parts (tier : VisualTier) : list jsstr :=
  omap (fun cv : jsstr * jsstr =>
    let v := number_or_0 show (prop cv.1 tier) in
    if num_eqb v (num 0) then None else Some (product cv.2 v)) BILLING_CACHE_VAR_MAP.

Definition buildTierBodyExpr (tier : VisualTier) : jsstr :=
  join (js " + ")
    (product (js "p") (number_or_0 show (prop (js "input_unit_cost") tier))
     :: product (js "c") (number_or_0 show (prop (js "output_unit_cost") tier))
     :: extra_parts tier).

(** The call of [tier] with the label or a default one. *)
Definition tier_call (fallback : jsstr) (tier : VisualTier) : jsstr :=
  let label := js_string show (js_or (prop (js "label") tier) (JString fallback)) in
  js "tier(" ++ quo ++ label ++ quo ++ js ", " ++ buildTierBodyExpr tier ++ js ")".

Definition no_price : jsstr := js "p * 0 + c * 0".

(** The loop over several tiers: [i] is the index of the first tier of the list;
    conditions of the last tier are not printed. *)
Fixpoint tier_parts (i : N) (tiers : VisualConfig) : list jsstr :=
  match tiers with
  | [] => []
  | tier :: rest =>
      let body := tier_call (js "tier_" ++ show_dec (i + 1)) tier in
      let cond := buildConditionStr (prop (js "conditions") tier) in
      (match rest with
       | _ :: _ => if truthy cond then cond ++ js " ? " ++ body else body
       | [] => body
       end) :: tier_parts (i + 1) rest
  end.

Definition generateExprFromVisualConfig (config : option VisualConfig) : jsstr :=
  match config with
  | None | Some [] => no_price
  | Some [tier] =>
      let body := tier_call (js "default") tier in
      let cond := buildConditionStr (prop (js "conditions") tier) in
      if truthy cond then cond ++ js " ? " ++ body ++ js " : " ++ no_price else body
  | Some tiers => join (js " : ") (tier_parts 0 tiers)
  end.

(** ** Parser *)

Definition version_prefix : regex :=
  Start >> txt "v" >> plus digit >> txt ":" >> Group 1 (Star (cls any_unit)) >> End.

(** An optional product of an extra variable, captured in group [n]. *)
Definition opt_cost (v : jsstr) (n : nat) : regex :=
  opt (spaces >> txt "+" >> spaces >> lit v >> spaces >> txt "*" >> spaces >> Group n nums).

Fixpoint opt_costs (vars : list jsstr) (n : nat) : regex :=
  match vars with [] => Empty | v :: vars' => opt_cost v n >> opt_costs vars' (S n) end.

(** The body of a tier, its coefficients captured from group [n] on. *)
Definition bodyPat (n : nat) : regex :=
  txt "p" >> spaces >> txt "*" >> spaces >> Group n nums
  >> spaces >> txt "+" >> spaces >> txt "c" >> spaces >> txt "*" >> spaces >> Group (S n) nums
  >> opt_costs (snd <$> BILLING_CACHE_VAR_MAP) (S (S n)).

(** A call of [tier], its label in group [n]. *)
Definition tier_pat (n : nat) : regex :=
  lit (js "tier(" ++ quo) >> Group n (Star (cls (not_unit 34))) >> lit (quo ++ js ",")
  >> spaces >> bodyPat (S n) >> txt ")".

Definition singleRe : regex := Start >> tier_pat 1 >> End.

Definition visual_tierRe : regex := opt (condGroup >> spaces >> txt "?" >> spaces) >> tier_pat 2.

(** The properties of the extra costs a match captured, from group [n] on. *)
Fixpoint captured_costs (m : nat -> option jsstr) (vars : list (jsstr * jsstr)) (n : nat) :
  list (jsstr * jsval) :=
  match vars with
  | [] => []
  | cv :: vars' =>
      match m n with Some val => [(cv.1, JNumber (to_number val))] | None => [] end
      ++ captured_costs m vars' (S n)
  end.

(** The tier of a match whose label is in group [n]. *)
Definition matched_tier (conditions : list jsval) (m : nat -> option jsstr) (n : nat) : VisualTier :=
  object ([ (js "conditions", JArray conditions);
            (js "input_unit_cost", JNumber (to_number (cap m (S n))));
            (js "output_unit_cost", JNumber (to_number (cap m (S (S n)))));
            (js "label", JString (cap m n)) ]
          ++ captured_costs m BILLING_CACHE_VAR_MAP (S (S (S n)))).

Definition condition_object (var op : jsstr) (value : jsnum) : jsval :=
  JObject [(js "var", JString var); (js "op", JString op); (js "value", JNumber value)].

Definition parse_conditions (condStr : jsstr) : list jsval :=
  if negb (truthy condStr) then []
  else omap (fun cp => match exec false comparison_parts (trim cp) with
                       | Some cm => Some (condition_object (cap cm 1) (cap cm 2) (to_number (cap cm 3)))
                       | None => None
                       end) (split_re false and_sep condStr).

Definition strip_spaces (s : jsstr) : jsstr := replaceAll false (plus (cls is_space)) [] s.

Definition tryParseVisualConfig (exprStr : jsstr) : option VisualConfig :=
  if negb (truthy exprStr) then None
  else
    let body := match exec false version_prefix exprStr with Some m => cap m 1 | None => exprStr end in
    match exec false singleRe body with
    | Some m => Some (normalizeVisualConfig (Some [normalizeVisualTier (matched_tier [] m 1)]))
    | None =>
        let tiers := (fun m => normalizeVisualTier
                                 (matched_tier (parse_conditions (default [] (m.2 1%nat))) m.2 2))
                     <$> matchAll false visual_tierRe body in
        if bool_decide (tiers = []) then None
        else
          let cfg := normalizeVisualConfig (Some tiers) in
          let regenerated := generateExprFromVisualConfig (Some cfg) in
          if strip_spaces regenerated =s? strip_spaces body then Some cfg else None
    end.

(** ** Cost estimator *)

(** Variables of the estimator and the state they are read from. *)
Definition ESTIMATOR_VARS : list (jsstr * jsstr) :=
  [ (js "cr", js "cacheReadTokens"); (js "cc", js "cacheCreateTokens");
    (js "cc1h", js "cacheCreate1hTokens"); (js "img", js "imageTokens");
    (js "img_o", js "imageOutputTokens"); (js "ai", js "audioInputTokens");
    (js "ao", js "audioOutputTokens") ].

Record EvalResult := mkEval { cost : jsnum; matchedTier : jsstr; error : option jsstr }.

(** [new Function(...)] runs the text of the expression in the engine: [run] takes
    the numeric variables and the source text and gives either the message of an
    exception or the value returned and the names [tier] was called with, in order. *)
Variable run : list (jsstr * jsnum) -> jsstr -> jsstr + (jsval * list jsstr).

Definition tokens_or_0 (extra : gmap jsstr jsnum) (k : jsstr) : jsnum := num_or_zero (extra !! k).

Definition estimator_env (promptTokens completionTokens : jsnum) (extra : gmap jsstr jsnum) :
  list (jsstr * jsnum) :=
  let len := num_add (num_add (num_add promptTokens (tokens_or_0 extra (js "cacheReadTokens")))
                        (tokens_or_0 extra (js "cacheCreateTokens")))
               (tokens_or_0 extra (js "cacheCreate1hTokens")) in
  [(js "p", promptTokens); (js "c", completionTokens); (js "len", len)]
  ++ ((fun f => (f.1, tokens_or_0 extra f.2)) <$> ESTIMATOR_VARS).

Definition function_source (exprStr : jsstr) : jsstr :=
  quo ++ js "use strict" ++ quo ++ js "; return (" ++ exprStr ++ js ");".

Definition evalExprLocally (exprStr : jsstr) (promptTokens completionTokens : jsnum)
  (extra : gmap jsstr jsnum) : EvalResult :=
  if negb (truthy exprStr) || negb (truthy (trim exprStr)) then mkEval (num 0) [] None
  else
    match run (estimator_env promptTokens completionTokens extra) (function_source exprStr) with
    | inl message => mkEval (num 0) [] (Some message)
    | inr (v, calls) => mkEval (number_or_0 show v) (default [] (last calls)) None
    end.

Definition exprUsesExtraVars (exprStr : jsstr) : bool :=
  if negb (truthy exprStr) then false
  else test false (WordB >> Group 1 (one_of (fst <$> ESTIMATOR_VARS)) >> WordB) exprStr.

End Editor.
