(* ===== verification/TierRoundTrip.v ===== *)
(** * What the editor of tiered prices writes, it reads back

    The abstract content of a configuration is a list of [TierSpec]: a label, the
    comparisons, the two base costs and the extra costs.  [tier_of] is the object
    the parser builds for it, [editor_of] an object the dialog holds (any cache mode,
    incomplete conditions, blank labels) and [written] what the expression of it
    says.  The expression printed is parsed to what it says, provided that the texts
    of its numbers lie in the classes of the parser's expressions and read back as
    the same numbers and that every tier but the last has a condition. *)

From Stdlib Require Import SpecFloat.
From S2P Require Import Prelude JsValue Json JsText BillingExpr TierExpr.

Local Open Scope N_scope.

Record TierSpec := mkSpec {
  s_label : jsstr;
  s_conditions : list (jsstr * jsstr * jsnum);
  s_input : jsnum;
  s_output : jsnum;
  s_extras : list jsnum    (* in the order of [BILLING_CACHE_VAR_MAP] *) }.

(** ** Objects *)

Lemma object_snoc l k v : object (l ++ [(k, v)]) = <[k := v]> (object l).
Proof. unfold object. by rewrite foldl_app. Qed.

Lemma object_app l1 l2 : object (l1 ++ l2) = object l2 ∪ object l1.
Proof.
  induction l2 as [|[k v] l2 IH] using rev_ind; [by rewrite app_nil_r; symmetry; apply (left_id_L ∅ (∪))|].
  by rewrite (assoc_L (++)), !object_snoc, IH, insert_union_l.
Qed.

Lemma object_cons k v l : object ((k, v) :: l) = object l ∪ {[k := v]}.
Proof. change ((k, v) :: l) with ([(k, v)] ++ l). rewrite object_app. done. Qed.

Lemma object_lookup_None k l : k ∉ l.*1 -> object l !! k = None.
Proof.
  induction l as [|[k' v] l IH]; [done|]. rewrite fmap_cons. cbn [fst]. intros H.
  rewrite object_cons, lookup_union_None. split; [apply IH; set_solver|].
  apply lookup_singleton_None. set_solver.
Qed.

Lemma object_lookup_Some k v l : NoDup l.*1 -> (k, v) ∈ l -> object l !! k = Some v.
Proof.
  induction l as [|[k' v'] l IH]; [by intros _ ?%not_elem_of_nil|].
  rewrite fmap_cons. intros [Hk Hl]%NoDup_cons H. rewrite object_cons. apply elem_of_cons in H as [[= <- <-]|H].
  - rewrite lookup_union_r by (by apply object_lookup_None). apply lookup_singleton_eq.
  - apply lookup_union_Some_l. by apply IH.
Qed.

Lemma number_or_0_idem show v : number_or_0 show (JNumber (number_or_0 show v)) = number_or_0 show v.
Proof. unfold number_or_0 at 1. cbn [js_number]. unfold number_or_0. by destruct (num_truthy (js_number show v)) eqn:E; rewrite ?E. Qed.

(** ** Normalisation *)

Section RoundTrip.
Variable show : jsnum -> jsstr.

Lemma tier_costs_keys t k : is_Some (tier_costs show t !! k) <-> k ∈ extra_costs.
Proof.
  unfold tier_costs. split; intros H.
  - destruct (decide (k ∈ extra_costs)) as [|Hn]; [done|]. rewrite object_lookup_None in H; [by destruct H|].
    by rewrite <- list_fmap_compose, (list_fmap_ext _ id), list_fmap_id.
  - eexists. apply object_lookup_Some.
    + rewrite <- list_fmap_compose, (list_fmap_ext _ id), list_fmap_id by done.
      refine (bool_decide_unpack _ _). vm_compute. exact I.
    + apply list_elem_of_fmap. eauto.
Qed.

Lemma tier_costs_lookup t k :
  k ∈ extra_costs -> tier_costs show t !! k = Some (JNumber (number_or_0 show (prop k t))).
Proof.
  intros H. unfold tier_costs. apply object_lookup_Some.
  - rewrite <- list_fmap_compose, (list_fmap_ext _ id), list_fmap_id by done.
    refine (bool_decide_unpack _ _). vm_compute. exact I.
  - apply list_elem_of_fmap. eauto.
Qed.

Definition default_keys : list jsstr :=
  [js "label"; js "input_unit_cost"; js "output_unit_cost"; js "cache_mode"; js "conditions"].

Lemma tier_defaults_None t k : k ∉ default_keys -> tier_defaults show t !! k = None.
Proof. intros H. unfold tier_defaults. apply object_lookup_None. exact H. Qed.

Lemma tier_defaults_Some t k : k ∈ default_keys -> is_Some (tier_defaults show t !! k).
Proof.
  intros H. destruct (tier_defaults show t !! k) eqn:E; [done|]. exfalso.
  unfold tier_defaults in E. rewrite !object_cons in E.
  repeat (apply lookup_union_None in E as [E ?%lookup_singleton_None]).
  unfold default_keys in H. set_solver.
Qed.

(** Normalising twice is normalising once, on every object. *)
Lemma normalizeVisualTier_idem t :
  normalizeVisualTier show (normalizeVisualTier show t) = normalizeVisualTier show t.
Proof.
  set (n := normalizeVisualTier show t).
  assert (Hc : tier_costs show n = tier_costs show t).
  { apply map_eq. intros k. destruct (decide (k ∈ extra_costs)) as [Hk|Hk].
    - rewrite !tier_costs_lookup by done. do 2 f_equal. unfold n, prop, normalizeVisualTier.
      erewrite lookup_union_Some_l by (by apply tier_costs_lookup). apply number_or_0_idem.
    - assert (Hn : forall t', tier_costs show t' !! k = None)
        by (intros t'; apply eq_None_not_Some; by rewrite tier_costs_keys).
      by rewrite !Hn. }
  unfold normalizeVisualTier. rewrite Hc. change (tier_costs show t ∪ (n ∪ tier_defaults show n) = n).
  assert (Hd : n ∪ tier_defaults show n = n).
  { apply map_eq. intros k. destruct (n !! k) as [v|] eqn:E; [by apply lookup_union_Some_l|].
    rewrite lookup_union_r by done. apply tier_defaults_None. intros Hk.
    unfold n, normalizeVisualTier in E. apply lookup_union_None in E as [_ E].
    apply lookup_union_None in E as [_ E]. apply (tier_defaults_Some t) in Hk as [x Hk]. congruence. }
  rewrite Hd. unfold n, normalizeVisualTier. by rewrite (assoc_L (∪)), (idemp_L (∪)).
Qed.

(** ** Specified configurations *)

(** A number that prints as a text of units of [f], which reads back as the number. *)
Definition prints (f : N -> bool) (n : jsnum) : Prop :=
  show n <> [] /\ forallb f (show n) = true /\ to_number (show n) = n.

(** Neither [-0] nor [NaN]. *)
Definition plain_number (n : jsnum) : Prop := n = num 0 \/ num_truthy n = true.

Definition condition_ok (c : jsstr * jsstr * jsnum) : Prop :=
  c.1.1 ∈ tier_vars /\ c.1.2 ∈ tier_ops /\ prints cond_unit c.2.

Definition spec_ok (p : TierSpec) : Prop :=
  s_label p <> [] /\ forallb (not_unit 34) (s_label p) = true
  /\ Forall condition_ok (s_conditions p)
  /\ (plain_number (s_input p) /\ prints num_unit (s_input p))
  /\ (plain_number (s_output p) /\ prints num_unit (s_output p))
  /\ length (s_extras p) = length BILLING_CACHE_VAR_MAP
  /\ Forall (fun x => x = num 0 \/ num_truthy x = true /\ prints num_unit x) (s_extras p).

(** Every tier but the last has a condition; the last of several has none. *)
Fixpoint chain_ok (ps : list TierSpec) : Prop :=
  match ps with
  | [] => False
  | [p] => s_conditions p = []
  | p :: rest => s_conditions p <> [] /\ chain_ok rest
  end.

Definition config_ok (ps : list TierSpec) : Prop :=
  Forall spec_ok ps /\ match ps with [_] => True | _ => chain_ok ps end.

Definition s_mode (p : TierSpec) : jsstr :=
  if num_lt (num 0) (default (num 0) (s_extras p !! 2%nat)) then CACHE_MODE_TIMED else CACHE_MODE_GENERIC.

Definition s_objects (p : TierSpec) : list jsval :=
  (fun c => condition_object c.1.1 c.1.2 c.2) <$> s_conditions p.

Definition base_fields (p : TierSpec) : list (jsstr * jsval) :=
  [ (js "label", JString (s_label p)); (js "input_unit_cost", JNumber (s_input p));
    (js "output_unit_cost", JNumber (s_output p)); (js "cache_mode", JString (s_mode p));
    (js "conditions", JArray (s_objects p)) ].

(** The object the editor keeps. *)
Definition tier_of (p : TierSpec) : VisualTier :=
  object (base_fields p ++ zip extra_costs (JNumber <$> s_extras p)).

(** *** Its text *)

Definition condition_str (c : jsstr * jsstr * jsnum) : jsstr :=
  c.1.1 ++ js " " ++ c.1.2 ++ js " " ++ show c.2.
Definition conditions_str (p : TierSpec) : jsstr := join (js " && ") (condition_str <$> s_conditions p).

Definition extra_text (vx : jsstr * jsnum) : jsstr :=
  if num_eqb vx.2 (num 0) then [] else js " + " ++ product show vx.1 vx.2.
Definition extra_vars : list jsstr := snd <$> BILLING_CACHE_VAR_MAP.
Definition s_costs (p : TierSpec) : list (jsstr * jsnum) := zip extra_vars (s_extras p).

Definition body_str (p : TierSpec) : jsstr :=
  product show (js "p") (s_input p) ++ js " + " ++ product show (js "c") (s_output p)
  ++ concat (extra_text <$> s_costs p).
Definition call_str (p : TierSpec) : jsstr :=
  js "tier(" ++ quo ++ s_label p ++ quo ++ js ", " ++ body_str p ++ js ")".
Definition tier_str (p : TierSpec) : jsstr :=
  (match s_conditions p with [] => [] | _ => conditions_str p ++ js " ? " end) ++ call_str p.

Lemma number_plain n : plain_number n -> number_or_0 show (JNumber n) = n.
Proof. unfold number_or_0. cbn [js_number]. intros [-> | ->]; done. Qed.

Lemma truthy_nonzero x : num_truthy x = true -> num_eqb x (num 0) = false.
Proof. by destruct x as [|[]| |[]]. Qed.

Lemma extra_plain x P : x = num 0 \/ num_truthy x = true /\ P -> plain_number x.
Proof. unfold plain_number. tauto. Qed.

(** The fields of the object, by name. *)
Lemma tier_of_lookup p k v :
  length (s_extras p) = length BILLING_CACHE_VAR_MAP ->
  (k, v) ∈ base_fields p ++ zip extra_costs (JNumber <$> s_extras p) -> tier_of p !! k = Some v.
Proof.
  intros Hl H. apply object_lookup_Some; [|done]. rewrite fmap_app.
  change (((zip extra_costs (JNumber <$> s_extras p))).*1) with (fst <$> zip extra_costs (JNumber <$> s_extras p)).
  rewrite fst_zip by (rewrite length_fmap, Hl; vm_compute; lia).
  refine (bool_decide_unpack _ _). vm_compute. exact I.
Qed.

Lemma tier_of_base p k v :
  spec_ok p -> (k, v) ∈ base_fields p -> prop k (tier_of p) = v.
Proof.
  intros (_ & _ & _ & _ & _ & Hl & _) H. unfold prop.
  by rewrite (tier_of_lookup p k v Hl) by (apply elem_of_app; by left).
Qed.

Lemma tier_of_extras p :
  spec_ok p -> Forall2 (fun cv x => prop cv.1 (tier_of p) = JNumber x) BILLING_CACHE_VAR_MAP (s_extras p).
Proof.
  intros (_ & _ & _ & _ & _ & Hl & _).
  assert (E : extra_costs = fst <$> BILLING_CACHE_VAR_MAP) by (vm_compute; reflexivity).
  apply Forall2_same_length_lookup. split; [done|]. intros i cv x Hcv Hx. unfold prop.
  rewrite (tier_of_lookup p cv.1 (JNumber x) Hl); [done|]. apply elem_of_app. right.
  apply list_elem_of_lookup. exists i. apply lookup_zip_Some.
  by rewrite E, !list_lookup_fmap, Hcv, Hx.
Qed.

Lemma join_concat sep x xs : join sep (x :: xs) = x ++ concat ((app sep) <$> xs).
Proof.
  revert x. induction xs as [|y xs IH]; intros x; [by rewrite app_nil_r|].
  rewrite join_cons by done. rewrite IH. cbn [fmap list_fmap concat]. by rewrite !(assoc_L (++)).
Qed.

Lemma extra_parts_text t l xs :
  Forall2 (fun cv x => prop cv.1 t = JNumber x) l xs -> Forall plain_number xs ->
  concat (app (js " + ") <$> omap (fun cv : jsstr * jsstr =>
    let v := number_or_0 show (prop cv.1 t) in
    if num_eqb v (num 0) then None else Some (product show cv.2 v)) l)
  = concat (extra_text <$> zip (snd <$> l) xs).
Proof.
  induction 1 as [|[f v] x l xs Hx Hl IH]; [done|]. intros [Hn Hxs]%Forall_cons.
  cbn [omap list_omap fmap list_fmap zip zip_with concat fst snd] in *. rewrite Hx, number_plain by done.
  unfold extra_text at 1. cbn [fst snd]. destruct (num_eqb x (num 0)); [by apply IH|].
  cbn [fmap list_fmap concat]. by rewrite IH.
Qed.

Lemma body_generated p : spec_ok p -> buildTierBodyExpr show (tier_of p) = body_str p.
Proof.
  intros H. pose proof H as (_ & _ & _ & [Hi _] & [Ho _] & Hl & Hx).
  unfold buildTierBodyExpr, body_str.
  rewrite (tier_of_base p (js "input_unit_cost") (JNumber (s_input p)) H) by (unfold base_fields; set_solver).
  rewrite (tier_of_base p (js "output_unit_cost") (JNumber (s_output p)) H) by (unfold base_fields; set_solver).
  rewrite !number_plain by done. rewrite join_cons by done. rewrite join_concat.
  f_equal. f_equal. f_equal. unfold extra_parts. apply extra_parts_text; [by apply tier_of_extras|].
  eapply Forall_impl; [exact Hx|]. intros x. apply extra_plain.
Qed.

Lemma call_generated fallback p : spec_ok p -> tier_call show fallback (tier_of p) = call_str p.
Proof.
  intros H. unfold tier_call. rewrite body_generated by done.
  rewrite (tier_of_base p (js "label") (JString (s_label p)) H) by (unfold base_fields; set_solver).
  unfold js_or. cbn [js_truthy]. by rewrite (proj2 (truthy_true _) (proj1 H)).
Qed.

Lemma conditions_generated p :
  spec_ok p -> buildConditionStr show (prop (js "conditions") (tier_of p)) = conditions_str p.
Proof.
  intros H. rewrite (tier_of_base p (js "conditions") (JArray (s_objects p)) H) by (unfold base_fields; set_solver).
  destruct H as (_ & _ & Hc & _). unfold buildConditionStr, conditions_str, s_objects. f_equal.
  induction Hc as [|[[v o] n] cs (Hv & Ho & _) Hcs IH]; [done|]. rewrite !fmap_cons. rewrite filter_cons_True.
  - rewrite fmap_cons. f_equal. exact IH.
  - cbn [fst snd] in *. unfold condition_set, condition_object.
    assert (truthy v = true /\ truthy o = true) as [Tv To].
    { unfold tier_vars, tier_ops in *. split; [clear -Hv|clear -Ho]; set_unfold; naive_solver. }
    change (js_truthy (JString v) && js_truthy (JString o) && true && true = true).
    cbn [js_truthy]. by rewrite Tv, To.
Qed.

Lemma conditions_str_cons p c cs :
  s_conditions p = c :: cs ->
  conditions_str p = condition_str c ++ concat (app (js " && ") <$> (condition_str <$> cs)).
Proof. intros E. unfold conditions_str. rewrite E, fmap_cons. apply join_concat. Qed.

(** A comparison starts with one of the letters of the variables. *)
Lemma condition_str_head c :
  condition_ok c -> exists x t, condition_str c = x :: t /\ (x = 112 \/ x = 99 \/ x = 108).
Proof.
  intros (Hv & _). unfold condition_str, tier_vars in *.
  repeat (apply elem_of_cons in Hv as [-> | Hv]); [..|by apply not_elem_of_nil in Hv]; eexists _, _; split;
    [reflexivity|vm_compute; tauto|reflexivity|vm_compute; tauto|reflexivity|vm_compute; tauto].
Qed.

Lemma conditions_truthy p :
  spec_ok p -> truthy (conditions_str p) = bool_decide (s_conditions p <> []).
Proof.
  intros (_ & _ & Hc & _). destruct (s_conditions p) as [|c cs] eqn:E; [unfold conditions_str; by rewrite E|].
  rewrite (conditions_str_cons p c cs E). apply Forall_cons in Hc as [Hc _].
  by destruct (condition_str_head c Hc) as (x & t & -> & _).
Qed.

Lemma tier_str_conditions p :
  spec_ok p -> s_conditions p <> [] -> tier_str p = conditions_str p ++ js " ? " ++ call_str p.
Proof. intros _ H. unfold tier_str. destruct (s_conditions p); [done|]. by rewrite <- (assoc_L (++)). Qed.

Lemma tier_parts_generated ps : forall i,
  Forall spec_ok ps -> chain_ok ps -> tier_parts show i (tier_of <$> ps) = tier_str <$> ps.
Proof.
  induction ps as [|p ps IH]; intros i Hs Hc; [done|]. apply Forall_cons in Hs as [Hp Hs].
  rewrite !fmap_cons. cbn [tier_parts].
  rewrite call_generated, conditions_generated, conditions_truthy by done.
  destruct ps as [|q ps].
  - cbn [chain_ok] in Hc. unfold tier_str. by rewrite Hc.
  - destruct Hc as [Hne Hc]. rewrite (IH (i + 1)) by done. rewrite fmap_cons.
    rewrite bool_decide_true by done. by rewrite tier_str_conditions.
Qed.

Lemma generated_many p q ps :
  config_ok (p :: q :: ps) ->
  generateExprFromVisualConfig show (Some (tier_of <$> (p :: q :: ps)))
  = join (js " : ") (tier_str <$> (p :: q :: ps)).
Proof.
  intros [Hs Hc]. cbn [generateExprFromVisualConfig fmap list_fmap]. f_equal.
  exact (tier_parts_generated (p :: q :: ps) 0 Hs Hc).
Qed.

Lemma generated_one p :
  config_ok [p] ->
  generateExprFromVisualConfig show (Some (tier_of <$> [p]))
  = match s_conditions p with [] => call_str p | _ => tier_str p ++ js " : " ++ no_price end.
Proof.
  intros [[Hp _]%Forall_cons _]. cbn [generateExprFromVisualConfig fmap list_fmap].
  rewrite call_generated, conditions_generated, conditions_truthy by done.
  destruct (s_conditions p) as [|c cs] eqn:E; [done|]. rewrite bool_decide_true by done.
  rewrite tier_str_conditions by (done || by rewrite E). by rewrite <- !(assoc_L (++)).
Qed.

(** ** Matching the text of a tier *)

Notation rm := (rmatch false).

Lemma takes_seq0 a b x y ds (P Q : jsstr -> Prop) :
  takes a x [] P -> takes b y ds Q -> (forall u, Q u -> P (y ++ u)) -> takes (a >> b) (x ++ y) ds Q.
Proof. intros Ha Hb H. pose proof (takes_seq a b x y [] ds P Q Ha Hb H) as E. by rewrite app_nil_r in E. Qed.

Lemma takes_space : takes spaces (js " ") [] (stops is_space).
Proof. by apply takes_run. Qed.

Lemma num_unit_not_space c : num_unit c = true -> is_space c = false.
Proof.
  unfold num_unit, is_digit, is_space. intros H.
  repeat (rewrite ?orb_true_iff, ?andb_true_iff, ?N.eqb_eq, ?N.leb_le in H).
  repeat rewrite orb_false_iff. rewrite !andb_false_iff, !N.eqb_neq, !N.leb_gt. lia.
Qed.

Lemma stops_app f s u : s <> [] -> stops f s -> stops f (s ++ u).
Proof. by destruct s. Qed.

(** A run of [f] does not start with a unit of a class disjoint from [f]. *)
Lemma run_stops (f g : N -> bool) s :
  (forall c, f c = true -> g c = false) -> s <> [] -> forallb f s = true -> stops g s.
Proof. intros H Hs Hf. destruct s as [|c s]; [done|]. apply andb_true_iff in Hf as [Hc _]. by apply H. Qed.

(** Consumes the next piece of the text. *)
Ltac take := eapply takes_seq0; [first [apply takes_lit | apply takes_space]| |intros ? ?; first [exact I|reflexivity|assumption]].

Definition cost_regex (v : jsstr) (n : nat) : regex :=
  spaces >> txt "+" >> spaces >> lit v >> spaces >> txt "*" >> spaces >> Group n nums.

Lemma takes_nums n x : prints num_unit x -> takes (Group n nums) (show x) [(n, show x)] (stops num_unit).
Proof. intros (Hne & Hf & _). by apply takes_group, takes_plus. Qed.

Lemma nums_no_space x u : prints num_unit x -> stops is_space (show x ++ u).
Proof.
  intros (Hne & Hf & _). apply stops_app; [done|]. exact (run_stops _ _ _ num_unit_not_space Hne Hf).
Qed.

Lemma takes_cost v n x :
  v <> [] -> stops is_space v -> prints num_unit x ->
  takes (cost_regex v n) (js " + " ++ product show v x) [(n, show x)] (stops num_unit).
Proof.
  intros Hv Hs Hx. unfold product.
  change (js " + " ++ v ++ js " * " ++ show x)
    with (js " " ++ js "+" ++ js " " ++ v ++ js " " ++ js "*" ++ js " " ++ show x).
  do 2 take. eapply takes_seq0; [apply takes_space| |intros u _; rewrite <- (assoc_L (++)); by apply stops_app].
  do 3 take. eapply takes_seq0; [apply takes_space|by apply takes_nums|].
  intros u _. by apply nums_no_space.
Qed.

(** *** Optional costs *)

(** [v] followed by spaces and a star does not match in front of [w]. *)
Fixpoint apart (v w : jsstr) : bool :=
  match v, w with
  | x :: v', y :: w' => if x =? y then apart v' w' else true
  | [], y :: _ => negb (is_space y) && negb (42 =? y)
  | _, [] => false
  end.

Lemma apart_misses v w r k b t c :
  apart v w = true -> rm (lit v >> spaces >> txt "*" >> r) k (mkPos b (w ++ t) c) = None.
Proof.
  revert w b. induction v as [|x v IH]; intros [|y w] b H; cbn [apart] in H; try done.
  - apply andb_true_iff in H as [Hs Hy]. unfold spaces, cls.
    change (rm (Star (Unit is_space)) (rm (txt "*" >> r) k) (mkPos b ([] ++ (y :: w ++ t)) c) = None).
    rewrite star_run; [|done|by apply negb_true_iff in Hs|by apply (refuses_lit is_space 42 [])].
    rewrite rmatch_seq. apply rmatch_lit_fail.
    change (starts_with [42] (y :: w ++ t) = false). cbn [starts_with]. by destruct (42 =? y).
  - rewrite rmatch_seq. cbn [lit]. rewrite rmatch_seq. cbn [app]. rewrite rmatch_unit.
    destruct (x =? y); [|done]. exact (IH w (y :: b) H).
Qed.

(** What may follow an optional cost of [v] that is absent. *)
Definition name_ok (v : jsstr) : Prop := v <> [] /\ stops is_space v.
Definition closes (u : jsstr) : Prop := exists u', u = 41 :: u'.
Definition later (v : jsstr) (u : jsstr) : Prop :=
  closes u \/ exists w t, apart v w = true /\ name_ok w /\ u = js " + " ++ w ++ t.

Lemma misses_cost v n : name_ok v -> misses (cost_regex v n) (later v).
Proof.
  intros [Hv Hvs] k b u c [[u' ->] | (w & t & Ha & [Hne Hs] & ->)]; unfold cost_regex, spaces, cls;
    rewrite rmatch_seq.
  - change (41 :: u') with ([] ++ 41 :: u'). rewrite star_run; [done|done|done|by apply (refuses_lit is_space 43 [])].
  - change (js " + " ++ w ++ t) with (js " " ++ js "+" ++ js " " ++ w ++ t).
    rewrite star_run; [|done|done|by apply (refuses_lit is_space 43 [])].
    unfold txt at 1. rewrite rmatch_seq, rmatch_lit, rmatch_seq.
    rewrite star_run; [by apply apart_misses|done|by apply stops_app|].
    destruct v as [|x v]; [done|]. by apply (refuses_lit is_space x v).
Qed.

Fixpoint extra_caps (n : nat) (vxs : list (jsstr * jsnum)) : list (nat * jsstr) :=
  match vxs with
  | [] => []
  | vx :: r => extra_caps (S n) r ++ (if num_eqb vx.2 (num 0) then [] else [(n, show vx.2)])
  end.

Fixpoint names_ok (vs : list jsstr) : Prop :=
  match vs with
  | [] => True
  | v :: vs' => name_ok v /\ Forall (fun w => apart v w = true) vs' /\ names_ok vs'
  end.

Definition extra_ok (x : jsnum) : Prop := x = num 0 \/ num_truthy x = true /\ prints num_unit x.

Lemma extra_ok_prints x : extra_ok x -> num_eqb x (num 0) = false -> prints num_unit x.
Proof. intros [-> | [_ H]]; [by intros [=]|done]. Qed.

Lemma extra_text_later v vxs u :
  Forall (fun w => apart v w = true) vxs.*1 -> names_ok vxs.*1 -> closes u ->
  later v (concat (extra_text <$> vxs) ++ u).
Proof.
  induction vxs as [|[w x] vxs IH]; [by left|]. rewrite fmap_cons. intros [Ha Hs]%Forall_cons (Hw & _ & Hn) Hu.
  rewrite fmap_cons. cbn [concat]. unfold extra_text at 1. cbn [fst snd] in *.
  destruct (num_eqb x (num 0)); [by apply IH|]. right. exists w. unfold product. eexists. split; [done|]. split; [done|].
  by rewrite <- !(assoc_L (++)).
Qed.

Lemma extra_text_stops vxs u : closes u -> stops num_unit (concat (extra_text <$> vxs) ++ u).
Proof.
  intros Hu. induction vxs as [|[w x] vxs IH]; [by destruct Hu as [u' ->]|].
  rewrite fmap_cons. cbn [concat]. unfold extra_text at 1. cbn [fst snd].
  by destruct (num_eqb x (num 0)).
Qed.

Lemma takes_costs vxs : forall n,
  names_ok vxs.*1 -> Forall extra_ok vxs.*2 ->
  takes (opt_costs vxs.*1 n) (concat (extra_text <$> vxs)) (extra_caps n vxs) closes.
Proof.
  induction vxs as [|[v x] vxs IH]; intros n Hn Hx; [apply takes_empty|].
  rewrite !fmap_cons in *. cbn [fst snd] in *. destruct Hn as (Hv & Hvs & Hn). apply Forall_cons in Hx as [Hx Hxs].
  cbn [concat opt_costs extra_caps fst snd]. unfold extra_text at 1. cbn [fst snd].
  destruct (num_eqb x (num 0)) eqn:Ex.
  - eapply takes_seq; [by apply takes_opt_none, (misses_cost v n)|by apply IH|].
    intros u Hu. by apply extra_text_later.
  - eapply takes_seq; [|by apply IH|intros u Hu; by apply extra_text_stops].
    apply takes_alt_l, takes_cost; [apply Hv|apply Hv|by apply extra_ok_prints].
Qed.

Lemma extra_names_ok : names_ok extra_vars.
Proof.
  change extra_vars with [js "cr"; js "cc"; js "cc1h"; js "img"; js "img_o"; js "ai"; js "ao"]. cbn [names_ok].
  repeat (split; [by split|split; [by_decision|]]). exact I.
Qed.

Lemma s_costs_1 p : spec_ok p -> (s_costs p).*1 = extra_vars.
Proof. intros (_ & _ & _ & _ & _ & Hl & _). apply fst_zip. rewrite Hl. vm_compute. lia. Qed.
Lemma s_costs_2 p : spec_ok p -> (s_costs p).*2 = s_extras p.
Proof. intros (_ & _ & _ & _ & _ & Hl & _). apply snd_zip. rewrite Hl. vm_compute. lia. Qed.

(** *** The call *)

Definition body_caps (n : nat) (p : TierSpec) : list (nat * jsstr) :=
  extra_caps (S (S n)) (s_costs p) ++ [(S n, show (s_output p)); (n, show (s_input p))].

Lemma takes_product v n x rest y ds (Q : jsstr -> Prop) :
  name_ok v -> prints num_unit x -> takes rest y ds Q -> (forall u, Q u -> stops num_unit (y ++ u)) ->
  takes (lit v >> spaces >> txt "*" >> spaces >> Group n nums >> rest)
    (product show v x ++ y) (ds ++ [(n, show x)]) Q.
Proof.
  intros Hv Hx Hr HQ. unfold product. rewrite <- !(assoc_L (++)).
  change (js " * " ++ show x ++ y) with (js " " ++ js "*" ++ js " " ++ show x ++ y).
  do 3 take. eapply takes_seq0; [apply takes_space| |].
  - eapply takes_seq; [by apply takes_nums|exact Hr|exact HQ].
  - intros u _. rewrite <- (assoc_L (++)). by apply nums_no_space.
Qed.

Lemma takes_body n p : spec_ok p -> takes (bodyPat n) (body_str p) (body_caps n p) closes.
Proof.
  intros H. pose proof H as (_ & _ & _ & [_ Hi] & [_ Ho] & _ & Hx).
  unfold bodyPat, body_str, body_caps.
  change ([(S n, show (s_output p)); (n, show (s_input p))])
    with ([(S n, show (s_output p))] ++ [(n, show (s_input p))]).
  rewrite (assoc_L (++) (extra_caps _ _)). apply takes_product; [by split|done| |by intros].
  change (js " + " ++ product show (js "c") (s_output p) ++ concat (extra_text <$> s_costs p))
    with (js " " ++ js "+" ++ js " " ++ product show (js "c") (s_output p) ++ concat (extra_text <$> s_costs p)).
  do 3 take. apply takes_product; [by split|done| |intros u Hu; by apply extra_text_stops].
  fold extra_vars. rewrite <- (s_costs_1 p H).
  apply takes_costs; rewrite ?s_costs_1, ?s_costs_2 by done; [apply extra_names_ok|exact Hx].
Qed.

Definition call_caps (n : nat) (p : TierSpec) : list (nat * jsstr) := body_caps (S n) p ++ [(n, s_label p)].

Lemma takes_call n p : spec_ok p -> takes (tier_pat n) (call_str p) (call_caps n p) anything.
Proof.
  intros H. pose proof H as (_ & Hq & _). unfold tier_pat, call_str, call_caps.
  change (js "tier(" ++ quo ++ s_label p ++ quo ++ js ", " ++ body_str p ++ js ")")
    with ((js "tier(" ++ quo) ++ s_label p ++ (quo ++ js ",") ++ js " " ++ body_str p ++ js ")").
  take. eapply takes_seq; [by apply takes_group, takes_run| |by intros].
  do 2 take. rewrite <- (app_nil_l (body_caps (S n) p)).
  eapply takes_seq; [by apply takes_body|apply takes_lit|]. intros u _. by eexists.
Qed.

(** *** The conditions *)

Lemma cond_unit_not_space c : cond_unit c = true -> is_space c = false.
Proof. intros H. apply num_unit_not_space. unfold num_unit. fold (cond_unit c). by rewrite H. Qed.

Lemma space_not_cond c : is_space c = true -> cond_unit c = false.
Proof. intros H. destruct (cond_unit c) eqn:E; [|done]. by rewrite (cond_unit_not_space c E) in H. Qed.

Lemma cond_no_space x u : prints cond_unit x -> stops is_space (show x ++ u).
Proof.
  intros (Hne & Hf & _). apply stops_app; [done|]. exact (run_stops _ _ _ cond_unit_not_space Hne Hf).
Qed.

Lemma takes_var v : v ∈ tier_vars -> takes (one_of tier_vars) v [] anything.
Proof.
  unfold tier_vars. intros H. repeat (apply elem_of_cons in H as [-> | H]); [..|by apply not_elem_of_nil in H].
  - apply takes_alt_l, takes_lit.
  - apply takes_alt_r; [done|]. apply takes_alt_l, takes_lit.
  - apply takes_alt_r; [done|]. apply takes_alt_r; [done|]. apply takes_lit.
Qed.

(** An operator: the shorter sign is tried first and given up when the sign goes on. *)
Lemma takes_op op K y ds (Q : jsstr -> Prop) :
  op ∈ tier_ops -> misses K (fun u => exists t, u = 61 :: t) -> takes K y ds Q ->
  takes (one_of tier_ops >> K) (op ++ y) ds Q.
Proof.
  unfold tier_ops. intros H HK Hy k b u c r Hu Hk.
  assert (Hlt : forall t, rm K k (mkPos (60 :: b) (61 :: t) c) = None) by (intros; apply HK; eauto).
  assert (Hgt : forall t, rm K k (mkPos (62 :: b) (61 :: t) c) = None) by (intros; apply HK; eauto).
  assert (Ho : rm K k (mkPos (reverse op ++ b) (y ++ u) c) = Some r).
  { apply Hy; [done|]. by rewrite reverse_app, <- (assoc_L (++)) in Hk. }
  rewrite <- (assoc_L (++)). rewrite rmatch_seq.
  change (one_of _) with (lit [60] |: lit [60; 61] |: lit [62] |: lit [62; 61]).
  change (op ∈ [[60]; [60; 61]; [62]; [62; 61]]) in H.
  repeat (apply elem_of_cons in H as [-> | H]); [..|by apply not_elem_of_nil in H]; cbn in Ho |- *;
    rewrite ?Hlt, ?Hgt; cbn; by rewrite Ho.
Qed.

Lemma op_name op : op ∈ tier_ops -> name_ok op.
Proof.
  unfold tier_ops. intros H.
  by repeat (apply elem_of_cons in H as [-> | H]); [..|by apply not_elem_of_nil in H].
Qed.

Lemma misses_operand (w : regex) :
  (forall k, refuses is_space (rm w k)) -> (forall k b t c, rm w k (mkPos b (61 :: t) c) = None) ->
  misses (spaces >> w) (fun u => exists t, u = 61 :: t).
Proof.
  intros Hw H k b u c [t ->]. unfold spaces, cls. rewrite rmatch_seq. change (61 :: t) with ([] ++ 61 :: t).
  rewrite star_run; [apply H|done|done|apply Hw].
Qed.

Lemma refuses_operand k : refuses is_space (rm (plus (cls cond_unit)) k).
Proof. intros b c s cs Hc. unfold plus, cls. rewrite rmatch_seq, rmatch_unit. by rewrite (space_not_cond c Hc). Qed.

Lemma takes_comparison c :
  condition_ok c -> takes comparison (condition_str c) [] (stops cond_unit).
Proof.
  intros (Hv & Ho & Hn). unfold comparison, condition_str.
  eapply takes_seq0; [by apply takes_var| |by intros]. eapply takes_seq0; [apply takes_space| |].
  - apply takes_op; [done|apply misses_operand; [apply refuses_operand|done]|].
    eapply takes_seq0; [apply takes_space|destruct Hn as (? & ? & _); by apply takes_plus|].
    intros u _. by apply cond_no_space.
  - intros u _. rewrite <- (assoc_L (++)). apply stops_app; by apply op_name.
Qed.

(** A further condition *)
Definition and_regex : regex := spaces >> txt "&&" >> spaces >> comparison.

Lemma takes_and c : condition_ok c -> takes and_regex (js " && " ++ condition_str c) [] (stops cond_unit).
Proof.
  intros Hc. change (js " && " ++ condition_str c) with (js " " ++ js "&&" ++ js " " ++ condition_str c).
  do 2 take. eapply takes_seq0; [apply takes_space|by apply takes_comparison|].
  intros u _. destruct (condition_str_head c Hc) as (x & t & -> & [-> | [-> | ->]]); done.
Qed.

Lemma and_misses k b t c : rm and_regex k (mkPos b (js " ? " ++ t) c) = None.
Proof.
  unfold and_regex, spaces, cls. rewrite rmatch_seq. change (js " ? " ++ t) with (js " " ++ js "? " ++ t).
  rewrite star_run; [|done|done|by apply (refuses_lit is_space 38 [38])]. done.
Qed.

Lemma takes_conditions p :
  spec_ok p -> s_conditions p <> [] ->
  takes condGroup (conditions_str p) [(1%nat, conditions_str p)] (fun u => exists t, u = js " ? " ++ t).
Proof.
  intros (_ & _ & Hc & _) Hne. apply takes_group. destruct (s_conditions p) as [|c cs] eqn:E; [done|].
  rewrite (conditions_str_cons p c cs E). apply Forall_cons in Hc as [Hc Hcs].
  eapply takes_weaken; [eapply takes_seq0; [by apply takes_comparison| |]|].
  - apply (takes_star and_regex _ (stops cond_unit)). rewrite <- list_fmap_compose. apply Forall_fmap.
    eapply Forall_impl; [exact Hcs|]. intros d Hd. split; [done|]. split; [by apply takes_and|done].
  - intros u [Hu _]. destruct cs; [exact Hu|done].
  - intros u [t ->]. split; [done|]. intros k b c'. apply and_misses.
Qed.

(** The conditions in front of a tier, or nothing in front of its call. *)
Definition prefix_str (p : TierSpec) : jsstr :=
  match s_conditions p with [] => [] | _ => conditions_str p ++ js " ? " end.
Definition prefix_caps (p : TierSpec) : list (nat * jsstr) :=
  match s_conditions p with [] => [] | _ => [(1%nat, conditions_str p)] end.

Lemma takes_prefix p :
  spec_ok p ->
  takes (opt (condGroup >> spaces >> txt "?" >> spaces)) (prefix_str p) (prefix_caps p)
    (fun u => exists t, u = 116 :: t).
Proof.
  intros H. unfold prefix_str, prefix_caps. destruct (s_conditions p) as [|c cs] eqn:E.
  - apply takes_opt_none. by intros k b u c' [t ->].
  - apply takes_alt_l. change (js " ? ") with (js " " ++ js "?" ++ js " ").
    rewrite <- (app_nil_l [(1%nat, conditions_str p)]).
    eapply takes_seq; [apply takes_conditions; [done|by rewrite E]| |].
    + do 2 take. apply (takes_weaken _ _ _ _ _ takes_space). by intros u [t ->].
    + intros u _. eexists. by rewrite <- !(assoc_L (++)).
Qed.

Definition tier_caps (p : TierSpec) : list (nat * jsstr) := call_caps 2 p ++ prefix_caps p.

Lemma takes_tier p : spec_ok p -> takes visual_tierRe (tier_str p) (tier_caps p) anything.
Proof. intros H. eapply takes_seq; [by apply takes_prefix|by apply takes_call|]. intros u _. by eexists. Qed.

(** *** Splitting and reading the conditions *)

(** A text without an ampersand that ends with a unit other than a space. *)
Fixpoint solid (z : jsstr) : Prop :=
  match z with
  | [] => False
  | [c] => is_space c = false /\ c <> 38
  | c :: z' => c <> 38 /\ solid z'
  end.

Lemma solid_split z : solid z ->
  exists w d z', z = w ++ d :: z' /\ forallb is_space w = true /\ is_space d = false /\ d <> 38.
Proof.
  induction z as [|c z IH]; [done|]. intros H. destruct (is_space c) eqn:Ec.
  - destruct z as [|d z]; [by destruct H; congruence|]. destruct H as [_ H].
    destruct (IH H) as (w & e & z' & -> & Hw & He). exists (c :: w), e, z'. cbn [forallb]. by rewrite Ec.
  - exists [], c, z. split; [done|]. split; [done|]. split; [done|]. destruct z; apply H.
Qed.

Lemma and_sep_misses z k b u c : solid z -> rm and_sep k (mkPos b (z ++ u) c) = None.
Proof.
  intros (w & d & z' & -> & Hw & Hd & Hne)%solid_split. rewrite <- (assoc_L (++)).
  unfold and_sep, spaces, cls. rewrite rmatch_seq.
  rewrite star_run; [|done|done|by apply (refuses_lit is_space 38 [38])]. rewrite rmatch_seq.
  apply rmatch_lit_fail. change (starts_with [38; 38] (d :: z' ++ u) = false). cbn [starts_with].
  by rewrite (proj2 (N.eqb_neq _ _)).
Qed.

Lemma takes_and_sep : takes and_sep (js " && ") [] (stops is_space).
Proof. change (js " && ") with (js " " ++ js "&&" ++ js " "). do 2 take. apply takes_space. Qed.

Lemma search_and_sep z y : forall b n, z = [] \/ solid z -> stops is_space y ->
  exists b' cs, search false and_sep b (z ++ js " && " ++ y) n = Some (n + length z, mkPos b' y cs)%nat.
Proof.
  induction z as [|c z IH]; intros b n Hz Hy.
  - eexists _, _. rewrite Nat.add_0_r. by apply (search_takes _ _ _ _ _ _ _ takes_and_sep).
  - destruct Hz as [|Hz]; [done|]. cbn [app]. rewrite search_skip.
    + destruct (IH (c :: b) (S n)) as (b' & cs & E); [by destruct z; [left|right; apply Hz]|done|].
      exists b', cs. rewrite E. f_equal. f_equal. cbn [length]. lia.
    + intros k c'. exact (and_sep_misses (c :: z) k b _ c' Hz).
Qed.

Lemma search_and_none z : forall b n, z = [] \/ solid z -> search false and_sep b z n = None.
Proof.
  induction z as [|c z IH]; intros b n Hz; [done|]. destruct Hz as [|Hz]; [done|]. rewrite search_skip.
  - apply IH. by destruct z; [left|right; apply Hz].
  - intros k c'. pose proof (and_sep_misses (c :: z) k b [] c' Hz) as H. by rewrite app_nil_r in H.
Qed.

Lemma split_and x xs : forall fuel b,
  Forall (fun x => solid x /\ stops is_space x) (x :: xs) -> (length xs < fuel)%nat ->
  split_re_go false fuel and_sep b (x ++ concat (app (js " && ") <$> xs)) = x :: xs.
Proof.
  revert x. induction xs as [|y xs IH]; intros x fuel b [[Hx _] Hxs]%Forall_cons Hf;
    (destruct fuel as [|fuel]; [cbn in Hf; lia|]); cbn [split_re_go].
  - cbn [concat fmap list_fmap]. rewrite app_nil_r. by rewrite search_and_none by (by right).
  - rewrite fmap_cons. cbn [concat]. rewrite <- (assoc_L (++)).
    destruct (search_and_sep x (y ++ concat (app (js " && ") <$> xs)) b 0) as (b' & cs & E).
    + by right.
    + apply Forall_cons in Hxs as [[Hy Hs] _]. apply stops_app; [by intros ->|done].
    + rewrite E. cbn [after before Nat.add]. rewrite take_app_length. f_equal. apply IH; [done|cbn in Hf; lia].
Qed.

Lemma solid_app a z : (38 ∉ a) -> solid z -> solid (a ++ z).
Proof.
  intros Ha Hz. induction a as [|c a IH]; [done|]. cbn [app]. assert (solid (a ++ z)) by (apply IH; set_solver).
  destruct (a ++ z) eqn:E; [done|]. split; [set_solver|done].
Qed.

Lemma solid_run s : s <> [] -> forallb cond_unit s = true -> solid s.
Proof.
  induction s as [|c s IH]; [done|]. intros _ [Hc Hs]%andb_true_iff.
  assert (c <> 38) by (intros ->; discriminate Hc).
  destruct s as [|d s]; [split; [by apply cond_unit_not_space|done]|]. split; [done|]. by apply IH.
Qed.

Lemma condition_str_solid c : condition_ok c -> solid (condition_str c) /\ stops is_space (condition_str c).
Proof.
  intros Hc. split.
  - destruct Hc as (Hv & Ho & Hne & Hf & _). unfold condition_str. rewrite !(assoc_L (++)).
    apply solid_app; [|by apply solid_run]. clear -Hv Ho.
    unfold tier_vars, tier_ops in *.
    repeat (apply elem_of_cons in Hv as [-> | Hv]); try (by apply not_elem_of_nil in Hv);
      repeat (apply elem_of_cons in Ho as [-> | Ho]); try (by apply not_elem_of_nil in Ho);
      by_decision.
  - destruct (condition_str_head c Hc) as (x & t & -> & [-> | [-> | ->]]); done.
Qed.

Lemma solid_reverse z : solid z -> exists c t, reverse z = c :: t /\ is_space c = false.
Proof.
  induction z as [|c z IH]; [done|]. intros H. rewrite reverse_cons. destruct z as [|d z].
  - exists c, []. split; [done|apply H].
  - destruct (IH (proj2 H)) as (e & t & -> & He). by eexists _, _.
Qed.

Lemma condition_str_trim c : condition_ok c -> trim (condition_str c) = condition_str c.
Proof.
  intros Hc. destruct (condition_str_solid c Hc) as [Hs Hl]. apply trimmed_trim. split.
  - by destruct (condition_str c).
  - by destruct (solid_reverse _ Hs) as (e & t & -> & He).
Qed.

Lemma takes_op_group n op K y ds (Q : jsstr -> Prop) :
  op ∈ tier_ops -> misses K (fun u => exists t, u = 61 :: t) -> takes K y ds Q ->
  takes (Group n (one_of tier_ops) >> K) (op ++ y) (ds ++ [(n, op)]) Q.
Proof.
  unfold tier_ops. intros H HK Hy k b u c r Hu Hk. rewrite <- (assoc_L (++)) in Hk. cbn [app] in Hk.
  assert (Hlt : forall t z, rm K k (mkPos (60 :: b) (61 :: t) z) = None) by (intros; apply HK; eauto).
  assert (Hgt : forall t z, rm K k (mkPos (62 :: b) (61 :: t) z) = None) by (intros; apply HK; eauto).
  assert (Ho : rm K k (mkPos (reverse op ++ b) (y ++ u) ((n, op) :: c)) = Some r).
  { apply Hy; [done|]. by rewrite reverse_app, <- (assoc_L (++)) in Hk. }
  rewrite <- (assoc_L (++)), rmatch_seq.
  change (one_of _) with (lit [60] |: lit [60; 61] |: lit [62] |: lit [62; 61]).
  change (op ∈ [[60]; [60; 61]; [62]; [62; 61]]) in H. rewrite !group_alt.
  repeat (apply elem_of_cons in H as [-> | H]); [..|by apply not_elem_of_nil in H].
  - by rewrite group_lit, Ho.
  - change ([60; 61] ++ y ++ u) with ([60] ++ 61 :: y ++ u) at 1. rewrite group_lit, Hlt.
    by rewrite group_lit, Ho.
  - rewrite !(group_lit_fail n [60]), !(group_lit_fail n [60; 61]) by done. by rewrite group_lit, Ho.
  - rewrite !(group_lit_fail n [60]), !(group_lit_fail n [60; 61]) by done.
    change ([62; 61] ++ y ++ u) with ([62] ++ 61 :: y ++ u) at 1. rewrite group_lit, Hgt.
    by rewrite group_lit, Ho.
Qed.

Lemma refuses_operand_group n k : refuses is_space (rm (Group n (plus (cls cond_unit)) >> End) k).
Proof.
  intros b c s cs Hc. rewrite rmatch_seq, rmatch_group. by apply refuses_operand.
Qed.

Lemma takes_end : takes End [] [] (fun u => u = []).
Proof. by intros k b u c r -> Hk. Qed.

Lemma takes_comparison_parts c :
  condition_ok c ->
  takes (Group 1 (one_of tier_vars) >> spaces >> Group 2 (one_of tier_ops) >> spaces
         >> Group 3 (plus (cls cond_unit)) >> End) (condition_str c)
    [(3%nat, show c.2); (2%nat, c.1.2); (1%nat, c.1.1)] (fun u => u = []).
Proof.
  intros (Hv & Ho & Hn). unfold condition_str.
  change [(3%nat, show c.2); (2%nat, c.1.2); (1%nat, c.1.1)]
    with (([(3%nat, show c.2)] ++ [(2%nat, c.1.2)]) ++ [(1%nat, c.1.1)]).
  eapply takes_seq; [by apply takes_group, takes_var| |by intros]. eapply takes_seq0; [apply takes_space| |].
  - apply takes_op_group; [done|apply misses_operand; [apply refuses_operand_group|done]|].
    eapply takes_seq0; [apply takes_space| |].
    + rewrite <- (app_nil_r (show c.2)) at 1. change [(3%nat, show c.2)] with ([] ++ [(3%nat, show c.2)]).
      eapply takes_seq; [destruct Hn as (? & ? & _); by apply takes_group, takes_plus|apply takes_end|].
      by intros u ->.
    + intros u _. by apply cond_no_space.
  - intros u _. rewrite <- (assoc_L (++)). apply stops_app; by apply op_name.
Qed.

Lemma exec_takes r x cs (P : jsstr -> Prop) :
  takes r x cs P -> P [] ->
  exec false (Start >> r) x = Some (fun n => capture n ((0%nat, x) :: cs)).
Proof.
  intros Hr HP. rewrite exec_anchored. unfold run_anchored.
  match goal with |- _ <$> rm _ ?k _ = _ =>
    pose proof (Hr k [] [] [] (mkPos (reverse x ++ []) [] ((0%nat, x) :: cs)) HP) as E end.
  rewrite !app_nil_r in E. rewrite E; [done|]. cbn [before after caps length].
  by rewrite Nat.sub_0_r, firstn_all.
Qed.

Lemma parse_condition_str c :
  condition_ok c ->
  match exec false comparison_parts (trim (condition_str c)) with
  | Some cm => Some (condition_object (cap cm 1) (cap cm 2) (to_number (cap cm 3)))
  | None => None
  end = Some (condition_object c.1.1 c.1.2 c.2).
Proof.
  intros Hc. rewrite condition_str_trim by done.
  unfold comparison_parts. erewrite (exec_takes _ _ _ _ (takes_comparison_parts c Hc)) by done.
  change (Some (condition_object c.1.1 c.1.2 (to_number (show c.2))) = Some (condition_object c.1.1 c.1.2 c.2)).
  by destruct Hc as (_ & _ & _ & _ & ->).
Qed.

Lemma parse_conditions_str p :
  spec_ok p -> parse_conditions (conditions_str p) = s_objects p.
Proof.
  intros H. unfold parse_conditions. rewrite conditions_truthy by done. unfold s_objects.
  destruct H as (_ & _ & Hc & _). destruct (s_conditions p) as [|c cs] eqn:E; [done|].
  rewrite bool_decide_true by done. rewrite (conditions_str_cons p c cs E). cbn [negb].
  unfold split_re. rewrite split_and.
  - rewrite <- fmap_cons. clear E. induction Hc as [|d ds Hd Hds IH]; [done|].
    rewrite !fmap_cons. cbn [omap list_omap]. rewrite (parse_condition_str d Hd). f_equal. exact IH.
  - rewrite <- fmap_cons. apply Forall_fmap. eapply Forall_impl; [exact Hc|]. intros d. apply condition_str_solid.
  - rewrite length_fmap, length_app.
    assert (length cs <= length (concat (app (js " && ") <$> (condition_str <$> cs))))%nat; [|lia].
    clear. induction cs as [|d ds IH]; [done|]. rewrite !fmap_cons. cbn [concat]. rewrite !length_app.
    change (length (js " && ")) with 4%nat. cbn [length]. lia.
Qed.

(** ** From a match to the tier *)

Lemma capture_extra_lt i n vxs rest :
  (i < n)%nat -> capture i (extra_caps n vxs ++ rest) = capture i rest.
Proof.
  revert n rest. induction vxs as [|[v x] vxs IH]; intros n rest Hi; [done|]. cbn [extra_caps fst snd].
  rewrite <- (assoc_L (++)), IH by lia. destruct (num_eqb x (num 0)); [done|]. cbn [app capture].
  by rewrite (proj2 (Nat.eqb_neq i n)) by lia.
Qed.

(** The properties of the extra costs that are present. *)
Definition cost_fields (cvs : list (jsstr * jsstr)) (xs : list jsnum) : list (jsstr * jsval) :=
  omap (fun cx => if num_eqb cx.2 (num 0) then None else Some (cx.1.1, JNumber cx.2)) (zip cvs xs).

Lemma captured_costs_of cvs : forall xs n rest m,
  length xs = length cvs -> Forall extra_ok xs ->
  (forall i, (n <= i)%nat -> m i = capture i (extra_caps n (zip (snd <$> cvs) xs) ++ rest)) ->
  (forall i, (n <= i)%nat -> capture i rest = None) ->
  captured_costs m cvs n = cost_fields cvs xs.
Proof.
  induction cvs as [|cv cvs IH]; intros [|x xs] n rest m Hl Hx Hm Hr; try done.
  injection Hl as Hl. apply Forall_cons in Hx as [Hx Hxs].
  cbn [captured_costs]. rewrite Hm by done. rewrite fmap_cons. cbn [zip zip_with extra_caps fst snd].
  rewrite <- (assoc_L (++)), capture_extra_lt by lia. unfold cost_fields. cbn [zip zip_with omap list_omap fst snd].
  rewrite fmap_cons in Hm. cbn [zip zip_with extra_caps fst snd] in Hm.
  destruct (num_eqb x (num 0)) eqn:E.
  - cbn [app]. rewrite Hr by done. apply (IH xs (S n) rest m Hl Hxs).
    + intros i Hi. rewrite Hm by lia. by rewrite <- (assoc_L (++)).
    + intros i Hi. apply Hr. lia.
  - cbn [app capture]. rewrite Nat.eqb_refl. destruct (extra_ok_prints x Hx E) as (_ & _ & ->). cbn [app]. f_equal.
    apply (IH xs (S n) ((n, show x) :: rest) m Hl Hxs).
    + intros i Hi. rewrite Hm by lia. by rewrite <- (assoc_L (++)).
    + intros i Hi. cbn [capture]. rewrite (proj2 (Nat.eqb_neq i n)) by lia. apply Hr. lia.
Qed.

(** The object a match of the text of [p] gives. *)
Definition read_tier (p : TierSpec) : VisualTier :=
  object ([ (js "conditions", JArray (s_objects p)); (js "input_unit_cost", JNumber (s_input p));
            (js "output_unit_cost", JNumber (s_output p)); (js "label", JString (s_label p)) ]
          ++ cost_fields BILLING_CACHE_VAR_MAP (s_extras p)).

Lemma matched_tier_read p n x rest :
  spec_ok p -> (forall i, (n <= i)%nat -> capture i rest = None) -> (0 < n)%nat ->
  matched_tier (s_objects p) (fun i => capture i ((0%nat, x) :: call_caps n p ++ rest)) n = read_tier p.
Proof.
  intros H Hr Hn. pose proof H as (_ & _ & _ & [_ Hi] & [_ Ho] & Hl & Hx).
  unfold matched_tier, read_tier, call_caps, body_caps. rewrite <- !(assoc_L (++)).
  assert (E : forall i, (0 < i)%nat -> capture i ((0%nat, x) :: extra_caps (S (S (S n))) (s_costs p)
      ++ [(S (S n), show (s_output p)); (S n, show (s_input p))] ++ [(n, s_label p)] ++ rest)
    = capture i (extra_caps (S (S (S n))) (s_costs p)
      ++ [(S (S n), show (s_output p)); (S n, show (s_input p))] ++ [(n, s_label p)] ++ rest)).
  { intros [|i] Hi'; [lia|done]. }
  rewrite (captured_costs_of _ (s_extras p) _ ([(S (S n), show (s_output p)); (S n, show (s_input p))]
             ++ [(n, s_label p)] ++ rest)); [|done|exact Hx| |].
  - unfold cap. rewrite !E by lia. rewrite !capture_extra_lt by lia. cbn [app capture].
    rewrite !Nat.eqb_refl, !(proj2 (Nat.eqb_neq _ _)) by lia. cbn [default].
    destruct Hi as (_ & _ & Hi), Ho as (_ & _ & Ho). unfold default.
    change (@id jsstr ?a) with a. by rewrite Hi, Ho.
  - intros i Hi'. by rewrite E by lia.
  - intros i Hi'. cbn [app capture]. rewrite !(proj2 (Nat.eqb_neq _ _)) by lia. apply Hr. lia.
Qed.

Lemma cost_fields_keys cvs xs : (cost_fields cvs xs).*1 `sublist_of` cvs.*1.
Proof.
  unfold cost_fields. revert xs. induction cvs as [|cv cvs IH]; intros [|x xs]; [done|done|apply sublist_nil_l|].
  cbn [zip zip_with omap list_omap fst snd]. destruct (num_eqb x (num 0)); rewrite !fmap_cons.
  - apply sublist_cons, IH.
  - cbn [fmap list_fmap fst]. apply sublist_skip, IH.
Qed.

Lemma cost_fields_elem cvs xs k x :
  (k, JNumber x) ∈ cost_fields cvs xs <->
  exists cv, (cv, x) ∈ zip cvs xs /\ cv.1 = k /\ num_eqb x (num 0) = false.
Proof.
  unfold cost_fields. rewrite list_elem_of_omap. split.
  - intros ([cv y] & Hin & H). cbn [fst snd] in H. destruct (num_eqb y (num 0)) eqn:E; [done|].
    injection H as <- <-. eauto.
  - intros (cv & Hin & <- & E). exists (cv, x). cbn [fst snd]. by rewrite E.
Qed.

Definition read_keys : list jsstr :=
  [js "conditions"; js "input_unit_cost"; js "output_unit_cost"; js "label"].

Lemma read_tier_keys p :
  NoDup ([ (js "conditions", JArray (s_objects p)); (js "input_unit_cost", JNumber (s_input p));
           (js "output_unit_cost", JNumber (s_output p)); (js "label", JString (s_label p)) ]
         ++ cost_fields BILLING_CACHE_VAR_MAP (s_extras p)).*1.
Proof.
  rewrite fmap_app. apply (sublist_NoDup _ (read_keys ++ BILLING_CACHE_VAR_MAP.*1)).
  - refine (bool_decide_unpack _ _). vm_compute. exact I.
  - apply sublist_app; [done|apply cost_fields_keys].
Qed.

Lemma read_tier_base p k v :
  (k, v) ∈ [ (js "conditions", JArray (s_objects p)); (js "input_unit_cost", JNumber (s_input p));
             (js "output_unit_cost", JNumber (s_output p)); (js "label", JString (s_label p)) ] ->
  read_tier p !! k = Some v.
Proof. intros H. apply object_lookup_Some; [apply read_tier_keys|]. apply elem_of_app. by left. Qed.

Lemma read_tier_None p k :
  k ∉ read_keys -> k ∉ extra_costs -> read_tier p !! k = None.
Proof.
  intros Hk Hx. apply object_lookup_None. rewrite fmap_app. intros [H|H]%elem_of_app; [by apply Hk|].
  apply Hx. change extra_costs with (BILLING_CACHE_VAR_MAP.*1).
  exact (elem_of_sublist _ _ _ H (cost_fields_keys _ _)).
Qed.

Lemma cache_fields_NoDup : NoDup BILLING_CACHE_VAR_MAP.*1.
Proof. refine (bool_decide_unpack _ _). vm_compute. exact I. Qed.

Lemma cost_key_other k : k ∈ extra_costs -> (k ∉ read_keys) /\ (k ∉ default_keys).
Proof.
  intros H. assert (Hall : Forall (fun k => (k ∉ read_keys) /\ (k ∉ default_keys)) extra_costs).
  { refine (bool_decide_unpack _ _). vm_compute. exact I. }
  rewrite Forall_forall in Hall. by apply Hall.
Qed.

Lemma read_tier_extra p i cv x :
  BILLING_CACHE_VAR_MAP !! i = Some cv -> s_extras p !! i = Some x ->
  prop cv.1 (read_tier p) = if num_eqb x (num 0) then JUndefined else JNumber x.
Proof.
  intros Hcv Hx. unfold prop.
  assert (Hz : (cv, x) ∈ zip BILLING_CACHE_VAR_MAP (s_extras p)).
  { apply list_elem_of_lookup. exists i. by apply lookup_zip_Some. }
  assert (Hk : cv.1 ∈ extra_costs).
  { change extra_costs with (BILLING_CACHE_VAR_MAP.*1). apply list_elem_of_fmap_2, list_elem_of_lookup. eauto. }
  destruct (num_eqb x (num 0)) eqn:E.
  - unfold read_tier. rewrite object_lookup_None; [done|]. rewrite fmap_app.
    intros [H|H]%elem_of_app; [by apply (proj1 (cost_key_other _ Hk))|].
    apply list_elem_of_fmap in H as ([k v] & Hk' & H). cbn [fst] in Hk'. subst k.
    unfold cost_fields in H. apply list_elem_of_omap in H as ([cv' y] & H & Hv). cbn [fst snd] in Hv.
    destruct (num_eqb y (num 0)) eqn:Ey; [done|]. injection Hv as Hc _.
    apply list_elem_of_lookup in H as [j [Hj1 Hj2]%lookup_zip_Some]. cbn [fst snd] in Hj1, Hj2.
    assert (i = j) as <-; [|congruence].
    apply (NoDup_lookup _ i j cv.1 cache_fields_NoDup); rewrite list_lookup_fmap; [by rewrite Hcv|].
    rewrite Hj1. cbn. by rewrite Hc.
  - unfold read_tier. erewrite object_lookup_Some; [done|apply read_tier_keys|].
    apply elem_of_app. right. apply cost_fields_elem. eauto.
Qed.

Lemma read_tier_mode p : spec_ok p -> getTierCacheMode show (read_tier p) = s_mode p.
Proof.
  intros H. unfold getTierCacheMode, s_mode.
  assert (E : prop (js "cache_mode") (read_tier p) = JUndefined).
  { unfold prop. rewrite read_tier_None; [done|..]; by_decision. }
  rewrite E. cbn [is_literal]. destruct H as (_ & _ & _ & _ & _ & Hl & Hx).
  destruct (s_extras p !! 2%nat) as [x|] eqn:Ex; [|apply lookup_ge_None in Ex; rewrite Hl in Ex; vm_compute in Ex; lia].
  assert (Ec : prop (js "cache_create_1h_unit_cost") (read_tier p)
               = if num_eqb x (num 0) then JUndefined else JNumber x).
  { by apply (read_tier_extra p 2 (js "cache_create_1h_unit_cost", js "cc1h")). }
  rewrite Ec. cbn [default]. destruct (num_eqb x (num 0)) eqn:Ez; [|done].
  rewrite Forall_forall in Hx. destruct (Hx x) as [-> | [Ht _]]; [by apply list_elem_of_lookup; eauto|done|].
  by rewrite truthy_nonzero in Ez.
Qed.

Lemma normalize_read_tier p : spec_ok p -> normalizeVisualTier show (read_tier p) = tier_of p.
Proof.
  intros H. pose proof H as (_ & _ & _ & _ & _ & Hl & Hx). apply map_eq. intros k. unfold normalizeVisualTier.
  destruct (decide (k ∈ extra_costs)) as [Hk|Hk].
  - erewrite lookup_union_Some_l by (by apply tier_costs_lookup). symmetry.
    pose proof Hk as Hk'. change extra_costs with (BILLING_CACHE_VAR_MAP.*1) in Hk'.
    apply list_elem_of_fmap in Hk' as (cv & -> & [i Hcv]%list_elem_of_lookup).
    destruct (lookup_lt_is_Some_2 (s_extras p) i) as [x Hxi]; [rewrite Hl; by eapply lookup_lt_Some|].
    rewrite (read_tier_extra p i cv x Hcv Hxi). rewrite Forall_forall in Hx.
    assert (Ex : number_or_0 show (if num_eqb x (num 0) then JUndefined else JNumber x) = x).
    { destruct (Hx x) as [-> | [Ht Hp]]; [by apply list_elem_of_lookup; eauto|done|].
      destruct (num_eqb x (num 0)) eqn:E; [by rewrite truthy_nonzero in E|]. apply number_plain. by right. }
    rewrite Ex. apply tier_of_lookup; [done|]. apply elem_of_app. right. apply list_elem_of_lookup. exists i.
    apply lookup_zip_Some. change extra_costs with (BILLING_CACHE_VAR_MAP.*1).
    by rewrite !list_lookup_fmap, Hcv, Hxi.
  - rewrite lookup_union_r by (apply eq_None_not_Some; by rewrite tier_costs_keys).
    destruct (decide (k ∈ default_keys)) as [Hd|Hd].
    + unfold default_keys in Hd.
      assert (Hb : forall v, (k, v) ∈ base_fields p -> tier_of p !! k = Some v)
        by (intros v Hv; apply tier_of_lookup; [done|apply elem_of_app; by left]).
      repeat (apply elem_of_cons in Hd as [-> | Hd]); [..|by apply not_elem_of_nil in Hd].
      * rewrite (Hb (JString (s_label p))) by (unfold base_fields; set_solver).
        apply lookup_union_Some_l, read_tier_base. set_solver.
      * rewrite (Hb (JNumber (s_input p))) by (unfold base_fields; set_solver).
        apply lookup_union_Some_l, read_tier_base. set_solver.
      * rewrite (Hb (JNumber (s_output p))) by (unfold base_fields; set_solver).
        apply lookup_union_Some_l, read_tier_base. set_solver.
      * rewrite (Hb (JString (s_mode p))) by (unfold base_fields; set_solver).
        rewrite lookup_union_r by (apply read_tier_None; by_decision).
        rewrite <- (read_tier_mode p H). unfold tier_defaults. apply object_lookup_Some; [|set_solver].
        refine (bool_decide_unpack _ _). vm_compute. exact I.
      * rewrite (Hb (JArray (s_objects p))) by (unfold base_fields; set_solver).
        apply lookup_union_Some_l, read_tier_base. set_solver.
    + rewrite lookup_union_r by (apply read_tier_None; [|done]; unfold read_keys, default_keys in *; set_solver).
      rewrite tier_defaults_None by done. symmetry. apply object_lookup_None. rewrite fmap_app.
      intros [Hin|Hin]%elem_of_app; [by apply Hd|].
      apply list_elem_of_fmap in Hin as ([k' v] & -> & Hz%elem_of_zip_l). done.
Qed.

(** ** All the tiers of a text *)

Definition tier_of_match (m : nat * (nat -> option jsstr)) : VisualTier :=
  normalizeVisualTier show (matched_tier (parse_conditions (default [] (m.2 1%nat))) m.2 2).

Lemma tier_caps_conditions p x :
  default [] (capture 1 ((0%nat, x) :: tier_caps p))
  = match s_conditions p with [] => [] | _ => conditions_str p end.
Proof.
  cbn [capture Nat.eqb]. unfold tier_caps, call_caps, body_caps, prefix_caps.
  rewrite <- !(assoc_L (++)), capture_extra_lt by lia. by destruct (s_conditions p).
Qed.

Lemma tier_of_match_caps i p :
  spec_ok p -> tier_of_match (i, fun n => capture n ((0%nat, tier_str p) :: tier_caps p)) = tier_of p.
Proof.
  intros H. unfold tier_of_match. cbn [snd]. rewrite tier_caps_conditions.
  assert (E : parse_conditions (match s_conditions p with [] => [] | _ => conditions_str p end) = s_objects p).
  { pose proof (parse_conditions_str p H) as Hp. unfold conditions_str in *.
    by destruct (s_conditions p). }
  rewrite E. unfold tier_caps. rewrite matched_tier_read; [by apply normalize_read_tier|done| |lia].
  intros j Hj. unfold prefix_caps. destruct (s_conditions p); [done|]. cbn [capture]. by rewrite (proj2 (Nat.eqb_neq j 1)) by lia.
Qed.

(** An expression that takes the text of a tier and matches at no separator, and
    what is read from its matches. *)
Section EveryTier.
Context {A : Type} (R : regex) (caps_of : TierSpec -> list (nat * jsstr)).
Context (f : nat * (nat -> option jsstr) -> A) (g : TierSpec -> A).
Hypothesis R_takes : forall p, spec_ok p -> takes R (tier_str p) (caps_of p) anything.
Hypothesis R_misses : forall k b x s c, x = 32 \/ x = 58 -> rm R k (mkPos b (x :: s) c) = None.
Hypothesis f_match : forall i p, spec_ok p ->
  f (i, fun n => capture n ((0%nat, tier_str p) :: caps_of p)) = g p.

Lemma search_between p u b n :
  spec_ok p ->
  exists b', search false R b (js " : " ++ tier_str p ++ u) n
    = Some (S (S (S n)), mkPos b' u ((0%nat, tier_str p) :: caps_of p)).
Proof.
  intros H. change (js " : " ++ tier_str p ++ u) with (32 :: 58 :: 32 :: tier_str p ++ u).
  do 3 (rewrite search_skip by (intros; apply R_misses; tauto)).
  eexists. by apply (search_takes _ _ _ _ _ _ _ (R_takes p H)).
Qed.

Lemma exec_tiers tail ps : forall fuel b base,
  (forall b n, search false R b tail n = None) ->
  Forall spec_ok ps -> (length ps < fuel)%nat ->
  f <$> exec_all false fuel R b (concat (app (js " : ") <$> (tier_str <$> ps)) ++ tail) base = g <$> ps.
Proof.
  induction ps as [|p ps IH]; intros fuel b base Ht Hs Hf;
    (destruct fuel as [|fuel]; [cbn in Hf; lia|]); cbn [exec_all].
  - cbn [fmap list_fmap concat app]. by rewrite Ht.
  - apply Forall_cons in Hs as [Hp Hs]. rewrite !fmap_cons. cbn [concat]. rewrite <- !(assoc_L (++)).
    destruct (search_between p (concat (app (js " : ") <$> (tier_str <$> ps)) ++ tail) b 0 Hp) as [b' ->].
    cbn [caps after before]. rewrite fmap_cons, f_match by done. f_equal. apply IH; [done|done|cbn in Hf; lia].
Qed.

Lemma matchAll_tiers tail p ps :
  (forall b n, search false R b tail n = None) -> Forall spec_ok (p :: ps) ->
  f <$> matchAll false R (join (js " : ") (tier_str <$> (p :: ps)) ++ tail) = g <$> (p :: ps).
Proof.
  intros Ht [Hp Hs]%Forall_cons. rewrite fmap_cons, join_concat, <- (assoc_L (++)). unfold matchAll. cbn [exec_all].
  rewrite (search_takes _ _ _ _ _ _ _ (R_takes p Hp)) by exact I.
  cbn [caps after before]. rewrite !fmap_cons, f_match by done. f_equal. apply exec_tiers; [done|done|].
  rewrite !length_app. assert (0 < length (tier_str p))%nat.
  { unfold tier_str, call_str. rewrite !length_app. change (length (js "tier(")) with 5%nat. lia. }
  assert (length ps <= length (concat (app (js " : ") <$> (tier_str <$> ps))))%nat; [|lia].
  clear. induction ps as [|d ds IH]; [done|]. rewrite !fmap_cons. cbn [concat]. rewrite !length_app.
  change (length (js " : ")) with 3%nat. cbn [length]. lia.
Qed.
End EveryTier.

Lemma visual_misses k b x s c : x = 32 \/ x = 58 -> rm visual_tierRe k (mkPos b (x :: s) c) = None.
Proof. by intros [-> | ->]. Qed.

Lemma no_version x t : x <> 118 -> exec false version_prefix (x :: t) = None.
Proof.
  intros H. unfold version_prefix. rewrite exec_anchored. unfold run_anchored, txt. rewrite rmatch_seq.
  rewrite rmatch_lit_fail; [done|]. change (starts_with [118] (x :: t) = false). cbn [starts_with].
  by rewrite (proj2 (N.eqb_neq _ _)).
Qed.

Lemma no_single x t : x <> 116 -> exec false singleRe (x :: t) = None.
Proof.
  intros H. unfold singleRe, tier_pat. rewrite exec_anchored. unfold run_anchored. rewrite !rmatch_seq.
  rewrite rmatch_lit_fail; [done|]. change (starts_with [116; 105; 101; 114; 40; 34] (x :: t) = false).
  cbn [starts_with]. by rewrite (proj2 (N.eqb_neq _ _)).
Qed.

Lemma tier_str_head p :
  spec_ok p -> s_conditions p <> [] -> exists x t, tier_str p = x :: t /\ x <> 118 /\ x <> 116.
Proof.
  intros H Hne. rewrite tier_str_conditions by done. destruct H as (_ & _ & Hc & _).
  destruct (s_conditions p) as [|c cs] eqn:E; [done|]. apply Forall_cons in Hc as [Hc _].
  rewrite (conditions_str_cons p c cs E). destruct (condition_str_head c Hc) as (x & t & -> & Hx).
  eexists x, _. split; [reflexivity|]. lia.
Qed.

(** The branch of several tiers, on a text that starts with a condition. *)
Lemma parse_tiers tail p ps :
  (forall b n, search false visual_tierRe b tail n = None) -> Forall spec_ok (p :: ps) ->
  s_conditions p <> [] ->
  generateExprFromVisualConfig show (Some (tier_of <$> (p :: ps)))
  = join (js " : ") (tier_str <$> (p :: ps)) ++ tail ->
  tryParseVisualConfig show (join (js " : ") (tier_str <$> (p :: ps)) ++ tail) = Some (tier_of <$> (p :: ps)).
Proof.
  intros Ht Hs Hne Hg. pose proof (matchAll_tiers _ _ _ _ takes_tier visual_misses tier_of_match_caps tail p ps Ht Hs) as Hm.
  pose proof Hs as [Hp _]%Forall_cons. destruct (tier_str_head p Hp Hne) as (x & t & Ex & Hv & Hx).
  assert (Ej : exists t', join (js " : ") (tier_str <$> (p :: ps)) ++ tail = x :: t').
  { rewrite fmap_cons, join_concat, Ex. by eexists. }
  destruct Ej as [t' Ej]. unfold tryParseVisualConfig. rewrite Ej in *. cbn [truthy negb].
  rewrite no_version, no_single by done. fold tier_of_match.
  change (fun m : nat * (nat -> option jsstr) => normalizeVisualTier show
            (matched_tier (parse_conditions (default [] (m.2 1%nat))) m.2 2)) with tier_of_match.
  rewrite Hm. rewrite bool_decide_false by done. rewrite fmap_cons. cbn [normalizeVisualConfig].
  rewrite <- fmap_cons. rewrite <- list_fmap_compose.
  rewrite (list_fmap_ext _ tier_of); [by rewrite Hg, str_eqb_refl|].
  intros i q Hq. change (normalizeVisualTier show (tier_of q) = tier_of q).
  assert (Hq' : spec_ok q) by (rewrite Forall_forall in Hs; apply Hs, list_elem_of_lookup; eauto).
  rewrite <- (normalize_read_tier q Hq'). apply normalizeVisualTier_idem.
Qed.

Lemma takes_single p : spec_ok p -> takes (tier_pat 1 >> End) (call_str p) (call_caps 1 p) (fun u => u = []).
Proof.
  intros H. rewrite <- (app_nil_r (call_str p)), <- (app_nil_l (call_caps 1 p)).
  eapply takes_seq; [by apply takes_call|apply takes_end|]. by intros.
Qed.

Lemma parse_single p :
  spec_ok p -> s_conditions p = [] -> tryParseVisualConfig show (call_str p) = Some [tier_of p].
Proof.
  intros H Hc. unfold tryParseVisualConfig.
  assert (Ej : exists t', call_str p = 116 :: t') by (by eexists). destruct Ej as [t' Ej].
  rewrite Ej. cbn [truthy negb]. rewrite no_version by done. rewrite <- Ej. unfold singleRe.
  rewrite (exec_takes _ _ _ _ (takes_single p H) eq_refl). cbn [normalizeVisualConfig fmap list_fmap].
  assert (Em : matched_tier [] (fun n => capture n ((0%nat, call_str p) :: call_caps 1 p)) 1 = read_tier p).
  { pose proof (matched_tier_read p 1 (call_str p) [] H ltac:(done) ltac:(lia)) as E.
    rewrite app_nil_r in E. unfold s_objects in E. by rewrite Hc in E. }
  rewrite Em, normalizeVisualTier_idem. by rewrite normalize_read_tier.
Qed.

Lemma no_price_quiet b n : search false visual_tierRe b (js " : " ++ no_price) n = None.
Proof. vm_compute. reflexivity. Qed.

(** The two shapes of the text of a configuration. *)
Lemma generated_text ps :
  config_ok ps ->
  exists tail, generateExprFromVisualConfig show (Some (tier_of <$> ps))
    = join (js " : ") (tier_str <$> ps) ++ tail
  /\ (tail = [] \/ tail = js " : " ++ no_price).
Proof.
  intros H. destruct ps as [|p [|q ps]]; [by destruct H as [_ []]| |].
  - pose proof H as [[Hp _]%Forall_cons _]. rewrite (generated_one p H).
    destruct (s_conditions p) as [|c cs] eqn:E.
    + exists []. rewrite app_nil_r. split; [|by left]. cbn [fmap list_fmap join]. unfold tier_str. by rewrite E.
    + exists (js " : " ++ no_price). split; [done|by right].
  - exists []. rewrite app_nil_r. split; [by apply generated_many|by left].
Qed.

(** A configuration that is already in the written form is parsed to itself. *)
Lemma config_parsed ps :
  config_ok ps ->
  tryParseVisualConfig show (generateExprFromVisualConfig show (Some (tier_of <$> ps)))
  = Some (tier_of <$> ps).
Proof.
  intros H. destruct ps as [|p [|q ps]]; [by destruct H as [_ []]| |].
  - rewrite (generated_one p H). pose proof H as [Hs _]. pose proof Hs as [Hp _]%Forall_cons.
    pose proof (generated_one p H) as Hg. destruct (s_conditions p) as [|c cs] eqn:E; [by apply parse_single|].
    apply (parse_tiers (js " : " ++ no_price) p []); [apply no_price_quiet|done|by rewrite E|exact Hg].
  - pose proof (generated_many p q ps H) as Hg. rewrite Hg. destruct H as [Hs [Hne _]].
    rewrite <- (app_nil_r (join _ _)) in Hg |- *.
    apply (parse_tiers [] p (q :: ps)); [done|done|done|exact Hg].
Qed.

(** ** What the dialog lets the user build

    The dialog keeps a cache mode of its own, conditions that may be incomplete and
    labels that may be empty.  [editor_of] is the object of such a tier; [written]
    is what its expression says: blank labels are filled, incomplete conditions and
    those of the last of several tiers are left out, and the cache mode is the one
    of the one-hour price. *)

Record EditedTier := mkEdited {
  e_mode : jsstr;           (* the cache mode chosen *)
  e_objects : list jsval;   (* the condition rows, complete or not *)
  e_spec : TierSpec         (* the label, the complete conditions and the prices *) }.

Definition editor_of (e : EditedTier) : VisualTier :=
  <[js "conditions" := JArray (e_objects e)]> (<[js "cache_mode" := JString (e_mode e)]> (tier_of (e_spec e))).

Definition editable (p : TierSpec) : Prop :=
  forallb (not_unit 34) (s_label p) = true
  /\ Forall condition_ok (s_conditions p)
  /\ (plain_number (s_input p) /\ prints num_unit (s_input p))
  /\ (plain_number (s_output p) /\ prints num_unit (s_output p))
  /\ length (s_extras p) = length BILLING_CACHE_VAR_MAP
  /\ Forall (fun x => x = num 0 \/ num_truthy x = true /\ prints num_unit x) (s_extras p).

Definition edited_ok (e : EditedTier) : Prop :=
  editable (e_spec e) /\ filter (fun c => condition_set c = true) (e_objects e) = s_objects (e_spec e).

(** Every tier but the last has a condition. *)
Fixpoint guarded (ps : list TierSpec) : Prop :=
  match ps with
  | [] => False
  | [_] => True
  | p :: rest => s_conditions p <> [] /\ guarded rest
  end.

Definition relabelled (fallback : jsstr) (p : TierSpec) : TierSpec :=
  mkSpec (if truthy (s_label p) then s_label p else fallback) (s_conditions p) (s_input p) (s_output p) (s_extras p).
Definition unconditioned (p : TierSpec) : TierSpec :=
  mkSpec (s_label p) [] (s_input p) (s_output p) (s_extras p).

Fixpoint written_at (i : N) (ps : list TierSpec) : list TierSpec :=
  match ps with
  | [] => []
  | [p] => [unconditioned (relabelled (js "tier_" ++ show_dec (i + 1)) p)]
  | p :: rest => relabelled (js "tier_" ++ show_dec (i + 1)) p :: written_at (i + 1) rest
  end.
Definition written (ps : list TierSpec) : list TierSpec :=
  match ps with [p] => [relabelled (js "default") p] | _ => written_at 0 ps end.

Lemma relabelled_ok fallback p :
  editable p -> fallback <> [] -> forallb (not_unit 34) fallback = true -> spec_ok (relabelled fallback p).
Proof.
  intros (Hq & H) Hf Hfq. unfold spec_ok, relabelled. cbn [s_label s_conditions s_input s_output s_extras].
  destruct (truthy (s_label p)) eqn:E; [|done]. by apply truthy_true in E.
Qed.

Lemma unconditioned_ok p : spec_ok p -> spec_ok (unconditioned p).
Proof. unfold spec_ok, unconditioned. cbn. intros (? & ? & ? & ?). auto. Qed.

Lemma tier_label_ok i : forallb (not_unit 34) (js "tier_" ++ show_dec i) = true.
Proof.
  rewrite forallb_app. apply andb_true_intro. split; [done|]. pose proof (show_dec_all_digits i) as Hd.
  apply forallb_forall. intros x Hx%list_elem_of_In. pose proof (all_digits_elem_of _ _ Hd Hx) as Hr.
  unfold not_unit. apply negb_true_iff, N.eqb_neq. intros ->. done.
Qed.

Lemma numbered_ok i p : editable p -> spec_ok (relabelled (js "tier_" ++ show_dec i) p).
Proof. intros H. apply relabelled_ok; [done|done|apply tier_label_ok]. Qed.

Lemma written_at_ok ps : forall i,
  Forall editable ps -> guarded ps -> Forall spec_ok (written_at i ps) /\ chain_ok (written_at i ps).
Proof.
  induction ps as [|p [|q ps] IH]; intros i Hs Hg; [done| |]; apply Forall_cons in Hs as [Hp Hs].
  - split; [|done]. constructor; [|done]. by apply unconditioned_ok, numbered_ok.
  - destruct Hg as [Hne Hg]. destruct (IH (i + 1) Hs Hg) as [IH1 IH2].
    change (written_at i (p :: q :: ps)) with
      (relabelled (js "tier_" ++ show_dec (i + 1)) p :: written_at (i + 1) (q :: ps)).
    split; [constructor; [by apply numbered_ok|done]|].
    destruct (written_at (i + 1) (q :: ps)) as [|r rs] eqn:E; [by destruct ps|]. by split.
Qed.

Lemma written_ok ps : Forall editable ps -> guarded ps -> config_ok (written ps).
Proof.
  intros Hs Hg. destruct ps as [|p [|q ps]]; [done| |].
  - split; [|done]. apply Forall_cons in Hs as [Hp _]. constructor; [|done]. by apply relabelled_ok.
  - destruct (written_at_ok (p :: q :: ps) 0 Hs Hg) as [H1 H2]. split; [exact H1|].
    change (written (p :: q :: ps)) with (written_at 0 (p :: q :: ps)).
    destruct (written_at 0 (p :: q :: ps)) as [|x [|y l]] eqn:E; [done|done|exact H2].
Qed.

(** The text of a tier reads its prices, its label and its complete conditions. *)
Lemma tier_body_ext t t' :
  (forall k, k ∈ js "input_unit_cost" :: js "output_unit_cost" :: extra_costs -> prop k t = prop k t') ->
  buildTierBodyExpr show t = buildTierBodyExpr show t'.
Proof.
  intros H. unfold buildTierBodyExpr. rewrite !(H _) by set_solver. do 3 f_equal. unfold extra_parts.
  apply list_omap_ext, Forall_Forall2_diag, Forall_forall. intros cv Hcv. rewrite H; [done|].
  do 2 right. change extra_costs with (BILLING_CACHE_VAR_MAP.*1). by apply list_elem_of_fmap_2.
Qed.

Lemma editor_prop e k :
  k <> js "conditions" -> k <> js "cache_mode" -> prop k (editor_of e) = prop k (tier_of (e_spec e)).
Proof. intros H1 H2. unfold prop, editor_of. by rewrite !lookup_insert_ne. Qed.

Lemma tier_of_price fallback p k :
  length (s_extras p) = length BILLING_CACHE_VAR_MAP ->
  k ∈ js "input_unit_cost" :: js "output_unit_cost" :: extra_costs ->
  prop k (tier_of (relabelled fallback p)) = prop k (tier_of p).
Proof.
  intros Hl Hk. unfold prop.
  assert (exists v, (k, v) ∈ [(js "input_unit_cost", JNumber (s_input p)); (js "output_unit_cost", JNumber (s_output p))]
                          ++ zip extra_costs (JNumber <$> s_extras p)) as [v Hv].
  { apply list_elem_of_lookup in Hk as [i Hk].
    assert (El : k ∈ ([(js "input_unit_cost", JNumber (s_input p)); (js "output_unit_cost", JNumber (s_output p))]
                          ++ zip extra_costs (JNumber <$> s_extras p)).*1).
    { rewrite fmap_app, fst_zip by (rewrite length_fmap, Hl; vm_compute; lia). by eapply list_elem_of_lookup_2. }
    apply list_elem_of_fmap in El as ([k' v] & -> & Hv). by exists v. }
  assert (Hin : forall q, s_input q = s_input p -> s_output q = s_output p -> s_extras q = s_extras p ->
    (k, v) ∈ base_fields q ++ zip extra_costs (JNumber <$> s_extras q)).
  { intros q E1 E2 E3. rewrite E3. unfold base_fields. rewrite E1, E2.
    apply elem_of_app in Hv as [Hv|Hv]; apply elem_of_app; [left|by right]. set_solver. }
  rewrite (tier_of_lookup (relabelled fallback p) k v), (tier_of_lookup p k v); auto.
Qed.

Lemma editor_call fallback e :
  edited_ok e -> spec_ok (relabelled fallback (e_spec e)) ->
  tier_call show fallback (editor_of e) = call_str (relabelled fallback (e_spec e)).
Proof.
  intros [(_ & _ & _ & _ & Hl & _) _] Hw. rewrite <- (call_generated fallback) by done. unfold tier_call.
  f_equal. f_equal. f_equal; [f_equal|].
  - rewrite editor_prop by done. rewrite (tier_of_base _ (js "label") (JString (s_label (relabelled fallback (e_spec e)))) Hw)
      by (unfold base_fields; set_solver).
    unfold prop. rewrite (tier_of_lookup (e_spec e) (js "label") (JString (s_label (e_spec e))) Hl)
      by (unfold base_fields; set_solver).
    cbn [relabelled s_label default from_option id]. unfold js_or. cbn [js_truthy].
    destruct (truthy (s_label (e_spec e))) eqn:E; [by rewrite E|]. by destruct (truthy fallback).
  - f_equal. f_equal. f_equal. apply tier_body_ext. intros k Hk. rewrite tier_of_price by done. apply editor_prop.
    + intros ->. revert Hk. by_decision.
    + intros ->. revert Hk. by_decision.
Qed.

Lemma editor_conditions e :
  edited_ok e -> buildConditionStr show (prop (js "conditions") (editor_of e)) = conditions_str (e_spec e).
Proof.
  intros [_ Ho]. unfold prop, editor_of. rewrite lookup_insert_eq. cbn [default from_option id buildConditionStr].
  rewrite Ho. unfold s_objects. by rewrite <- list_fmap_compose.
Qed.

Lemma editable_truthy p : editable p -> truthy (conditions_str p) = bool_decide (s_conditions p <> []).
Proof.
  intros H. assert (Hw : spec_ok (relabelled (js "default") p)) by (by apply relabelled_ok).
  apply (conditions_truthy _ Hw).
Qed.

Lemma editor_parts es : forall i,
  Forall edited_ok es -> guarded (e_spec <$> es) ->
  tier_parts show i (editor_of <$> es) = tier_parts show i (tier_of <$> written_at i (e_spec <$> es)).
Proof.
  induction es as [|e [|e' es] IH]; intros i Hs Hg; [done| |]; apply Forall_cons in Hs as [He Hs];
    pose proof (numbered_ok (i + 1) _ (proj1 He)) as Hw.
  - cbn [fmap list_fmap written_at tier_parts].
    rewrite editor_call, call_generated by (done || by apply unconditioned_ok). done.
  - rewrite !fmap_cons in *. destruct Hg as [Hne Hg].
    change (written_at i (e_spec e :: e_spec e' :: (e_spec <$> es))) with
      (relabelled (js "tier_" ++ show_dec (i + 1)) (e_spec e) :: written_at (i + 1) (e_spec e' :: (e_spec <$> es))).
    rewrite fmap_cons. cbn [tier_parts]. f_equal; [|by apply IH].
    rewrite editor_call, call_generated, editor_conditions, conditions_generated by done.
    change (conditions_str (relabelled (js "tier_" ++ show_dec (i + 1)) (e_spec e))) with (conditions_str (e_spec e)).
    by destruct es.
Qed.

(** The expression of what the dialog holds is the expression of what is written. *)
Lemma editor_generated es :
  Forall edited_ok es -> guarded (e_spec <$> es) ->
  generateExprFromVisualConfig show (Some (editor_of <$> es))
  = generateExprFromVisualConfig show (Some (tier_of <$> written (e_spec <$> es))).
Proof.
  intros Hs Hg. destruct es as [|e [|e' es]]; [done| |].
  - apply Forall_cons in Hs as [He _].
    assert (Hw : spec_ok (relabelled (js "default") (e_spec e))) by (by apply relabelled_ok; [apply He|..]).
    cbn [fmap list_fmap written generateExprFromVisualConfig].
    by rewrite editor_call, call_generated, editor_conditions, conditions_generated by done.
  - pose proof (editor_parts (e :: e' :: es) 0 Hs Hg) as Hp. rewrite !fmap_cons in *. cbn [written].
    cbn [generateExprFromVisualConfig]. rewrite Hp. by destruct es.
Qed.

Lemma edited_editable es : Forall edited_ok es -> Forall editable (e_spec <$> es).
Proof. intros H. apply Forall_fmap. eapply Forall_impl; [exact H|]. by intros e [He _]. Qed.

Lemma relabelled_same fallback p : s_label p <> [] -> relabelled fallback p = p.
Proof. intros H. unfold relabelled. rewrite (proj2 (truthy_true _) H). by destruct p. Qed.

Lemma written_at_same ps : forall i, Forall spec_ok ps -> chain_ok ps -> written_at i ps = ps.
Proof.
  induction ps as [|p [|q ps] IH]; intros i Hs Hc; [done| |]; apply Forall_cons in Hs as [Hp Hs].
  - cbn [written_at]. rewrite relabelled_same by apply Hp. unfold unconditioned. cbn [chain_ok] in Hc.
    rewrite <- Hc. by destruct p.
  - destruct Hc as [_ Hc].
    change (written_at i (p :: q :: ps)) with
      (relabelled (js "tier_" ++ show_dec (i + 1)) p :: written_at (i + 1) (q :: ps)).
    by rewrite relabelled_same, IH by (done || apply Hp).
Qed.

(** Labelled tiers, none of them conditioned at the end of several, are written as they are. *)
Lemma written_same ps : config_ok ps -> written ps = ps.
Proof.
  intros [Hs Hc]. destruct ps as [|p [|q ps]]; [done| |by apply written_at_same].
  apply Forall_cons in Hs as [Hp _]. cbn [written]. by rewrite relabelled_same by apply Hp.
Qed.

Lemma editor_same e :
  length (s_extras (e_spec e)) = length BILLING_CACHE_VAR_MAP ->
  e_mode e = s_mode (e_spec e) -> e_objects e = s_objects (e_spec e) -> editor_of e = tier_of (e_spec e).
Proof.
  intros Hl Hm Ho. unfold editor_of. rewrite Hm, Ho. rewrite (insert_id (tier_of _) (js "cache_mode")).
  - apply insert_id, tier_of_lookup; [done|]. unfold base_fields. set_solver.
  - apply tier_of_lookup; [done|]. unfold base_fields. set_solver.
Qed.

(** C3: the editor reads back what it wrote.  Take any tiers the dialog can hold
    whose labels have no quote, whose prices and compared values are numbers that
    print as the parser reads them, and of which every tier but the last has a
    complete condition (without it the text is not an expression); the cache modes
    are any, rows of conditions may be incomplete and labels blank.  The expression
    generated for them is parsed to the tiers it says: blank labels are filled with
    default (one tier) or tier_1, tier_2, ..., the incomplete rows and the
    conditions of the last of several tiers are gone, and the cache mode is timed
    exactly when the one-hour price is positive.  Generating again gives the same
    text.  Where nothing had to be filled in or left out, this is the configuration
    the dialog held. *)
Theorem visual_config_roundtrip es :
  Forall edited_ok es -> guarded (e_spec <$> es) ->
  let text := generateExprFromVisualConfig show (Some (editor_of <$> es)) in
  let cfg := tier_of <$> written (e_spec <$> es) in
  tryParseVisualConfig show text = Some cfg
  /\ generateExprFromVisualConfig show (Some cfg) = text
  /\ (config_ok (e_spec <$> es) ->
      Forall (fun e => e_mode e = s_mode (e_spec e) /\ e_objects e = s_objects (e_spec e)) es ->
      cfg = editor_of <$> es).
Proof.
  intros Hs Hg text cfg. pose proof (editor_generated es Hs Hg) as Ht. unfold text, cfg. rewrite Ht. split_and!.
  - apply config_parsed, written_ok; [by apply edited_editable|done].
  - done.
  - intros Hc He. rewrite written_same by done. rewrite <- list_fmap_compose. apply list_fmap_ext. intros i e Hi.
    assert (He' : e ∈ es) by (by eapply list_elem_of_lookup_2). rewrite Forall_forall in Hs, He.
    destruct (He e He'). symmetry. apply editor_same; [apply (Hs e He')|done|done].
Qed.

End RoundTrip.

(** ** Concrete configurations *)

Definition sample_show (n : jsnum) : jsstr :=
  if num_eqb n (num 0) then js "0" else if num_eqb n (num 3) then js "3"
  else if num_eqb n (num 15) then js "15" else if num_eqb n (num 200000) then js "200000"
  else js "NaN".

Definition sample_specs : list TierSpec :=
  [ mkSpec (js "short") [(js "len", js "<=", num 200000); (js "c", js "<", num 15)] (num 3) (num 15)
      [num 0; num 0; num 3; num 0; num 15; num 0; num 0];
    mkSpec (js "long") [] (num 15) (num 0) [num 3; num 0; num 0; num 0; num 0; num 0; num 0] ].

#[local] Instance spec_ok_dec show p : Decision (spec_ok show p).
Proof. unfold spec_ok, condition_ok, plain_number, prints. apply _. Defined.

Lemma sample_config_ok : config_ok sample_show sample_specs.
Proof.
  split; [|split; [discriminate|reflexivity]]. refine (bool_decide_unpack _ _). vm_compute. exact I.
Qed.

#[local] Instance editable_dec show p : Decision (editable show p).
Proof. unfold editable, condition_ok, plain_number, prints. apply _. Defined.

(** The dialog with a blank label, an incomplete row, a condition on the last tier
    and a timed cache mode without a one-hour price. *)
Definition sample_edited : list EditedTier :=
  [ mkEdited CACHE_MODE_TIMED
      [condition_object (js "len") (js "<=") (num 200000);
       JObject [(js "var", JString (js "p")); (js "op", JString (js "<")); (js "value", JString [])]]
      (mkSpec [] [(js "len", js "<=", num 200000)] (num 3) (num 15)
        [num 0; num 0; num 0; num 0; num 15; num 0; num 0]);
    mkEdited CACHE_MODE_GENERIC [condition_object (js "c") (js "<") (num 15)]
      (mkSpec (js "long") [(js "c", js "<", num 15)] (num 15) (num 0) [num 3; num 0; num 3; num 0; num 0; num 0; num 0]) ].

Lemma sample_edited_ok : Forall (edited_ok sample_show) sample_edited /\ guarded (e_spec <$> sample_edited).
Proof.
  split; [|by split]. apply Forall_cons; split; [|apply Forall_singleton];
    (split; [by_decision|vm_compute; reflexivity]).
Qed.

Lemma visual_config_roundtrip_witness :
  Forall (edited_ok sample_show) sample_edited
  /\ guarded (e_spec <$> sample_edited)
  /\ tryParseVisualConfig sample_show
       (generateExprFromVisualConfig sample_show (Some (editor_of <$> sample_edited)))
     = Some (tier_of <$>
         [ mkSpec (js "tier_1") [(js "len", js "<=", num 200000)] (num 3) (num 15)
             [num 0; num 0; num 0; num 0; num 15; num 0; num 0];
           mkSpec (js "long") [] (num 15) (num 0) [num 3; num 0; num 3; num 0; num 0; num 0; num 0] ]).
Proof.
  pose proof sample_edited_ok as [H G].
  split_and!; [exact H|exact G|]. exact (proj1 (visual_config_roundtrip sample_show sample_edited H G)).
Defined.

(** The text the editor writes for it. *)
Example sample_expression :
  generateExprFromVisualConfig sample_show (Some (tier_of <$> sample_specs))
  = js "len <= 200000 && c < 15 ? tier(" ++ quo ++ js "short" ++ quo
    ++ js ", p * 3 + c * 15 + cc1h * 3 + img_o * 15) : tier(" ++ quo ++ js "long" ++ quo
    ++ js ", p * 15 + c * 0 + cr * 3)".
Proof. vm_compute. reflexivity. Qed.

(** A coefficient that is not a number is accepted in an expression of one tier and
    printed as zero: the spread of the parsed tier restores the [NaN] that
    [Number(...) || 0] had replaced, and this branch is not compared with its text. *)
Example malformed_coefficient_accepted :
  let text := js "tier(" ++ quo ++ js "a" ++ quo ++ js ", p * 1.2.3 + c * 15)" in
  let cfg := tryParseVisualConfig sample_show text in
  (prop (js "input_unit_cost") <$>  default [] cfg) = [JNumber S754_nan]
  /\ generateExprFromVisualConfig sample_show cfg
     = js "tier(" ++ quo ++ js "a" ++ quo ++ js ", p * 0 + c * 15)".
Proof. vm_compute. split; reflexivity. Qed.
