(* ===== verification/TierDisplay.v ===== *)
(** * The price page shows the tiers the editor wrote

    Composition of the editor of tiered prices (tier-expr.ts) with the parser the
    price page uses to display an expression (billing-expr.ts): on the text the
    editor generates, [parseTiersFromExpr] gives the labels, the conditions and the
    prices of the configuration. *)

From Stdlib Require Import SpecFloat.
From S2P Require Import Prelude JsValue Json JsText BillingExpr TierExpr TierRoundTrip.

Local Open Scope N_scope.

Section Display.
Variable show : jsnum -> jsstr.
Notation rm := (rmatch false).

(** ** What is shown *)

(** The products of a body, in order. *)
Definition body_products (p : TierSpec) : list (jsstr * jsnum) :=
  (js "p", s_input p) :: (js "c", s_output p)
  :: filter (fun vx => num_eqb vx.2 (num 0) = false) (s_costs p).

Definition shown_tier (p : TierSpec) : ParsedTier :=
  mkTier (s_label p)
    ((fun c => mkTierCond c.1.1 c.1.2 c.2) <$> s_conditions p)
    ((fun vf => (vf.2, num_or_zero (coefficient vf.1 (body_products p)))) <$> BILLING_VAR_KEY_TO_FIELD).

(** ** Reading the coefficients *)

Definition var_keys : list jsstr := bv_key <$> BILLING_PRICING_VARS.

Lemma group_apart n v w r k b t c :
  apart v w = true -> rm (Group n (lit v) >> spaces >> txt "*" >> r) k (mkPos b (w ++ t) c) = None.
Proof.
  intros H. rewrite rmatch_seq. destruct (starts_with v (w ++ t)) eqn:E; [|by apply group_lit_fail].
  apply starts_with_spec in E as [u Eu]. rewrite Eu, group_lit.
  pose proof (apart_misses v w r k b t) as Hm. rewrite Eu in Hm.
  specialize (Hm ((n, v) :: c) H). by rewrite rmatch_seq, rmatch_lit in Hm.
Qed.

(** Among the names, the one whose product follows is found, the others are apart from it. *)
Lemma takes_name n ts v x :
  v ∈ ts -> Forall (fun t => t = v \/ apart t (v ++ js " ") = true) ts -> prints show num_unit x ->
  takes (Group n (one_of ts) >> spaces >> txt "*" >> spaces >> Group (S n) nums)
    (product show v x) [(S n, show x); (n, v)] (stops num_unit).
Proof.
  intros Hin Hall Hx.
  assert (Hv : takes (Group n (lit v) >> spaces >> txt "*" >> spaces >> Group (S n) nums)
                 (product show v x) [(S n, show x); (n, v)] (stops num_unit)).
  { unfold product. change [(S n, show x); (n, v)] with ([(S n, show x)] ++ [(n, v)]).
    change (js " * " ++ show x) with (js " " ++ js "*" ++ js " " ++ show x).
    eapply takes_seq; [apply takes_group, takes_lit| |by intros].
    eapply takes_seq0; [apply takes_space| |done]. eapply takes_seq0; [apply takes_lit| |done].
    eapply takes_seq0; [apply takes_space|by apply takes_nums|]. intros u _. by apply nums_no_space. }
  induction ts as [|t ts IH]; [by apply not_elem_of_nil in Hin|]. apply Forall_cons in Hall as [Ht Hts].
  destruct ts as [|t' ts].
  - apply list_elem_of_singleton in Hin as ->. exact Hv.
  - change (one_of (t :: t' :: ts)) with (lit t |: one_of (t' :: ts)).
    intros k b u c s Hu Hk. rewrite rmatch_seq, group_alt, <- !(rmatch_seq (Group n _)).
    destruct (decide (v = t)) as [<-|Hne]; [by rewrite (Hv k b u c s Hu Hk)|].
    destruct Ht as [->|Ht]; [done|]. apply elem_of_cons in Hin as [?|Hin]; [done|].
    assert (E : exists z, product show v x ++ u = (v ++ js " ") ++ z).
    { unfold product. change (js " * ") with (js " " ++ js "* "). eexists. by rewrite <- !(assoc_L (++)). }
    destruct E as [z E]. rewrite E at 1. rewrite group_apart by done. exact (IH Hin Hts k b u c s Hu Hk).
Qed.

Lemma rmatch_word_group n r b s q :
  xorb (word_at b) (word_at s) = true ->
  rm (Group n r) Some (mkPos b s []) = Some q -> rm (Group n (WordB >> r)) Some (mkPos b s []) = Some q.
Proof.
  intros Hw H. rewrite rmatch_group, rmatch_seq.
  assert (E : forall k, rm WordB k (mkPos b s []) = k (mkPos b s [])) by (intros k; cbn; by rewrite Hw).
  by rewrite E.
Qed.

(** At a position that starts a word. *)
Lemma search_product v x u b n :
  v ∈ var_keys -> Forall (fun t => t = v \/ apart t (v ++ js " ") = true) var_keys ->
  prints show num_unit x -> stops num_unit u -> word_at b = false -> word_at v = true ->
  exists b', search false BILLING_VAR_REGEX b (product show v x ++ u) n
    = Some (n, mkPos b' u [(0%nat, product show v x); (2%nat, show x); (1%nat, v)]).
Proof.
  intros Hin Hall Hx Hu Hb Hv.
  assert (Hw : word_at (product show v x ++ u) = true).
  { unfold product. rewrite <- (assoc_L (++)). by destruct v. }
  assert (Ht : takes (Group 1 (one_of var_keys) >> spaces >> txt "*" >> spaces >> Group 2 nums)
                 (product show v x) [(2%nat, show x); (1%nat, v)] (stops num_unit)) by (by apply takes_name).
  assert (E : match_at false BILLING_VAR_REGEX (mkPos b (product show v x ++ u) [])
    = Some (mkPos (reverse (product show v x) ++ b) u [(0%nat, product show v x); (2%nat, show x); (1%nat, v)])).
  { apply (rmatch_word_group 0 _ b (product show v x ++ u)); [by rewrite Hb, Hw|].
    apply (takes_group 0 _ _ _ _ Ht); done. }
  exists (reverse (product show v x) ++ b).
  destruct (product show v x ++ u); cbn [search]; by rewrite E.
Qed.

Definition product_ok (vx : jsstr * jsnum) : Prop := vx.1 ∈ var_keys /\ prints show num_unit vx.2.
Definition product_str (vx : jsstr * jsnum) : jsstr := product show vx.1 vx.2.

Lemma var_keys_apart v :
  v ∈ var_keys -> Forall (fun t => t = v \/ apart t (v ++ js " ") = true) var_keys /\ word_at v = true.
Proof.
  assert (H : Forall (fun v => Forall (fun t => t = v \/ apart t (v ++ js " ") = true) var_keys
                               /\ word_at v = true) var_keys).
  { refine (bool_decide_unpack _ _). vm_compute. exact I. }
  rewrite Forall_forall in H. apply H.
Qed.

Lemma no_product_at c k b s cs :
  c = 32 \/ c = 43 -> rm BILLING_VAR_REGEX k (mkPos b (c :: s) cs) = None.
Proof.
  intros H. unfold BILLING_VAR_REGEX. rewrite rmatch_seq.
  assert (E : rm (Group 1 (one_of var_keys) >> spaces >> txt "*" >> spaces >> Group 2 nums) k
                (mkPos b (c :: s) cs) = None) by (by destruct H as [-> | ->]).
  cbn [rmatch before after] in E |- *. by destruct (xorb _ _).
Qed.

Lemma search_sum v x u b n :
  product_ok (v, x) -> stops num_unit u ->
  exists b', search false BILLING_VAR_REGEX b (js " + " ++ product show v x ++ u) n
    = Some (S (S (S n)), mkPos b' u [(0%nat, product show v x); (2%nat, show x); (1%nat, v)]).
Proof.
  intros [Hv Hx] Hu. destruct (var_keys_apart v Hv) as [Ha Hw].
  change (js " + " ++ product show v x ++ u) with (32 :: 43 :: 32 :: product show v x ++ u).
  do 3 (rewrite search_skip by (intros; apply no_product_at; tauto)). by apply search_product.
Qed.

Definition read_product (m : nat * (nat -> option jsstr)) : jsstr * jsnum :=
  (cap m.2 1, to_number (cap m.2 2)).

Lemma read_product_caps i t v x :
  prints show num_unit x ->
  read_product (i, fun n => capture n [(0%nat, t); (2%nat, show x); (1%nat, v)]) = (v, x).
Proof.
  intros (_ & _ & Hx).
  change (read_product (i, fun n => capture n [(0%nat, t); (2%nat, show x); (1%nat, v)]))
    with (v, to_number (show x)). by rewrite Hx.
Qed.

Lemma sum_stops vxs : stops num_unit (concat ((app (js " + ") ∘ product_str) <$> vxs)).
Proof. by destruct vxs. Qed.

Lemma exec_products vxs : forall fuel b base,
  Forall product_ok vxs -> (length vxs < fuel)%nat ->
  read_product <$> exec_all false fuel BILLING_VAR_REGEX b (concat ((app (js " + ") ∘ product_str) <$> vxs)) base
  = vxs.
Proof.
  induction vxs as [|[v x] vxs IH]; intros fuel b base Hs Hf;
    (destruct fuel as [|fuel]; [cbn in Hf; lia|]); cbn [exec_all].
  - cbn [fmap list_fmap concat search]. unfold match_at. rewrite rmatch_group. unfold BILLING_VAR_REGEX.
    rewrite rmatch_seq. cbn [rmatch before after]. by destruct (xorb _ _).
  - apply Forall_cons in Hs as [Hp Hs]. rewrite fmap_cons. cbn [concat]. unfold compose at 1, product_str at 1.
    rewrite <- (assoc_L (++)). cbn [fst snd].
    destruct (search_sum v x _ b 0 Hp (sum_stops vxs)) as [b' ->]. cbn [caps after before].
    rewrite fmap_cons. f_equal; [apply read_product_caps, Hp|apply IH; [done|cbn in Hf; lia]].
Qed.

Lemma coefficients_fold ms vxs : forall acc,
  read_product <$> ms = vxs -> NoDup (acc ++ vxs).*1 ->
  foldl (fun coeffs (m : nat * (nat -> option jsstr)) =>
    if bool_decide (cap m.2 1 ∈ coeffs.*1) then coeffs
    else coeffs ++ [(cap m.2 1, to_number (cap m.2 2))]) acc ms = acc ++ vxs.
Proof.
  intros acc <-. revert acc. induction ms as [|m ms IH]; intros acc Hnd; [by rewrite app_nil_r|].
  rewrite fmap_cons in *. cbn [foldl]. rewrite bool_decide_false.
  - rewrite IH; [by rewrite <- (assoc_L (++))|]. by rewrite <- (assoc_L (++)).
  - rewrite fmap_app, fmap_cons in Hnd. apply NoDup_app in Hnd as (_ & Hd & _).
    intros Hin. apply (Hd _ Hin). unfold read_product at 1. cbn [fst]. by left.
Qed.

Lemma body_str_sum p :
  body_str show p = product_str (js "p", s_input p)
    ++ concat ((app (js " + ") ∘ product_str) <$> ((js "c", s_output p)
         :: filter (fun vx => num_eqb vx.2 (num 0) = false) (s_costs p))).
Proof.
  unfold body_str, product_str at 1. cbn [fst snd]. f_equal. rewrite fmap_cons. cbn [concat].
  unfold compose at 1, product_str at 1. cbn [fst snd]. rewrite <- (assoc_L (++)). do 2 f_equal.
  induction (s_costs p) as [|[v x] l IH]; [done|]. rewrite fmap_cons. cbn [concat].
  unfold extra_text at 1. cbn [snd fst]. destruct (num_eqb x (num 0)) eqn:E.
  - rewrite filter_cons_False by (cbn [snd]; congruence). exact IH.
  - rewrite filter_cons_True by (cbn [snd]; congruence). rewrite fmap_cons. cbn [concat]. by rewrite IH.
Qed.

Lemma filter_keys {A} (P : jsstr * A -> Prop) `{!forall x, Decision (P x)} (l : list (jsstr * A)) :
  (filter P l).*1 `sublist_of` l.*1.
Proof.
  induction l as [|x l IH]; [done|]. rewrite filter_cons. destruct (decide (P x)); rewrite ?fmap_cons.
  - by apply sublist_skip.
  - by apply sublist_cons.
Qed.

Lemma body_products_ok p : spec_ok show p -> Forall product_ok (body_products p) /\ NoDup (body_products p).*1.
Proof.
  intros H. pose proof H as (_ & _ & _ & [_ Hi] & [_ Ho] & Hl & Hx). split.
  - apply Forall_cons. split; [split; [by left|done]|]. apply Forall_cons. split; [split; [by right; left|done]|].
    apply Forall_forall. intros [v x] [Hz Hin]%list_elem_of_filter. cbn [fst snd] in *. split; cbn [fst snd].
    + apply (list_elem_of_fmap_2 fst) in Hin. rewrite (s_costs_1 show p H) in Hin. cbn [fst] in Hin.
      assert (Hall : Forall (fun v => v ∈ var_keys) extra_vars) by (by_decision).
      rewrite Forall_forall in Hall. by apply Hall.
    + apply (list_elem_of_fmap_2 snd) in Hin. rewrite (s_costs_2 show p H) in Hin. cbn [snd] in Hin.
      rewrite Forall_forall in Hx. apply (extra_ok_prints show); [by apply Hx|done].
  - unfold body_products. rewrite !fmap_cons. apply (sublist_NoDup _ (js "p" :: js "c" :: extra_vars)).
    + refine (bool_decide_unpack _ _). vm_compute. exact I.
    + do 2 apply sublist_skip. rewrite <- (s_costs_1 show p H). apply filter_keys.
Qed.

Lemma coefficients_body p : spec_ok show p -> coefficients (body_str show p) = body_products p.
Proof.
  intros H. destruct (body_products_ok p H) as [Hok Hnd]. unfold coefficients.
  apply (coefficients_fold _ (body_products p) []); [|done]. rewrite body_str_sum. unfold matchAll. cbn [exec_all].
  apply Forall_cons in Hok as [Hp Hs]. destruct (var_keys_apart (js "p")) as [Ha Hw]; [by left|].
  destruct (search_product (js "p") (s_input p) (concat ((app (js " + ") ∘ product_str) <$> ((js "c", s_output p)
         :: filter (fun vx => num_eqb vx.2 (num 0) = false) (s_costs p)))) [] 0) as [b' E];
    [by left|done|apply Hp|apply sum_stops|done|done|].
  change (product show (js "p") (s_input p)) with (product_str (js "p", s_input p)) in E.
  rewrite E. cbn [caps after before]. rewrite fmap_cons. unfold body_products. f_equal.
  - apply read_product_caps, Hp.
  - apply exec_products; [done|]. rewrite length_app.
    assert (Hlen : forall l, (length l <= length (concat ((app (js " + ") ∘ product_str) <$> l)))%nat).
    { clear. induction l as [|d ds IH]; [done|]. rewrite fmap_cons. cbn [concat]. unfold compose at 1.
      rewrite !length_app. change (length (js " + ")) with 3%nat. cbn [length]. lia. }
    specialize (Hlen ((js "c", s_output p) :: filter (fun vx => num_eqb vx.2 (num 0) = false) (s_costs p))).
    assert (0 < length (product_str (js "p", s_input p)))%nat; [|lia].
    unfold product_str, product. cbn [fst snd]. rewrite !length_app. change (length (js "p")) with 1%nat. lia.
Qed.

(** ** The tiers *)

Lemma body_units p : spec_ok show p -> forallb (not_unit 41) (body_str show p) = true /\ body_str show p <> [].
Proof.
  intros H. destruct (body_products_ok p H) as [Hok _]. split; [|done]. rewrite body_str_sum.
  assert (Hp : forall vx, product_ok vx -> forallb (not_unit 41) (product_str vx) = true).
  { intros [v x] [Hv (_ & Hu & _)]. unfold product_str, product. cbn [fst snd] in *. rewrite !forallb_app.
    assert (Hall : Forall (fun v => forallb (not_unit 41) v = true) var_keys)
      by (by_decision).
    rewrite Forall_forall in Hall. rewrite (Hall v Hv). cbn [andb].
    change (forallb (not_unit 41) (js " * ")) with true. cbn [andb]. rewrite forallb_forall in Hu |- *.
    intros c Hc. specialize (Hu c Hc). unfold not_unit. by destruct (N.eqb_spec c 41) as [->|]. }
  apply Forall_cons in Hok as [Hin Hok]. rewrite forallb_app, (Hp _ Hin). cbn [andb].
  induction Hok as [|vx l Hvx Hl IH]; [done|]. rewrite fmap_cons. cbn [concat]. unfold compose at 1.
  rewrite !forallb_app, (Hp vx Hvx), IH. done.
Qed.

Lemma takes_shown_tier p :
  spec_ok show p ->
  takes tierRe (tier_str show p) ([(3%nat, body_str show p); (2%nat, s_label p)] ++ prefix_caps show p) anything.
Proof.
  intros H. pose proof H as (_ & Hq & _). destruct (body_units p H) as [Hb Hne].
  unfold tierRe, tier_str, call_str.
  eapply takes_seq; [by apply takes_prefix| |intros u _; by eexists].
  change (js "tier(" ++ quo ++ s_label p ++ quo ++ js ", " ++ body_str show p ++ js ")")
    with ((js "tier(" ++ quo) ++ s_label p ++ (quo ++ js ",") ++ js " " ++ body_str show p ++ js ")").
  change [(3%nat, body_str show p); (2%nat, s_label p)] with ([(3%nat, body_str show p)] ++ [(2%nat, s_label p)]).
  eapply takes_seq0; [apply takes_lit| |done].
  eapply takes_seq; [by apply takes_group, takes_run| |done].
  eapply takes_seq0; [apply takes_lit| |done].
  eapply takes_seq0; [apply takes_space| |].
  - change [(3%nat, body_str show p)] with ([] ++ [(3%nat, body_str show p)]).
    eapply takes_seq; [by apply takes_group, takes_plus|apply takes_lit|]. by intros.
  - intros u _. rewrite body_str_sum. done.
Qed.

Lemma shown_conditions p :
  spec_ok show p ->
  parseTierConditions (conditions_str show p)
  = (fun c => mkTierCond c.1.1 c.1.2 c.2) <$> s_conditions p.
Proof.
  intros H. pose proof (parse_conditions_str show p H) as E. unfold parse_conditions, s_objects in E.
  unfold parseTierConditions. destruct (truthy (conditions_str show p)); cbn [negb] in *.
  - revert E. generalize (split_re false and_sep (conditions_str show p)). intros l.
    revert l. induction (s_conditions p) as [|c cs IH]; intros l; induction l as [|x l IHl]; cbn [omap list_omap];
      try done; destruct (exec false comparison_parts (trim x)); try done; try exact IHl.
    rewrite !fmap_cons. intros [= E1 E2 E3 E4]. f_equal; [by f_equal|]. by apply IH.
  - by destruct (s_conditions p).
Qed.

Definition shown_of_match (m : nat * (nat -> option jsstr)) : ParsedTier :=
  mkTier (cap m.2 2) (parseTierConditions (default [] (m.2 1%nat))) (parseTierBody (cap m.2 3)).

Lemma shown_of_match_caps i x p :
  spec_ok show p ->
  shown_of_match (i, fun n => capture n ((0%nat, x) :: [(3%nat, body_str show p); (2%nat, s_label p)]
                                          ++ prefix_caps show p)) = shown_tier p.
Proof.
  intros H. unfold shown_of_match, shown_tier. cbn [snd].
  change (mkTier (s_label p) (parseTierConditions (default [] (capture 1 (prefix_caps show p))))
            (parseTierBody (body_str show p)) = shown_tier p).
  unfold parseTierBody. rewrite coefficients_body by done. unfold shown_tier. f_equal.
  rewrite <- shown_conditions by done. unfold prefix_caps, conditions_str. by destruct (s_conditions p).
Qed.

Lemma shown_misses k b x s c : x = 32 \/ x = 58 -> rm tierRe k (mkPos b (x :: s) c) = None.
Proof. by intros [-> | ->]. Qed.

Lemma no_price_shown b n : search false tierRe b (js " : " ++ no_price) n = None.
Proof. vm_compute. reflexivity. Qed.

Lemma unversioned x t : x <> 118 -> stripExprVersion (x :: t) = (num 1, x :: t).
Proof.
  intros H. unfold stripExprVersion. cbn [truthy negb]. unfold version_regex. rewrite exec_anchored.
  unfold run_anchored, txt. rewrite rmatch_seq. rewrite rmatch_lit_fail; [done|].
  change (starts_with [118] (x :: t) = false). cbn [starts_with]. by rewrite (proj2 (N.eqb_neq _ _)).
Qed.

Lemma config_shown ps :
  config_ok show ps ->
  parseTiersFromExpr (generateExprFromVisualConfig show (Some (tier_of <$> ps))) = shown_tier <$> ps.
Proof.
  intros H. destruct (generated_text show ps H) as (tail & -> & Htail).
  destruct ps as [|p ps]; [by destruct H as [_ []]|]. destruct H as [Hs _].
  assert (Ht : forall b n, search false tierRe b tail n = None).
  { intros b n. destruct Htail as [-> | ->]; [done|apply no_price_shown]. }
  pose proof (matchAll_tiers show tierRe _ shown_of_match shown_tier takes_shown_tier shown_misses
                (fun i p => shown_of_match_caps i _ p) tail p ps Ht Hs) as Hm.
  pose proof Hs as [Hp _]%Forall_cons.
  assert (Ej : exists x t, join (js " : ") (tier_str show <$> (p :: ps)) ++ tail = x :: t /\ x <> 118).
  { rewrite fmap_cons, join_concat. destruct (decide (s_conditions p = [])) as [E|E].
    - unfold tier_str at 1. rewrite E. eexists _, _. split; [reflexivity|done].
    - destruct (tier_str_head show p Hp E) as (x & t & -> & Hx & _). eexists _, _. split; [reflexivity|done]. }
  destruct Ej as (x & t & Ej & Hx). rewrite Ej in *. unfold parseTiersFromExpr. cbn [truthy negb].
  rewrite unversioned by done. exact Hm.
Qed.

(** C19: the two parsers of billing expressions agree on what the editor writes.
    Take any tiers the dialog can hold whose labels have no quote, whose prices and
    compared values are numbers that print as the parsers read them, and of which
    every tier but the last has a complete condition.  From the expression generated
    for them the parser of the editor and the parser of the price page read the same
    tiers, those that [written] says (blank labels filled, incomplete conditions and
    the conditions of the last of several tiers left out): the first as editor
    objects, the second with the label, the conditions and, for every billing
    variable, the price (zero for the costs left out). *)
Theorem generated_tiers_shown es :
  Forall (edited_ok show) es -> guarded (e_spec <$> es) ->
  let text := generateExprFromVisualConfig show (Some (editor_of <$> es)) in
  let tiers := written (e_spec <$> es) in
  tryParseVisualConfig show text = Some (tier_of <$> tiers)
  /\ parseTiersFromExpr text = shown_tier <$> tiers.
Proof.
  intros Hs Hg text tiers. unfold text, tiers. rewrite (editor_generated show es Hs Hg).
  assert (Hw : config_ok show (written (e_spec <$> es))) by (apply written_ok; [by apply edited_editable|done]).
  split; [by apply config_parsed|by apply config_shown].
Qed.

End Display.

Lemma generated_tiers_shown_witness :
  Forall (edited_ok sample_show) sample_edited
  /\ guarded (e_spec <$> sample_edited)
  /\ parseTiersFromExpr (generateExprFromVisualConfig sample_show (Some (editor_of <$> sample_edited)))
     = shown_tier <$> written (e_spec <$> sample_edited).
Proof.
  pose proof sample_edited_ok as [H G]. split_and!; [exact H|exact G|].
  exact (proj2 (generated_tiers_shown sample_show sample_edited H G)).
Defined.
