(* ===== verification/AuthSession.v ===== *)
(** * Authentication session (web/src/stores/auth-store.ts,
      web/src/lib/auth-session.ts, web/src/lib/auth-session-sync.ts)

    - [Store]: the zustand store, one definition per setter.
    - [Guards]: the validators of values received from the server.
    - [Sync]: the events published to the other tabs and their delivery.
    - [Tab]: the module state of one tab (store, epoch, in-flight refresh) and
      the operations that change it.
    - [Runner]: [createRefreshRunner], generic in its runtime; a run is a
      sequence of phases between the points where it awaits.
    - [System]: the step relation of a tab, in which the refresh run is
      interleaved with sign-in, sign-out, rotation and events of other tabs.

    A response, a timer and the browser lock are the environment's: they
    appear as the labels of steps. *)

From Stdlib Require Import SpecFloat.
From S2P Require Import Prelude JsValue.

(** ** Data *)

Inductive AuthBootstrapState := idle | checking | complete.

#[export] Instance AuthBootstrapState_eq_dec : EqDecision AuthBootstrapState.
Proof. solve_decision. Defined.

(** The mandatory fields of a user; the optional ones are carried along in
    [user_rest] as received. *)
Record AuthUser := mkUser {
  user_id : jsnum; username : jsstr; role : jsnum; user_rest : jsval }.

Record LoginSession := mkSession {
  sid : jsstr; current : bool; login_method : jsstr; ip : jsstr;
  user_agent : jsstr; created_at : jsnum; last_active_at : jsnum; expires_at : jsnum }.

Record AuthBundle := mkBundle {
  access_token : jsstr; token_type : jsstr; access_expires_at : jsnum;
  b_user : AuthUser; b_session : LoginSession }.

Record AuthTokenRotation := mkRotation {
  r_access_token : jsstr; r_token_type : jsstr; r_access_expires_at : jsnum;
  r_session : LoginSession }.

Inductive RefreshError := SupersededError | ErrorValue (v : jsval).

Inductive RefreshOutcome :=
| Authenticated (bundle : AuthBundle)
| Anonymous
| TransientError (error : RefreshError)
| OutOfSync (code : option jsstr).

(** [response.status] is [0] when there was no response. *)
Record AuthRefreshHTTPResponse := mkResponse {
  status : Z; data : jsval; error : jsval }.

(** ** The store *)

Module Store.

Record AuthState := mkAuth {
  user : option AuthUser;
  accessToken : option jsstr;
  accessExpiresAt : option jsnum;
  session : option LoginSession;
  pending2FAFlowToken : option jsstr;
  bootstrapState : AuthBootstrapState }.

Definition initial : AuthState := mkAuth None None None None None idle.

Definition setBundle (bundle : AuthBundle) (a : AuthState) : AuthState :=
  {| user := Some (b_user bundle);
     accessToken := Some (access_token bundle);
     accessExpiresAt := Some (access_expires_at bundle);
     session := Some (b_session bundle);
     pending2FAFlowToken := None;
     bootstrapState := complete |}.

Definition setUser (u : option AuthUser) (a : AuthState) : AuthState :=
  {| user := u; accessToken := accessToken a; accessExpiresAt := accessExpiresAt a;
     session := session a; pending2FAFlowToken := pending2FAFlowToken a;
     bootstrapState := bootstrapState a |}.

Definition setPending2FAFlowToken (tok : option jsstr) (a : AuthState) : AuthState :=
  {| user := user a; accessToken := accessToken a; accessExpiresAt := accessExpiresAt a;
     session := session a; pending2FAFlowToken := tok; bootstrapState := bootstrapState a |}.

Definition setBootstrapState (b : AuthBootstrapState) (a : AuthState) : AuthState :=
  {| user := user a; accessToken := accessToken a; accessExpiresAt := accessExpiresAt a;
     session := session a; pending2FAFlowToken := pending2FAFlowToken a;
     bootstrapState := b |}.

Definition reset (b : AuthBootstrapState) (a : AuthState) : AuthState :=
  {| user := None; accessToken := None; accessExpiresAt := None; session := None;
     pending2FAFlowToken := None; bootstrapState := b |}.

(** [auth.session?.sid] *)
Definition sessionSID (a : AuthState) : option jsstr := sid <$> session a.

(** The three credentials are present together or absent together, and a
    present token, expiry and session id are usable. *)
Definition credentials_ok (a : AuthState) : Prop :=
  match accessToken a, accessExpiresAt a, session a with
  | None, None, None => True
  | Some t, Some e, Some s => t <> [] /\ num_lt (num 0) e = true /\ sid s <> []
  | _, _, _ => False
  end.

Definition signed_out (a : AuthState) : Prop :=
  user a = None /\ accessToken a = None /\ accessExpiresAt a = None /\ session a = None.

End Store.

(** ** Validation of received values *)

Module Guards.

Definition nonempty_string (v : jsval) : bool :=
  match v with JString s => truthy s | _ => false end.

Definition isAuthUser (v : jsval) : bool :=
  if negb (isRecord v) then false
  else match field "id" v with
       | JNumber n => is_integer n && num_lt (num 0) n
       | _ => false
       end && is_string (field "username" v) && is_number (field "role" v).

Definition isLoginSession (v : jsval) : bool :=
  if negb (isRecord v) then false
  else nonempty_string (field "sid" v) && is_bool (field "current" v)
    && is_string (field "login_method" v) && is_string (field "ip" v)
    && is_string (field "user_agent" v) && is_number (field "created_at" v)
    && is_number (field "last_active_at" v) && is_number (field "expires_at" v).

Definition hasValidTokenFields (v : jsval) : bool :=
  nonempty_string (field "access_token" v) && nonempty_string (field "token_type" v)
  && match field "access_expires_at" v with
     | JNumber n => is_finite n && num_lt (num 0) n
     | _ => false
     end.

Definition isAuthBundle (v : jsval) : bool :=
  if negb (isRecord v) then false
  else hasValidTokenFields v && isAuthUser (field "user" v)
    && isLoginSession (field "session" v).

Definition isAuthTokenRotation (v : jsval) : bool :=
  isRecord v && hasValidTokenFields v && is_literal "Bearer" (field "token_type" v)
  && isLoginSession (field "session" v)
  && match field "current" (field "session" v) with JBool b => b | _ => false end.

(** The typed views of a value that passed its guard; on other values the
    defaults below are never read. *)
Definition str_of (v : jsval) : jsstr := default [] (as_string v).
Definition num_of (v : jsval) : jsnum := default S754_nan (as_number v).
Definition bool_of (v : jsval) : bool := default false (as_bool v).

Definition userOf (v : jsval) : AuthUser :=
  mkUser (num_of (field "id" v)) (str_of (field "username" v)) (num_of (field "role" v)) v.

Definition sessionOf (v : jsval) : LoginSession :=
  mkSession (str_of (field "sid" v)) (bool_of (field "current" v))
    (str_of (field "login_method" v)) (str_of (field "ip" v))
    (str_of (field "user_agent" v)) (num_of (field "created_at" v))
    (num_of (field "last_active_at" v)) (num_of (field "expires_at" v)).

Definition bundleOf (v : jsval) : AuthBundle :=
  mkBundle (str_of (field "access_token" v)) (str_of (field "token_type" v))
    (num_of (field "access_expires_at" v)) (userOf (field "user" v))
    (sessionOf (field "session" v)).

Definition rotationOf (v : jsval) : AuthTokenRotation :=
  mkRotation (str_of (field "access_token" v)) (str_of (field "token_type" v))
    (num_of (field "access_expires_at" v)) (sessionOf (field "session" v)).

(** [parseBundle: (value) => (isAuthBundle(value) ? value : null)] *)
Definition parseBundle (v : jsval) : option AuthBundle :=
  if isAuthBundle v then Some (bundleOf v) else None.

(** What the guard establishes about a typed bundle. *)
Definition wf_session (s : LoginSession) : Prop := sid s <> [].
Definition wf_bundle (b : AuthBundle) : Prop :=
  access_token b <> [] /\ num_lt (num 0) (access_expires_at b) = true
  /\ is_finite (access_expires_at b) = true /\ wf_session (b_session b).

End Guards.
Import Guards.

(** ** Events between tabs *)

Module Sync.

Inductive Kind := authenticated | signed_out.

#[export] Instance Kind_eq_dec : EqDecision Kind.
Proof. solve_decision. Defined.

Record AuthSessionSyncEvent := mkEvent {
  kind : Kind; ev_sid : jsstr; source : jsstr; nonce : jsstr; timestamp : jsnum }.

(** What the page reads from its environment when it publishes: the identifier
    drawn at load time, a fresh identifier and the clock. *)
Record Env := mkEnv { authSyncSource : jsstr; randomIdentifier : jsstr; now : jsnum }.

(** [publishAuthSessionEvent]: the events handed to the channel. *)
Definition publishAuthSessionEvent (env : Env) (k : Kind) (s : jsstr) : list AuthSessionSyncEvent :=
  if negb (truthy s) then []
  else [mkEvent k s (authSyncSource env) (randomIdentifier env) (now env)].

(** An event as the structured value another tab receives, and the guard it
    goes through. *)
Definition kind_literal (k : Kind) : jsstr :=
  match k with authenticated => js "authenticated" | signed_out => js "signed_out" end.

Definition toValue (e : AuthSessionSyncEvent) : jsval :=
  JObject [(js "kind", JString (kind_literal (kind e))); (js "sid", JString (ev_sid e));
           (js "source", JString (source e)); (js "nonce", JString (nonce e));
           (js "timestamp", JNumber (timestamp e))].

Definition isAuthSessionSyncEvent (v : jsval) : bool :=
  if negb (isRecord v) then false
  else (is_literal "authenticated" (field "kind" v) || is_literal "signed_out" (field "kind" v))
    && nonempty_string (field "sid" v) && is_string (field "source" v)
    && is_string (field "nonce" v) && is_number (field "timestamp" v).

Definition eventOf (v : jsval) : AuthSessionSyncEvent :=
  mkEvent (if is_literal "authenticated" (field "kind" v) then authenticated else signed_out)
    (str_of (field "sid" v)) (str_of (field "source" v)) (str_of (field "nonce" v))
    (num_of (field "timestamp" v)).

(** [deliver]: the event given to the listener, if any. *)
Definition deliver (env : Env) (v : jsval) : option AuthSessionSyncEvent :=
  if isAuthSessionSyncEvent v
     && negb (source (eventOf v) =s? authSyncSource env)
     && num_lt (math_abs (num_sub (now env) (timestamp (eventOf v)))) (num 60000)
  then Some (eventOf v) else None.

End Sync.

(** ** Module state and its operations *)

Module Tab.
Import Sync.

(** The store, [authEpoch] and the events published so far. *)
Record Core := mkCore {
  auth : Store.AuthState; authEpoch : nat; outbox : list AuthSessionSyncEvent }.

Definition initialCore : Core := mkCore Store.initial 0 [].

(** A store update that leaves the epoch alone. *)
Definition onStore (f : Store.AuthState -> Store.AuthState) (c : Core) : Core :=
  mkCore (f (auth c)) (authEpoch c) (outbox c).

Definition applyAuthBundle (env : Env) (bundle : AuthBundle) (synchronizeTabs : bool)
    (c : Core) : Core :=
  let previousSID := Store.sessionSID (auth c) in
  mkCore (Store.setBundle bundle (auth c)) (S (authEpoch c))
    (outbox c ++
     if synchronizeTabs && negb (bool_decide (previousSID = Some (sid (b_session bundle))))
     then publishAuthSessionEvent env authenticated (sid (b_session bundle)) else []).

Inductive AuthRotationError := InvalidResponse | NoActiveSession | SessionMismatch.

(** [applyAuthRotation]: an error value is a thrown [AuthRotationError], which
    leaves the state as it was. *)
Definition applyAuthRotation (env : Env) (value : jsval) (c : Core) : AuthRotationError + Core :=
  if negb (isAuthTokenRotation value) then inl InvalidResponse
  else
    let r := rotationOf value in
    match Store.user (auth c), Store.session (auth c) with
    | Some u, Some s =>
        if negb (sid (r_session r) =s? sid s) then inl SessionMismatch
        else inr (applyAuthBundle env
               (mkBundle (r_access_token r) (r_token_type r) (r_access_expires_at r) u
                  (r_session r)) false c)
    | _, _ => inl NoActiveSession
    end.

Definition clearAuthentication (env : Env) (synchronizeTabs : bool)
    (bootstrapState : AuthBootstrapState) (c : Core) : Core :=
  mkCore (Store.reset bootstrapState (auth c)) (S (authEpoch c))
    (outbox c ++
     match Store.sessionSID (auth c) with
     | Some s => if synchronizeTabs && truthy s
                 then publishAuthSessionEvent env signed_out s else []
     | None => []
     end).

(** The clock in seconds, [Math.floor(Date.now() / 1000)]. *)
Definition nowSeconds (env : Env) : jsnum := math_floor (num_div (now env) (num 1000)).

Definition currentValidAuthBundle (env : Env) (c : Core) : option AuthBundle :=
  let a := auth c in
  match Store.user a, Store.accessToken a, Store.accessExpiresAt a, Store.session a with
  | Some u, Some t, Some e, Some s =>
      if negb (truthy t) || negb (num_truthy e) || num_le e (nowSeconds env) then None
      else Some (mkBundle t (js "Bearer") e u s)
  | _, _, _, _ => None
  end.

Definition getCommonHeaders (c : Core) : list (jsstr * jsstr) :=
  (js "Content-Type", js "application/json")
  :: match Store.accessToken (auth c) with
     | Some t => if truthy t then [(js "Authorization", js "Bearer " ++ t)] else []
     | None => []
     end.

(** The listener installed by the root route for events of other tabs; the
    boolean tells that the page reloads. *)
Definition onSyncEvent (env : Env) (e : AuthSessionSyncEvent) (c : Core) : Core * bool :=
  let currentSID := Store.sessionSID (auth c) in
  match kind e with
  | authenticated =>
      if bool_decide (Some (ev_sid e) = currentSID) then (c, false)
      else (match currentSID with
            | Some s => if truthy s then clearAuthentication env false complete c else c
            | None => c
            end, true)
  | signed_out =>
      match currentSID with
      | Some s => if truthy s && (ev_sid e =s? s)
                  then (clearAuthentication env false complete c, false) else (c, false)
      | None => (c, false)
      end
  end.

End Tab.

(** ** The refresh runner *)

Module Runner.

(** [AuthRefreshRuntime]: what the runner needs of its host.  [request] and
    [wait] are the two suspension points and appear as phases instead. *)
Record AuthRefreshRuntime (W : Type) := mkRuntime {
  getExpectedSID : W -> option jsstr;
  parseBundle : jsval -> option AuthBundle;
  acceptBundle : AuthBundle -> W -> W;
  clear : bool -> option AuthBootstrapState -> W -> W;
  markTransient : W -> W;
  isCurrent : W -> bool }.
Arguments getExpectedSID {W}.
Arguments parseBundle {W}.
Arguments acceptBundle {W}.
Arguments clear {W}.
Arguments markTransient {W}.
Arguments isCurrent {W}.

Definition refreshRaceDelays : list Z := [80; 200; 500]%Z.

(** Where a run is suspended: a request was sent with the session id it
    expects, a delay is running, or the promise is settled. *)
Inductive Phase :=
| Requested (raceAttempt : nat) (allowMismatchRetry : bool) (expectedSID : option jsstr)
| Delayed (raceAttempt : nat) (allowMismatchRetry : bool) (delay : Z)
| Settled (outcome : RefreshOutcome).

Definition superseded : RefreshOutcome := TransientError SupersededError.

Section Runner.
Context {W : Type} (rt : AuthRefreshRuntime W).

(** [run] up to its first [await]. *)
Definition run (raceAttempt : nat) (allowMismatchRetry : bool) (w : W) : Phase :=
  if negb (isCurrent rt w) then Settled superseded
  else Requested raceAttempt allowMismatchRetry (getExpectedSID rt w).

Definition responseCode (d : jsval) : option jsstr := as_string (field "code" d).

Definition code_is (lit : string) (code : option jsstr) : bool :=
  match code with Some s => s =s? js lit | None => false end.

(** The rest of [run], from the arrival of the response. *)
Definition onResponse (raceAttempt : nat) (allowMismatchRetry : bool)
    (response : AuthRefreshHTTPResponse) (w : W) : W * Phase :=
  if negb (isCurrent rt w) then (w, Settled superseded)
  else
    let responseData := if isRecord (data response) then data response else JUndefined in
    let code := responseCode responseData in
    let bundle := parseBundle rt (field "data" responseData) in
    let success := match field "success" responseData with JBool b => b | _ => false end in
    match (if success then bundle else None) with
    | Some b => (acceptBundle rt b w, Settled (Authenticated b))
    | None =>
        if (status response =? 409)%Z && code_is "AUTH_REFRESH_RACE" code then
          match refreshRaceDelays !! raceAttempt with
          | Some delay => (w, Delayed (S raceAttempt) allowMismatchRetry delay)
          | None => (clear rt false None w, Settled (OutOfSync code))
          end
        else if (status response =? 409)%Z && code_is "AUTH_SESSION_MISMATCH" code then
          if allowMismatchRetry then
            let w' := clear rt false (Some idle) w in (w', run 0 false w')
          else (clear rt false None w, Settled (OutOfSync code))
        else if (status response =? 401)%Z then
          (clear rt true None w, Settled Anonymous)
        else if (status response =? 0)%Z || (500 <=? status response)%Z
                || (status response =? 429)%Z then
          (markTransient rt w,
           Settled (TransientError (ErrorValue
             match error response with
             | JUndefined | JNull => data response
             | e => e
             end)))
        else
          (clear rt false None w,
           Settled (OutOfSync (Some (default (js "AUTH_INVALID_REFRESH_RESPONSE") code))))
    end.

(** What resumes a suspended run. *)
Inductive Input := Response (r : AuthRefreshHTTPResponse) | Elapsed.

Definition resume (i : Input) (w : W) (p : Phase) : W * Phase :=
  match i, p with
  | Response r, Requested race allow _ => onResponse race allow r w
  | Elapsed, Delayed race allow _ => (w, run race allow w)
  | _, _ => (w, p)
  end.

(** [createRefreshRunner(runtime)()]: [run(0, true)]. *)
Definition start (w : W) : Phase := run 0 true w.

End Runner.

End Runner.

(** ** The whole tab *)

Module System.
Import Sync Tab Runner.

(** [refreshPromise]: the epoch the run was started in and its progress.
    [Queued] waits for the browser lock; [Rejected] is a promise that rejected
    because the lock request did. *)
Inductive Progress := Queued | Active (p : Phase) | Rejected.
Record Run := mkRun { refreshEpoch : nat; progress : Progress }.

Record TabState := mkTab { core : Core; refreshPromise : option Run }.

Definition initialTab : TabState := mkTab initialCore None.

(** The runtime built by [runRefresh]. *)
Definition tabRuntime (env : Env) (epoch : nat) : AuthRefreshRuntime Core := {|
  getExpectedSID := fun c => Store.sessionSID (auth c);
  Runner.parseBundle := Guards.parseBundle;
  acceptBundle := fun b c => applyAuthBundle env b false c;
  clear := fun sync bs c =>
    match sync, bs with
    | false, Some idle => onStore (Store.reset idle) c
    | _, _ => clearAuthentication env sync (default complete bs) c
    end;
  markTransient := onStore (Store.setBootstrapState idle);
  isCurrent := fun c => (authEpoch c =? epoch)%nat |}.

Definition runRefresh (env : Env) (epoch : nat) (c : Core) : Phase :=
  start (tabRuntime env epoch) c.

(** [performRefreshWithBrowserLock]: without the Web Locks API the run starts
    at once. *)
Definition performRefreshWithBrowserLock (env : Env) (hasLocks : bool) (epoch : nat) (c : Core) : Progress :=
  if hasLocks then Queued else Active (runRefresh env epoch c).

Definition refreshAuthentication (env : Env) (hasLocks : bool) (t : TabState) : TabState :=
  match refreshPromise t with
  | Some _ => t
  | None =>
      let refreshEpoch := authEpoch (core t) in
      mkTab (core t) (Some (mkRun refreshEpoch
        (performRefreshWithBrowserLock env hasLocks refreshEpoch (core t))))
  end.

(** The run takes its next step. *)
Definition advance (env : Env) (i : Input) (t : TabState) : TabState :=
  match refreshPromise t with
  | Some (mkRun e (Active p)) =>
      let '(c, p') := resume (tabRuntime env e) i (core t) p in
      mkTab c (Some (mkRun e (Active p')))
  | _ => t
  end.

(** The lock is granted, or the request for it rejects. *)
Definition lockGranted (env : Env) (t : TabState) : TabState :=
  match refreshPromise t with
  | Some (mkRun e Queued) => mkTab (core t) (Some (mkRun e (Active (runRefresh env e (core t)))))
  | _ => t
  end.

Definition lockRejected (t : TabState) : TabState :=
  match refreshPromise t with
  | Some (mkRun e Queued) => mkTab (core t) (Some (mkRun e Rejected))
  | _ => t
  end.

(** [.finally(() => { refreshPromise = null })] *)
Definition finally (t : TabState) : TabState :=
  match refreshPromise t with
  | Some (mkRun _ (Active (Settled _))) | Some (mkRun _ Rejected) => mkTab (core t) None
  | _ => t
  end.

Definition withCore (f : Core -> Core) (t : TabState) : TabState :=
  mkTab (f (core t)) (refreshPromise t).

(** [bootstrapAuthentication]: an outcome known at once, or the refresh whose
    outcome it awaits. *)
Definition bootstrapAuthentication (env : Env) (hasLocks : bool) (t : TabState) :
    TabState * option RefreshOutcome :=
  match currentValidAuthBundle env (core t) with
  | Some b => (withCore (onStore (Store.setBootstrapState complete)) t, Some (Authenticated b))
  | None =>
      let a := auth (core t) in
      let hasStaleSession := bool_decide (is_Some (Store.user a)) && bool_decide (is_Some (Store.session a)) in
      if bool_decide (Store.bootstrapState a = complete) && negb hasStaleSession
      then (t, Some Anonymous)
      else (refreshAuthentication env hasLocks
              (withCore (onStore (Store.setBootstrapState checking)) t), None)
  end.

(** [getFreshAuthHeaders] up to its [await]: the headers, or [None] when it
    waits for a refresh. *)
Definition unexpired (limit : jsnum) (a : Store.AuthState) : bool :=
  match Store.accessToken a, Store.accessExpiresAt a with
  | Some t, Some e => truthy t && num_truthy e && num_lt limit e
  | _, _ => false
  end.

Definition freshHeadersBegin (env : Env) (hasLocks : bool) (t : TabState) :
    TabState * option (list (jsstr * jsstr)) :=
  if unexpired (num_add (nowSeconds env) (num 60)) (auth (core t))
  then (t, Some (getCommonHeaders (core t)))
  else (refreshAuthentication env hasLocks t, None).

Inductive HeadersError := RequestFailed (cause : RefreshError) | SessionExpired.

(** The rest of [getFreshAuthHeaders], given the outcome of the refresh. *)
Definition freshHeadersResume (env : Env) (outcome : RefreshOutcome) (t : TabState) :
    HeadersError + list (jsstr * jsstr) :=
  match outcome with
  | Authenticated _ => inr (getCommonHeaders (core t))
  | _ =>
      if unexpired (nowSeconds env) (auth (core t)) then inr (getCommonHeaders (core t))
      else match outcome with
           | TransientError e => inl (RequestFailed e)
           | _ => inl SessionExpired
           end
  end.

(** ** Steps of a tab *)

Inductive step (env : Env) : TabState -> TabState -> Prop :=
| step_signIn v sync t :
    isAuthBundle v = true ->
    step env t (withCore (applyAuthBundle env (bundleOf v) sync) t)
| step_rotate v t c' :
    applyAuthRotation env v (core t) = inr c' ->
    step env t (mkTab c' (refreshPromise t))
| step_clear sync bs t :
    step env t (withCore (clearAuthentication env sync bs) t)
| step_syncEvent v e t :
    deliver env v = Some e ->
    step env t (withCore (fun c => fst (onSyncEvent env e c)) t)
| step_setUser u t :
    step env t (withCore (onStore (Store.setUser u)) t)
| step_setPending tok t :
    step env t (withCore (onStore (Store.setPending2FAFlowToken tok)) t)
| step_refresh locks t :
    step env t (refreshAuthentication env locks t)
| step_bootstrap locks t :
    step env t (fst (bootstrapAuthentication env locks t))
| step_freshHeaders locks t :
    step env t (fst (freshHeadersBegin env locks t))
| step_advance i t : step env t (advance env i t)
| step_lockGranted t : step env t (lockGranted env t)
| step_lockRejected t : step env t (lockRejected t)
| step_finally t : step env t (finally t).

(** The steps of the in-flight run itself. *)
Inductive run_step (env : Env) : TabState -> TabState -> Prop :=
| run_advance i t : run_step env t (advance env i t)
| run_lockGranted t : run_step env t (lockGranted env t)
| run_lockRejected t : run_step env t (lockRejected t).

(** The clock and the identifiers may change at every step. *)
Inductive reachable : TabState -> Prop :=
| reach_init : reachable initialTab
| reach_step env t t' : reachable t -> step env t t' -> reachable t'.

Inductive run_steps : TabState -> TabState -> Prop :=
| run_steps_refl t : run_steps t t
| run_steps_cons env t u v : run_step env t u -> run_steps u v -> run_steps t v.

End System.

(** ** Lemmas on the guards *)

Lemma nonempty_string_inv v : nonempty_string v = true -> exists s, v = JString s /\ s <> [].
Proof. destruct v; simpl; try done. intros H. apply truthy_true in H. eauto. Qed.

Lemma isLoginSession_wf v : isLoginSession v = true -> wf_session (sessionOf v).
Proof.
  unfold isLoginSession, wf_session, sessionOf; simpl. destruct (isRecord v); [|done].
  intros H. simpl in H. bool_to_prop. apply nonempty_string_inv in H as (s & -> & ?). done.
Qed.

Lemma hasValidTokenFields_wf v :
  hasValidTokenFields v = true ->
  str_of (field "access_token" v) <> []
  /\ num_lt (num 0) (num_of (field "access_expires_at" v)) = true
  /\ is_finite (num_of (field "access_expires_at" v)) = true.
Proof.
  unfold hasValidTokenFields. intros H. bool_to_prop.
  apply nonempty_string_inv in H as (s & -> & ?).
  destruct (field "access_expires_at" v); try done. bool_to_prop. done.
Qed.

Lemma isAuthBundle_wf v : isAuthBundle v = true -> wf_bundle (bundleOf v).
Proof.
  unfold isAuthBundle, wf_bundle. destruct (isRecord v); [|done].
  intros H. simpl in H. bool_to_prop. apply hasValidTokenFields_wf in H as (? & ? & ?). split_and!; try done.
  by apply isLoginSession_wf.
Qed.

Lemma parseBundle_wf v b : Guards.parseBundle v = Some b -> wf_bundle b.
Proof. unfold Guards.parseBundle. intros H. split_cases. by apply isAuthBundle_wf. Qed.

#[export] Hint Resolve isAuthBundle_wf parseBundle_wf : js.

(** ** Lemmas on the runner *)

Section RunnerFacts.
Import Runner.
Context {W : Type} (rt : AuthRefreshRuntime W).

(** The requests a phase can still account for, its own included. *)
Definition budget (p : Phase) : nat :=
  match p with
  | Requested race allow _ | Delayed race allow _ => (4 - race) + (if allow then 4 else 0)
  | Settled _ => 0
  end.

Definition phase_ok (p : Phase) : Prop :=
  match p with
  | Requested race _ _ | Delayed race _ _ => race <= 3
  | Settled _ => True
  end.

(** A measure that every resumption decreases. *)
Definition fuel_of (p : Phase) : nat :=
  match p with
  | Requested _ _ _ => 2 * budget p
  | Delayed _ _ _ => 2 * budget p + 1
  | Settled _ => 0
  end.

Definition is_requested (p : Phase) : bool :=
  match p with Requested _ _ _ => true | _ => false end.

(** The world changes under the run's feet by [f], then the event it waits for
    occurs: its response is [r], or its delay elapses. *)
Definition resume_next (f : W -> W) (r : AuthRefreshHTTPResponse) (w : W) (p : Phase) : W * Phase :=
  resume rt (if is_requested p then Response r else Elapsed) (f w) p.

(** The phases a run goes through, first one included. *)
Fixpoint drive (l : list ((W -> W) * AuthRefreshHTTPResponse)) (w : W) (p : Phase) : list Phase :=
  match l with
  | [] => [p]
  | (f, r) :: l' =>
      match p with
      | Settled _ => [p]
      | _ => let '(w', p') := resume_next f r w p in p :: drive l' w' p'
      end
  end.

Lemma run_cases race allow w :
  run rt race allow w = Settled superseded
  \/ run rt race allow w = Requested race allow (getExpectedSID rt w).
Proof. unfold run. destruct (isCurrent rt w); simpl; auto. Qed.

Lemma race_delay_bound race d : refreshRaceDelays !! race = Some d -> race <= 2.
Proof. intros H. apply lookup_lt_Some in H. simpl in H. lia. Qed.

(** What a response can lead to. *)
Lemma onResponse_shape race allow r w :
  (exists o, snd (onResponse rt race allow r w) = Settled o)
  \/ (race <= 2 /\ exists d, snd (onResponse rt race allow r w) = Delayed (S race) allow d)
  \/ (allow = true /\ exists w', snd (onResponse rt race allow r w) = run rt 0 false w').
Proof.
  unfold onResponse. repeat case_match; simpl;
    first [ left; eexists; reflexivity
          | right; left; split; [by eapply race_delay_bound|eexists; reflexivity]
          | right; right; split; [done|eexists; reflexivity] ].
Qed.

Lemma onResponse_phase race allow r w w' p' :
  race <= 3 -> onResponse rt race allow r w = (w', p') ->
  phase_ok p' /\ fuel_of p' < fuel_of (Requested race allow None)
  /\ budget p' < budget (Requested race allow None).
Proof.
  intros Hrace H. pose proof (onResponse_shape race allow r w) as Hs. rewrite H in Hs. simpl in Hs.
  destruct Hs as [[o ->]|[[Hr [d ->]]|[-> [w0 ->]]]]; simpl.
  - destruct allow; lia.
  - destruct allow; lia.
  - destruct (run_cases 0 false w0) as [-> | ->]; simpl; lia.
Qed.

Lemma resume_next_phase f r w p w' p' :
  phase_ok p -> (forall o, p <> Settled o) -> resume_next f r w p = (w', p') ->
  phase_ok p' /\ fuel_of p' < fuel_of p
  /\ budget p' + (if is_requested p then 1 else 0) <= budget p.
Proof.
  intros Hok Hns. unfold resume_next. destruct p as [race allow s|race allow d|o]; simpl in *.
  - intros H. destruct (onResponse_phase _ _ _ _ _ _ Hok H) as (? & ? & ?). simpl in *. split_and!; [done|lia|lia].
  - intros [= <- <-]. destruct (run_cases race allow (f w)) as [-> | ->]; simpl; split_and!; try done; lia.
  - by destruct (Hns o).
Qed.

Lemma drive_spec l : forall w p,
  phase_ok p -> fuel_of p <= length l ->
  (exists o, last (drive l w p) = Some (Settled o))
  /\ length (filter (fun q => is_requested q = true) (drive l w p)) <= budget p.
Proof.
  induction l as [|[f r] l IH]; intros w p Hok Hf.
  { destruct p as [race [] s|race [] d|o]; simpl in *; try lia. split; [eauto|lia]. }
  destruct p as [race allow s|race allow d|o]; [..|simpl; split; [eauto|lia]].
  all: cbn [drive]; destruct (resume_next f r w _) as [w' p'] eqn:E;
    destruct (resume_next_phase _ _ _ _ _ _ Hok ltac:(done) E) as (Hok' & Hlt & Hb);
    destruct (IH w' p' Hok' ltac:(simpl in *; lia)) as [[o Ho] Hc];
    rewrite last_cons, Ho.
  - rewrite filter_cons_True by done. simpl in *. split; [eauto|lia].
  - rewrite filter_cons_False by done. simpl in *. split; [eauto|lia].
Qed.

(** A property kept by the operations of the runtime is kept by the run. *)
Lemma onResponse_preserves (P : W -> Prop) race allow r w :
  (forall v b w, parseBundle rt v = Some b -> P w -> P (acceptBundle rt b w)) ->
  (forall s bs w, P w -> P (clear rt s bs w)) ->
  (forall w, P w -> P (markTransient rt w)) ->
  P w -> P (fst (onResponse rt race allow r w)).
Proof.
  intros Ha Hc Hm Hw. unfold onResponse.
  destruct (negb (isCurrent rt w)); [done|].
  set (d := if isRecord (data r) then data r else JUndefined).
  generalize (match field "success" d with JBool b => b | _ => false end) as success.
  intros success. destruct success; [|repeat case_match; simpl; auto].
  destruct (parseBundle rt (field "data" d)) eqn:Eb; [simpl; by eapply Ha|].
  repeat case_match; simpl; auto.
Qed.

Lemma onResponse_stale race allow r w :
  isCurrent rt w = false -> onResponse rt race allow r w = (w, Settled superseded).
Proof. intros H. unfold onResponse. by rewrite H. Qed.

End RunnerFacts.

(** ** Lemmas on the tab *)

Section TabFacts.
Import Sync Tab Runner System.
Local Open Scope nat_scope.

Implicit Types (c : Core) (t : TabState).

(** What holds of every tab: usable credentials, and no run from the future. *)
Definition tab_inv (t : TabState) : Prop :=
  Store.credentials_ok (auth (core t))
  /\ match refreshPromise t with Some r => refreshEpoch r <= authEpoch (core t) | None => True end.

(** A core keeps its credentials usable and never goes back in time. *)
Definition core_grows (n : nat) (c : Core) : Prop :=
  Store.credentials_ok (auth c) /\ n <= authEpoch c.

Lemma applyAuthBundle_grows env b sync n c :
  wf_bundle b -> core_grows n c -> core_grows n (applyAuthBundle env b sync c).
Proof.
  intros (Ht & He & _ & Hs) [_ Hn]. split; [|simpl; lia]. simpl. split_and!; done.
Qed.

Lemma clearAuthentication_grows env sync bs n c :
  core_grows n c -> core_grows n (clearAuthentication env sync bs c).
Proof. intros [_ Hn]. split; [done|simpl; lia]. Qed.

Lemma onStore_grows f n c :
  (forall a, Store.credentials_ok a -> Store.credentials_ok (f a)) ->
  core_grows n c -> core_grows n (onStore f c).
Proof. intros Hf [Ha Hn]. split; [by apply Hf|done]. Qed.

Lemma setters_ok :
  (forall u a, Store.credentials_ok a -> Store.credentials_ok (Store.setUser u a))
  /\ (forall k a, Store.credentials_ok a -> Store.credentials_ok (Store.setPending2FAFlowToken k a))
  /\ (forall b a, Store.credentials_ok a -> Store.credentials_ok (Store.setBootstrapState b a))
  /\ (forall b a, Store.credentials_ok (Store.reset b a)).
Proof. split_and!; done. Qed.

Lemma applyAuthRotation_inv env v c c' :
  applyAuthRotation env v c = inr c' ->
  exists u s, Store.user (auth c) = Some u /\ Store.session (auth c) = Some s
    /\ isAuthTokenRotation v = true /\ sid (r_session (rotationOf v)) = sid s
    /\ c' = applyAuthBundle env
         (mkBundle (r_access_token (rotationOf v)) (r_token_type (rotationOf v))
            (r_access_expires_at (rotationOf v)) u (r_session (rotationOf v))) false c.
Proof.
  unfold applyAuthRotation. intros H. destruct (isAuthTokenRotation v) eqn:Ev; simpl in H; [|done].
  destruct (Store.user (auth c)) as [u|], (Store.session (auth c)) as [s|]; try done.
  destruct (_ =s? _) eqn:Es; simplify_eq/=. bool_to_prop. eauto 8.
Qed.

Lemma rotation_wf v u :
  isAuthTokenRotation v = true ->
  wf_bundle (mkBundle (r_access_token (rotationOf v)) (r_token_type (rotationOf v))
               (r_access_expires_at (rotationOf v)) u (r_session (rotationOf v))).
Proof.
  unfold isAuthTokenRotation. intros H. bool_to_prop.
  match goal with E : hasValidTokenFields v = true |- _ =>
    apply hasValidTokenFields_wf in E as (? & ? & ?) end.
  split_and!; try done. by apply isLoginSession_wf.
Qed.

Lemma tabRuntime_clear_grows env e sync bs n c :
  core_grows n c -> core_grows n (clear (tabRuntime env e) sync bs c).
Proof.
  intros H. unfold tabRuntime; simpl. destruct sync; [by apply clearAuthentication_grows|].
  destruct bs as [[]|]; try (by apply clearAuthentication_grows).
  apply onStore_grows; [|done]. intros. apply setters_ok.
Qed.

Lemma resume_grows env e i p n c :
  core_grows n c -> core_grows n (fst (resume (tabRuntime env e) i c p)).
Proof.
  intros H. destruct i as [r|], p as [race allow s|race allow d|o]; simpl; try done.
  apply onResponse_preserves; [| |by intros; apply onStore_grows|done].
  - intros v b w Hb Hw. apply applyAuthBundle_grows; eauto with js.
  - intros. by apply tabRuntime_clear_grows.
Qed.

Lemma refreshAuthentication_core env locks t :
  core (refreshAuthentication env locks t) = core t.
Proof. unfold refreshAuthentication. by destruct (refreshPromise t). Qed.

Lemma refreshAuthentication_inv env locks t : tab_inv t -> tab_inv (refreshAuthentication env locks t).
Proof.
  unfold tab_inv. rewrite refreshAuthentication_core. intros [Ha Hr]. split; [done|].
  unfold refreshAuthentication. destruct (refreshPromise t) eqn:E; [by rewrite E|simpl; lia].
Qed.

Lemma withCore_inv f t :
  (forall n, core_grows n (core t) -> core_grows n (f (core t))) -> tab_inv t -> tab_inv (withCore f t).
Proof.
  intros Hf [Ha Hr]. unfold tab_inv; simpl. destruct (refreshPromise t) as [r|].
  - destruct (Hf (refreshEpoch r)); done.
  - destruct (Hf 0); [split; [done|lia]|done].
Qed.

Lemma onSyncEvent_grows env e n c : core_grows n c -> core_grows n (fst (onSyncEvent env e c)).
Proof. intros H. unfold onSyncEvent. repeat case_match; simpl; auto using clearAuthentication_grows. Qed.

Lemma advance_inv env i t : tab_inv t -> tab_inv (advance env i t).
Proof.
  intros [Ha Hr]. unfold advance. destruct (refreshPromise t) as [[e []]|] eqn:E;
    unfold tab_inv; rewrite ?E; try done.
  pose proof (resume_grows env e i p e (core t)) as Hg.
  destruct (resume _ _ _ _) as [c' p']. by apply Hg.
Qed.

Lemma step_inv env t t' : tab_inv t -> step env t t' -> tab_inv t'.
Proof.
  destruct setters_ok as (S1 & S2 & S3 & S4). intros Hi Hs. destruct Hs.
  - apply withCore_inv; [|done]. intros. apply applyAuthBundle_grows; eauto with js.
  - apply applyAuthRotation_inv in H as (u & s & _ & _ & Hv & _ & ->).
    apply (withCore_inv (applyAuthBundle env _ false) t); [|done].
    intros. apply applyAuthBundle_grows; auto using rotation_wf.
  - apply withCore_inv; auto using clearAuthentication_grows.
  - apply withCore_inv; auto using onSyncEvent_grows.
  - apply withCore_inv; auto using onStore_grows.
  - apply withCore_inv; auto using onStore_grows.
  - by apply refreshAuthentication_inv.
  - unfold bootstrapAuthentication. repeat case_match; simpl; try done;
      try apply refreshAuthentication_inv; apply withCore_inv; auto using onStore_grows.
  - unfold freshHeadersBegin. case_match; simpl; [done|by apply refreshAuthentication_inv].
  - by apply advance_inv.
  - unfold lockGranted. repeat case_match; try done. destruct Hi as [? Hr].
    split; [done|]. by rewrite H in Hr.
  - unfold lockRejected. repeat case_match; try done. destruct Hi as [? Hr].
    split; [done|]. by rewrite H in Hr.
  - unfold finally. repeat case_match; try done; by destruct Hi.
Qed.

Lemma reachable_inv t : reachable t -> tab_inv t.
Proof. induction 1; [done|by eapply step_inv]. Qed.

(** *** Runs started before the last change of session *)

Definition stale (t : TabState) : Prop :=
  match refreshPromise t with
  | Some r => refreshEpoch r <> authEpoch (core t)
  | None => True
  end.

Lemma runRefresh_stale env e c : e <> authEpoch c -> runRefresh env e c = Settled superseded.
Proof. intros H. unfold runRefresh, start, run. simpl. by rewrite (proj2 (Nat.eqb_neq _ _)). Qed.

(** A step of a stale run leaves the core alone; a run that was suspended is
    settled as superseded. *)
Lemma run_step_stale env t t' :
  stale t -> run_step env t t' -> core t' = core t /\ stale t'.
Proof.
  unfold stale. intros Hst Hs. destruct Hs.
  - unfold advance. destruct (refreshPromise t) as [[e [|p|]]|] eqn:E; rewrite ?E; try done.
    assert (Hc : isCurrent (tabRuntime env e) (core t) = false)
      by (simpl in *; apply Nat.eqb_neq; congruence).
    destruct i as [r|], p as [race allow s|race allow d|o]; simpl; try done.
    by rewrite onResponse_stale.
  - unfold lockGranted. destruct (refreshPromise t) as [[e [|p|]]|] eqn:E; rewrite ?E; done.
  - unfold lockRejected. destruct (refreshPromise t) as [[e [|p|]]|] eqn:E; rewrite ?E; done.
Qed.

Lemma run_steps_stale t t' : stale t -> run_steps t t' -> core t' = core t.
Proof.
  intros Hst Hs. induction Hs as [|env t u v Hs _ IH]; [done|].
  destruct (run_step_stale _ _ _ Hst Hs) as [Hc Hst']. rewrite IH by done. done.
Qed.

End TabFacts.

(** ** Properties *)

Section Properties.
Import Sync Tab Runner System.
Local Open Scope nat_scope.

(** C12: Whatever the server answers and whatever other code does to the session
    in between, a refresh run settles: after at most 16 resumptions its promise
    has an outcome, and it has sent at most 8 requests (four per race series,
    two series because a session mismatch restarts the run once). *)
Theorem refresh_run_settles {W} (rt : AuthRefreshRuntime W) (w : W)
    (l : list ((W -> W) * AuthRefreshHTTPResponse)) :
  16 <= length l ->
  (exists o, last (drive rt l w (start rt w)) = Some (Settled o))
  /\ length (filter (fun p => is_requested p = true) (drive rt l w (start rt w))) <= 8.
Proof.
  intros Hl. unfold start. destruct (run_cases rt 0 true w) as [-> | ->].
  - destruct (drive_spec rt l w (Settled superseded)) as [? ?]; [done|simpl; lia|]. simpl in *. split; [done|lia].
  - apply (drive_spec rt l w (Requested 0 true (getExpectedSID rt w))); simpl; lia.
Qed.

(** A concrete environment and a server that always answers with a race. *)
Definition exampleEnv : Env := mkEnv (js "tab-a") (js "n1") (num 1700000000000).
Definition raceResponse : AuthRefreshHTTPResponse :=
  mkResponse 409 (JObject [(js "code", JString (js "AUTH_REFRESH_RACE"))]) JUndefined.

Lemma refresh_run_settles_witness :
  exists o, last (drive (tabRuntime exampleEnv 0) (replicate 16 (id, raceResponse)) initialCore
                    (start (tabRuntime exampleEnv 0) initialCore)) = Some (Settled o).
Proof. apply refresh_run_settles. vm_compute. lia. Defined.

(** C29: In every reachable state of a tab the access token, its expiry and the
    session are present together or absent together, and when present the
    token and the session id are not empty and the expiry is positive. *)
Theorem reachable_credentials t : reachable t -> Store.credentials_ok (auth (core t)).
Proof. intros H. by apply reachable_inv in H as [? _]. Qed.

Lemma reachable_credentials_witness :
  Store.credentials_ok (auth (core (refreshAuthentication exampleEnv true initialTab))).
Proof.
  apply reachable_credentials. apply (reach_step exampleEnv initialTab); constructor.
Defined.

(** C1: A refresh that was in flight when the user signed out can never bring
    credentials back: from any reachable state, after a sign-out, whatever
    responses, timers and lock grants the old run receives, the store, the
    epoch and the published events stay exactly as the sign-out left them, and
    nobody is signed in. *)
Theorem sign_out_final env sync bs t t' :
  reachable t ->
  run_steps (withCore (clearAuthentication env sync bs) t) t' ->
  core t' = clearAuthentication env sync bs (core t)
  /\ Store.signed_out (auth (core t')).
Proof.
  intros Ht Hs. apply reachable_inv in Ht as [_ Hr].
  apply run_steps_stale in Hs as Hc; [|unfold stale; simpl; case_match; lia || done].
  rewrite Hc. split; done.
Qed.

Definition exampleBundle : jsval :=
  JObject [(js "access_token", JString (js "tok")); (js "token_type", JString (js "Bearer"));
           (js "access_expires_at", JNumber (num 1700000600));
           (js "user", JObject [(js "id", JNumber (num 42)); (js "username", JString (js "u"));
                                (js "role", JNumber (num 1))]);
           (js "session", JObject [(js "sid", JString (js "session-a")); (js "current", JBool true);
              (js "login_method", JString (js "password")); (js "ip", JString (js "127.0.0.1"));
              (js "user_agent", JString (js "test")); (js "created_at", JNumber (num 100));
              (js "last_active_at", JNumber (num 100)); (js "expires_at", JNumber (num 1000))])].
Definition okResponse : AuthRefreshHTTPResponse :=
  mkResponse 200 (JObject [(js "success", JBool true); (js "data", exampleBundle)]) JUndefined.

Lemma sign_out_final_witness :
  Store.signed_out (auth (core (advance exampleEnv (Response okResponse)
    (withCore (clearAuthentication exampleEnv true complete)
       (refreshAuthentication exampleEnv false initialTab))))).
Proof.
  eapply (sign_out_final exampleEnv true complete (refreshAuthentication exampleEnv false initialTab)).
  - apply (reach_step exampleEnv initialTab); constructor.
  - eapply (run_steps_cons exampleEnv); [apply run_advance|apply run_steps_refl].
Defined.

(** C38: A refresh superseded by a sign-in cannot disturb the new session: the
    credentials installed by the sign-in survive every later step of the run. *)
Theorem sign_in_survives_old_refresh env v sync t t' :
  reachable t -> isAuthBundle v = true ->
  run_steps (withCore (applyAuthBundle env (bundleOf v) sync) t) t' ->
  auth (core t') = Store.setBundle (bundleOf v) (auth (core t)).
Proof.
  intros Ht _ Hs. apply reachable_inv in Ht as [_ Hr].
  apply run_steps_stale in Hs as ->; [done|]. unfold stale; simpl. case_match; lia || done.
Qed.

Lemma sign_in_survives_old_refresh_witness :
  Store.accessToken (auth (core (advance exampleEnv (Response (mkResponse 401 JUndefined JUndefined))
    (withCore (applyAuthBundle exampleEnv (bundleOf exampleBundle) true)
       (refreshAuthentication exampleEnv false initialTab))))) = Some (js "tok").
Proof.
  rewrite (sign_in_survives_old_refresh exampleEnv exampleBundle true
             (refreshAuthentication exampleEnv false initialTab)).
  - vm_compute; reflexivity.
  - apply (reach_step exampleEnv initialTab); constructor.
  - vm_compute; reflexivity.
  - eapply (run_steps_cons exampleEnv); [apply run_advance|apply run_steps_refl].
Defined.

(** Close the branches of a behaviour table: a branch that was taken, or one
    whose condition contradicts what is known. *)
Local Ltac close_branches :=
  split_and!;
  solve [ done | by left | by right | eauto | intros; lia
        | intros; exfalso; lia | intros; exfalso; congruence
        | intros; simplify_eq; eauto ].

(** What a response does to a run that is still current, on every branch:
    a valid bundle is installed without notifying other tabs; [401] signs the
    tab out and announces it; a failure of the server or a rate limit keeps
    the session; a mismatch is retried once, anonymously; anything else clears
    the local session only. *)
Theorem refresh_response_behaviour env e race allow r c :
  authEpoch c = e ->
  let d := if isRecord (data r) then data r else JUndefined in
  let code := as_string (field "code" d) in
  let ok := match field "success" d with JBool b => b | _ => false end in
  let '(c', p) := onResponse (tabRuntime env e) race allow r c in
  match (if ok then Guards.parseBundle (field "data" d) else None) with
  | Some b => c' = applyAuthBundle env b false c /\ outbox c' = outbox c
              /\ p = Settled (Authenticated b)
  | None =>
      (status r = 401%Z -> c' = clearAuthentication env true complete c /\ p = Settled Anonymous)
      /\ (status r = 0%Z \/ (500 <= status r)%Z \/ status r = 429%Z ->
           c' = onStore (Store.setBootstrapState idle) c
           /\ exists err, p = Settled (TransientError err))
      /\ (status r = 409%Z -> code = Some (js "AUTH_REFRESH_RACE") -> race < 3 ->
           c' = c /\ exists delay, p = Delayed (S race) allow delay)
      /\ (status r = 409%Z -> code = Some (js "AUTH_SESSION_MISMATCH") -> allow = true ->
           c' = onStore (Store.reset idle) c /\ p = Requested 0 false None)
      /\ (status r = 409%Z -> code = Some (js "AUTH_SESSION_MISMATCH") -> allow = false ->
           c' = clearAuthentication env false complete c /\ p = Settled (OutOfSync code))
      /\ (outbox c' = outbox c \/ status r = 401%Z)
  end.
Proof.
  intros <- d code ok. unfold onResponse. simpl isCurrent. rewrite Nat.eqb_refl. simpl negb. cbv iota.
  fold d. change (responseCode d) with code. change (Runner.parseBundle _) with Guards.parseBundle.
  fold ok. destruct (if ok then Guards.parseBundle (field "data" d) else None) as [b|].
  { simpl. by rewrite app_nil_r. }
  assert (Hout : outbox (clearAuthentication env false complete c) = outbox c).
  { simpl. case_match; by rewrite app_nil_r. }
  assert (Hne : js "AUTH_REFRESH_RACE" <> js "AUTH_SESSION_MISMATCH") by (vm_compute; congruence).
  destruct (status r =? 409)%Z eqn:E409; simpl andb; cbv iota; bool_to_prop.
  - rewrite E409. destruct code as [k|]; simpl code_is; cbv iota; [|close_branches].
    destruct (k =s? js "AUTH_REFRESH_RACE") eqn:E1; bool_to_prop; [subst k|].
    + destruct (refreshRaceDelays !! race) eqn:Er; [close_branches|].
      apply lookup_ge_None in Er. simpl in Er. close_branches.
    + destruct (k =s? js "AUTH_SESSION_MISMATCH") eqn:E2; bool_to_prop; [subst k|close_branches].
      unfold run. destruct allow; simpl; rewrite ?Nat.eqb_refl; close_branches.
  - destruct (status r =? 401)%Z eqn:E401; bool_to_prop; [close_branches|].
    destruct ((status r =? 0)%Z || (500 <=? status r)%Z || (status r =? 429)%Z) eqn:Et;
      bool_to_prop; close_branches.
Qed.

Lemma refresh_response_behaviour_witness :
  let '(c', p) := onResponse (tabRuntime exampleEnv 0) 0 true
                    (mkResponse 401 JUndefined JUndefined) initialCore in
  c' = clearAuthentication exampleEnv true complete initialCore /\ p = Settled Anonymous.
Proof.
  refine (proj1 (refresh_response_behaviour exampleEnv 0 0 true
                   (mkResponse 401 JUndefined JUndefined) initialCore _) _); reflexivity.
Defined.

(** A rotation is applied only to the session it belongs to.  A value that
    is not a valid bearer rotation, a tab without a session and a different
    session id are refused with their error and change nothing; an accepted
    one keeps the user and the session id, installs the new token, starts a
    new epoch and tells no other tab. *)
Theorem rotation_behaviour env v c :
  match applyAuthRotation env v c with
  | inl InvalidResponse => isAuthTokenRotation v = false
  | inl NoActiveSession => Store.user (auth c) = None \/ Store.session (auth c) = None
  | inl SessionMismatch =>
      exists s, Store.session (auth c) = Some s /\ sid (r_session (rotationOf v)) <> sid s
  | inr c' =>
      Store.user (auth c') = Store.user (auth c)
      /\ Store.sessionSID (auth c') = Store.sessionSID (auth c)
      /\ Store.sessionSID (auth c) <> None
      /\ Store.accessToken (auth c') = Some (str_of (field "access_token" v))
      /\ authEpoch c' = S (authEpoch c) /\ outbox c' = outbox c
  end.
Proof.
  destruct (applyAuthRotation env v c) as [err|c'] eqn:E.
  - unfold applyAuthRotation in E. destruct (isAuthTokenRotation v); simplify_eq/=; [|done].
    destruct (Store.user (auth c)), (Store.session (auth c)) as [s|]; simplify_eq/=; auto.
    destruct (_ =s? _) eqn:Es; simplify_eq/=. bool_to_prop. eauto.
  - apply applyAuthRotation_inv in E as (u & s & Hu & Hs & _ & Hsid & ->).
    unfold Store.sessionSID. rewrite Hs. split_and!; try done.
    + change (Some (sid (r_session (rotationOf v))) = Some (sid s)). by rewrite Hsid.
    + simpl. by rewrite app_nil_r.
Qed.

Lemma unexpired_headers limit t :
  unexpired limit (auth (core t)) = true ->
  exists tok exp, Store.accessToken (auth (core t)) = Some tok /\ tok <> []
    /\ Store.accessExpiresAt (auth (core t)) = Some exp /\ num_lt limit exp = true
    /\ getCommonHeaders (core t) = [(js "Content-Type", js "application/json");
                                    (js "Authorization", js "Bearer " ++ tok)].
Proof.
  unfold unexpired, getCommonHeaders. intros H.
  destruct (Store.accessToken _) as [tok|], (Store.accessExpiresAt _) as [exp|]; try done.
  bool_to_prop. exists tok, exp.
  match goal with E : truthy tok = true |- _ => rewrite E; apply truthy_true in E end. done.
Qed.

(** The headers of a streaming request carry a usable token.  When
    [getFreshAuthHeaders] returns without refreshing, the token stays valid
    for more than a minute; when it falls back on the stored token after a
    refresh that did not authenticate, that token has not expired; otherwise it
    throws. *)
Theorem fresh_headers_sound env locks t :
  (forall t' hs, freshHeadersBegin env locks t = (t', Some hs) ->
     t' = t /\ exists tok exp, Store.accessToken (auth (core t)) = Some tok /\ tok <> []
       /\ Store.accessExpiresAt (auth (core t)) = Some exp
       /\ num_lt (num_add (nowSeconds env) (num 60)) exp = true
       /\ hs = [(js "Content-Type", js "application/json");
                (js "Authorization", js "Bearer " ++ tok)])
  /\ (forall o hs, freshHeadersResume env o t = inr hs -> (forall b, o <> Authenticated b) ->
     exists tok exp, Store.accessToken (auth (core t)) = Some tok /\ tok <> []
       /\ Store.accessExpiresAt (auth (core t)) = Some exp /\ num_lt (nowSeconds env) exp = true
       /\ hs = [(js "Content-Type", js "application/json");
                (js "Authorization", js "Bearer " ++ tok)]).
Proof.
  split.
  - intros t' hs. unfold freshHeadersBegin. destruct (unexpired _ _) eqn:E; [|done].
    intros [= <- <-]. split; [done|]. apply unexpired_headers in E. naive_solver.
  - intros o hs H Ho. unfold freshHeadersResume in H.
    destruct (unexpired (nowSeconds env) (auth (core t))) eqn:E.
    + apply unexpired_headers in E. destruct o; try (by destruct (Ho bundle)); simplify_eq; naive_solver.
    + destruct o; try done. by destruct (Ho bundle).
Qed.

Lemma fresh_headers_sound_witness :
  exists tok exp,
    Store.accessToken (auth (core (withCore (applyAuthBundle exampleEnv (bundleOf exampleBundle) true) initialTab)))
      = Some tok /\ tok <> []
    /\ Store.accessExpiresAt (auth (core (withCore (applyAuthBundle exampleEnv (bundleOf exampleBundle) true) initialTab)))
      = Some exp
    /\ num_lt (nowSeconds exampleEnv) exp = true
    /\ getCommonHeaders (core (withCore (applyAuthBundle exampleEnv (bundleOf exampleBundle) true) initialTab))
      = [(js "Content-Type", js "application/json"); (js "Authorization", js "Bearer " ++ tok)].
Proof.
  apply (proj2 (fresh_headers_sound exampleEnv true
    (withCore (applyAuthBundle exampleEnv (bundleOf exampleBundle) true) initialTab))
    (TransientError SupersededError)).
  - vm_compute; reflexivity.
  - intros b; congruence.
Defined.

(** An event survives the trip to another tab. *)
Lemma deliver_toValue env e :
  ev_sid e <> [] -> source e <> authSyncSource env ->
  num_lt (math_abs (num_sub (now env) (timestamp e))) (num 60000) = true ->
  deliver env (toValue e) = Some e.
Proof.
  intros Hs Hsrc Hts. destruct e as [k s src n ts]; simpl in *.
  assert (Hs' : truthy s = true) by (by apply truthy_true).
  assert (Hv : isAuthSessionSyncEvent (toValue (mkEvent k s src n ts)) = true)
    by (destruct k; unfold isAuthSessionSyncEvent; simpl; rewrite Hs'; reflexivity).
  assert (He : eventOf (toValue (mkEvent k s src n ts)) = mkEvent k s src n ts)
    by (destruct k; reflexivity).
  unfold deliver. rewrite Hv, He. simpl. by rewrite (proj2 (str_eqb_neq _ _) Hsrc), Hts.
Qed.

(** Signing out in one tab signs out the other tabs of the same session and
    nothing else.  The event published by tab A's sign-out, delivered to
    another tab less than a minute later, is accepted there; if that tab holds
    the same session it is signed out without publishing anything in turn, and
    a tab with another session, or none, is left unchanged. *)
Theorem sign_out_reaches_other_tabs envA envB a b bs sess :
  Store.session (auth a) = Some sess -> sid sess <> [] ->
  authSyncSource envA <> authSyncSource envB ->
  num_lt (math_abs (num_sub (now envB) (now envA))) (num 60000) = true ->
  exists e, outbox (clearAuthentication envA true bs a) = outbox a ++ [e]
    /\ deliver envB (toValue e) = Some e
    /\ (Store.sessionSID (auth b) = Some (sid sess) ->
         Store.signed_out (auth (fst (onSyncEvent envB e b)))
         /\ outbox (fst (onSyncEvent envB e b)) = outbox b)
    /\ (Store.sessionSID (auth b) <> Some (sid sess) -> onSyncEvent envB e b = (b, false)).
Proof.
  intros Hs Hne Hsrc Hts.
  exists (mkEvent signed_out (sid sess) (authSyncSource envA) (randomIdentifier envA) (now envA)).
  assert (Ht : truthy (sid sess) = true) by (by apply truthy_true).
  split_and!.
  - unfold clearAuthentication, Store.sessionSID. simpl. rewrite Hs. simpl.
    unfold publishAuthSessionEvent. by rewrite Ht.
  - by apply deliver_toValue.
  - intros Hb. unfold onSyncEvent. simpl. rewrite Hb, Ht, str_eqb_refl. simpl.
    rewrite Hb, app_nil_r. split; [by split_and!|done].
  - intros Hb. unfold onSyncEvent. simpl. destruct (Store.sessionSID (auth b)) as [s|]; [|done].
    rewrite (proj2 (str_eqb_neq (sid sess) s)) by congruence. by rewrite andb_false_r.
Qed.

Definition exampleTabCore : Core := applyAuthBundle exampleEnv (bundleOf exampleBundle) true initialCore.
Definition otherEnv : Env := mkEnv (js "tab-b") (js "n2") (num 1700000000500).

Lemma sign_out_reaches_other_tabs_witness :
  exists e, outbox (clearAuthentication exampleEnv true complete exampleTabCore) = outbox exampleTabCore ++ [e]
    /\ deliver otherEnv (toValue e) = Some e
    /\ (Store.sessionSID (auth exampleTabCore) = Some (js "session-a") ->
         Store.signed_out (auth (fst (onSyncEvent otherEnv e exampleTabCore)))
         /\ outbox (fst (onSyncEvent otherEnv e exampleTabCore)) = outbox exampleTabCore)
    /\ (Store.sessionSID (auth exampleTabCore) <> Some (js "session-a") ->
         onSyncEvent otherEnv e exampleTabCore = (exampleTabCore, false)).
Proof.
  apply (sign_out_reaches_other_tabs exampleEnv otherEnv exampleTabCore exampleTabCore complete
           (b_session (bundleOf exampleBundle))); vm_compute; congruence.
Defined.

(** A tab never reacts to its own events. *)
Lemma deliver_own env e : source e = authSyncSource env -> deliver env (toValue e) = None.
Proof.
  intros Hs. unfold deliver.
  assert (source (eventOf (toValue e)) = source e) as -> by done.
  by rewrite Hs, str_eqb_refl, andb_false_r.
Qed.

(** The lock request is returned from the [try] block without being awaited,
    so its rejection is not caught: the promise of the refresh rejects, the
    bootstrap state stays [checking], and no [transient_error] is produced. *)
Lemma lock_rejection_escapes env t :
  reachable t -> refreshPromise t = None ->
  Store.bootstrapState (auth (core t)) = idle ->
  currentValidAuthBundle env (core t) = None ->
  let t' := lockRejected (fst (bootstrapAuthentication env true t)) in
  refreshPromise t' = Some (mkRun (authEpoch (core t)) Rejected)
  /\ Store.bootstrapState (auth (core t')) = checking.
Proof.
  intros _ Hp Hb Hv. unfold bootstrapAuthentication. rewrite Hv, Hb. simpl.
  unfold refreshAuthentication. simpl. rewrite Hp. done.
Qed.

End Properties.
