(* ===== verification/PlaygroundMessages.v ===== *)
(** * Playground messages (web/src/features/playground/lib/message/)

    The conversation of the playground is a list of messages; this file models
    the message data, the separation of [<think>] reasoning from visible text,
    the accumulation of streamed chunks, the completion and error paths, the
    clean-up of messages loaded from storage and the edits of a conversation.

    [Date.now()] and [nanoid()] are arguments ([now], [id]): one instant per
    synchronous handler.  [t], the translation function of i18next, is a
    variable of the sections that use it. *)

From Stdlib Require Import SpecFloat.
From S2P Require Import Prelude JsValue.

(** ** Data (types.ts, constants.ts) *)

Inductive MessageRole := USER | ASSISTANT | SYSTEM.
Inductive MessageStatus := LOADING | STREAMING | COMPLETE | ERROR.

#[export] Instance MessageRole_eq_dec : EqDecision MessageRole.
Proof. solve_decision. Defined.
#[export] Instance MessageStatus_eq_dec : EqDecision MessageStatus.
Proof. solve_decision. Defined.

Record MessageVersion := mkVersion { id : jsstr; content : jsstr }.

Record Reasoning := mkReasoning {
  r_content : jsstr; r_duration : jsnum; r_startedAt : option jsnum;
  r_completedAt : option jsnum; r_durationMs : option jsnum }.

Record Source := mkSource { href : jsstr; title : jsstr }.

(** [errorCode?: string | null]: absent, [null] or a string. *)
Record Message := mkMessage {
  key : jsstr;
  from : MessageRole;
  versions : list MessageVersion;
  createdAt : option jsnum;
  startedAt : option jsnum;
  completedAt : option jsnum;
  durationMs : option jsnum;
  sources : option (list Source);
  reasoning : option Reasoning;
  isReasoningStreaming : option bool;
  isReasoningComplete : option bool;
  isContentComplete : option bool;
  status : option MessageStatus;
  errorCode : option (option jsstr) }.

#[export] Instance MessageVersion_eq_dec : EqDecision MessageVersion.
Proof. solve_decision. Defined.
#[export] Instance Reasoning_eq_dec : EqDecision Reasoning.
Proof. solve_decision. Defined.
#[export] Instance Source_eq_dec : EqDecision Source.
Proof. solve_decision. Defined.
#[export] Instance Message_eq_dec : EqDecision Message.
Proof. solve_decision. Defined.

(** Object spreads [{...message, field}]. *)
Definition with_versions (v : list MessageVersion) (m : Message) : Message :=
  mkMessage (key m) (from m) v (createdAt m) (startedAt m) (completedAt m) (durationMs m)
    (sources m) (reasoning m) (isReasoningStreaming m) (isReasoningComplete m)
    (isContentComplete m) (status m) (errorCode m).
Definition with_reasoning (r : option Reasoning) (m : Message) : Message :=
  mkMessage (key m) (from m) (versions m) (createdAt m) (startedAt m) (completedAt m) (durationMs m)
    (sources m) r (isReasoningStreaming m) (isReasoningComplete m)
    (isContentComplete m) (status m) (errorCode m).
Definition with_streaming (b : bool) (m : Message) : Message :=
  mkMessage (key m) (from m) (versions m) (createdAt m) (startedAt m) (completedAt m) (durationMs m)
    (sources m) (reasoning m) (Some b) (isReasoningComplete m)
    (isContentComplete m) (status m) (errorCode m).
Definition with_status (s : MessageStatus) (m : Message) : Message :=
  mkMessage (key m) (from m) (versions m) (createdAt m) (startedAt m) (completedAt m) (durationMs m)
    (sources m) (reasoning m) (isReasoningStreaming m) (isReasoningComplete m)
    (isContentComplete m) (Some s) (errorCode m).
Definition with_errorCode (e : option jsstr) (m : Message) : Message :=
  mkMessage (key m) (from m) (versions m) (createdAt m) (startedAt m) (completedAt m) (durationMs m)
    (sources m) (reasoning m) (isReasoningStreaming m) (isReasoningComplete m)
    (isContentComplete m) (status m) (Some e).
Definition with_createdAt (c : option jsnum) (m : Message) : Message :=
  mkMessage (key m) (from m) (versions m) c (startedAt m) (completedAt m) (durationMs m)
    (sources m) (reasoning m) (isReasoningStreaming m) (isReasoningComplete m)
    (isContentComplete m) (status m) (errorCode m).
Definition with_timing (s c d : jsnum) (m : Message) : Message :=
  mkMessage (key m) (from m) (versions m) (createdAt m) (Some s) (Some c) (Some d)
    (sources m) (reasoning m) (isReasoningStreaming m) (isReasoningComplete m)
    (isContentComplete m) (status m) (errorCode m).

(** The error texts of constants.ts. *)
Definition API_REQUEST_ERROR := js "Request error occurred".
Definition NETWORK_ERROR := js "Network connection failed or server not responding".
Definition PARSE_ERROR := js "Error parsing response data".
Definition STREAM_START_ERROR := js "Error establishing connection".
Definition CONNECTION_CLOSED := js "Connection closed".
Definition INTERRUPTED := js "Generation was interrupted".

(** ** Versions and construction (message-utils.ts) *)

Definition createMessageVersion (new_id c : jsstr) : MessageVersion := mkVersion new_id c.

Definition getCurrentVersion (m : Message) : MessageVersion :=
  match versions m with v :: _ => v | [] => mkVersion (js "default") [] end.

Definition getMessageContent (m : Message) : jsstr := content (getCurrentVersion m).

Definition hasMessageContent (m : Message) : bool :=
  negb (bool_decide (trim (getMessageContent m) = [])).

Definition updateCurrentVersionContent (m : Message) (c : jsstr) : Message :=
  with_versions [mkVersion (id (getCurrentVersion m)) c] m.

Definition createUserMessage (new_key new_id c : jsstr) (created : jsnum) : Message :=
  mkMessage new_key USER [createMessageVersion new_id c] (Some created)
    None None None None None None None None None None.

Definition createLoadingAssistantMessage (new_key new_id : jsstr) (started : jsnum) : Message :=
  mkMessage new_key ASSISTANT [createMessageVersion new_id []] (Some started) (Some started)
    None None None None (Some false) (Some false) (Some false) (Some LOADING) None.

Record ContentPart := mkPart { part_is_text : bool; part_text : option jsstr; image_url : option jsstr }.

Definition buildMessageContent (text : jsstr) (imageUrls : list jsstr) : jsstr + list ContentPart :=
  let validImages := filter (fun url => trim url <> []) imageUrls in
  match validImages with
  | [] => inl text
  | _ => inr (mkPart true (Some text) None
              :: ((fun url => mkPart false None (Some (trim url))) <$> validImages))
  end.

Definition getTextContent (c : jsstr + list ContentPart) : jsstr :=
  match c with
  | inl s => s
  | inr parts =>
      match list_find (fun p => part_is_text p = true) parts with
      | Some (_, p) => default [] (part_text p)
      | None => []
      end
  end.

Definition formatMessageForAPI (m : Message) : MessageRole * jsstr :=
  (from m, content (getCurrentVersion m)).

Definition isValidMessage (m : Message) : bool :=
  if bool_decide (versions m = []) then false
  else if bool_decide (from m = ASSISTANT) && negb (hasMessageContent m) then false
  else true.

(** ** Timing (message-timing-utils.ts) *)

Definition completeAssistantTiming (m : Message) (now : jsnum) : Message :=
  if negb (bool_decide (from m = ASSISTANT)) then m
  else
    let started := default (default now (createdAt m)) (startedAt m) in
    with_timing started now (math_max (num 0) (num_sub now started)) m.

Definition startReasoningTiming (m : Message) (now : jsnum) : Reasoning :=
  match reasoning m with
  | Some r => mkReasoning (r_content r) (r_duration r) (Some (default now (r_startedAt r)))
                (r_completedAt r) (r_durationMs r)
  | None => mkReasoning [] (num 0) (Some now) None None
  end.

Definition completeReasoningTiming (m : Message) (now : jsnum) : Message :=
  match reasoning m with
  | Some (mkReasoning c d s e None) =>
      let started := default (default now (startedAt m)) s in
      let ms := math_max (num 0) (num_sub now started) in
      with_reasoning (Some (mkReasoning c (math_ceil (num_div ms (num 1000)))
                              (Some started) (Some now) (Some ms))) m
  | _ => m
  end.

Definition r_with_content (c : jsstr) (r : Reasoning) : Reasoning :=
  mkReasoning c (r_duration r) (r_startedAt r) (r_completedAt r) (r_durationMs r).

(** ** Reasoning tags (message-reasoning-utils.ts) *)

Definition open_tag := js "<think>".
Definition close_tag := js "</think>".

Record ParsedThinkTags := mkThink {
  visibleContent : jsstr; t_reasoning : jsstr; hasUnclosedTag : bool }.

(** The [while (true)] loop; [None] is running out of fuel, which
    [think_loop_total] excludes for the fuel used below. *)
Fixpoint think_loop (fuel : nat) (s : jsstr) (currentPos : nat)
    (visibleParts reasoningParts : list jsstr) : option (list jsstr * list jsstr * bool) :=
  match fuel with
  | O => None
  | S fuel' =>
      match index_of_from open_tag s currentPos with
      | None =>
          Some (if (currentPos <? length s)%nat then visibleParts ++ [drop currentPos s]
                else visibleParts, reasoningParts, false)
      | Some openPos =>
          let visibleParts' :=
            if (currentPos <? openPos)%nat then visibleParts ++ [slice s currentPos openPos]
            else visibleParts in
          match index_of_from close_tag s (openPos + 7) with
          | None => Some (visibleParts', reasoningParts ++ [drop (openPos + 7) s], true)
          | Some closePos =>
              think_loop fuel' s (closePos + 8) visibleParts'
                (reasoningParts ++ [slice s (openPos + 7) closePos])
          end
      end
  end.

(** The separator of two reasoning blocks, two line feeds. *)
Definition blank_line : jsstr := [10; 10]%N.

Definition parseThinkTags (s : jsstr) : ParsedThinkTags :=
  if negb (includes open_tag s) then mkThink s [] false
  else match think_loop (S (length s)) s 0 [] [] with
       | Some (vs, rs, unclosed) =>
           mkThink (trim (join [] vs)) (trim (join blank_line rs)) unclosed
       | None => mkThink [] [] false
       end.

(** ** Streaming (message-streaming-utils.ts) *)

Definition processStreamingContent (m : Message) (contentChunk : jsstr) (now : jsnum) : Message :=
  let fullContent := getMessageContent m ++ contentChunk in
  if bool_decide (reasoning m = None) && negb (includes open_tag fullContent) then
    with_streaming false (updateCurrentVersionContent m fullContent)
  else
    let p := parseThinkTags fullContent in
    let finalReasoning :=
      if truthy (t_reasoning p)
      then Some (r_with_content (t_reasoning p) (startReasoningTiming m now))
      else reasoning m in
    with_streaming (hasUnclosedTag p)
      (with_reasoning finalReasoning (updateCurrentVersionContent m fullContent)).

Inductive StreamChunkType := reasoning_chunk | content_chunk.

Definition getAppendableChunk (currentContent chunk : jsstr) : jsstr :=
  if negb (truthy currentContent) || negb (starts_with currentContent chunk) then chunk
  else drop (length currentContent) chunk.

Definition applyStreamingChunk (m : Message) (type : StreamChunkType) (chunk : jsstr) (now : jsnum) : Message :=
  if bool_decide (status m = Some ERROR) then m
  else match type with
  | reasoning_chunk =>
      let r := startReasoningTiming m now in
      with_status STREAMING (with_streaming true
        (with_reasoning (Some (r_with_content (r_content r ++ getAppendableChunk (r_content r) chunk) r)) m))
  | content_chunk =>
      let appendable := getAppendableChunk (getMessageContent m) chunk in
      let contentMessage := processStreamingContent m appendable now in
      with_status STREAMING
        (if default false (isReasoningStreaming contentMessage) then contentMessage
         else completeReasoningTiming contentMessage now)
  end.

Definition finalizeMessage (m : Message) (apiReasoningContent : jsstr) (now : jsnum) : Message :=
  let current := getMessageContent m in
  let parsed := if includes open_tag current then Some (parseThinkTags current) else None in
  let visible := match parsed with Some p => visibleContent p | None => current end in
  let finalReasoning :=
    apiReasoningContent
    ||| match reasoning m with Some r => r_content r | None => [] end
    ||| match parsed with Some p => t_reasoning p | None => [] end in
  completeReasoningTiming
    (with_streaming false
      (with_reasoning
         (if truthy finalReasoning
          then Some (r_with_content finalReasoning (startReasoningTiming m now)) else None)
         (updateCurrentVersionContent m visible))) now.

Definition completeAssistantMessage (m : Message) (now : jsnum) : Message :=
  completeAssistantTiming (with_status COMPLETE (finalizeMessage m [] now)) now.

Definition isAssistantMessageFinal (m : Message) : bool :=
  bool_decide (status m = Some COMPLETE) || bool_decide (status m = Some ERROR).

Definition isAssistantMessagePending (m : Message) : bool :=
  bool_decide (status m = Some LOADING) || bool_decide (status m = Some STREAMING).

Definition isPendingAssistantMessage (m : Message) : bool :=
  bool_decide (from m = ASSISTANT) && isAssistantMessagePending m.

(** A choice of a chat completion: its text and its reasoning, empty when
    absent. *)
Record ChatCompletionChoice := mkChoice { choice_content : jsstr; choice_reasoning : jsstr }.

Definition applyChatCompletionChoice (m : Message) (c : ChatCompletionChoice) (now : jsnum) : Message :=
  completeAssistantTiming
    (with_status COMPLETE
       (finalizeMessage (updateCurrentVersionContent m (choice_content c)) (choice_reasoning c) now)) now.

Definition hasChatCompletionChoice (choices : list ChatCompletionChoice) : bool :=
  match choices with [] => false | _ => true end.

Definition applyChatCompletionResponse (m : Message) (choices : list ChatCompletionChoice) (now : jsnum) :
    option Message :=
  match choices with [] => None | c :: _ => Some (applyChatCompletionChoice m c now) end.

(** The last index at which a predicate holds, as the backwards [for] loops
    search it. *)
Fixpoint find_last {A} (f : A -> bool) (l : list A) : option nat :=
  match l with
  | [] => None
  | x :: l' => match find_last f l' with
               | Some i => Some (S i)
               | None => if f x then Some 0 else None
               end
  end.

Section Translated.
Variable t : jsstr -> jsstr.

Definition sanitizeMessage (m : Message) (now : jsnum) : Message :=
  let finalized := finalizeMessage m [] now in
  let hasReasoning := match reasoning finalized with Some r => truthy (trim (r_content r)) | None => false end in
  if hasMessageContent finalized || hasReasoning then
    completeAssistantTiming (with_streaming false (with_status COMPLETE finalized)) now
  else
    completeAssistantTiming
      (with_streaming false (with_status ERROR
         (updateCurrentVersionContent finalized (t API_REQUEST_ERROR ++ js ": " ++ t INTERRUPTED)))) now.

Definition sanitizeMessagesOnLoad (messages : list Message) (now : jsnum) : list Message :=
  match find_last isPendingAssistantMessage messages with
  | None => messages
  | Some i => alter (fun m => sanitizeMessage m now) i messages
  end.

End Translated.

(** ** Updates of the last message (message-update-utils.ts) *)

Definition updateLastAssistantMessage (messages : list Message) (updater : Message -> Message) : list Message :=
  match last messages with
  | None => messages
  | Some m =>
      if negb (bool_decide (from m = ASSISTANT)) then messages
      else alter updater (length messages - 1) messages
  end.

Definition updateAssistantMessageWithError (messages : list Message) (errorMessage : jsstr)
    (code : option jsstr) (ttl : jsstr) (now : jsnum) : list Message :=
  updateLastAssistantMessage messages (fun m =>
    completeAssistantTiming
      (with_errorCode (match code with Some c => if truthy c then Some c else None | None => None end)
        (with_streaming false (with_status ERROR
          (updateCurrentVersionContent m (ttl ++ js ": " ++ errorMessage))))) now).

(** ** Conversation edits (conversation-message-utils.ts) *)

(** Fresh identifiers for the messages created by an edit. *)
Record Fresh := mkFresh { key1 : jsstr; id1 : jsstr; key2 : jsstr; id2 : jsstr }.

Definition appendUserMessagePair (fr : Fresh) (messages : list Message) (c : jsstr) (now : jsnum) : list Message :=
  messages ++ [createUserMessage (key1 fr) (id1 fr) c now;
               createLoadingAssistantMessage (key2 fr) (id2 fr) now].

Definition findIndexByKey (k : jsstr) (messages : list Message) : option (nat * Message) :=
  list_find (fun m => key m = k) messages.

Definition createRegeneratedMessages (fr : Fresh) (messages : list Message) (messageKey : jsstr) (now : jsnum) :
    option (list Message) :=
  match findIndexByKey messageKey messages with
  | None => None
  | Some (i, m) =>
      if bool_decide (from m = USER)
      then Some (take (i + 1) messages ++ [createLoadingAssistantMessage (key1 fr) (id1 fr) now])
      else Some (take i messages ++ [createLoadingAssistantMessage (key1 fr) (id1 fr) now])
  end.

Definition removeMessageByKey (messages : list Message) (messageKey : jsstr) : list Message :=
  filter (fun m => key m <> messageKey) messages.

Definition getPreviousUserMessage (messages : list Message) (beforeIndex : nat) : option Message :=
  match find_last (fun m => bool_decide (from m = USER)) (take beforeIndex messages) with
  | Some i => messages !! i
  | None => None
  end.

Record ApplyMessageEditResult := mkEdit { edit_messages : list Message; shouldSend : bool }.

Definition applyMessageEdit (fr : Fresh) (messages : list Message) (messageKey c : jsstr)
    (shouldSubmit : bool) (now : jsnum) : option ApplyMessageEditResult :=
  match findIndexByKey messageKey messages with
  | None => None
  | Some (i, m0) =>
      let updated :=
        (fun m => if bool_decide (key m = messageKey)
                  then with_createdAt (if shouldSubmit then Some now else createdAt m)
                         (updateCurrentVersionContent m c)
                  else m) <$> messages in
      if negb shouldSubmit || negb (bool_decide (from m0 = USER)) then Some (mkEdit updated false)
      else Some (mkEdit (take (i + 1) updated
                         ++ [createLoadingAssistantMessage (key1 fr) (id1 fr) now]) true)
  end.

(** ** What the message views show (message-content-utils.ts,
       message-error-utils.ts, message-editor-utils.ts, message-action-utils.ts) *)

Definition shouldShowMessageLoader (m : Message) (isAssistant : bool) (versionContent : jsstr) : bool :=
  isAssistant && negb (default false (isReasoningStreaming m))
  && (bool_decide (status m = Some LOADING)
      || bool_decide (status m = Some STREAMING) && negb (truthy versionContent)).

Definition shouldShowMessageContent (m : Message) (versionContent : jsstr) : bool :=
  (bool_decide (from m = USER) || negb (default false (isReasoningStreaming m)))
  && truthy versionContent.

Definition getDisplayContent (m : Message) (versionContent : jsstr) : jsstr :=
  if negb (bool_decide (from m = ASSISTANT)) then versionContent
  else if negb (includes open_tag versionContent) then versionContent
  else visibleContent (parseThinkTags versionContent).

(** [reasoningContent] is present exactly when [hasReasoning] holds. *)
Record MessageContentState := mkContentState {
  displayContent : jsstr; hasSources : bool; cs_isAssistant : bool; showLoader : bool;
  showMessageContent : bool; cs_sources : list Source; reasoningContent : option jsstr }.

Definition getMessageContentState (m : Message) (versionContent : jsstr) : MessageContentState :=
  let isAssistant := bool_decide (from m = ASSISTANT) in
  let srcs := default [] (sources m) in
  mkContentState (getDisplayContent m versionContent)
    (negb (bool_decide (srcs = []))) isAssistant
    (shouldShowMessageLoader m isAssistant versionContent)
    (shouldShowMessageContent m versionContent) srcs
    (if isAssistant then
       match reasoning m with
       | Some r => if truthy (r_content r) then Some (r_content r) else None
       | None => None
       end
     else None).

Definition FALLBACK_ERROR_CONTENT := js "An unknown error occurred".

Record MessageErrorState := mkErrorState {
  es_content : jsstr; model_price : bool; showSettingsLink : bool }.

Definition getMessageErrorState (m : Message) (isAdmin : bool) : option MessageErrorState :=
  if negb (bool_decide (status m = Some ERROR)) then None
  else
    let isModelPriceError := bool_decide (errorCode m = Some (Some (js "model_price_error"))) in
    Some (mkErrorState (getMessageContent m ||| FALLBACK_ERROR_CONTENT) isModelPriceError
            (isModelPriceError && isAdmin)).

Record MessageEditorState := mkEditorState { canSave : bool; hasChanged : bool; showSaveAndSubmit : bool }.

Definition getMessageEditorState (m : Message) (editText originalText : jsstr) : MessageEditorState :=
  let changed := negb (editText =s? originalText) in
  mkEditorState (truthy (trim editText) && changed) changed (bool_decide (from m = USER)).

Record MessageActionState := mkActionState {
  as_content : jsstr; hasContent : bool; as_isAssistant : bool; isUser : bool; isLoading : bool }.

Definition getMessageActionState (m : Message) : MessageActionState :=
  mkActionState (getMessageContent m) (hasMessageContent m) (bool_decide (from m = ASSISTANT))
    (bool_decide (from m = USER)) (isAssistantMessagePending m).

(** ** The request payload (payload-builder.ts) *)

Record PlaygroundConfig := mkConfig {
  model : jsstr; group : jsstr; temperature : jsnum; top_p : jsnum; max_tokens : jsnum;
  frequency_penalty : jsnum; presence_penalty : jsnum; seed : option jsnum; stream : bool }.

Record ParameterEnabled := mkEnabled {
  en_temperature : bool; en_top_p : bool; en_max_tokens : bool;
  en_frequency_penalty : bool; en_presence_penalty : bool; en_seed : bool }.

Record ChatCompletionRequest := mkRequest {
  q_model : jsstr; q_group : jsstr; q_messages : list (MessageRole * jsstr); q_stream : bool;
  q_temperature : option jsnum; q_top_p : option jsnum; q_max_tokens : option jsnum;
  q_frequency_penalty : option jsnum; q_presence_penalty : option jsnum; q_seed : option jsnum }.

Definition when {A} (b : bool) (x : A) : option A := if b then Some x else None.

Definition buildChatCompletionPayload (messages : list Message) (config : PlaygroundConfig)
    (enabled : ParameterEnabled) : ChatCompletionRequest :=
  mkRequest (model config) (group config)
    (formatMessageForAPI <$> filter (fun m => isValidMessage m = true) messages)
    (stream config)
    (when (en_temperature enabled) (temperature config))
    (when (en_top_p enabled) (top_p config))
    (when (en_max_tokens enabled) (max_tokens config))
    (when (en_frequency_penalty enabled) (frequency_penalty config))
    (when (en_presence_penalty enabled) (presence_penalty config))
    (if en_seed enabled then seed config else None).

(** ** Specification of the reasoning tags

    [think_parse s vs rs u]: [s] is the visible texts [vs] with the reasoning
    blocks [rs] between them, each block opened at the first opening tag and
    closed at the first closing tag after it; [u] tells that the last block is
    not closed. *)
Inductive think_parse : jsstr -> list jsstr -> list jsstr -> bool -> Prop :=
| tp_plain s :
    includes open_tag s = false -> think_parse s [s] [] false
| tp_unclosed v r :
    includes open_tag v = false -> includes close_tag r = false ->
    think_parse (v ++ open_tag ++ r) [v] [r] true
| tp_block v r s vs rs u :
    includes open_tag v = false -> includes close_tag r = false ->
    think_parse s vs rs u ->
    think_parse (v ++ open_tag ++ r ++ close_tag ++ s) (v :: vs) (r :: rs) u.

(** ** Lemmas on the reasoning tags *)

Lemma open_tag_head : exists c p', open_tag = c :: p' /\ c ∉ p'.
Proof. exists 60%N, (js "think>"). split; [done|]. apply (bool_decide_eq_false_1 _). reflexivity. Qed.

Lemma close_tag_head : exists c p', close_tag = c :: p' /\ c ∉ p'.
Proof. exists 60%N, (js "/think>"). split; [done|]. apply (bool_decide_eq_false_1 _). reflexivity. Qed.

Lemma open_tag_ne : open_tag <> [].
Proof. vm_compute. congruence. Qed.

Lemma close_tag_ne : close_tag <> [].
Proof. vm_compute. congruence. Qed.

#[export] Hint Resolve open_tag_head close_tag_head : js.

Lemma think_parse_exists s : exists vs rs u, think_parse s vs rs u.
Proof.
  induction s as [s IH] using (induction_ltof1 _ (@length N)). unfold ltof in IH.
  destruct (index_of open_tag s) as [i|] eqn:Ei.
  - pose proof (index_of_take _ _ _ open_tag_ne Ei) as Hv.
    apply index_of_Some in Ei as [Es _].
    set (v := take i s) in *. set (rest := drop (i + length open_tag) s) in *.
    clearbody v rest. subst s.
    destruct (index_of close_tag rest) as [j|] eqn:Ej.
    + pose proof (index_of_take _ _ _ close_tag_ne Ej) as Hr.
      apply index_of_Some in Ej as [Er _].
      set (r := take j rest) in *. set (s' := drop (j + length close_tag) rest) in *.
      clearbody r s'. subst rest. destruct (IH s') as (vs & rs & u & Hp).
      { rewrite !length_app. simpl. lia. }
      do 3 eexists. by apply tp_block.
    + do 3 eexists. apply tp_unclosed; [done|]. unfold includes. by rewrite Ej.
  - do 3 eexists. apply tp_plain. unfold includes. by rewrite Ei.
Qed.

Lemma slice_drop s i j : slice s i (i + j) = take j (drop i s).
Proof. unfold slice. f_equal. lia. Qed.

(** The visible parts the loop collects are the non-empty visible texts. *)
Definition nonempty_parts (vs : list jsstr) : list jsstr := filter (fun v => v <> []) vs.

Lemma think_loop_spec s' vs rs u :
  think_parse s' vs rs u -> forall fuel s pos vis rea,
  drop pos s = s' -> pos <= length s -> length s' < fuel ->
  think_loop fuel s pos vis rea = Some (vis ++ nonempty_parts vs, rea ++ rs, u).
Proof.
  induction 1 as [s' Hs|v r Hv Hr|v r s' vs rs u Hv Hr Hp IH];
    intros [|fuel] s pos vis rea Hd Hpos Hf; try lia; cbn [think_loop]; unfold index_of_from; rewrite Hd.
  - rewrite (index_of_None_includes _ _ Hs). cbn [fmap option_fmap option_map].
    apply (f_equal length) in Hd as Hl. rewrite length_drop in Hl. unfold nonempty_parts.
    destruct (pos <? length s)%nat eqn:E.
    + apply Nat.ltb_lt in E. rewrite filter_cons_True, filter_nil by (destruct s'; simpl in *; [lia|done]).
      by rewrite app_nil_r.
    + apply Nat.ltb_ge in E. rewrite filter_cons_False, filter_nil by (destruct s'; simpl in *; [tauto|lia]).
      by rewrite !app_nil_r.
  - rewrite index_of_app by auto with js. cbn [fmap option_fmap option_map].
    rewrite slice_drop, Hd, take_app_length.
    assert (Hd' : drop (pos + length v + 7) s = r).
    { rewrite <- (drop_drop s 7 (pos + length v)), <- (drop_drop s (length v) pos), Hd, drop_app_length.
      apply (drop_app_length open_tag). }
    rewrite Hd', (index_of_None_includes _ _ Hr). cbn [fmap option_fmap option_map].
    do 3 f_equal. unfold nonempty_parts. destruct v as [|c v]; simpl length.
    + rewrite Nat.add_0_r, Nat.ltb_irrefl. by rewrite filter_cons_False, filter_nil, app_nil_r by tauto.
    + rewrite (proj2 (Nat.ltb_lt _ _)) by lia. by rewrite filter_cons_True, filter_nil.
  - rewrite index_of_app by auto with js. cbn [fmap option_fmap option_map].
    rewrite slice_drop, Hd, take_app_length.
    assert (Hd' : drop (pos + length v + 7) s = r ++ close_tag ++ s').
    { rewrite <- (drop_drop s 7 (pos + length v)), <- (drop_drop s (length v) pos), Hd, drop_app_length.
      apply (drop_app_length open_tag). }
    rewrite Hd', index_of_app by auto with js. cbn [fmap option_fmap option_map].
    rewrite slice_drop, Hd', take_app_length.
    rewrite IH.
    + rewrite <- !app_assoc. do 3 f_equal. unfold nonempty_parts. destruct v as [|c v]; simpl length.
      * rewrite Nat.add_0_r, Nat.ltb_irrefl. by rewrite filter_cons_False by tauto.
      * rewrite (proj2 (Nat.ltb_lt _ _)) by lia. rewrite filter_cons_True by done. by rewrite <- app_assoc.
    + rewrite <- (drop_drop s 8), <- (drop_drop s (length r)), Hd', drop_app_length.
      apply (drop_app_length close_tag).
    + apply (f_equal length) in Hd. rewrite length_drop, !length_app in Hd. simpl in Hd. lia.
    + rewrite !length_app in Hf. simpl in Hf. lia.
Qed.

Lemma join_nil_concat ps : join [] ps = concat ps.
Proof.
  induction ps as [|p ps IH]; [done|]. destruct ps; [simpl; by rewrite app_nil_r|].
  rewrite join_cons by done. rewrite IH. done.
Qed.

Lemma concat_nonempty vs : concat (nonempty_parts vs) = concat vs.
Proof.
  unfold nonempty_parts. induction vs as [|v vs IH]; [done|]. destruct v.
  - rewrite filter_cons_False by tauto. by rewrite IH.
  - rewrite filter_cons_True by done. simpl. by rewrite IH.
Qed.

Lemma parseThinkTags_spec s vs rs u :
  think_parse s vs rs u -> includes open_tag s = true ->
  parseThinkTags s = mkThink (trim (concat vs)) (trim (join blank_line rs)) u.
Proof.
  intros Hp Hi. unfold parseThinkTags. rewrite Hi. simpl negb. cbv iota.
  rewrite (think_loop_spec _ _ _ _ Hp) by (done || lia).
  simpl app. by rewrite join_nil_concat, concat_nonempty.
Qed.

Lemma parseThinkTags_plain s : includes open_tag s = false -> parseThinkTags s = mkThink s [] false.
Proof. unfold parseThinkTags. by intros ->. Qed.

(** C37: The loop over reasoning tags terminates on every text and computes the
    split it is meant to: every text has exactly one reading as visible texts
    and reasoning blocks, the visible content is the trimmed concatenation of
    the former, the reasoning the trimmed blocks with a blank line between
    them, and a text without an opening tag is returned unchanged. *)
Theorem parseThinkTags_correct s :
  (exists vs rs u, think_parse s vs rs u)
  /\ forall vs rs u, think_parse s vs rs u ->
     parseThinkTags s = if includes open_tag s
                        then mkThink (trim (concat vs)) (trim (join blank_line rs)) u
                        else mkThink s [] false.
Proof.
  split; [apply think_parse_exists|]. intros vs rs u Hp.
  destruct (includes open_tag s) eqn:E; [by apply parseThinkTags_spec|by apply parseThinkTags_plain].
Qed.

(** ** Streaming a text *)

(** The text after a chunk: a chunk that starts with the whole text so far is
    taken as the new text, any other is appended. *)
Definition merge_text (x c : jsstr) : jsstr := x ++ getAppendableChunk x c.

Definition feed (m : Message) (chunks : list jsstr) (now : jsnum) : Message :=
  foldl (fun m c => applyStreamingChunk m content_chunk c now) m chunks.

Lemma merge_text_eq x c :
  merge_text x c = if truthy x && starts_with x c then c else x ++ c.
Proof.
  unfold merge_text, getAppendableChunk. destruct (truthy x); [|done]. simpl.
  destruct (starts_with x c) eqn:E; [|done]. by apply starts_with_drop.
Qed.

Lemma getMessageContent_update m c : getMessageContent (updateCurrentVersionContent m c) = c.
Proof. done. Qed.

Lemma processStreamingContent_content m c now :
  getMessageContent (processStreamingContent m c now) = getMessageContent m ++ c.
Proof. unfold processStreamingContent. by case_match. Qed.

Lemma completeReasoningTiming_fields m now :
  getMessageContent (completeReasoningTiming m now) = getMessageContent m
  /\ status (completeReasoningTiming m now) = status m
  /\ from (completeReasoningTiming m now) = from m
  /\ isReasoningStreaming (completeReasoningTiming m now) = isReasoningStreaming m.
Proof. unfold completeReasoningTiming. by repeat case_match. Qed.

Lemma applyStreamingChunk_content m c now :
  status m <> Some ERROR ->
  getMessageContent (applyStreamingChunk m content_chunk c now) = merge_text (getMessageContent m) c
  /\ status (applyStreamingChunk m content_chunk c now) = Some STREAMING.
Proof.
  intros Hs. unfold applyStreamingChunk. rewrite bool_decide_eq_false_2 by done.
  split; [|done]. unfold merge_text. rewrite <- (processStreamingContent_content m _ now).
  case_match; [done|]. apply completeReasoningTiming_fields.
Qed.

Lemma feed_content chunks : forall m now,
  status m <> Some ERROR ->
  getMessageContent (feed m chunks now) = foldl merge_text (getMessageContent m) chunks.
Proof.
  induction chunks as [|c chunks IH]; intros m now Hs; simpl; [done|].
  destruct (applyStreamingChunk_content m c now Hs) as [Hc Hst].
  rewrite IH by (by rewrite Hst). by rewrite Hc.
Qed.

(** A stream of snapshots: each chunk extends the one before. *)
Fixpoint snapshots (x : jsstr) (chunks : list jsstr) : Prop :=
  match chunks with
  | [] => True
  | c :: cs => (x = [] \/ starts_with x c = true) /\ snapshots c cs
  end.

(** A stream of increments none of which repeats the whole text before it. *)
Fixpoint increments (x : jsstr) (chunks : list jsstr) : Prop :=
  match chunks with
  | [] => True
  | c :: cs => (x = [] \/ starts_with x c = false) /\ increments (x ++ c) cs
  end.

Lemma foldl_snapshots chunks : forall x,
  snapshots x chunks -> foldl merge_text x chunks = default x (last chunks).
Proof.
  induction chunks as [|c cs IH]; intros x H; [done|]. destruct H as [Hx Hcs].
  simpl foldl. rewrite last_cons. assert (merge_text x c = c) as ->.
  { rewrite merge_text_eq. destruct Hx as [-> | ->]; [done|]. rewrite andb_true_r.
    destruct (truthy x) eqn:E; [done|]. apply truthy_false in E. by subst. }
  rewrite (IH _ Hcs). by destruct (last cs).
Qed.

Lemma foldl_increments chunks : forall x,
  increments x chunks -> foldl merge_text x chunks = x ++ concat chunks.
Proof.
  induction chunks as [|c cs IH]; intros x H; simpl; [by rewrite app_nil_r|]. destruct H as [Hx Hcs].
  assert (merge_text x c = x ++ c) as ->.
  { rewrite merge_text_eq. destruct Hx as [-> | ->]; [done|]. by rewrite andb_false_r. }
  rewrite (IH _ Hcs). by rewrite app_assoc.
Qed.

(** A streamed answer ends up as the text the server sent.  Fed to a
    message that is not in error, snapshots leave the last snapshot, and
    increments leave the concatenation of the increments, as long as no
    increment starts with the whole text received before it. *)
Theorem streamed_text m chunks now :
  status m <> Some ERROR ->
  (snapshots (getMessageContent m) chunks ->
   getMessageContent (feed m chunks now) = default (getMessageContent m) (last chunks))
  /\ (increments (getMessageContent m) chunks ->
   getMessageContent (feed m chunks now) = getMessageContent m ++ concat chunks).
Proof.
  intros Hs. rewrite feed_content by done. split; [apply foldl_snapshots|apply foldl_increments].
Qed.

Definition exampleLoading : Message := createLoadingAssistantMessage (js "k") (js "i") (num 1000).

Lemma streamed_text_witness :
  getMessageContent (feed exampleLoading [js "Hel"; js "lo"; js " world"] (num 2000)) = js "Hello world".
Proof.
  apply (streamed_text exampleLoading [js "Hel"; js "lo"; js " world"] (num 2000)).
  - vm_compute; congruence.
  - vm_compute; auto.
Defined.

(** Increments that repeat the text are lost: when the next increment is
    equal to everything received so far, the message does not change, so a
    model that answers with the increments "ha", "ha" is shown as "ha". *)
Theorem repeated_increment_lost m now :
  status m <> Some ERROR -> getMessageContent m <> [] ->
  getMessageContent (applyStreamingChunk m content_chunk (getMessageContent m) now)
  = getMessageContent m.
Proof.
  intros Hs Hne. destruct (applyStreamingChunk_content m (getMessageContent m) now Hs) as [-> _].
  rewrite merge_text_eq, starts_with_refl. by rewrite (proj2 (truthy_true _)).
Qed.

Lemma repeated_increment_lost_witness :
  getMessageContent (applyStreamingChunk (feed exampleLoading [js "ha"] (num 1)) content_chunk (js "ha") (num 2))
  = js "ha".
Proof.
  apply (repeated_increment_lost (feed exampleLoading [js "ha"] (num 1)) (num 2)); vm_compute; congruence.
Defined.

(** ** Completing and cleaning up messages *)

Lemma completeAssistantTiming_fields m now :
  getMessageContent (completeAssistantTiming m now) = getMessageContent m
  /\ status (completeAssistantTiming m now) = status m
  /\ from (completeAssistantTiming m now) = from m
  /\ reasoning (completeAssistantTiming m now) = reasoning m
  /\ isReasoningStreaming (completeAssistantTiming m now) = isReasoningStreaming m
  /\ key (completeAssistantTiming m now) = key m.
Proof. unfold completeAssistantTiming. by case_match. Qed.

Lemma visible_spec s :
  (if includes open_tag s then visibleContent (parseThinkTags s) else s) = visibleContent (parseThinkTags s).
Proof. destruct (includes open_tag s) eqn:E; [done|]. by rewrite parseThinkTags_plain. Qed.

Lemma finalizeMessage_content m api now :
  getMessageContent (finalizeMessage m api now) = visibleContent (parseThinkTags (getMessageContent m)).
Proof.
  unfold finalizeMessage. rewrite (proj1 (completeReasoningTiming_fields _ _)).
  rewrite <- visible_spec. by destruct (includes open_tag (getMessageContent m)).
Qed.

(** A reasoning that is kept is not empty and has its duration. *)
Definition reasoning_done (r : option Reasoning) : Prop :=
  match r with
  | None => True
  | Some r => r_content r <> [] /\ exists d, r_durationMs r = Some d
  end.

Lemma finalizeMessage_reasoning m api now : reasoning_done (reasoning (finalizeMessage m api now)).
Proof.
  unfold finalizeMessage, completeReasoningTiming. simpl.
  destruct (truthy _) eqn:E; [|done]. apply truthy_true in E.
  unfold r_with_content. simpl. destruct (r_durationMs (startReasoningTiming m now)); simpl; eauto.
Qed.

Lemma finalizeMessage_fields m api now :
  from (finalizeMessage m api now) = from m /\ key (finalizeMessage m api now) = key m
  /\ isReasoningStreaming (finalizeMessage m api now) = Some false.
Proof. unfold finalizeMessage, completeReasoningTiming. by repeat case_match. Qed.

(** Completing an assistant message leaves a finished message: status
    complete, no reasoning in progress, the visible part of the text as its
    content, a non-empty reasoning with a duration or none, and an elapsed time
    that is not negative. *)
Theorem complete_message_spec m now :
  from m = ASSISTANT ->
  let m' := completeAssistantMessage m now in
  status m' = Some COMPLETE /\ isReasoningStreaming m' = Some false
  /\ key m' = key m /\ from m' = ASSISTANT
  /\ getMessageContent m' = visibleContent (parseThinkTags (getMessageContent m))
  /\ reasoning_done (reasoning m')
  /\ completedAt m' = Some now
  /\ exists d, durationMs m' = Some d /\ num_lt d (num 0) = false.
Proof.
  intros Hf m'. unfold m', completeAssistantMessage.
  set (f := finalizeMessage m [] now).
  destruct (finalizeMessage_fields m [] now) as (Hff & Hfk & Hfs). fold f in Hff, Hfk, Hfs.
  pose proof (finalizeMessage_content m [] now) as Hfc. fold f in Hfc.
  pose proof (finalizeMessage_reasoning m [] now) as Hfr. fold f in Hfr.
  unfold completeAssistantTiming. simpl from. rewrite Hff, Hf. rewrite bool_decide_eq_true_2 by done.
  simpl negb. cbv iota. simpl. split_and!; try done.
  - by rewrite Hff.
  - eexists. split; [done|]. apply math_max_0_nonneg.
Qed.

Lemma complete_message_spec_witness :
  getMessageContent (completeAssistantMessage
     (feed exampleLoading [js "<think>why</think>"; js " because"] (num 1500)) (num 2000)) = js "because".
Proof.
  refine (eq_trans (proj1 (proj2 (proj2 (proj2 (proj2 (complete_message_spec
    (feed exampleLoading [js "<think>why</think>"; js " because"] (num 1500)) (num 2000) _)))))) _);
    vm_compute; reflexivity.
Defined.

Lemma find_last_Some {A} (f : A -> bool) l i :
  find_last f l = Some i ->
  (exists x, l !! i = Some x /\ f x = true) /\ forall j x, i < j -> l !! j = Some x -> f x = false.
Proof.
  revert i; induction l as [|y l IH]; intros i; simpl; [done|].
  destruct (find_last f l) as [k|] eqn:E.
  - intros [= <-]. destruct (IH k eq_refl) as [H1 H2]. split; [done|].
    intros [|j] x Hj Hx; [lia|]. apply (H2 j); [lia|done].
  - destruct (f y) eqn:Ey; [|done]. intros [= <-]. split; [by exists y|].
    assert (Hn : forall j x, l !! j = Some x -> f x = false).
    { clear IH. revert E. induction l as [|z l IH']; intros E j x Hx; [done|]. simpl in E.
      destruct (find_last f l); [done|]. destruct (f z) eqn:Ez; [done|].
      destruct j as [|j]; simpl in Hx; [congruence|by eapply IH']. }
    intros [|j] x Hj Hx; [lia|]. by eapply Hn.
Qed.

Lemma find_last_None {A} (f : A -> bool) l :
  find_last f l = None -> forall j x, l !! j = Some x -> f x = false.
Proof.
  induction l as [|y l IH]; intros H j x Hx; [done|]. simpl in H.
  destruct (find_last f l); [done|]. destruct (f y) eqn:Ey; [done|].
  destruct j as [|j]; simpl in Hx; [congruence|by eapply IH].
Qed.

Lemma sanitizeMessage_final t m now :
  isAssistantMessageFinal (sanitizeMessage t m now) = true
  /\ isAssistantMessagePending (sanitizeMessage t m now) = false
  /\ key (sanitizeMessage t m now) = key m.
Proof.
  unfold sanitizeMessage, isAssistantMessageFinal, isAssistantMessagePending.
  set (f := finalizeMessage m [] now).
  assert (Hk : key f = key m) by apply finalizeMessage_fields.
  match goal with |- context [if ?b then _ else _] => destruct b end;
    match goal with |- context [completeAssistantTiming ?x now] =>
      destruct (completeAssistantTiming_fields x now) as (_ & Hs & _ & _ & _ & Hk') end;
    rewrite Hs, Hk'; simpl; by rewrite Hk.
Qed.

(** Loading a conversation settles the answer that was being generated when
    it was stored: the last pending assistant message becomes final, keeping
    its key, no message after it is pending, and every other message is left
    exactly as it was. *)
Theorem sanitize_spec t messages now :
  let r := sanitizeMessagesOnLoad t messages now in
  length r = length messages
  /\ match find_last isPendingAssistantMessage messages with
     | None => r = messages
               /\ forall j m, messages !! j = Some m -> isPendingAssistantMessage m = false
     | Some i =>
         (forall j, j <> i -> r !! j = messages !! j)
         /\ (forall j m, i < j -> r !! j = Some m -> isPendingAssistantMessage m = false)
         /\ exists m m', messages !! i = Some m /\ isPendingAssistantMessage m = true
            /\ r !! i = Some m' /\ isAssistantMessageFinal m' = true /\ key m' = key m
     end.
Proof.
  intros r. unfold r, sanitizeMessagesOnLoad.
  destruct (find_last isPendingAssistantMessage messages) as [i|] eqn:E.
  - destruct (find_last_Some _ _ _ E) as [(m & Hm & Hp) Hafter]. split; [apply length_alter|].
    assert (Hne : forall j, j <> i ->
      alter (fun m => sanitizeMessage t m now) i messages !! j = messages !! j)
      by (intros; by apply list_lookup_alter_ne).
    split_and!; [done| |].
    + intros j m' Hj. rewrite Hne by lia. eauto.
    + exists m, (sanitizeMessage t m now). split_and!; [done..| | |].
      * by rewrite list_lookup_alter_eq, Hm.
      * apply sanitizeMessage_final.
      * apply sanitizeMessage_final.
  - split_and!; [done..|]. eauto using find_last_None.
Qed.

(** Only one message is settled: of two pending assistant messages the earlier
    stays pending. *)
Lemma sanitize_leaves_earlier_pending t now :
  exists m, sanitizeMessagesOnLoad t [exampleLoading; exampleLoading] now !! 0 = Some m
            /\ isPendingAssistantMessage m = true.
Proof. exists exampleLoading. done. Qed.

(** ** Conversation edits *)

Lemma updateLastAssistantMessage_spec messages f :
  updateLastAssistantMessage messages f
  = match last messages with
    | Some m => if bool_decide (from m = ASSISTANT)
                then take (length messages - 1) messages ++ [f m] else messages
    | None => messages
    end.
Proof.
  unfold updateLastAssistantMessage. destruct (last messages) as [m|] eqn:E; [|done].
  destruct (bool_decide (from m = ASSISTANT)); [simpl|done].
  apply last_Some in E as [l ->]. rewrite length_app. simpl.
  replace (length l + 1 - 1) with (length l) by lia.
  rewrite take_app_length. rewrite alter_app_r_alt by done. by rewrite Nat.sub_diag.
Qed.

(** The conversation ends with the empty placeholder of the answer to come. *)
Definition awaiting_answer (messages : list Message) : Prop :=
  exists pre k i now, messages = pre ++ [createLoadingAssistantMessage k i now].

Lemma NoDup_keys_take n (l : list Message) : NoDup (key <$> l) -> NoDup (key <$> take n l).
Proof. rewrite fmap_take. intros H. eapply sublist_NoDup; [exact H|apply sublist_take]. Qed.

Lemma NoDup_keys_snoc (l : list Message) m :
  NoDup (key <$> l) -> key m ∉ key <$> l -> NoDup (key <$> (l ++ [m])).
Proof.
  intros Hn Hk. rewrite fmap_app. apply NoDup_app. split_and!; [done| |apply NoDup_singleton].
  intros x Hx. simpl. set_solver.
Qed.

Lemma key_take_subset n (l : list Message) k : k ∉ key <$> l -> k ∉ key <$> take n l.
Proof. intros H Hk. apply H. rewrite fmap_take in Hk. apply elem_of_take in Hk as (i & Hi & _). by apply list_elem_of_lookup_2 in Hi. Qed.

(** The messages an edit rewrites keep their keys. *)
Lemma edit_keys c k (b : bool) now (l : list Message) :
  key <$> ((fun m => if bool_decide (key m = k)
                    then with_createdAt (if b then Some now else createdAt m) (updateCurrentVersionContent m c)
                    else m) <$> l) = key <$> l.
Proof. rewrite <- list_fmap_compose. apply list_fmap_ext. intros i m _. simpl. by case_bool_decide. Qed.

(** The keys of a conversation stay distinct under every edit: sending,
    regenerating, deleting and editing with or without resubmission, when the
    identifiers drawn are fresh. *)
Theorem edits_keep_keys_distinct fr messages k c submit now :
  NoDup (key <$> messages) ->
  key1 fr ∉ key <$> messages -> key2 fr ∉ key <$> messages -> key1 fr <> key2 fr ->
  NoDup (key <$> appendUserMessagePair fr messages c now)
  /\ NoDup (key <$> removeMessageByKey messages k)
  /\ (forall r, createRegeneratedMessages fr messages k now = Some r -> NoDup (key <$> r))
  /\ (forall r, applyMessageEdit fr messages k c submit now = Some r -> NoDup (key <$> edit_messages r)).
Proof.
  intros Hn H1 H2 H12. split_and!.
  - unfold appendUserMessagePair. change [?a; ?b] with ([a] ++ [b]). rewrite app_assoc.
    apply NoDup_keys_snoc; [by apply NoDup_keys_snoc|]. rewrite fmap_app. simpl. set_solver.
  - unfold removeMessageByKey. eapply sublist_NoDup; [exact Hn|]. apply fmap_sublist, sublist_filter.
  - unfold createRegeneratedMessages. intros r Hr. repeat case_match; simplify_eq;
      apply NoDup_keys_snoc; auto using NoDup_keys_take, key_take_subset.
  - unfold applyMessageEdit. intros r Hr.
    destruct (findIndexByKey k messages) as [[i m0]|]; [|done].
    destruct (negb submit || _); simplify_eq; simpl edit_messages.
    + by rewrite edit_keys.
    + apply NoDup_keys_snoc.
      * apply NoDup_keys_take. by rewrite edit_keys.
      * apply key_take_subset. by rewrite edit_keys.
Qed.

Definition exampleFresh : Fresh := mkFresh (js "a") (js "b") (js "c") (js "d").

Lemma edits_keep_keys_distinct_witness :
  NoDup (key <$> appendUserMessagePair exampleFresh [exampleLoading] (js "hi") (num 5)).
Proof.
  refine (proj1 (edits_keep_keys_distinct exampleFresh [exampleLoading] (js "k") (js "hi") true
                   (num 5) _ _ _ _)).
  - apply NoDup_singleton.
  - apply not_elem_of_cons; split; [vm_compute; congruence|apply not_elem_of_nil].
  - apply not_elem_of_cons; split; [vm_compute; congruence|apply not_elem_of_nil].
  - vm_compute; congruence.
Defined.

Lemma payload_placeholder pre k i now config enabled :
  q_messages (buildChatCompletionPayload (pre ++ [createLoadingAssistantMessage k i now]) config enabled)
  = q_messages (buildChatCompletionPayload pre config enabled).
Proof. simpl. rewrite filter_app. rewrite filter_cons_False, filter_nil by done. by rewrite app_nil_r. Qed.

Lemma find_key_spec k messages i m :
  findIndexByKey k messages = Some (i, m) ->
  messages !! i = Some m /\ key m = k
  /\ forall j m', messages !! j = Some m' -> j < i -> key m' <> k.
Proof. intros (H1 & H2 & H3)%list_find_Some. done. Qed.

Lemma take_last_lookup {A} (l : list A) i x :
  l !! i = Some x -> take (i + 1) l = take i l ++ [x].
Proof. intros H. rewrite Nat.add_1_r. by apply take_S_r. Qed.

(** Regenerating cuts the conversation back to the question.  The new
    conversation is what precedes the chosen message (the message included when
    it is the user's) followed by an empty placeholder, and the request built
    from it contains exactly the valid messages of that prefix, the placeholder
    left out; an unknown key changes nothing. *)
Theorem regenerate_spec fr messages k now config enabled :
  match createRegeneratedMessages fr messages k now with
  | None => forall m, m ∈ messages -> key m <> k
  | Some r =>
      exists i m, messages !! i = Some m /\ key m = k
        /\ let kept := take (if bool_decide (from m = USER) then i + 1 else i) messages in
           r = kept ++ [createLoadingAssistantMessage (key1 fr) (id1 fr) now]
           /\ q_messages (buildChatCompletionPayload r config enabled)
              = formatMessageForAPI <$> filter (fun m => isValidMessage m = true) kept
  end.
Proof.
  unfold createRegeneratedMessages. destruct (findIndexByKey k messages) as [[i m]|] eqn:E.
  - apply find_key_spec in E as (Hi & Hk & _).
    destruct (bool_decide (from m = USER)) eqn:Eu; exists i, m; rewrite Eu; split_and!; try done;
      by rewrite payload_placeholder.
  - intros m Hm Hk. apply list_find_None in E. rewrite Forall_forall in E. by apply (E m).
Qed.

(** Resubmitting an edit sends exactly when the edited message is the
    user's: then the conversation is cut after it and ends with a placeholder;
    otherwise only the text of the message changes.  In both cases the messages
    before it keep their place and their text. *)
Theorem edit_spec fr messages k c submit now r :
  NoDup (key <$> messages) ->
  applyMessageEdit fr messages k c submit now = Some r ->
  exists i m, messages !! i = Some m /\ key m = k
    /\ shouldSend r = submit && bool_decide (from m = USER)
    /\ take i (edit_messages r) = take i messages
    /\ (exists m', edit_messages r !! i = Some m' /\ getMessageContent m' = c /\ key m' = k
                   /\ from m' = from m)
    /\ (if shouldSend r then awaiting_answer (edit_messages r) /\ length (edit_messages r) = i + 2
        else drop (i + 1) (edit_messages r) = drop (i + 1) messages).
Proof.
  intros Hn. unfold applyMessageEdit. destruct (findIndexByKey k messages) as [[i m]|] eqn:E; [|done].
  apply find_key_spec in E as (Hi & Hk & _).
  set (f := fun m => if bool_decide (key m = k)
                     then with_createdAt (if submit then Some now else createdAt m)
                            (updateCurrentVersionContent m c) else m).
  assert (Hfi : (f <$> messages) !! i = Some (f m)) by (by rewrite list_lookup_fmap, Hi).
  assert (Hfm : getMessageContent (f m) = c /\ key (f m) = k /\ from (f m) = from m)
    by (unfold f; by rewrite bool_decide_eq_true_2).
  assert (Hother : forall j m', j <> i -> messages !! j = Some m' -> f m' = m').
  { intros j m' Hj Hm'. unfold f. rewrite bool_decide_eq_false_2; [done|]. intros Hk'.
    apply Hj. eapply (NoDup_lookup (key <$> messages)); [done|..];
      rewrite list_lookup_fmap; [by rewrite Hm'|rewrite Hi; simpl; congruence]. }
  assert (Htake : take i (f <$> messages) = take i messages).
  { apply list_eq. intros j. destruct (decide (j < i)).
    - rewrite !lookup_take_lt, list_lookup_fmap by done.
      destruct (messages !! j) as [m'|] eqn:Em; [|done]. simpl. by rewrite (Hother j) by (done || lia).
    - by rewrite !lookup_take_ge by lia. }
  assert (Hdrop : drop (i + 1) (f <$> messages) = drop (i + 1) messages).
  { apply list_eq. intros j. rewrite !lookup_drop, list_lookup_fmap.
    destruct (messages !! (i + 1 + j)) as [m'|] eqn:Em; [|done]. simpl.
    by rewrite (Hother (i + 1 + j)) by (done || lia). }
  pose proof (lookup_lt_Some _ _ _ Hi) as Hlt.
  intros H. exists i, m. rewrite <- negb_andb in H.
  destruct (submit && bool_decide (from m = USER)); simplify_eq/=; split_and!; try done; eauto.
  - rewrite take_app_le by (rewrite length_take, length_fmap; lia).
    rewrite take_take. by replace (i `min` (i + 1)) with i by lia.
  - exists (f m). split; [|done]. rewrite lookup_app_l by (rewrite length_take, length_fmap; lia).
    by rewrite lookup_take_lt by lia.
  - unfold awaiting_answer. eauto.
  - rewrite length_app, length_take, length_fmap. simpl. lia.
Qed.

Lemma edit_spec_witness :
  exists i m, [createUserMessage (js "u") (js "v") (js "old") (num 1); exampleLoading] !! i = Some m
    /\ key m = js "u" /\ shouldSend
         (default (mkEdit [] false) (applyMessageEdit exampleFresh
            [createUserMessage (js "u") (js "v") (js "old") (num 1); exampleLoading] (js "u") (js "new") true (num 2)))
         = true && bool_decide (from m = USER).
Proof.
  destruct (edit_spec exampleFresh [createUserMessage (js "u") (js "v") (js "old") (num 1); exampleLoading]
    (js "u") (js "new") true (num 2)
    (default (mkEdit [] false) (applyMessageEdit exampleFresh
       [createUserMessage (js "u") (js "v") (js "old") (num 1); exampleLoading] (js "u") (js "new") true (num 2))))
    as (i & m & H1 & H2 & H3 & _).
  - apply NoDup_cons; split; [|apply NoDup_singleton].
    apply not_elem_of_cons; split; [vm_compute; congruence|apply not_elem_of_nil].
  - vm_compute; reflexivity.
  - exists i, m. split_and!; assumption.
Defined.
