(* ===== verification/PlaygroundStorage.v ===== *)
(** * Storage of the playground conversation

    web/src/features/playground/lib/storage/: the schemas of what is kept in local
    storage, the normalisation of a stored conversation when it is loaded
    (collapsing repeated sections, truncating texts, settling answers, bounding
    the number and the size of messages), loading and saving; and the hook
    hooks/use-playground-state.ts, which saves the conversation half a second
    after the last change.

    Local storage is a finite map from keys to texts.  [fits] tells whether the
    browser's quota admits a write ([setItem] throws otherwise, which every writer
    catches); [parse] is zod's (class [Zod]), [show] prints a number, [t]
    translates a text and [now] is [Date.now()]. *)

From Stdlib Require Import SpecFloat.
From S2P Require Import Prelude JsValue Json JsText Zod PlaygroundMessages.

(** ** Schemas (storage-schema.ts) *)

Definition STORAGE_VERSION : Z := 1.
Definition MAX_STORED_MESSAGES : nat := 100.
Definition MAX_STORED_MESSAGES_BYTES : N := 1024 * 1024.
Definition MAX_LOADED_MESSAGES_CHARS : N := 120000.
Definition MAX_LOADED_MESSAGE_CHARS : N := 40000.

Definition playgroundConfigSchema : schema :=
  ZObject [ (js "model", ZOptional ZString); (js "group", ZOptional ZString);
            (js "temperature", ZOptional ZNumber); (js "top_p", ZOptional ZNumber);
            (js "max_tokens", ZOptional ZNumber); (js "frequency_penalty", ZOptional ZNumber);
            (js "presence_penalty", ZOptional ZNumber); (js "seed", ZOptional (ZNullable ZNumber));
            (js "stream", ZOptional ZBoolean) ].

Definition parameterEnabledSchema : schema :=
  ZObject [ (js "temperature", ZOptional ZBoolean); (js "top_p", ZOptional ZBoolean);
            (js "max_tokens", ZOptional ZBoolean); (js "frequency_penalty", ZOptional ZBoolean);
            (js "presence_penalty", ZOptional ZBoolean); (js "seed", ZOptional ZBoolean) ].

Definition messageRoleSchema : schema := ZEnum [js "user"; js "assistant"; js "system"].
Definition messageStatusSchema : schema :=
  ZEnum [js "loading"; js "streaming"; js "complete"; js "error"].

Definition messageVersionShape : list (jsstr * schema) := [(js "id", ZString); (js "content", ZString)].
Definition messageVersionSchema : schema := ZObject messageVersionShape.

Definition sourceShape : list (jsstr * schema) := [(js "href", ZString); (js "title", ZString)].
Definition sourceSchema : schema := ZObject sourceShape.

Definition reasoningShape : list (jsstr * schema) :=
  [ (js "content", ZString); (js "duration", ZNumber); (js "startedAt", ZOptional ZNumber);
    (js "completedAt", ZOptional ZNumber); (js "durationMs", ZOptional ZNumber) ].
Definition reasoningSchema : schema := ZObject reasoningShape.

Definition messageShape : list (jsstr * schema) :=
  [ (js "key", ZString); (js "from", messageRoleSchema);
    (js "versions", ZArray 1 messageVersionSchema);
    (js "createdAt", ZOptional ZNumber); (js "startedAt", ZOptional ZNumber);
    (js "completedAt", ZOptional ZNumber); (js "durationMs", ZOptional ZNumber);
    (js "sources", ZOptional (ZArray 0 sourceSchema));
    (js "reasoning", ZOptional reasoningSchema);
    (js "isReasoningStreaming", ZOptional ZBoolean);
    (js "isReasoningComplete", ZOptional ZBoolean);
    (js "isContentComplete", ZOptional ZBoolean);
    (js "status", ZOptional messageStatusSchema);
    (js "errorCode", ZOptional (ZNullable ZString)) ].
Definition messageSchema : schema := ZObject messageShape.

Definition messagesSchema : schema := ZArray 0 messageSchema.

(** ** Messages as objects

    The object of a message, with the properties it has, and the message of an
    accepted object ([as Message[]]). *)

Definition role_text (r : MessageRole) : jsstr :=
  match r with USER => js "user" | ASSISTANT => js "assistant" | SYSTEM => js "system" end.
Definition status_text (s : MessageStatus) : jsstr :=
  match s with
  | LOADING => js "loading" | STREAMING => js "streaming"
  | COMPLETE => js "complete" | ERROR => js "error"
  end.

Definition encode_version (v : MessageVersion) : jsval :=
  JObject [(js "id", JString (id v)); (js "content", JString (content v))].
Definition encode_source (s : Source) : jsval :=
  JObject [(js "href", JString (href s)); (js "title", JString (title s))].
Definition encode_reasoning (r : Reasoning) : jsval :=
  JObject ([(js "content", JString (r_content r)); (js "duration", JNumber (r_duration r))]
    ++ of_option JNumber "startedAt" (r_startedAt r)
    ++ of_option JNumber "completedAt" (r_completedAt r)
    ++ of_option JNumber "durationMs" (r_durationMs r)).
Definition encode_code (c : option jsstr) : jsval :=
  match c with Some s => JString s | None => JNull end.
Definition encode_message (m : Message) : jsval :=
  JObject ([ (js "key", JString (key m)); (js "from", JString (role_text (from m)));
             (js "versions", JArray (encode_version <$> versions m)) ]
    ++ of_option JNumber "createdAt" (createdAt m)
    ++ of_option JNumber "startedAt" (startedAt m)
    ++ of_option JNumber "completedAt" (completedAt m)
    ++ of_option JNumber "durationMs" (durationMs m)
    ++ of_option (fun l => JArray (encode_source <$> l)) "sources" (sources m)
    ++ of_option encode_reasoning "reasoning" (reasoning m)
    ++ of_option JBool "isReasoningStreaming" (isReasoningStreaming m)
    ++ of_option JBool "isReasoningComplete" (isReasoningComplete m)
    ++ of_option JBool "isContentComplete" (isContentComplete m)
    ++ of_option (fun s => JString (status_text s)) "status" (status m)
    ++ of_option encode_code "errorCode" (errorCode m)).
Definition encode_messages (ms : list Message) : jsval := JArray (encode_message <$> ms).

(** A property that may be missing, read with [f]. *)
Definition optional {A} (f : jsval -> option A) (v : jsval) : option (option A) :=
  match v with JUndefined => Some None | _ => Some <$> f v end.

Definition as_array {A} (f : jsval -> option A) (v : jsval) : option (list A) :=
  match v with JArray l => mapM f l | _ => None end.

Definition decode_role (v : jsval) : option MessageRole :=
  s ← as_string v;
  if s =s? js "user" then Some USER else if s =s? js "assistant" then Some ASSISTANT
  else if s =s? js "system" then Some SYSTEM else None.
Definition decode_status (v : jsval) : option MessageStatus :=
  s ← as_string v;
  if s =s? js "loading" then Some LOADING else if s =s? js "streaming" then Some STREAMING
  else if s =s? js "complete" then Some COMPLETE else if s =s? js "error" then Some ERROR else None.
Definition decode_code (v : jsval) : option (option jsstr) :=
  match v with JNull => Some None | JString s => Some (Some s) | _ => None end.

Definition decode_version (v : jsval) : option MessageVersion :=
  i ← as_string (field "id" v); c ← as_string (field "content" v); Some (mkVersion i c).
Definition decode_source (v : jsval) : option Source :=
  h ← as_string (field "href" v); t ← as_string (field "title" v); Some (mkSource h t).
Definition decode_reasoning (v : jsval) : option Reasoning :=
  c ← as_string (field "content" v); d ← as_number (field "duration" v);
  s ← optional as_number (field "startedAt" v); e ← optional as_number (field "completedAt" v);
  ms ← optional as_number (field "durationMs" v); Some (mkReasoning c d s e ms).
Definition decode_message (v : jsval) : option Message :=
  k ← as_string (field "key" v); f ← decode_role (field "from" v);
  vs ← as_array decode_version (field "versions" v);
  ca ← optional as_number (field "createdAt" v); sa ← optional as_number (field "startedAt" v);
  ea ← optional as_number (field "completedAt" v); ms ← optional as_number (field "durationMs" v);
  so ← optional (as_array decode_source) (field "sources" v);
  re ← optional decode_reasoning (field "reasoning" v);
  rs ← optional as_bool (field "isReasoningStreaming" v);
  rc ← optional as_bool (field "isReasoningComplete" v);
  cc ← optional as_bool (field "isContentComplete" v);
  st ← optional decode_status (field "status" v);
  ec ← optional decode_code (field "errorCode" v);
  Some (mkMessage k f vs ca sa ea ms so re rs rc cc st ec).
Definition decode_messages (v : jsval) : option (list Message) := as_array decode_message v.

(** ** Bounds (storage.ts) *)

Definition units (s : jsstr) : N := N.of_nat (length s).

Definition TRUNCATED_CONTENT_SUFFIX : jsstr := blank_line ++ js "[...]".
Definition MIN_PREFIX_COLLAPSE_LENGTH : N := 2000.
Definition MIN_REPEATED_SECTION_COUNT : nat := 3.

(** Two to six hash signs, white space, a number and a point, white space and the
    rest of the line; with the flags [g] and [m]. *)
Definition hash : regex := txt "#".
Definition SECTION_HEADING_LINE_PATTERN : regex :=
  Start >> hash >> hash >> opt (hash >> opt (hash >> opt (hash >> opt hash)))
  >> plus (cls is_space) >> plus (cls is_digit) >> txt "." >> plus (cls is_space)
  >> plus (cls not_line_end) >> End.

(** [slice(-MAX_STORED_MESSAGES)] *)
Definition trimMessages (messages : list Message) : list Message :=
  if Nat.leb (length messages) MAX_STORED_MESSAGES then messages
  else drop (length messages - MAX_STORED_MESSAGES) messages.

Definition getMessageSize (m : Message) : N :=
  (foldl (fun total v => total + units (content v)) 0 (versions m)
   + match reasoning m with Some r => units (r_content r) | None => 0 end)%N.

Definition truncateText (text : jsstr) (maxLength : N) : jsstr :=
  if (units text <=? maxLength)%N then text
  else if (maxLength <=? units TRUNCATED_CONTENT_SUFFIX)%N then take (N.to_nat maxLength) text
  else take (N.to_nat (maxLength - units TRUNCATED_CONTENT_SUFFIX)) text ++ TRUNCATED_CONTENT_SUFFIX.

(** Headings with their indexes. *)
Definition getSectionOccurrences (text : jsstr) : list (jsstr * nat) :=
  (fun m => (cap m.2 0, m.1)) <$> matchAll true SECTION_HEADING_LINE_PATTERN text.

Definition getHeadingCounts (occurrences : list (jsstr * nat)) : gmap jsstr nat :=
  foldl (fun counts o => <[o.1 := S (default 0 (counts !! o.1))]> counts) ∅ occurrences.

(** The loop from the last occurrence to the first: the last occurrence of every
    heading that is repeated often enough. *)
Fixpoint last_repeated (counts : gmap jsstr nat) (seen : gset jsstr) (l : list (jsstr * nat)) : list nat :=
  match l with
  | [] => []
  | (h, i) :: l' =>
      if Nat.ltb (default 0 (counts !! h)) MIN_REPEATED_SECTION_COUNT || bool_decide (h ∈ seen)
      then last_repeated counts seen l'
      else i :: last_repeated counts ({[h]} ∪ seen) l'
  end.

(** [None] is [-1]. *)
Definition findLastRepeatedSectionRunStart (text : jsstr) : option nat :=
  let occurrences := getSectionOccurrences text in
  match last_repeated (getHeadingCounts occurrences) ∅ (reverse occurrences) with
  | [] => None
  | i :: later => Some (foldl Nat.min i later)
  end.

Definition collapseRepeatedSectionSnapshots (text : jsstr) : jsstr :=
  if (units text <? MIN_PREFIX_COLLAPSE_LENGTH)%N then text
  else match findLastRepeatedSectionRunStart text with
       | None => text
       | Some start => drop start text
       end.

(** The texts of a message, collapsed and truncated; a message none of whose texts
    changes is returned as it is. *)
Definition normalizeTexts (m : Message) : Message :=
  let collapsed v := collapseRepeatedSectionSnapshots (content v) in
  let text v := truncateText (collapsed v) MAX_LOADED_MESSAGE_CHARS in
  let vs := (fun v => if (text v =s? content v) && (collapsed v =s? content v) then v
                      else mkVersion (id v) (text v)) <$> versions m in
  let r := (fun r => r_with_content (truncateText (r_content r) MAX_LOADED_MESSAGE_CHARS) r)
           <$> reasoning m in
  let changed :=
    existsb (fun v => negb ((text v =s? content v) && (collapsed v =s? content v))) (versions m)
    || negb (bool_decide (r_content <$> r = r_content <$> reasoning m)) in
  if changed then with_reasoning r (with_versions vs m) else m.

Definition normalizeStoredMessageForLoad (m : Message) (now : jsnum) : Message :=
  let normalized := normalizeTexts m in
  if negb (isAssistantMessagePending normalized) then normalized
  else
    let hasReasoning :=
      match reasoning normalized with Some r => truthy (trim (r_content r)) | None => false end in
    if negb (hasMessageContent normalized) && negb hasReasoning then normalized
    else
      let completed :=
        default (default (default (default now (createdAt normalized)) (startedAt normalized))
                   (reasoning normalized ≫= r_completedAt)) (completedAt normalized) in
      completeAssistantTiming
        (with_streaming false (with_status COMPLETE (finalizeMessage normalized [] now))) completed.

(** The loop from the last message to the first; [result] is kept in order. *)
Fixpoint size_loop (rev_messages : list Message) (totalSize : N) (result : list Message) : list Message :=
  match rev_messages with
  | [] => result
  | m :: ms =>
      if match result with [] => false | _ => (MAX_LOADED_MESSAGES_CHARS <? totalSize + getMessageSize m)%N end
      then result
      else size_loop ms (totalSize + getMessageSize m) (m :: result)
  end.
Definition trimMessagesByContentSize (messages : list Message) : list Message :=
  size_loop (reverse messages) 0 [].

(** ** Loading and saving (storage.ts) *)

Abbreviation store := (gmap jsstr jsstr).

Definition CONFIG := js "playground_config".
Definition MESSAGES := js "playground_messages".
Definition PARAMETER_ENABLED := js "playground_parameter_enabled".

(** [None]: [JSON.parse] throws; [Some None]: [null]. *)
Definition readStoredValue (k : jsstr) (st : store) : option (option jsval) :=
  match st !! k with
  | None | Some [] => Some None
  | Some saved => Some <$> JSON_parse saved
  end.

Definition readStoredMessagesValue (st : store) : option (option jsval) * store :=
  match st !! MESSAGES with
  | None | Some [] => (Some None, st)
  | Some saved =>
      if (MAX_STORED_MESSAGES_BYTES <? units saved)%N then (Some None, delete MESSAGES st)
      else (Some <$> JSON_parse saved, st)
  end.

(** [k in value] on an object parsed from JSON; an array has no such property. *)
Definition has_property (k : string) (v : jsval) : bool :=
  match v with JObject fs => has_key (js k) fs | _ => false end.
Arguments has_property k%_stdpp_scope v.

Definition unwrapStoredValue (value : jsval) : jsval :=
  if negb (js_truthy value) || negb (isRecord value) then value
  else if has_property "version" value && has_property "data" value then field "data" value
  else value.

Section Storage.
Variable show : jsnum -> jsstr.
Variable fits : store -> jsstr -> jsstr -> bool.
Variable parse : schema -> jsval -> option jsval.
Variable t : jsstr -> jsstr.

Definition stored_text (data : jsval) : jsstr :=
  stringify show (JObject [(js "version", JNumber (num STORAGE_VERSION)); (js "data", data)]).

(** [None]: the write throws. *)
Definition writeStoredValue (k : jsstr) (data : jsval) (st : store) : option store :=
  if fits st k (stored_text data) then Some (<[k := stored_text data]> st) else None.

(** The value accepted by the schema, [{}] otherwise. *)
Definition load_object (s : schema) (k : jsstr) (st : store) : jsval :=
  match readStoredValue k st with
  | Some (Some saved) =>
      if js_truthy saved then default (JObject []) (parse s (unwrapStoredValue saved)) else JObject []
  | _ => JObject []
  end.
Definition save_object (s : schema) (k : jsstr) (v : jsval) (st : store) : store :=
  match parse s v with
  | Some parsed => default st (writeStoredValue k parsed st)
  | None => st
  end.

Definition loadConfig (st : store) : jsval := load_object playgroundConfigSchema CONFIG st.
Definition saveConfig (config : jsval) (st : store) : store :=
  save_object playgroundConfigSchema CONFIG config st.
Definition loadParameterEnabled (st : store) : jsval :=
  load_object parameterEnabledSchema PARAMETER_ENABLED st.
Definition saveParameterEnabled (parameterEnabled : jsval) (st : store) : store :=
  save_object parameterEnabledSchema PARAMETER_ENABLED parameterEnabled st.

Definition saveMessages (messages : list Message) (st : store) : store :=
  save_object messagesSchema MESSAGES (encode_messages (trimMessages messages)) st.

Definition loaded_messages (parsed : list Message) (now : jsnum) : list Message :=
  sanitizeMessagesOnLoad t
    (trimMessagesByContentSize
       (trimMessages ((fun m => normalizeStoredMessageForLoad m now) <$> parsed))) now.

(** [trimMessagesByContentSize] returns a new array, which is never the array it was
    given: the condition for writing the conversation back always holds. *)
Definition loadMessages (now : jsnum) (st : store) : option (list Message) * store :=
  match readStoredMessagesValue st with
  | (Some (Some saved), st') =>
      if negb (js_truthy saved) then (None, st')
      else match parse messagesSchema (unwrapStoredValue saved) ≫= decode_messages with
           | Some parsed =>
               let sanitized := loaded_messages parsed now in
               (Some sanitized, saveMessages sanitized st')
           | None => (None, st')
           end
  | (_, st') => (None, st')
  end.

Definition clearPlaygroundData (st : store) : store :=
  delete MESSAGES (delete PARAMETER_ENABLED (delete CONFIG st)).

End Storage.

(** ** The schema accepts only messages *)

Section Schema.
Context (parse : schema -> jsval -> option jsval) `{HZ : !Zod parse}.

Lemma field_required shape v w k s :
  parse (ZObject shape) v = Some w -> NoDup (shape.*1) -> (js k, s) ∈ shape ->
  parse s JUndefined = None -> exists x, parse s x = Some (field k w).
Proof.
  intros H Hnd Hin Hu. destruct (object_is_object _ _ _ _ H) as [gs ->].
  destruct (object_field parse shape v (JObject gs) (js k) s Hnd H Hin) as [[x Hx]|[_ [y Hy]]]; [eauto|congruence].
Qed.

Lemma field_optional shape v w k s :
  parse (ZObject shape) v = Some w -> NoDup (shape.*1) -> (js k, ZOptional s) ∈ shape ->
  field k w = JUndefined \/ exists x, parse s x = Some (field k w).
Proof.
  intros H Hnd Hin. destruct (object_is_object _ _ _ _ H) as [gs ->].
  destruct (object_field parse shape v (JObject gs) (js k) _ Hnd H Hin) as [[x Hx]|[Hu _]]; [|by left].
  rewrite zod_optional in Hx. destruct x; simplify_eq; eauto.
Qed.

(** Every value accepted by a schema is read by a reader. *)
Definition reads {A} (s : schema) (f : jsval -> option A) : Prop :=
  forall x y, parse s x = Some y -> exists a, f y = Some a.

Lemma optional_reads {A} (f : jsval -> option A) shape v w k s :
  reads s f -> parse (ZObject shape) v = Some w -> NoDup (shape.*1) -> (js k, ZOptional s) ∈ shape ->
  exists o, optional f (field k w) = Some o.
Proof.
  intros Hr H Hnd Hin. unfold optional.
  destruct (field_optional _ _ _ _ _ H Hnd Hin) as [->|[x Hx]]; [eauto|].
  destruct (Hr _ _ Hx) as [a Ha]. destruct (field k w); rewrite ?Ha; simpl; eauto.
Qed.

Lemma reads_string : reads ZString as_string.
Proof. intros x y H. rewrite zod_string in H. destruct x; simplify_eq. simpl. eauto. Qed.
Lemma reads_number : reads ZNumber as_number.
Proof. intros x y H. apply zod_number_inv in H as [-> [n ->]]. simpl. eauto. Qed.
Lemma reads_bool : reads ZBoolean as_bool.
Proof. intros x y H. rewrite zod_boolean in H. destruct x; simplify_eq. simpl. eauto. Qed.

Lemma reads_array {A} (f : jsval -> option A) min s : reads s f -> reads (ZArray min s) (as_array f).
Proof.
  intros Hr x y H. rewrite zod_array in H. destruct x as [| | | | |l|]; try done.
  destruct (Nat.leb _ _); [|done]. apply fmap_Some in H as (ws & Hws & ->). simpl. clear -Hr Hws.
  apply mapM_Some in Hws. induction Hws as [|x y l k Hx _ [k' IH]]; [simpl; eauto|].
  destruct (Hr _ _ Hx) as [a Ha]. simpl. rewrite Ha, IH. simpl. eauto.
Qed.

Lemma reads_role : reads messageRoleSchema decode_role.
Proof.
  intros x y H. unfold messageRoleSchema in H. rewrite zod_enum in H. destruct x; try done.
  case_bool_decide as Hs; simplify_eq. rewrite !elem_of_cons, elem_of_nil in Hs.
  destruct_or! Hs; subst; simpl; eauto.
Qed.
Lemma reads_status : reads messageStatusSchema decode_status.
Proof.
  intros x y H. unfold messageStatusSchema in H. rewrite zod_enum in H. destruct x; try done.
  case_bool_decide as Hs; simplify_eq. rewrite !elem_of_cons, elem_of_nil in Hs.
  destruct_or! Hs; subst; simpl; eauto.
Qed.
Lemma reads_code : reads (ZNullable ZString) decode_code.
Proof.
  intros x y H. rewrite zod_nullable, zod_string in H. destruct x; simplify_eq; simpl; eauto.
Qed.

Lemma string_undefined : parse ZString JUndefined = None.
Proof. by rewrite zod_string. Qed.
Lemma number_undefined : parse ZNumber JUndefined = None.
Proof. destruct (parse ZNumber JUndefined) eqn:E; [|done]. by apply zod_number_inv in E as [_ [n ?]]. Qed.
Lemma role_undefined : parse messageRoleSchema JUndefined = None.
Proof. unfold messageRoleSchema. by rewrite zod_enum. Qed.
Lemma array_undefined min s : parse (ZArray min s) JUndefined = None.
Proof. by rewrite zod_array. Qed.

Ltac in_shape := repeat first [by apply list_elem_of_here | apply list_elem_of_further].
Ltac distinct := by_decision.

Lemma required_reads {A} (f : jsval -> option A) shape v w k s :
  reads s f -> parse (ZObject shape) v = Some w -> NoDup (shape.*1) -> (js k, s) ∈ shape ->
  parse s JUndefined = None -> exists a, f (field k w) = Some a.
Proof.
  intros Hr H Hnd Hin Hu. destruct (field_required _ _ _ _ _ H Hnd Hin Hu) as [x Hx]. eauto.
Qed.

(** Read the next property of an accepted object. *)
Ltac required k hr hu :=
  match goal with H : parse (ZObject ?shape) ?v = Some ?w |- _ =>
    let a := fresh "a" in let E := fresh "E" in
    destruct (required_reads _ shape v w k _ hr H) as [a E]; [distinct|in_shape|apply hu|];
    rewrite E; cbn [mbind option_bind]
  end.
Ltac optionally k hr :=
  match goal with H : parse (ZObject ?shape) ?v = Some ?w |- _ =>
    let a := fresh "o" in let E := fresh "E" in
    destruct (optional_reads _ shape v w k _ hr H) as [a E]; [distinct|in_shape|];
    rewrite E; cbn [mbind option_bind]
  end.

Lemma reads_version : reads messageVersionSchema decode_version.
Proof.
  intros x w H. unfold messageVersionSchema in H. unfold decode_version.
  required "id"%string reads_string string_undefined. required "content"%string reads_string string_undefined. eauto.
Qed.
Lemma reads_source : reads sourceSchema decode_source.
Proof.
  intros x w H. unfold sourceSchema in H. unfold decode_source.
  required "href"%string reads_string string_undefined. required "title"%string reads_string string_undefined. eauto.
Qed.
Lemma reads_reasoning : reads reasoningSchema decode_reasoning.
Proof.
  intros x w H. unfold reasoningSchema in H. unfold decode_reasoning.
  required "content"%string reads_string string_undefined. required "duration"%string reads_number number_undefined.
  optionally "startedAt"%string reads_number. optionally "completedAt"%string reads_number.
  optionally "durationMs"%string reads_number. eauto.
Qed.
Lemma reads_message : reads messageSchema decode_message.
Proof.
  intros x w H. unfold messageSchema in H. unfold decode_message.
  required "key"%string reads_string string_undefined. required "from"%string reads_role role_undefined.
  required "versions"%string (reads_array _ 1 _ reads_version) (array_undefined 1 messageVersionSchema).
  optionally "createdAt"%string reads_number. optionally "startedAt"%string reads_number.
  optionally "completedAt"%string reads_number. optionally "durationMs"%string reads_number.
  optionally "sources"%string (reads_array _ 0 _ reads_source). optionally "reasoning"%string reads_reasoning.
  optionally "isReasoningStreaming"%string reads_bool. optionally "isReasoningComplete"%string reads_bool.
  optionally "isContentComplete"%string reads_bool. optionally "status"%string reads_status.
  optionally "errorCode"%string reads_code. eauto.
Qed.

(** An accepted message has a version. *)
Lemma accepted_versions x w m :
  parse messageSchema x = Some w -> decode_message w = Some m -> versions m <> [].
Proof.
  intros H Hm. unfold messageSchema in H.
  destruct (field_required messageShape x w "versions" (ZArray 1 messageVersionSchema) H) as [l Hl];
    [distinct|in_shape|apply array_undefined|].
  unfold decode_message in Hm.
  repeat (apply bind_Some in Hm as (? & ? & Hm)). simplify_eq. cbn [versions].
  rewrite zod_array in Hl. destruct l as [| | | | |l|]; try done.
  destruct (Nat.leb_spec 1 (length l)) as [Hlen|]; [|done]. apply fmap_Some in Hl as (ws & Hws & Hl).
  match goal with H : as_array decode_version (field "versions" w) = Some _ |- _ =>
    rewrite Hl in H; apply mapM_Some, Forall2_length in H; intros ->; simpl in H end.
  apply mapM_Some, Forall2_length in Hws. lia.
Qed.

Lemma reads_messages x w :
  parse messagesSchema x = Some w ->
  exists ms, decode_messages w = Some ms /\ Forall (fun m => versions m <> []) ms.
Proof.
  intros H. unfold messagesSchema in H. rewrite zod_array in H. destruct x as [| | | | |l|]; try done.
  simpl in H. apply fmap_Some in H as (ws & Hws & ->). unfold decode_messages, as_array.
  apply mapM_Some in Hws. induction Hws as [|x y l ws Hx _ (ms & IH1 & IH2)]; [by exists []|].
  destruct (reads_message _ _ Hx) as [m Hm]. exists (m :: ms). simpl. rewrite Hm, IH1. split; [done|].
  constructor; [|done]. by eapply accepted_versions.
Qed.

(** ** Messages survive the way through their objects *)

Lemma has_key_here {A} (f : A -> jsval) k o rest :
  has_key (js k) (of_option f k o ++ rest) = bool_decide (is_Some o) || has_key (js k) rest.
Proof.
  unfold has_key. destruct o; simpl; [|done]. rewrite bool_decide_eq_true_2; [done|]. by left.
Qed.

Lemma has_key_cons k v rest : has_key k ((k, v) :: rest) = true.
Proof. unfold has_key. apply bool_decide_eq_true_2. by left. Qed.

Lemma has_key_field k k' v rest :
  (js k =s? js k') = false -> has_key (js k) ((js k', v) :: rest) = has_key (js k) rest.
Proof.
  intros Hne%str_eqb_neq. unfold has_key. apply bool_decide_ext. rewrite fmap_cons, elem_of_cons. simpl. tauto.
Qed.

Lemma has_key_skip {A} (f : A -> jsval) k k' o rest :
  (js k =s? js k') = false -> has_key (js k) (of_option f k' o ++ rest) = has_key (js k) rest.
Proof. intros Hne. destruct o; [by apply has_key_field|done]. Qed.

End Schema.

(** Look up a property of an encoded object. *)
Ltac skip_props :=
  rewrite ?assoc_skip_field by (vm_compute; reflexivity); rewrite ?assoc_skip by (vm_compute; reflexivity);
  rewrite ?has_key_field by (vm_compute; reflexivity); rewrite ?has_key_skip by (vm_compute; reflexivity).
Ltac lookup_opt := skip_props; rewrite assoc_here; case_match; [reflexivity|]; skip_props; reflexivity.
Ltac has_opt := skip_props; rewrite has_key_here; skip_props; apply orb_false_r.
Ltac lookup_req := skip_props; rewrite ?has_key_cons; reflexivity.

Definition message_fields (m : Message) : list (jsstr * jsval) :=
  [ (js "key", JString (key m)); (js "from", JString (role_text (from m)));
    (js "versions", JArray (encode_version <$> versions m)) ]
  ++ of_option JNumber "createdAt" (createdAt m)
  ++ of_option JNumber "startedAt" (startedAt m)
  ++ of_option JNumber "completedAt" (completedAt m)
  ++ of_option JNumber "durationMs" (durationMs m)
  ++ of_option (fun l => JArray (encode_source <$> l)) "sources" (sources m)
  ++ of_option encode_reasoning "reasoning" (reasoning m)
  ++ of_option JBool "isReasoningStreaming" (isReasoningStreaming m)
  ++ of_option JBool "isReasoningComplete" (isReasoningComplete m)
  ++ of_option JBool "isContentComplete" (isContentComplete m)
  ++ of_option (fun s => JString (status_text s)) "status" (status m)
  ++ of_option encode_code "errorCode" (errorCode m) ++ [].

Lemma encode_message_fields m : encode_message m = JObject (message_fields m).
Proof. unfold encode_message, message_fields. by rewrite app_nil_r. Qed.

Lemma field_of k fs : field k (JObject fs) = assoc (js k) fs.
Proof. reflexivity. Qed.

Lemma optional_opt_val {A B} (f : jsval -> option A) (g : B -> jsval) (h : B -> A) o :
  (forall x, o = Some x -> f (g x) = Some (h x) /\ g x <> JUndefined) ->
  optional f (opt_val g o) = Some (h <$> o).
Proof.
  intros H. destruct o as [x|]; [|done]. destruct (H x eq_refl) as [Hx Hu]. simpl. unfold optional.
  destruct (g x); try done; by rewrite Hx.
Qed.

Lemma mapM_map {A B} (f : jsval -> option A) (g : B -> jsval) (h : B -> A) l :
  (forall x, f (g x) = Some (h x)) -> mapM f (g <$> l) = Some (h <$> l).
Proof. intros H. induction l as [|x l IH]; [done|]. rewrite !fmap_cons. cbn [mapM]. by rewrite H, IH. Qed.

Lemma decode_version_encode v : decode_version (encode_version v) = Some v.
Proof. by destruct v. Qed.
Lemma decode_source_encode s : decode_source (encode_source s) = Some s.
Proof. by destruct s. Qed.
Lemma decode_reasoning_encode r : decode_reasoning (encode_reasoning r) = Some r.
Proof. by destruct r as [c d [|] [|] [|]]. Qed.
Lemma decode_code_encode c : decode_code (encode_code c) = Some c.
Proof. by destruct c. Qed.
Lemma decode_role_encode r : decode_role (JString (role_text r)) = Some r.
Proof. by destruct r. Qed.
Lemma decode_status_encode s : decode_status (JString (status_text s)) = Some s.
Proof. by destruct s. Qed.

Lemma list_id {A} (l : list A) : (fun x => x) <$> l = l.
Proof. induction l as [|x l IH]; [done|]. by rewrite fmap_cons, IH. Qed.
Lemma option_id {A} (o : option A) : (fun x => x) <$> o = o.
Proof. by destruct o. Qed.

Section Fields.
Context (m : Message).
Notation fs := (message_fields m).

Ltac start := unfold message_fields; cbn [app].

Lemma at_key : assoc (js "key") fs = JString (key m).
Proof. reflexivity. Qed.
Lemma at_from : assoc (js "from") fs = JString (role_text (from m)).
Proof. start. lookup_req. Qed.
Lemma at_versions : assoc (js "versions") fs = JArray (encode_version <$> versions m).
Proof. start. lookup_req. Qed.
Lemma at_createdAt : assoc (js "createdAt") fs = opt_val JNumber (createdAt m).
Proof. start. lookup_opt. Qed.
Lemma at_startedAt : assoc (js "startedAt") fs = opt_val JNumber (startedAt m).
Proof. start. lookup_opt. Qed.
Lemma at_completedAt : assoc (js "completedAt") fs = opt_val JNumber (completedAt m).
Proof. start. lookup_opt. Qed.
Lemma at_durationMs : assoc (js "durationMs") fs = opt_val JNumber (durationMs m).
Proof. start. lookup_opt. Qed.
Lemma at_sources : assoc (js "sources") fs = opt_val (fun l => JArray (encode_source <$> l)) (sources m).
Proof. start. lookup_opt. Qed.
Lemma at_reasoning : assoc (js "reasoning") fs = opt_val encode_reasoning (reasoning m).
Proof. start. lookup_opt. Qed.
Lemma at_isReasoningStreaming : assoc (js "isReasoningStreaming") fs = opt_val JBool (isReasoningStreaming m).
Proof. start. lookup_opt. Qed.
Lemma at_isReasoningComplete : assoc (js "isReasoningComplete") fs = opt_val JBool (isReasoningComplete m).
Proof. start. lookup_opt. Qed.
Lemma at_isContentComplete : assoc (js "isContentComplete") fs = opt_val JBool (isContentComplete m).
Proof. start. lookup_opt. Qed.
Lemma at_status : assoc (js "status") fs = opt_val (fun s => JString (status_text s)) (status m).
Proof. start. lookup_opt. Qed.
Lemma at_errorCode : assoc (js "errorCode") fs = opt_val encode_code (errorCode m).
Proof. start. lookup_opt. Qed.

Lemma decode_encode : decode_message (encode_message m) = Some m.
Proof.
  rewrite encode_message_fields. unfold decode_message. rewrite !field_of.
  rewrite at_key, at_from, at_versions, at_createdAt, at_startedAt, at_completedAt, at_durationMs, at_sources,
    at_reasoning, at_isReasoningStreaming, at_isReasoningComplete, at_isContentComplete, at_status, at_errorCode.
  cbn [as_string mbind option_bind as_array]. rewrite decode_role_encode. cbn [mbind option_bind].
  rewrite (mapM_map _ _ (fun v => v)) by apply decode_version_encode. cbn [mbind option_bind].
  rewrite !(optional_opt_val as_number JNumber (fun n => n)) by done. cbn [mbind option_bind].
  rewrite (optional_opt_val (as_array decode_source) _ (fun l => l)).
  2:{ intros l _. split; [|done]. cbn [as_array].
      rewrite (mapM_map _ _ (fun v => v)) by apply decode_source_encode. by rewrite list_id. }
  rewrite (optional_opt_val decode_reasoning _ (fun r => r)) by (intros; split; [apply decode_reasoning_encode|done]).
  rewrite !(optional_opt_val as_bool JBool (fun b => b)) by done. cbn [mbind option_bind].
  rewrite (optional_opt_val decode_status _ (fun s => s)) by (intros; split; [apply decode_status_encode|done]).
  rewrite (optional_opt_val decode_code _ (fun s => s)) by (intros [|] _; done).
  cbn [mbind option_bind]. rewrite list_id, !option_id. by destruct m.
Qed.
End Fields.

(** Messages the schema accepts: at least one version, finite numbers. *)
Definition finite_opt (o : option jsnum) : bool := match o with Some n => is_finite n | None => true end.
Definition reasoning_ok (r : Reasoning) : bool :=
  is_finite (r_duration r) && finite_opt (r_startedAt r) && finite_opt (r_completedAt r)
  && finite_opt (r_durationMs r).
Definition message_ok (m : Message) : bool :=
  bool_decide (versions m <> []) && finite_opt (createdAt m) && finite_opt (startedAt m)
  && finite_opt (completedAt m) && finite_opt (durationMs m)
  && match reasoning m with Some r => reasoning_ok r | None => true end.

Section Accepted.
Context (parse : schema -> jsval -> option jsval) `{HZ : !Zod parse}.

Lemma accept_number o x : o = Some x -> finite_opt o = true ->
  parse ZNumber (JNumber x) = Some (JNumber x) /\ JNumber x <> JUndefined.
Proof. intros -> H. split; [by apply zod_number|done]. Qed.

Lemma accept_string s : parse ZString (JString s) = Some (JString s).
Proof. by rewrite zod_string. Qed.

Lemma accept_two k1 k2 s1 s2 :
  (js k1 =s? js k2) = false ->
  parse (ZObject [(js k1, ZString); (js k2, ZString)]) (JObject [(js k1, JString s1); (js k2, JString s2)])
  = Some (JObject [(js k1, JString s1); (js k2, JString s2)]).
Proof.
  intros Hk. assert (Hk' : (js k2 =s? js k1) = false) by (apply str_eqb_neq; apply str_eqb_neq in Hk; congruence).
  rewrite zod_object.
  rewrite (parse_shape_required parse k1 ZString (JString s1));
    [|simpl; by rewrite str_eqb_refl|unfold has_key; by rewrite bool_decide_eq_true_2 by by left|apply accept_string].
  rewrite (parse_shape_required parse k2 ZString (JString s2)); [done| | |apply accept_string].
  - simpl. by rewrite Hk', str_eqb_refl.
  - unfold has_key. by rewrite bool_decide_eq_true_2 by (right; by left).
Qed.

Ltac accept_opt := rewrite (parse_shape_optional parse).
Ltac has_reasoning := unfold encode_reasoning; cbn [app].

Lemma accept_reasoning r :
  reasoning_ok r = true -> parse reasoningSchema (encode_reasoning r) = Some (encode_reasoning r).
Proof.
  unfold reasoning_ok. rewrite !andb_true_iff. intros (((Hd & Hs) & Hc) & Hm).
  unfold reasoningSchema, encode_reasoning. rewrite <- (app_nil_r (of_option JNumber "durationMs" _)).
  cbn [app]. set (fs := _ :: _). rewrite zod_object. unfold reasoningShape.
  rewrite (parse_shape_required parse "content" ZString (JString (r_content r))) by (done || apply accept_string).
  rewrite (parse_shape_required parse "duration" ZNumber (JNumber (r_duration r)))
    by (unfold fs; first [lookup_req | by apply zod_number]).
  rewrite (parse_shape_optional parse JNumber "startedAt" ZNumber (r_startedAt r));
    [|unfold fs; lookup_opt|unfold fs; has_opt|intros ? E; by apply (accept_number _ _ E)].
  rewrite (parse_shape_optional parse JNumber "completedAt" ZNumber (r_completedAt r));
    [|unfold fs; lookup_opt|unfold fs; has_opt|intros ? E; by apply (accept_number _ _ E)].
  rewrite (parse_shape_optional parse JNumber "durationMs" ZNumber (r_durationMs r));
    [|unfold fs; lookup_opt|unfold fs; has_opt|intros ? E; by apply (accept_number _ _ E)].
  reflexivity.
Qed.

Definition optional_number (k : string) (o : option jsnum) : Prop :=
  forall shape fs, assoc (js k) fs = opt_val JNumber o -> has_key (js k) fs = bool_decide (is_Some o) ->
  parse_shape parse ((js k, ZOptional ZNumber) :: shape) fs
  = (fun ws => of_option JNumber k o ++ ws) <$> parse_shape parse shape fs.

Lemma accept_optional_number k o : finite_opt o = true -> optional_number k o.
Proof.
  intros Ho shape fs Ha Hh. apply parse_shape_optional; [done|done|done|].
  intros x E. by apply (accept_number _ _ E).
Qed.

Lemma accept_optional_bool k o shape fs :
  assoc (js k) fs = opt_val JBool o -> has_key (js k) fs = bool_decide (is_Some o) ->
  parse_shape parse ((js k, ZOptional ZBoolean) :: shape) fs
  = (fun ws => of_option JBool k o ++ ws) <$> parse_shape parse shape fs.
Proof.
  intros Ha Hh. apply parse_shape_optional; [done|done|done|].
  intros x _. split; [by rewrite zod_boolean|done].
Qed.

Lemma has_all m k :
  k ∈ [js "key"; js "from"; js "versions"] -> has_key k (message_fields m) = true.
Proof.
  rewrite !elem_of_cons, elem_of_nil. unfold has_key, message_fields. cbn [app].
  intros H. apply bool_decide_eq_true_2. rewrite !fmap_cons. simpl. set_solver.
Qed.

Ltac opt_prop at_lemma := first [apply at_lemma | unfold message_fields; cbn [app]; has_opt].

Lemma accept_message m :
  message_ok m = true -> parse messageSchema (encode_message m) = Some (encode_message m).
Proof.
  unfold message_ok. rewrite !andb_true_iff. intros (((((Hv & H1) & H2) & H3) & H4) & Hr).
  apply bool_decide_eq_true in Hv. rewrite encode_message_fields. unfold messageSchema.
  rewrite zod_object. unfold messageShape.
  rewrite (parse_shape_required parse "key" ZString (JString (key m)));
    [|apply at_key|apply has_all; set_solver|apply accept_string].
  rewrite (parse_shape_required parse "from" messageRoleSchema (JString (role_text (from m))));
    [|apply at_from|apply has_all; set_solver|unfold messageRoleSchema; rewrite zod_enum; by destruct (from m)].
  rewrite (parse_shape_required parse "versions" _ (JArray (encode_version <$> versions m)));
    [|apply at_versions|apply has_all; set_solver|].
  2:{ apply zod_array_all; [done|destruct (versions m); [done|simpl; lia]|].
      apply Forall_fmap, Forall_forall. intros v _. by apply accept_two. }
  rewrite (accept_optional_number "createdAt" (createdAt m)) by (done || opt_prop at_createdAt).
  rewrite (accept_optional_number "startedAt" (startedAt m)) by (done || opt_prop at_startedAt).
  rewrite (accept_optional_number "completedAt" (completedAt m)) by (done || opt_prop at_completedAt).
  rewrite (accept_optional_number "durationMs" (durationMs m)) by (done || opt_prop at_durationMs).
  rewrite (parse_shape_optional parse (fun l => JArray (encode_source <$> l)) "sources" (ZArray 0 sourceSchema) (sources m));
    [|apply at_sources|opt_prop at_sources|].
  2:{ intros l _. split; [|done]. apply zod_array_all; [done|lia|].
      apply Forall_fmap, Forall_forall. intros v _. by apply accept_two. }
  rewrite (parse_shape_optional parse encode_reasoning "reasoning" reasoningSchema (reasoning m));
    [|apply at_reasoning|opt_prop at_reasoning|].
  2:{ intros r E. rewrite E in Hr. split; [by apply accept_reasoning|done]. }
  rewrite (accept_optional_bool "isReasoningStreaming" (isReasoningStreaming m)) by (opt_prop at_isReasoningStreaming).
  rewrite (accept_optional_bool "isReasoningComplete" (isReasoningComplete m)) by (opt_prop at_isReasoningComplete).
  rewrite (accept_optional_bool "isContentComplete" (isContentComplete m)) by (opt_prop at_isContentComplete).
  rewrite (parse_shape_optional parse (fun s => JString (status_text s)) "status" messageStatusSchema (status m));
    [|apply at_status|opt_prop at_status|].
  2:{ intros s _. split; [|done]. unfold messageStatusSchema. rewrite zod_enum. by destruct s. }
  rewrite (parse_shape_optional parse encode_code "errorCode" (ZNullable ZString) (errorCode m));
    [|apply at_errorCode|opt_prop at_errorCode|].
  2:{ intros [c|] _; (split; [|done]); rewrite zod_nullable; [apply accept_string|done]. }
  reflexivity.
Qed.

Lemma accept_messages ms :
  Forall (fun m => message_ok m = true) ms ->
  parse messagesSchema (encode_messages ms) = Some (encode_messages ms).
Proof.
  intros H. apply zod_array_all; [done|lia|]. apply Forall_fmap. eapply Forall_impl; [done|].
  intros m. apply accept_message.
Qed.
End Accepted.

Lemma decode_messages_encode ms : decode_messages (encode_messages ms) = Some ms.
Proof.
  unfold decode_messages, encode_messages, as_array.
  rewrite (mapM_map _ _ (fun m => m)) by apply decode_encode. by rewrite list_id.
Qed.

(** ** Bounds of the loaded conversation *)

Lemma units_app a b : units (a ++ b) = (units a + units b)%N.
Proof. unfold units. rewrite length_app. lia. Qed.

Lemma units_take n s : (units (take n s) <= N.of_nat n)%N.
Proof. unfold units. rewrite length_take. lia. Qed.

Lemma truncateText_bound text n : (units (truncateText text n) <= n)%N.
Proof.
  unfold truncateText. destruct (N.leb_spec (units text) n); [done|].
  destruct (N.leb_spec n (units TRUNCATED_CONTENT_SUFFIX)).
  - pose proof (units_take (N.to_nat n) text). lia.
  - rewrite units_app. pose proof (units_take (N.to_nat (n - units TRUNCATED_CONTENT_SUFFIX)) text). lia.
Qed.

Lemma truncateText_id text n : (units text <= n)%N -> truncateText text n = text.
Proof. intros H. unfold truncateText. by rewrite (proj2 (N.leb_le _ _) H). Qed.

Definition totalSize (ms : list Message) : N := foldr (fun m n => (getMessageSize m + n)%N) 0%N ms.

(** The loop over sizes keeps a suffix within the bound, or the last message alone;
    the message before the suffix would exceed the bound. *)
Lemma size_loop_spec rev_ms : forall total result,
  total = totalSize result ->
  (total <= MAX_LOADED_MESSAGES_CHARS)%N \/ length result <= 1 ->
  exists dropped, let r := size_loop rev_ms total result in
    reverse rev_ms ++ result = dropped ++ r
    /\ ((totalSize r <= MAX_LOADED_MESSAGES_CHARS)%N \/ length r <= 1)
    /\ (rev_ms ++ result <> [] -> r <> [])
    /\ match last dropped with
       | Some m => (MAX_LOADED_MESSAGES_CHARS < totalSize (m :: r))%N
       | None => True
       end.
Proof.
  induction rev_ms as [|m ms IH]; intros total result Ht Hb; cbn [size_loop].
  - exists []. rewrite <- Ht. done.
  - set (big := match result with [] => false | _ => _ end). destruct big eqn:E.
    + exists (reverse (m :: ms)). split; [done|]. split; [by rewrite <- Ht|].
      unfold big in E. destruct result as [|x result]; [done|]. split; [done|].
      rewrite reverse_cons, last_snoc. simpl in *. apply N.ltb_lt in E. lia.
    + destruct (IH (total + getMessageSize m)%N (m :: result)) as (d & H1 & H2 & H3 & H4).
      * simpl. lia.
      * destruct result as [|x result]; [right; simpl; lia|]. left. unfold big in E. apply N.ltb_ge in E. lia.
      * exists d. split; [by rewrite reverse_cons, <- (assoc_L (++))|]. split; [done|]. split; [|done].
        intros _. apply H3. by destruct ms.
Qed.

Lemma trimMessagesByContentSize_spec ms :
  exists dropped, let r := trimMessagesByContentSize ms in
    ms = dropped ++ r
    /\ ((totalSize r <= MAX_LOADED_MESSAGES_CHARS)%N \/ length r <= 1)
    /\ (ms <> [] -> r <> [])
    /\ match last dropped with
       | Some m => (MAX_LOADED_MESSAGES_CHARS < totalSize (m :: r))%N
       | None => True
       end.
Proof.
  destruct (size_loop_spec (reverse ms) 0 []) as (d & H1 & H2 & H3 & H4); [done|right; simpl; lia|].
  exists d. rewrite reverse_involutive, app_nil_r in *. split; [done|]. split; [done|]. split; [|done].
  intros Hne. apply H3. intros H. apply (f_equal reverse) in H. by rewrite reverse_involutive in H.
Qed.

Lemma totalSize_app a b : totalSize (a ++ b) = (totalSize a + totalSize b)%N.
Proof. induction a as [|m a IH]; simpl; [done|]. rewrite IH. lia. Qed.

Lemma last_split {A} (l : list A) x : last l = Some x -> exists l', l = l' ++ [x].
Proof. intros H. apply last_Some in H. exact H. Qed.

(** A conversation within the bound is kept whole. *)
Lemma trimMessagesByContentSize_id ms :
  (totalSize ms <= MAX_LOADED_MESSAGES_CHARS)%N -> trimMessagesByContentSize ms = ms.
Proof.
  intros Hs. destruct (trimMessagesByContentSize_spec ms) as (d & H1 & _ & _ & H4).
  destruct (last d) as [m|] eqn:E; [|apply last_None in E as ->; by symmetry].
  apply last_split in E as [d' ->]. rewrite H1, !totalSize_app in Hs. simpl in Hs, H4. lia.
Qed.

Lemma trimMessages_spec ms :
  exists dropped, ms = dropped ++ trimMessages ms /\ length (trimMessages ms) <= MAX_STORED_MESSAGES
    /\ (dropped = [] \/ length (trimMessages ms) = MAX_STORED_MESSAGES).
Proof.
  unfold trimMessages. destruct (Nat.leb_spec (length ms) MAX_STORED_MESSAGES); [by exists []; auto|].
  exists (take (length ms - MAX_STORED_MESSAGES) ms). rewrite take_drop. split; [done|]. rewrite length_drop.
  split; [lia|right; lia].
Qed.

Lemma trimMessages_id ms : length ms <= MAX_STORED_MESSAGES -> trimMessages ms = ms.
Proof. intros H. unfold trimMessages. by rewrite (proj2 (Nat.leb_le _ _) H). Qed.

(** *** Texts *)

(** The texts of a message: its versions and its reasoning. *)
Definition texts (m : Message) : list jsstr :=
  (content <$> versions m) ++ match reasoning m with Some r => [r_content r] | None => [] end.

Definition bounded (n : N) (m : Message) : Prop := Forall (fun s => (units s <= n)%N) (texts m).

Lemma length_trim_le s : length (trim s) <= length s.
Proof. destruct (trim_decompose s) as (p & q & H & _). rewrite H at 2. rewrite !length_app. lia. Qed.

Lemma think_lengths s vs rs u :
  think_parse s vs rs u -> length (concat vs) + length (join blank_line rs) <= length s.
Proof.
  assert (Hj : forall r rs, length (join blank_line (r :: rs)) <= length r + 2 + length (join blank_line rs)).
  { intros r [|r' rs']; [simpl; lia|]. rewrite join_cons, !length_app by done.
    change (length blank_line) with 2. lia. }
  induction 1 as [s _|v r _ _|v r s vs rs u _ _ _ IH]; rewrite ?length_app.
  - simpl. rewrite app_nil_r. lia.
  - cbn [concat join]. rewrite app_nil_r. lia.
  - cbn [concat]. rewrite length_app. specialize (Hj r rs). change (length open_tag) with 7.
    change (length close_tag) with 8. lia.
Qed.

Lemma think_bounds s :
  length (visibleContent (parseThinkTags s)) <= length s /\ length (t_reasoning (parseThinkTags s)) <= length s.
Proof.
  destruct (includes open_tag s) eqn:E; [|rewrite parseThinkTags_plain by done; simpl; lia].
  destruct (think_parse_exists s) as (vs & rs & u & Hp). pose proof (think_lengths _ _ _ _ Hp).
  rewrite (parseThinkTags_spec _ _ _ _ Hp E). cbn [visibleContent t_reasoning].
  pose proof (length_trim_le (concat vs)). pose proof (length_trim_le (join blank_line rs)). lia.
Qed.

Lemma texts_completeReasoning m now : texts (completeReasoningTiming m now) = texts m.
Proof.
  unfold completeReasoningTiming, texts. destruct (reasoning m) as [[c d s e [ms|]]|] eqn:E; rewrite ?E; done.
Qed.
Lemma texts_completeAssistant m now : texts (completeAssistantTiming m now) = texts m.
Proof. unfold completeAssistantTiming. by case_match. Qed.

Lemma content_bounded n m : bounded n m -> (units (getMessageContent m) <= n)%N.
Proof.
  unfold bounded, texts, getMessageContent, getCurrentVersion. destruct (versions m); [intros _; apply N.le_0_l|].
  by intros [H _]%Forall_cons.
Qed.
Lemma reasoning_bounded n m r : bounded n m -> reasoning m = Some r -> (units (r_content r) <= n)%N.
Proof. intros [_ H]%Forall_app E. rewrite E in H. by apply Forall_cons in H as [H _]. Qed.

Lemma finalize_bounded n m now : bounded n m -> bounded n (finalizeMessage m [] now).
Proof.
  intros H. unfold bounded, finalizeMessage. rewrite texts_completeReasoning. unfold texts. simpl.
  pose proof (content_bounded n m H) as Hc. destruct (think_bounds (getMessageContent m)) as [Hv Hr].
  constructor.
  - destruct (includes _ _); unfold units in *; lia.
  - destruct (truthy _) eqn:E; constructor; [|done]. cbn [r_with_content r_content]. clear E.
    unfold str_or. cbn [truthy]. destruct (reasoning m) as [r|] eqn:Er.
    + pose proof (reasoning_bounded n m r H Er).
      destruct (truthy (r_content r)); [done|]. destruct (includes _ _); unfold units in *; simpl; lia.
    + destruct (includes _ _); unfold units in *; simpl; lia.
Qed.

Lemma normalizeTexts_bounded m : bounded MAX_LOADED_MESSAGE_CHARS (normalizeTexts m).
Proof.
  unfold normalizeTexts. destruct (_ || _) eqn:E; unfold bounded, texts; simpl.
  - apply Forall_app. split.
    + rewrite <- list_fmap_compose. apply Forall_fmap, Forall_forall. intros v _. unfold compose.
      destruct (_ && _) eqn:Ev; [|apply truncateText_bound].
      apply andb_true_iff in Ev as [Ev%str_eqb_eq _]. rewrite <- Ev. apply truncateText_bound.
    + destruct (reasoning m) as [r|]; simpl; [|done]. constructor; [apply truncateText_bound|done].
  - apply orb_false_iff in E as [Ev Er]. apply Forall_app. split.
    + apply Forall_fmap, Forall_forall. intros v Hv.
      assert (Hx : (truncateText (collapseRepeatedSectionSnapshots (content v)) MAX_LOADED_MESSAGE_CHARS =s? content v)
        && (collapseRepeatedSectionSnapshots (content v) =s? content v) = true).
      { apply negb_false_iff. apply not_true_iff_false. intros Ht. apply not_true_iff_false in Ev. apply Ev.
        apply existsb_exists. exists v. split; [by apply list_elem_of_In|done]. }
      apply andb_true_iff in Hx as [Hx%str_eqb_eq _]. unfold compose. rewrite <- Hx. apply truncateText_bound.
    + rewrite negb_false_iff in Er. apply bool_decide_eq_true in Er.
      destruct (reasoning m) as [r|]; simpl in *; [|done]. constructor; [|done].
      injection Er as Er. rewrite <- Er. apply truncateText_bound.
Qed.

Lemma normalize_bounded m now : bounded MAX_LOADED_MESSAGE_CHARS (normalizeStoredMessageForLoad m now).
Proof.
  pose proof (normalizeTexts_bounded m) as H. unfold normalizeStoredMessageForLoad.
  destruct (negb _); [done|]. destruct (_ && _); [done|].
  unfold bounded. rewrite texts_completeAssistant. by apply finalize_bounded.
Qed.

(** The notice that replaces an answer without any text. *)
Definition interrupted_notice (t : jsstr -> jsstr) : jsstr := t API_REQUEST_ERROR ++ js ": " ++ t INTERRUPTED.

Lemma texts_mono n n' l :
  (n <= n')%N -> Forall (fun s => (units s <= n)%N) l -> Forall (fun s => (units s <= n')%N) l.
Proof. intros Hn H. eapply Forall_impl; [exact H|]. simpl. intros s Hs. lia. Qed.

Lemma sanitize_bounded t n m now :
  bounded n m -> bounded (N.max n (units (interrupted_notice t))) (sanitizeMessage t m now).
Proof.
  intros H. pose proof (finalize_bounded n m now H) as Hf. unfold sanitizeMessage, bounded.
  destruct (_ || _) eqn:E; rewrite texts_completeAssistant.
  - eapply texts_mono; [|exact Hf]. lia.
  - change (Forall (fun s => (units s <= N.max n (units (interrupted_notice t)))%N)
      (interrupted_notice t :: match reasoning (finalizeMessage m [] now) with
                               | Some r => [r_content r] | None => [] end)).
    constructor; [lia|].
    apply Forall_app in Hf as [_ Hf]. eapply texts_mono; [|exact Hf]. lia.
Qed.

Lemma sanitize_all_bounded t n ms now :
  Forall (bounded n) ms ->
  Forall (bounded (N.max n (units (interrupted_notice t)))) (sanitizeMessagesOnLoad t ms now)
  /\ length (sanitizeMessagesOnLoad t ms now) = length ms.
Proof.
  intros H. unfold sanitizeMessagesOnLoad. destruct (find_last _ _) as [i|]; [|split; [|done]].
  - split; [|apply length_alter]. apply Forall_lookup. intros j m Hj.
    destruct (decide (j = i)) as [->|Hne].
    + rewrite list_lookup_alter_eq in Hj. apply fmap_Some in Hj as (m' & Hm' & ->).
      apply sanitize_bounded. rewrite Forall_lookup in H. eauto.
    + rewrite list_lookup_alter_ne in Hj by done. rewrite Forall_lookup in H.
      eapply texts_mono; [|exact (H _ _ Hj)]. lia.
  - eapply Forall_impl; [exact H|]. intros m Hm. eapply texts_mono; [|exact Hm]. lia.
Qed.

Section Loading.
Context (show : jsnum -> jsstr) (fits : store -> jsstr -> jsstr -> bool).
Context (parse : schema -> jsval -> option jsval) `{HZ : !Zod parse} (t : jsstr -> jsstr).

(** The conversation local storage holds: the text under its key is JSON whose value, out of
    its envelope, the schema accepts and which is the list of these messages. *)
Definition stored_conversation (st : store) (parsed : list Message) : Prop :=
  exists saved v w, st !! MESSAGES = Some saved /\ JSON_parse saved = Some v
    /\ parse messagesSchema (unwrapStoredValue v) = Some w /\ decode_messages w = Some parsed.

(** What a load returns comes from the stored conversation. *)
Lemma load_inv now st ms st' :
  loadMessages show fits parse t now st = (Some ms, st') ->
  exists parsed, stored_conversation st parsed /\ ms = loaded_messages t parsed now
    /\ st' = saveMessages show fits parse ms st.
Proof.
  unfold loadMessages, readStoredMessagesValue. intros H.
  destruct (st !! MESSAGES) as [[|c saved]|] eqn:Es; [done| |done].
  destruct (_ <? _)%N; [done|]. destruct (JSON_parse (c :: saved)) as [v|] eqn:Ej; [|done]. cbn [fmap option_fmap option_map] in H.
  destruct (js_truthy v); [|done]. cbn [negb] in H.
  destruct (parse messagesSchema (unwrapStoredValue v)) as [w|] eqn:Ep; [|done]. cbn [mbind option_bind] in H.
  destruct (reads_messages parse _ _ Ep) as (parsed & Hd & Hv). rewrite Hd in H. injection H as <- <-.
  exists parsed. split; [|done]. by exists (c :: saved), v, w.
Qed.
End Loading.

(** C30: What is loaded is bounded, whatever local storage holds: at most 100
    messages; every text of a message within 40000 code units or the length of the
    notice of an interrupted answer; and the messages are, with at most the last
    pending answer settled, the end of the conversation that local storage holds, its
    texts normalised: the part kept has at most 120000 code units or is the last
    message alone, is empty only when the stored conversation is, and is the longest such end:
    when something was dropped, 100 messages are kept or the last message dropped
    would exceed the 120000 code units. *)
Theorem loaded_conversation_bounds show fits parse (HZ : Zod parse) t now st ms st' :
  loadMessages show fits parse t now st = (Some ms, st') ->
  length ms <= MAX_STORED_MESSAGES
  /\ Forall (bounded (N.max MAX_LOADED_MESSAGE_CHARS (units (interrupted_notice t)))) ms
  /\ exists parsed dropped kept,
       stored_conversation parse st parsed
       /\ (fun m => normalizeStoredMessageForLoad m now) <$> parsed = dropped ++ kept
       /\ ms = sanitizeMessagesOnLoad t kept now
       /\ ((totalSize kept <= MAX_LOADED_MESSAGES_CHARS)%N \/ length kept = 1)
       /\ (parsed <> [] -> kept <> [])
       /\ (forall m, last dropped = Some m ->
            length kept = MAX_STORED_MESSAGES \/ (MAX_LOADED_MESSAGES_CHARS < totalSize (m :: kept))%N).
Proof.
  intros H. destruct (load_inv show fits parse t _ _ _ _ H) as (parsed & Hst & -> & _). unfold loaded_messages.
  set (normalized := _ <$> parsed).
  destruct (trimMessages_spec normalized) as (d1 & H1 & Hlen & Hfull).
  destruct (trimMessagesByContentSize_spec (trimMessages normalized)) as (d2 & H2 & Hsize & Hne & Hmax).
  set (kept := trimMessagesByContentSize (trimMessages normalized)) in *.
  assert (Hall : Forall (bounded MAX_LOADED_MESSAGE_CHARS) kept).
  { assert (Hn : Forall (bounded MAX_LOADED_MESSAGE_CHARS) normalized)
      by (apply Forall_fmap, Forall_forall; intros; apply normalize_bounded).
    rewrite H1, H2 in Hn. apply Forall_app in Hn as [_ [_ ?]%Forall_app]. done. }
  destruct (sanitize_all_bounded t _ kept now Hall) as [Hb Hl].
  split; [|split; [done|]].
  - rewrite Hl. rewrite H2, length_app in Hlen. lia.
  - exists parsed, (d1 ++ d2), kept. split; [done|]. split; [fold normalized; by rewrite <- (assoc_L (++)), <- H2|].
    split; [done|]. split; [|split].
    + destruct Hsize as [?|Hs]; [by left|]. destruct kept as [|m [|m' kept']] eqn:Ek; [left; simpl; lia|by right|simpl in Hs; lia].
    + intros Hp. apply Hne. intros Ht. destruct Hfull as [->|Hfull]; [|by rewrite Ht in Hfull].
      rewrite Ht in H1. unfold normalized in H1. by destruct parsed.
    + intros m Hm. destruct d2 as [|x d2].
      * rewrite app_nil_r in Hm. destruct Hfull as [->|Hfull]; [done|]. left. by rewrite H2 in Hfull.
      * right. rewrite last_app in Hm. destruct (last (x :: d2)) as [y|] eqn:Ey; [by injection Hm as <-|].
        by apply last_None in Ey.
Qed.

Definition sample_message : Message :=
  mkMessage (js "k1") USER [mkVersion (js "v1") (js "Hello")] (Some (num 1700000000)) None None None None None
    None None None None None.
Definition sample_answer : Message :=
  mkMessage (js "k2") ASSISTANT [mkVersion (js "v2") (js "Hi there")] (Some (num 1700000001)) (Some (num 1700000001))
    (Some (num 1700000003)) (Some (num 2)) (Some [mkSource (js "https://e.org") (js "E")])
    (Some (mkReasoning (js "greet") (num 1) (Some (num 1700000001)) (Some (num 1700000002)) (Some (num 1))))
    (Some false) None None (Some COMPLETE) (Some None).

Definition always_fits (st : store) (k v : jsstr) : bool := true.

Lemma loaded_conversation_bounds_witness :
  length [sample_message; sample_answer] <= MAX_STORED_MESSAGES.
Proof.
  set (st := saveMessages show_int always_fits reference_parse [sample_message; sample_answer] ∅).
  refine (proj1 (loaded_conversation_bounds show_int always_fits reference_parse reference_Zod (fun s => s)
    (num 1700000009) st [sample_message; sample_answer] st _)).
  vm_compute. reflexivity.
Defined.

(** C40: The schema of stored conversations is sound: whatever zod accepts as a list
    of messages has the type the code casts it to, every field at its type, and
    every message has at least one version. *)
Theorem messages_schema_sound parse (HZ : Zod parse) v w :
  parse messagesSchema v = Some w ->
  exists ms, decode_messages w = Some ms /\ Forall (fun m => versions m <> []) ms.
Proof. by apply reads_messages. Qed.

Lemma messages_schema_sound_witness :
  exists ms, decode_messages (encode_messages [sample_answer]) = Some ms
    /\ Forall (fun m => versions m <> []) ms.
Proof.
  apply (messages_schema_sound reference_parse reference_Zod (encode_messages [sample_answer])).
  vm_compute. reflexivity.
Defined.

(** ** Saving and loading *)

(** A message that loading leaves as it is: not being generated, its texts within
    the bound and without repeated sections. *)
Definition settled (m : Message) : bool :=
  negb (isAssistantMessagePending m)
  && forallb (fun v => (units (content v) <=? MAX_LOADED_MESSAGE_CHARS)%N
                       && (collapseRepeatedSectionSnapshots (content v) =s? content v)) (versions m)
  && match reasoning m with Some r => (units (r_content r) <=? MAX_LOADED_MESSAGE_CHARS)%N | None => true end.

Lemma settled_texts m : settled m = true -> normalizeTexts m = m.
Proof.
  unfold settled. rewrite !andb_true_iff. intros [[_ Hv] Hr]. unfold normalizeTexts.
  destruct (_ || _) eqn:E; [|done]. exfalso. apply orb_true_iff in E as [E|E].
  - apply existsb_exists in E as (v & Hin & E). rewrite forallb_forall in Hv. specialize (Hv v Hin).
    apply andb_true_iff in Hv as [Hl%N.leb_le Hc%str_eqb_eq].
    by rewrite Hc, truncateText_id, str_eqb_refl in E.
  - rewrite negb_true_iff in E. apply bool_decide_eq_false in E. apply E.
    destruct (reasoning m) as [r|]; [|done]. simpl. apply N.leb_le in Hr. by rewrite truncateText_id.
Qed.

Lemma settled_normal m now : settled m = true -> normalizeStoredMessageForLoad m now = m.
Proof.
  intros H. unfold normalizeStoredMessageForLoad. rewrite settled_texts by done.
  unfold settled in H. rewrite !andb_true_iff in H. by destruct H as [[-> _] _].
Qed.

Lemma settled_not_pending m : settled m = true -> isPendingAssistantMessage m = false.
Proof.
  unfold settled, isPendingAssistantMessage. rewrite !andb_true_iff, negb_true_iff. intros [[-> _] _]. apply andb_false_r.
Qed.

Lemma find_last_none {A} (f : A -> bool) l : Forall (fun x => f x = false) l -> find_last f l = None.
Proof. induction 1 as [|x l Hx _ IH]; simpl; [done|]. by rewrite IH, Hx. Qed.

Lemma settled_loaded t ms now :
  Forall (fun m => settled m = true) ms -> length ms <= MAX_STORED_MESSAGES ->
  (totalSize ms <= MAX_LOADED_MESSAGES_CHARS)%N -> loaded_messages t ms now = ms.
Proof.
  intros Hs Hl Ht. unfold loaded_messages.
  assert ((fun m => normalizeStoredMessageForLoad m now) <$> ms = ms) as ->.
  { clear Hl Ht. induction Hs as [|m ms Hm _ IH]; [done|]. rewrite fmap_cons, settled_normal by done. by f_equal. }
  rewrite trimMessages_id, trimMessagesByContentSize_id by done.
  unfold sanitizeMessagesOnLoad. rewrite find_last_none; [done|].
  eapply Forall_impl; [exact Hs|]. intros m. apply settled_not_pending.
Qed.

Section Saving.
Context (show : jsnum -> jsstr) (fits : store -> jsstr -> jsstr -> bool).
Context (parse : schema -> jsval -> option jsval) `{HZ : !Zod parse} (t : jsstr -> jsstr).

(** The text of a conversation. *)
Definition messages_text (ms : list Message) : jsstr := stored_text show (encode_messages ms).

Lemma save_effect ms st :
  Forall (fun m => message_ok m = true) (trimMessages ms) ->
  fits st MESSAGES (messages_text (trimMessages ms)) = true ->
  saveMessages show fits parse ms st = <[MESSAGES := messages_text (trimMessages ms)]> st.
Proof.
  intros Hok Hf. unfold saveMessages, save_object, writeStoredValue, messages_text in *.
  rewrite accept_messages by done. by rewrite Hf.
Qed.

Lemma parse_stored_text data :
  num_ok show (num STORAGE_VERSION) = true -> json_ok show data = true ->
  JSON_parse (stored_text show data)
  = Some (JObject [(js "version", JNumber (num STORAGE_VERSION)); (js "data", data)]).
Proof.
  intros H1 H2. apply JSON_parse_stringify. cbn [json_ok forallb fst snd]. rewrite H1, H2.
  vm_compute. reflexivity.
Qed.

(** Conversations that survive a reload unchanged. *)
Definition restorable (ms : list Message) : Prop :=
  length ms <= MAX_STORED_MESSAGES /\ (totalSize ms <= MAX_LOADED_MESSAGES_CHARS)%N
  /\ Forall (fun m => message_ok m = true /\ settled m = true) ms
  /\ json_ok show (encode_messages ms) = true /\ num_ok show (num STORAGE_VERSION) = true
  /\ (units (messages_text ms) <= MAX_STORED_MESSAGES_BYTES)%N.

Lemma load_stored ms st now :
  restorable ms -> st !! MESSAGES = Some (messages_text ms) ->
  loadMessages show fits parse t now st = (Some ms, saveMessages show fits parse ms st).
Proof.
  intros (Hl & Ht & Hok & Hj & Hn & Hu) Hst. unfold loadMessages, readStoredMessagesValue. rewrite Hst.
  assert (Hp := parse_stored_text _ Hn Hj). unfold messages_text in *.
  destruct (stored_text show (encode_messages ms)) as [|c text] eqn:Et; [discriminate Et|].
  rewrite (proj2 (N.ltb_ge _ _)) by done. rewrite Hp. cbn [fmap option_fmap option_map js_truthy negb].
  change (unwrapStoredValue _) with (encode_messages ms).
  rewrite (accept_messages parse ms) by (eapply Forall_impl; [exact Hok|]; by intros m []).
  cbn [mbind option_bind]. rewrite decode_messages_encode.
  rewrite settled_loaded; [done| |done|done]. eapply Forall_impl; [exact Hok|]. by intros m [].
Qed.
End Saving.

(** A settled conversation within the bounds survives a reload: saving it and
    loading it again gives the same messages, field by field, and writes the same
    text back. *)
Theorem save_load_roundtrip show fits parse (HZ : Zod parse) t ms st now :
  restorable show ms -> (forall st', fits st' MESSAGES (messages_text show ms) = true) ->
  let st1 := saveMessages show fits parse ms st in
  loadMessages show fits parse t now st1 = (Some ms, st1).
Proof.
  intros Hr Hf st1. assert (Hok : Forall (fun m => message_ok m = true) ms).
  { destruct Hr as (_ & _ & H & _). eapply Forall_impl; [exact H|]. by intros m []. }
  assert (Ht : trimMessages ms = ms) by (apply trimMessages_id; by destruct Hr).
  assert (Hs : forall st, saveMessages show fits parse ms st = <[MESSAGES := messages_text show ms]> st).
  { intros s. rewrite <- Ht at 2. apply save_effect; [done|by rewrite Ht|rewrite Ht; apply Hf]. }
  rewrite (load_stored show fits parse t ms) by (done || unfold st1; rewrite Hs; apply lookup_insert_eq).
  unfold st1. by rewrite !Hs, insert_insert_eq.
Qed.

Lemma save_load_roundtrip_witness :
  let st1 := saveMessages show_int always_fits reference_parse [sample_message; sample_answer] ∅ in
  loadMessages show_int always_fits reference_parse (fun s => s) (num 5) st1
  = (Some [sample_message; sample_answer], st1).
Proof.
  refine (save_load_roundtrip show_int always_fits reference_parse reference_Zod (fun s => s)
    [sample_message; sample_answer] ∅ (num 5) _ (fun _ => eq_refl)).
  split; [unfold MAX_STORED_MESSAGES; simpl; lia|]. split; [vm_compute; discriminate|]. split; [repeat constructor|].
  split; [vm_compute; reflexivity|]. split; [vm_compute; reflexivity|]. vm_compute. discriminate.
Defined.

(** ** Conversations that are lost *)

(** A text is at least as long as the text of any of its parts. *)
Lemma length_join_elem sep ps p : p ∈ ps -> length p <= length (join sep ps).
Proof.
  intros Hp. induction Hp as [p ps|p q ps Hp IH].
  - destruct ps; simpl; [done|]. rewrite !length_app. lia.
  - destruct ps as [|r ps]; [by apply elem_of_nil in Hp|]. rewrite join_cons, !length_app by done. lia.
Qed.

Lemma length_items nl d ps p : p ∈ ps -> length p <= length (items nl d ps).
Proof.
  intros Hp. destruct ps as [|q ps]; [by apply elem_of_nil in Hp|]. unfold items. rewrite !length_app.
  pose proof (length_join_elem (44%N :: nl (S d)) (q :: ps) p Hp). lia.
Qed.

Section Lengths.
Context (show : jsnum -> jsstr) (nl : nat -> jsstr) (gap : jsstr).
Notation pr := (print show nl gap).

Lemma length_print_array d l v : v ∈ l -> length (pr (S d) v) <= length (pr d (JArray l)).
Proof.
  intros Hv. rewrite print_array. simpl. rewrite length_app.
  pose proof (length_items nl d (pr (S d) <$> l) (pr (S d) v)) as H. specialize (H ltac:(by apply list_elem_of_fmap_2)). lia.
Qed.

Lemma length_print_object d fs k v :
  (k, v) ∈ fs -> v <> JUndefined -> length (pr (S d) v) <= length (pr d (JObject fs)).
Proof.
  intros Hin Hv. cbn [print]. simpl length. rewrite length_app.
  match goal with |- context [items nl d ?ps] => set (members := ps) end.
  assert (Hm : (stringify_string k ++ 58%N :: gap ++ pr (S d) v) ∈ members).
  { unfold members. clear members. induction fs as [|[k' v'] fs IH]; [by apply elem_of_nil in Hin|].
    apply elem_of_cons in Hin as [Heq|Hin].
    - simplify_eq. destruct v'; first [done | by left].
    - destruct v'; [by apply IH|right; by apply IH..]. }
  pose proof (length_items nl d members _ Hm) as H.
  rewrite length_app in H. cbn [length] in H. rewrite length_app in H. lia.
Qed.

Lemma length_escape s : length s <= length (escape s).
Proof.
  induction s as [s IH] using (induction_ltof1 _ (@length N)). unfold ltof in IH.
  assert (Hu : forall c, 1 <= length (escape_unit c)) by (intros c; unfold escape_unit; by repeat case_match; simpl; lia).
  destruct s as [|c [|d s]]; [done|apply Hu|].
  change (escape (c :: d :: s)) with (if is_high c && is_low d then c :: d :: escape s
    else escape_unit c ++ escape (d :: s)).
  destruct (_ && _).
  - simpl. specialize (IH s ltac:(simpl; lia)). lia.
  - rewrite length_app. specialize (IH (d :: s) ltac:(simpl; lia)). specialize (Hu c). simpl in *. lia.
Qed.
End Lengths.

(** The text of a conversation is at least as long as each of its contents. *)
Lemma messages_text_length show ms m v :
  m ∈ ms -> v ∈ versions m -> (units (content v) <= units (messages_text show ms))%N.
Proof.
  intros Hm Hv. unfold units, messages_text, stored_text, stringify. set (nl := fun _ : nat => []).
  assert (H : length (content v) <= length (print show nl [] 5 (JString (content v)))).
  { cbn [print]. unfold stringify_string. simpl. rewrite length_app. pose proof (length_escape (content v)). lia. }
  pose proof (length_print_object show nl [] 4 [(js "id", JString (id v)); (js "content", JString (content v))]
    (js "content") (JString (content v)) ltac:(right; by left) ltac:(done)) as H1.
  pose proof (length_print_array show nl [] 3 (encode_version <$> versions m) (encode_version v)
    ltac:(by apply list_elem_of_fmap_2)) as H2.
  pose proof (length_print_object show nl [] 2 (message_fields m) (js "versions")
    (JArray (encode_version <$> versions m)) ltac:(unfold message_fields; right; right; by left) ltac:(done)) as H3.
  pose proof (length_print_array show nl [] 1 (encode_message <$> ms) (encode_message m)
    ltac:(by apply list_elem_of_fmap_2)) as H4.
  pose proof (length_print_object show nl [] 0
    [(js "version", JNumber (num STORAGE_VERSION)); (js "data", encode_messages ms)] (js "data") (encode_messages ms)
    ltac:(right; by left) ltac:(done)) as H5.
  rewrite encode_message_fields in H4. unfold encode_version at 1 in H2. unfold encode_messages in *. lia.
Qed.

(** Saving does not bound the size of what it writes, loading does: once one of
    the last hundred messages has a text of more than a mebibyte, the conversation
    is written, and the next load returns nothing and deletes it. *)
Theorem oversized_conversation_deleted show fits parse (HZ : Zod parse) t ms m v st now :
  Forall (fun m => message_ok m = true) (trimMessages ms) ->
  m ∈ trimMessages ms -> v ∈ versions m -> (MAX_STORED_MESSAGES_BYTES < units (content v))%N ->
  fits st MESSAGES (messages_text show (trimMessages ms)) = true ->
  let st1 := saveMessages show fits parse ms st in
  st1 !! MESSAGES = Some (messages_text show (trimMessages ms))
  /\ loadMessages show fits parse t now st1 = (None, delete MESSAGES st1).
Proof.
  intros Hok Hm Hv Hbig Hf st1. pose proof (messages_text_length show _ m v Hm Hv) as Hlen.
  assert (Hst : st1 !! MESSAGES = Some (messages_text show (trimMessages ms)))
    by (unfold st1; rewrite (save_effect show fits parse ms st) by done; apply lookup_insert_eq).
  split; [done|]. unfold loadMessages, readStoredMessagesValue. rewrite Hst.
  destruct (messages_text show (trimMessages ms)) as [|c text] eqn:Et; [change (units []) with 0%N in Hlen; lia|].
  by rewrite (proj2 (N.ltb_lt _ _)) by lia.
Qed.

Definition huge_message : Message :=
  mkMessage (js "k") USER [mkVersion (js "v") (repeat 97%N (N.to_nat 1048577))] None None None None None None
    None None None None None.

Lemma oversized_conversation_deleted_witness :
  loadMessages show_int always_fits reference_parse (fun s => s) (num 5)
    (saveMessages show_int always_fits reference_parse [huge_message] ∅)
  = (None, delete MESSAGES (saveMessages show_int always_fits reference_parse [huge_message] ∅)).
Proof.
  refine (proj2 (oversized_conversation_deleted show_int always_fits reference_parse reference_Zod (fun s => s)
    [huge_message] huge_message (mkVersion (js "v") (repeat 97%N (N.to_nat 1048577))) ∅ (num 5) _ _ _ _ eq_refl)).
  - constructor; [reflexivity|constructor].
  - apply list_elem_of_here.
  - apply list_elem_of_here.
  - unfold units. cbn [content]. rewrite repeat_length, N2Nat.id. reflexivity.
Defined.
