(* ===== verification/PlaygroundState.v ===== *)
(** * The playground state hook

    web/src/features/playground/hooks/use-playground-state.ts with
    lib/state/playground-state-utils.ts: the conversation is loaded from local
    storage shortly after the component is mounted, every change arms a timer that
    saves the latest conversation half a second later, and unmounting saves at
    once what the timer would have saved.

    The hook is a state machine over the store of [PlaygroundStorage]; its events
    are the timers, the updates, React running what was queued and the unmounting,
    and a schedule is any sequence of them.  A call of a state setter is queued;
    React runs the queued updater, which saves or arms the timer, once: at once or
    when it next renders, in the order of the queue.  Unmounting drops what is still
    queued.  The configuration is modelled as the object it is. *)

From Stdlib Require Import SpecFloat.
From S2P Require Import Prelude JsValue Json Zod PlaygroundMessages PlaygroundStorage.

(** ** State utilities (playground-state-utils.ts) *)

Inductive MessageStateUpdater :=
| Replace (ms : list Message)
| Apply (f : list Message -> list Message).

Definition applyMessageStateUpdate (previousMessages : list Message) (updater : MessageStateUpdater) : list Message :=
  match updater with Apply f => f previousMessages | Replace ms => ms end.

(** [{...a, ...b}]: the properties of [a] in their place with the values of [b], then
    the other properties of [b]. *)
Definition spread (a b : jsval) : jsval :=
  match a, b with
  | JObject fa, JObject fb => JObject (foldl (fun acc kv => obj_set kv.1 kv.2 acc) fa fb)
  | _, _ => a
  end.

Definition DEFAULT_CONFIG : jsval :=
  JObject [ (js "model", JString (js "gpt-4o")); (js "group", JString (js "default"));
            (js "temperature", JNumber (dec_to_num false 7 (-1))); (js "top_p", JNumber (num 1));
            (js "max_tokens", JNumber (num 4096)); (js "frequency_penalty", JNumber (num 0));
            (js "presence_penalty", JNumber (num 0)); (js "seed", JNull); (js "stream", JBool true) ].

Definition DEFAULT_PARAMETER_ENABLED : jsval :=
  JObject [ (js "temperature", JBool true); (js "top_p", JBool true); (js "max_tokens", JBool false);
            (js "frequency_penalty", JBool true); (js "presence_penalty", JBool true); (js "seed", JBool false) ].

(** What a call of a setter queues: a value or an updater. *)
Inductive Queued (V U : Type) := SetTo (v : V) | RunUpdater (u : U).
Arguments SetTo {V U} v.
Arguments RunUpdater {V U} u.

Section Hook.
Variable show : jsnum -> jsstr.
Variable fits : store -> jsstr -> jsstr -> bool.
Variable parse : schema -> jsval -> option jsval.
Variable t : jsstr -> jsstr.

Definition getInitialPlaygroundConfig (st : store) : jsval := spread DEFAULT_CONFIG (loadConfig parse st).
Definition getInitialParameterEnabled (st : store) : jsval :=
  spread DEFAULT_PARAMETER_ENABLED (loadParameterEnabled parse st).

(** ** The hook *)

Record HookState := mkHook {
  config : jsval; parameterEnabled : jsval;
  messages : list Message; isLoadingMessages : bool;
  messagesSaveTimer : bool;            (* messagesSaveTimerRef.current !== null *)
  latestMessages : list Message; hasLoadedMessages : bool;
  loadScheduled : bool;                (* the timer of the loading effect *)
  mounted : bool;                      (* not cancelled *)
  storage : store;
  configQueue : list (Queued jsval (jsstr * jsval));
  parameterQueue : list (Queued jsval (jsstr * bool));
  messagesQueue : list (Queued (list Message) MessageStateUpdater) }.

(** The state after the first render and its effects. *)
Definition mount (st : store) : HookState :=
  mkHook (getInitialPlaygroundConfig st) (getInitialParameterEnabled st) [] true false [] false true true st [] [] [].

Inductive HookEvent :=
| LoadTimer (now : jsnum)              (* the callback of the loading effect *)
| SaveTimer                            (* the callback of the save timer *)
| UpdateMessages (u : MessageStateUpdater)
| UpdateConfig (k : jsstr) (v : jsval)
| UpdateParameterEnabled (k : jsstr) (b : bool)
| ClearMessages
| ResetConfig
| RunMessages | RunConfig | RunParameter   (* React runs the first queued change *)
| Unmount.

Definition with_storage (st : store) (s : HookState) : HookState :=
  mkHook (config s) (parameterEnabled s) (messages s) (isLoadingMessages s) (messagesSaveTimer s)
    (latestMessages s) (hasLoadedMessages s) (loadScheduled s) (mounted s) st
    (configQueue s) (parameterQueue s) (messagesQueue s).
Definition with_config (c : jsval) (q : list (Queued jsval (jsstr * jsval))) (s : HookState) : HookState :=
  mkHook c (parameterEnabled s) (messages s) (isLoadingMessages s) (messagesSaveTimer s)
    (latestMessages s) (hasLoadedMessages s) (loadScheduled s) (mounted s) (storage s)
    q (parameterQueue s) (messagesQueue s).
Definition with_parameter (p : jsval) (q : list (Queued jsval (jsstr * bool))) (s : HookState) : HookState :=
  mkHook (config s) p (messages s) (isLoadingMessages s) (messagesSaveTimer s)
    (latestMessages s) (hasLoadedMessages s) (loadScheduled s) (mounted s) (storage s)
    (configQueue s) q (messagesQueue s).
Definition with_messages (ms : list Message) (q : list (Queued (list Message) MessageStateUpdater)) (s : HookState) :
  HookState :=
  mkHook (config s) (parameterEnabled s) ms (isLoadingMessages s) (messagesSaveTimer s)
    (latestMessages s) (hasLoadedMessages s) (loadScheduled s) (mounted s) (storage s)
    (configQueue s) (parameterQueue s) q.
Definition with_timer (armed : bool) (latest : list Message) (s : HookState) : HookState :=
  mkHook (config s) (parameterEnabled s) (messages s) (isLoadingMessages s) armed
    latest (hasLoadedMessages s) (loadScheduled s) (mounted s) (storage s)
    (configQueue s) (parameterQueue s) (messagesQueue s).

(** [persistMessages]: the save timer is armed again, unless nothing was loaded yet. *)
Definition persistMessages (messagesToSave : list Message) (s : HookState) : HookState :=
  with_timer (messagesSaveTimer s || hasLoadedMessages s) messagesToSave s.

(** The calls of the setters. *)
Definition updateMessages (u : MessageStateUpdater) (s : HookState) : HookState :=
  with_messages (messages s) (messagesQueue s ++ [RunUpdater u]) s.
Definition updateConfig (k : jsstr) (v : jsval) (s : HookState) : HookState :=
  with_config (config s) (configQueue s ++ [RunUpdater (k, v)]) s.
Definition updateParameterEnabled (k : jsstr) (b : bool) (s : HookState) : HookState :=
  with_parameter (parameterEnabled s) (parameterQueue s ++ [RunUpdater (k, b)]) s.
Definition clearMessages (s : HookState) : HookState := updateMessages (Replace []) s.

Definition resetConfig (s : HookState) : HookState :=
  with_storage
    (saveParameterEnabled show fits parse DEFAULT_PARAMETER_ENABLED
       (saveConfig show fits parse DEFAULT_CONFIG (storage s)))
    (with_parameter (parameterEnabled s) (parameterQueue s ++ [SetTo DEFAULT_PARAMETER_ENABLED])
       (with_config (config s) (configQueue s ++ [SetTo DEFAULT_CONFIG]) s)).

(** React runs a queued change, and with it the effects of the updater. *)
Definition run_messages (x : Queued (list Message) MessageStateUpdater) (q : list (Queued (list Message) MessageStateUpdater))
    (s : HookState) : HookState :=
  match x with
  | SetTo ms => with_messages ms q s
  | RunUpdater u =>
      let newMessages := applyMessageStateUpdate (messages s) u in
      with_messages newMessages q (persistMessages newMessages s)
  end.

Definition run_config (x : Queued jsval (jsstr * jsval)) (q : list (Queued jsval (jsstr * jsval))) (s : HookState) : HookState :=
  match x with
  | SetTo c => with_config c q s
  | RunUpdater (k, v) =>
      let updated := spread (config s) (JObject [(k, v)]) in
      with_storage (saveConfig show fits parse updated (storage s)) (with_config updated q s)
  end.

Definition run_parameter (x : Queued jsval (jsstr * bool)) (q : list (Queued jsval (jsstr * bool))) (s : HookState) : HookState :=
  match x with
  | SetTo c => with_parameter c q s
  | RunUpdater (k, b) =>
      let updated := spread (parameterEnabled s) (JObject [(k, JBool b)]) in
      with_storage (saveParameterEnabled show fits parse updated (storage s)) (with_parameter updated q s)
  end.

Definition onLoadTimer (now : jsnum) (s : HookState) : HookState :=
  let '(r, st) := loadMessages show fits parse t now (storage s) in
  if negb (mounted s) then
    mkHook (config s) (parameterEnabled s) (messages s) (isLoadingMessages s) (messagesSaveTimer s)
      (latestMessages s) (hasLoadedMessages s) false (mounted s) st
      (configQueue s) (parameterQueue s) (messagesQueue s)
  else
    let loadedMessages := default [] r in
    mkHook (config s) (parameterEnabled s) (messages s) false (messagesSaveTimer s)
      loadedMessages true false (mounted s) st
      (configQueue s) (parameterQueue s) (messagesQueue s ++ [SetTo loadedMessages]).

Definition onSaveTimer (s : HookState) : HookState :=
  with_storage (saveMessages show fits parse (latestMessages s) (storage s)) (with_timer false (latestMessages s) s).

(** The clean-ups of both effects; what is queued is not run any more. *)
Definition onUnmount (s : HookState) : HookState :=
  mkHook (config s) (parameterEnabled s) (messages s) (isLoadingMessages s) false
    (latestMessages s) (hasLoadedMessages s) (loadScheduled s) false
    (if messagesSaveTimer s then saveMessages show fits parse (latestMessages s) (storage s) else storage s)
    (configQueue s) (parameterQueue s) (messagesQueue s).

(** One event; a timer fires only when it is armed and an unmounted component takes
    no updates. *)
Inductive step : HookState -> HookEvent -> HookState -> Prop :=
| step_load s now : loadScheduled s = true -> step s (LoadTimer now) (onLoadTimer now s)
| step_save s : messagesSaveTimer s = true -> step s SaveTimer (onSaveTimer s)
| step_update s u : mounted s = true -> step s (UpdateMessages u) (updateMessages u s)
| step_clear s : mounted s = true -> step s ClearMessages (clearMessages s)
| step_config s k v : mounted s = true -> step s (UpdateConfig k v) (updateConfig k v s)
| step_parameter s k b : mounted s = true -> step s (UpdateParameterEnabled k b) (updateParameterEnabled k b s)
| step_reset s : mounted s = true -> step s ResetConfig (resetConfig s)
| step_run_messages s x q : mounted s = true -> messagesQueue s = x :: q -> step s RunMessages (run_messages x q s)
| step_run_config s x q : mounted s = true -> configQueue s = x :: q -> step s RunConfig (run_config x q s)
| step_run_parameter s x q : mounted s = true -> parameterQueue s = x :: q -> step s RunParameter (run_parameter x q s)
| step_unmount s : mounted s = true -> step s Unmount (onUnmount s).

Inductive run (st : store) : list HookEvent -> HookState -> Prop :=
| run_mount : run st [] (mount st)
| run_step es s e s' : run st es s -> step s e s' -> run st (es ++ [e]) s'.

(** The messages once React has taken over a conversation that was just loaded. *)
Definition current (s : HookState) : list Message :=
  match messagesQueue s with SetTo ms :: _ => ms | _ => messages s end.

(** The updates of the conversation that are queued after some events, none of them a load. *)
Definition queued_updates (es : list HookEvent) : nat :=
  foldl (fun n e => match e with UpdateMessages _ | ClearMessages => S n | RunMessages => pred n | _ => n end) 0 es.

(** No update was queued and not yet run when the stored conversation was loaded. *)
Definition quiet_load (es : list HookEvent) : Prop :=
  forall es1 now es2, es = es1 ++ LoadTimer now :: es2 -> queued_updates es1 = 0.

(** ** Invariant *)

Context `{HZ : !Zod parse}.

(** Nothing can be read from an entry. *)
Definition unreadable (entry : option jsstr) : Prop :=
  forall st now, st !! MESSAGES = entry -> (loadMessages show fits parse t now st).1 = None.

(** The entry of the conversation is what a save of the messages leaves there. *)
Definition saved (ms : list Message) (st : store) : Prop :=
  exists st0, st !! MESSAGES = saveMessages show fits parse ms st0 !! MESSAGES.

Definition is_updater (x : Queued (list Message) MessageStateUpdater) : Prop :=
  match x with RunUpdater _ => True | SetTo _ => False end.

(** A loaded conversation is taken over before any update, and the reference holds the
    current messages. *)
Definition queue_ok (s : HookState) : Prop :=
  match messagesQueue s with
  | SetTo ms :: q => latestMessages s = ms /\ Forall is_updater q
  | q => latestMessages s = messages s /\ Forall is_updater q
  end.

Record Inv (es : list HookEvent) (s : HookState) : Prop := {
  inv_queue : queue_ok s;
  inv_early : hasLoadedMessages s = false -> mounted s = true ->
    Forall is_updater (messagesQueue s) /\ length (messagesQueue s) = queued_updates es;
  inv_timer : messagesSaveTimer s = true -> hasLoadedMessages s = true;
  inv_once : hasLoadedMessages s = true -> loadScheduled s = false;
  inv_synced : hasLoadedMessages s = true -> messagesSaveTimer s = false ->
    saved (latestMessages s) (storage s) \/ latestMessages s = [] /\ unreadable (storage s !! MESSAGES) }.

Lemma load_none now st st' :
  loadMessages show fits parse t now st = (None, st') -> unreadable (st' !! MESSAGES).
Proof.
  unfold unreadable, loadMessages, readStoredMessagesValue. intros H st2 now2 E2. rewrite E2. clear E2.
  destruct (st !! MESSAGES) as [[|c text]|] eqn:E; simplify_eq; rewrite ?E; try done.
  destruct (_ <? _)%N eqn:Eb; simplify_eq; [by rewrite lookup_delete_eq|].
  destruct (JSON_parse (c :: text)) as [v|] eqn:Ej; cbn [fmap option_fmap option_map] in H; simplify_eq;
    [|by rewrite E, Eb, Ej].
  destruct (negb (js_truthy v)) eqn:Ev; simplify_eq.
  - rewrite E, Eb, Ej. cbn [fmap option_fmap option_map]. by rewrite Ev.
  - destruct (parse messagesSchema _ ≫= _) eqn:Ep; simplify_eq.
    rewrite E, Eb, Ej. cbn [fmap option_fmap option_map]. by rewrite Ev, Ep.
Qed.

Lemma save_object_other sch k v st :
  k <> MESSAGES -> save_object show fits parse sch k v st !! MESSAGES = st !! MESSAGES.
Proof.
  intros Hk. unfold save_object. destruct (parse sch v); [|done]. unfold writeStoredValue.
  destruct (fits _ _ _); [|done]. simpl. by apply lookup_insert_ne.
Qed.

Lemma config_not_messages : CONFIG <> MESSAGES /\ PARAMETER_ENABLED <> MESSAGES.
Proof. split; vm_compute; congruence. Qed.

Lemma queued_snoc es e :
  queued_updates (es ++ [e])
  = match e with
    | UpdateMessages _ | ClearMessages => S (queued_updates es)
    | RunMessages => pred (queued_updates es)
    | _ => queued_updates es
    end.
Proof. unfold queued_updates. by rewrite foldl_app. Qed.

(** Changes of the configuration leave the conversation and its entry alone. *)
Lemma inv_elsewhere es e s s' :
  Inv es s -> queued_updates (es ++ [e]) = queued_updates es ->
  (messages s', messagesQueue s', latestMessages s', messagesSaveTimer s')
    = (messages s, messagesQueue s, latestMessages s, messagesSaveTimer s) ->
  (hasLoadedMessages s', loadScheduled s', mounted s') = (hasLoadedMessages s, loadScheduled s, mounted s) ->
  storage s' !! MESSAGES = storage s !! MESSAGES -> Inv (es ++ [e]) s'.
Proof.
  intros [H1 H2 H3 H4 H5] He [= E1 E2 E3 E4] [= E5 E6 E7] Hst.
  split; unfold queue_ok, saved in *; rewrite ?E1, ?E2, ?E3, ?E4, ?E5, ?E6, ?E7, ?He, ?Hst; done.
Qed.

Lemma inv_load es now s :
  Inv es s -> loadScheduled s = true -> (mounted s = true -> queued_updates es = 0) ->
  Inv (es ++ [LoadTimer now]) (onLoadTimer now s).
Proof.
  intros [H1 H2 H3 H4 H5] Hs Hq. unfold onLoadTimer.
  destruct (loadMessages show fits parse t now (storage s)) as [r st] eqn:E.
  assert (Hn : hasLoadedMessages s = false) by (destruct (hasLoadedMessages s); [|done]; by rewrite H4 in Hs).
  assert (Ht : messagesSaveTimer s = false) by (destruct (messagesSaveTimer s); [by rewrite H3 in Hn|done]).
  destruct (mounted s) eqn:Em; simpl; split; simpl; try done; try congruence.
  - assert (Hnil : messagesQueue s = []) by (apply length_zero_iff_nil; rewrite (proj2 (H2 Hn eq_refl)); by apply Hq).
    unfold queue_ok. simpl. by rewrite Hnil.
  - intros _ _. destruct r as [ms|]; simpl.
    + left. destruct (load_inv show fits parse t _ _ _ _ E) as (parsed & _ & _ & ->). by exists (storage s).
    + right. split; [done|]. by eapply load_none.
Qed.

Lemma updaters_snoc q u : Forall is_updater q -> Forall is_updater (q ++ [RunUpdater u]).
Proof. intros H. apply Forall_app. split; [done|]. by apply Forall_singleton. Qed.

Lemma inv_update es e u s :
  Inv es s -> queued_updates (es ++ [e]) = S (queued_updates es) -> Inv (es ++ [e]) (updateMessages u s).
Proof.
  intros [H1 H2 H3 H4 H5] He. split; simpl; try done.
  - unfold queue_ok in *. simpl. destruct (messagesQueue s) as [|[ms|u'] q]; cbn [app].
    + destruct H1. split; [done|]. by apply Forall_singleton.
    + destruct H1. split; [done|]. by apply updaters_snoc.
    + destruct H1 as [? H1]. split; [done|]. apply Forall_cons in H1 as [? H1]. constructor; [done|by apply updaters_snoc].
  - intros Hl Hm. destruct (H2 Hl Hm) as [Hq Hn]. split; [by apply updaters_snoc|]. rewrite length_app, He. simpl. lia.
Qed.

Lemma inv_run_messages es x q s :
  Inv es s -> messagesQueue s = x :: q -> Inv (es ++ [RunMessages]) (run_messages x q s).
Proof.
  intros [H1 H2 H3 H4 H5] Hq. unfold queue_ok in H1. rewrite Hq in *.
  assert (Hu : Forall is_updater q) by (destruct x as [ms|u]; destruct H1 as [_ H1]; [done|by apply Forall_cons in H1 as []]).
  assert (Hqok : forall s', messagesQueue s' = q -> latestMessages s' = messages s' -> queue_ok s').
  { intros s' E1 E2. unfold queue_ok. rewrite E1. destruct q as [|[ms|u] q']; [done| |done].
    apply Forall_cons in Hu as [[] _]. }
  assert (He : hasLoadedMessages s = false -> mounted s = true -> Forall is_updater q /\ length q = queued_updates (es ++ [RunMessages])).
  { intros Hl Hm. split; [done|]. rewrite queued_snoc. destruct (H2 Hl Hm) as [_ Hn]. simpl in Hn. lia. }
  destruct x as [ms|u]; split; simpl; try done.
  - apply Hqok; [done|]. simpl. apply H1.
  - by apply Hqok.
  - intros [H|H]%orb_true_iff; auto.
  - intros ->. by rewrite orb_true_r.
Qed.

Lemma inv_step es s e s' : Inv es s -> quiet_load (es ++ [e]) -> step s e s' -> Inv (es ++ [e]) s'.
Proof.
  intros Hi Hquiet Hstep. destruct config_not_messages as [Hc Hp].
  destruct Hstep as [s now Hs|s Hs|s u Hm|s Hm|s k v Hm|s k b Hm|s Hm|s x q Hm Hq|s x q Hm Hq|s x q Hm Hq|s Hm].
  - apply inv_load; [done|done|]. intros _. by apply (Hquiet es now []).
  - destruct Hi as [H1 H2 H3 H4 H5]. split; simpl; try done; [by rewrite queued_snoc|].
    intros _ _. left. by exists (storage s).
  - apply inv_update; [done|]. by rewrite queued_snoc.
  - apply inv_update; [done|]. by rewrite queued_snoc.
  - apply (inv_elsewhere es _ s); [done|by rewrite queued_snoc|done..].
  - apply (inv_elsewhere es _ s); [done|by rewrite queued_snoc|done..].
  - apply (inv_elsewhere es _ s); [done|by rewrite queued_snoc|done|done|].
    simpl. unfold saveParameterEnabled, saveConfig. by rewrite !save_object_other.
  - by apply inv_run_messages.
  - apply (inv_elsewhere es _ s); [done|by rewrite queued_snoc|by destruct x as [?|[]]..|].
    destruct x as [?|[]]; simpl; [done|]. by apply save_object_other.
  - apply (inv_elsewhere es _ s); [done|by rewrite queued_snoc|by destruct x as [?|[]]..|].
    destruct x as [?|[]]; simpl; [done|]. by apply save_object_other.
  - destruct Hi as [H1 H2 H3 H4 H5]. split; simpl; try done. intros Hl _.
    destruct (messagesSaveTimer s) eqn:Et; [|by apply H5]. left. by exists (storage s).
Qed.

Lemma inv_run st es s : run st es s -> quiet_load es -> Inv es s.
Proof.
  induction 1 as [|es s e s' _ IH Hs]; intros Hq; [by split|]. eapply inv_step; [apply IH|done|done].
  intros es1 now es2 ->. apply (Hq es1 now (es2 ++ [e])). by rewrite <- (assoc_L (++)).
Qed.

Lemma latest_current es s : Inv es s -> latestMessages s = current s.
Proof. intros [H1 _ _ _ _]. unfold queue_ok, current in *. by destruct (messagesQueue s) as [|[ms|u] q]; destruct H1. Qed.

(** What a save left is restored. *)
Lemma saved_restored ms st now :
  restorable show ms -> (forall st', fits st' MESSAGES (messages_text show ms) = true) ->
  saved ms st -> (loadMessages show fits parse t now st).1 = Some ms.
Proof.
  intros Hr Hf [st0 Hst].
  assert (Ht : trimMessages ms = ms) by (apply trimMessages_id; by destruct Hr).
  rewrite (save_effect show fits parse) in Hst; [| |by rewrite Ht].
  - rewrite Ht, lookup_insert_eq in Hst. by rewrite (load_stored show fits parse t ms).
  - rewrite Ht. destruct Hr as (_ & _ & H & _). eapply Forall_impl; [exact H|]. by intros m [].
Qed.
End Hook.

(** C17: No change of a conversation that React has run is lost.  Take any order of
    timers, updates, React running queued changes, and unmounting, in which no
    update was queued and not yet run when the stored conversation was loaded, and
    a state reached by it after loading.  Let the current messages be restorable (at
    most 100, none of them an answer being generated, every text within 40000 code
    units and without repeated sections, together within 120000 code units and
    their saved text within 1 MB, all numbers printable) and let the quota of local storage
    allow the write.  Then unmounting, or the pending save timer if there is one,
    leaves local storage such that the next session restores exactly the current
    messages; and while no timer is pending this already holds.  Updates that are
    still queued do not count: they are not run after unmounting. *)
Theorem conversation_persisted show fits parse (HZ : Zod parse) t st es s now :
  run show fits parse t st es s -> quiet_load es -> hasLoadedMessages s = true ->
  restorable show (current s) ->
  (forall st', fits st' MESSAGES (messages_text show (current s)) = true) ->
  let restored st := default [] (loadMessages show fits parse t now st).1 in
  restored (storage (onUnmount show fits parse s)) = current s
  /\ restored (storage (onSaveTimer show fits parse s)) = current s
  /\ (messagesSaveTimer s = false -> restored (storage s) = current s)
  /\ (messagesQueue s = [] -> current s = messages s).
Proof.
  intros Hrun Hq Hl Hr Hf restored. pose proof (inv_run show fits parse t st es s Hrun Hq) as Hi.
  pose proof (latest_current show fits parse t es s Hi) as H1. pose proof (inv_synced _ _ _ _ _ _ Hi Hl) as H4.
  rewrite H1 in H4.
  assert (Hs : messagesSaveTimer s = false -> restored (storage s) = current s).
  { intros Ht. unfold restored. destruct (H4 Ht) as [Hs|[He Hu]].
    - by rewrite (saved_restored show fits parse t (current s)).
    - by rewrite Hu, He. }
  assert (Hsave : restored (saveMessages show fits parse (latestMessages s) (storage s)) = current s).
  { unfold restored. rewrite H1. rewrite (saved_restored show fits parse t (current s)); [done|done|done|].
    by exists (storage s). }
  split; [|split; [done|split; [done|]]].
  - simpl. destruct (messagesSaveTimer s); auto.
  - unfold current. by intros ->.
Qed.

Definition sample_run : list HookEvent :=
  [LoadTimer (num 1); RunMessages; UpdateMessages (Replace [sample_message; sample_answer]); RunMessages].

Lemma conversation_persisted_witness :
  let s0 := mount reference_parse ∅ in
  let s1 := onLoadTimer show_int always_fits reference_parse (fun s => s) (num 1) s0 in
  let s2 := run_messages (SetTo []) [] s1 in
  let s3 := updateMessages (Replace [sample_message; sample_answer]) s2 in
  let s4 := run_messages (RunUpdater (Replace [sample_message; sample_answer])) [] s3 in
  default [] (loadMessages show_int always_fits reference_parse (fun s => s) (num 9)
    (storage (onUnmount show_int always_fits reference_parse s4))).1 = [sample_message; sample_answer].
Proof.
  intros s0 s1 s2 s3 s4.
  refine (proj1 (conversation_persisted show_int always_fits reference_parse reference_Zod (fun s => s) ∅
    sample_run s4 (num 9) _ _ _ _ (fun _ => eq_refl))).
  - apply (run_step _ _ _ _ _ [LoadTimer (num 1); RunMessages; UpdateMessages (Replace [sample_message; sample_answer])] s3);
      [|by constructor].
    apply (run_step _ _ _ _ _ [LoadTimer (num 1); RunMessages] s2); [|by constructor].
    apply (run_step _ _ _ _ _ [LoadTimer (num 1)] s1); [|by constructor].
    apply (run_step _ _ _ _ _ [] s0); [constructor|by constructor].
  - intros es1 now es2 E. destruct es1 as [|e0 es1]; [reflexivity|]. exfalso.
    do 4 (destruct es1 as [|? es1]; [discriminate E|]). discriminate E.
  - reflexivity.
  - split; [unfold MAX_STORED_MESSAGES; simpl; lia|]. split; [vm_compute; discriminate|]. split; [repeat constructor|].
    split; [vm_compute; reflexivity|]. split; [vm_compute; reflexivity|]. vm_compute. discriminate.
Defined.

(** An update that was queued before the stored conversation was loaded and is run after it:
    the loaded conversation is shown, and the pending timer overwrites it with the update. *)
Example early_update_overwrites :
  let st := saveMessages show_int always_fits reference_parse [sample_message; sample_answer] ∅ in
  let s1 := updateMessages (Apply (fun ms => ms ++ [sample_message])) (mount reference_parse st) in
  let s2 := onLoadTimer show_int always_fits reference_parse (fun s => s) (num 1700000009) s1 in
  exists x y, messagesQueue s2 = [x; y]
    /\ let s4 := run_messages y [] (run_messages x [y] s2) in
       messages s4 = [sample_message; sample_answer] /\ messagesSaveTimer s4 = true
       /\ latestMessages s4 = [sample_message].
Proof. eexists _, _. split; [vm_compute; reflexivity|]. vm_compute. repeat split; reflexivity. Qed.
