(* ===== verification/StreamController.v ===== *)
(** * Streaming requests of the playground

    web/src/features/playground/hooks/use-stream-request.ts with
    lib/streaming/stream-utils.ts and request-error-utils.ts: the controller
    that owns at most one server-sent-event source, the listeners it installs
    on a source, and the parsing of the events.

    A request is named by its [requestGeneration]; its source, once created,
    carries the same name.  The controller runs in an environment that resolves
    headers, dispatches events on any source it ever received and calls [send],
    [stop] and [dispose], in any order: [step] and [run].  The source is
    sse.js; which events it dispatches synchronously inside [close()] is a
    parameter, [closing].  Callbacks do not call the controller back. *)

From Stdlib Require Import SpecFloat.
From S2P Require Import Prelude JsValue Json PlaygroundMessages.

(** ** Parsing of events (stream-utils.ts, request-error-utils.ts) *)

Definition STREAM_DONE_MESSAGE := js "[DONE]".
Definition STREAM_CLOSED_READY_STATE := 2%Z.

Record StreamMessageUpdate := mkUpdate { u_type : StreamChunkType; u_chunk : jsval }.

(** [errorCode] is [undefined] when absent.  Both fields come from parsed JSON
    and need not be strings. *)
Record StreamErrorDetails := mkDetails { d_errorCode : jsval; d_errorMessage : jsval }.

Definition parseStreamErrorDetails (data : option jsstr) : StreamErrorDetails :=
  let fallbackMessage := JString (default [] data ||| API_REQUEST_ERROR) in
  match data with
  | None | Some [] => mkDetails JUndefined fallbackMessage
  | Some d =>
      match JSON_parse d with
      | None => mkDetails JUndefined fallbackMessage
      | Some parsed =>
          let error := field "error" parsed in
          if negb (js_truthy error) then mkDetails JUndefined fallbackMessage
          else mkDetails (js_or (field "code" error) JUndefined)
                 (js_or (field "message" error) fallbackMessage)
      end
  end.

(** [None] is an exception: a [SyntaxError], or the [TypeError] of reading a
    property of [null]. *)
Definition parseStreamMessageUpdates (data : jsstr) : option (list StreamMessageUpdate) :=
  match JSON_parse data with
  | None => None
  | Some chunk =>
      if nullish chunk then None
      else
        let delta := field "delta" (index0 (field "choices" chunk)) in
        Some (if negb (js_truthy delta) then []
              else (if js_truthy (field "reasoning_content" delta)
                    then [mkUpdate reasoning_chunk (field "reasoning_content" delta)] else [])
                   ++ (if js_truthy (field "content" delta)
                       then [mkUpdate content_chunk (field "content" delta)] else []))
  end.

Definition isStreamDoneMessage (data : jsstr) : bool := data =s? STREAM_DONE_MESSAGE.

Definition isStreamClosedReadyState (readyState : option Z) : bool :=
  bool_decide (readyState = Some STREAM_CLOSED_READY_STATE).

(** The HTTP status of a source is a natural number. *)
Definition getStreamReadyStateError (eventReadyState : option Z) (status : option N) : option jsstr :=
  match eventReadyState, status with
  | Some r, Some st =>
      if (STREAM_CLOSED_READY_STATE <=? r)%Z && negb (st =? 200)%N
      then Some (js "HTTP " ++ show_dec st ++ js ": " ++ CONNECTION_CLOSED)
      else None
  | _, _ => None
  end.

Definition parseRequestErrorDetails (error : jsval) : StreamErrorDetails :=
  let data := field "data" (field "response" error) in
  mkDetails (js_or (field "code" (field "error" data)) JUndefined)
    (js_or (js_or (field "message" data) (field "message" error)) (JString API_REQUEST_ERROR)).

(** ** The controller *)

(** What the callbacks of a request are called with. *)
Inductive Callback :=
| onUpdate (type : StreamChunkType) (chunk : jsval)
| onComplete
| onError (error errorCode : jsval).

Definition is_terminal (c : Callback) : bool :=
  match c with onUpdate _ _ => false | _ => true end.

(** Where the [async] function [send] of a request stands: waiting for headers,
    with listeners installed and the flag [completed], or returned early. *)
Inductive Phase := AwaitingHeaders | Listening (completed : bool) | Ended.

#[export] Instance Phase_eq_dec : EqDecision Phase.
Proof. solve_decision. Defined.

(** [source] and [generation] are the variables of the closure, [streaming] the
    flag given to [setStreaming], [opened] the sources that were created and
    not closed, [calls] the callbacks in the order of their calls. *)
Record Controller := mkController {
  generation : nat;
  source : option nat;
  streaming : bool;
  requests : gmap nat Phase;
  opened : gset nat;
  calls : list (nat * Callback) }.

Definition initialController : Controller := mkController 0 None false ∅ ∅ [].

Definition set_source (x : option nat) (s : Controller) : Controller :=
  mkController (generation s) x (streaming s) (requests s) (opened s) (calls s).
Definition setStreaming (b : bool) (s : Controller) : Controller :=
  mkController (generation s) (source s) b (requests s) (opened s) (calls s).
Definition set_phase (id : nat) (p : Phase) (s : Controller) : Controller :=
  mkController (generation s) (source s) (streaming s) (<[id := p]> (requests s)) (opened s) (calls s).
Definition set_generation (g : nat) (s : Controller) : Controller :=
  mkController g (source s) (streaming s) (requests s) (opened s) (calls s).
Definition set_opened (o : gset nat) (s : Controller) : Controller :=
  mkController (generation s) (source s) (streaming s) (requests s) o (calls s).
Definition call (id : nat) (c : Callback) (s : Controller) : Controller :=
  mkController (generation s) (source s) (streaming s) (requests s) (opened s) (calls s ++ [(id, c)]).

(** An event of a source: the data of a message; the data of an error with the
    ready state of the source; the ready state of a [readystatechange] event
    with the status of the source. *)
Inductive SourceEvent :=
| Ev_message (data : option jsstr)
| Ev_error (data : option jsstr) (readyState : option Z)
| Ev_readystatechange (readyState : option Z) (status : option N).

Definition isCurrent (id : nat) (s : Controller) : bool :=
  bool_decide (generation s = id) && bool_decide (source s = Some id).

Section Controller.
Variable closing : nat -> list SourceEvent.

Definition Listener := nat -> SourceEvent -> Controller -> Controller.

(** [target.close()]: the source is closed and dispatches its events to the
    listeners before the call returns. *)
Definition close (nested : Listener) (id : nat) (s : Controller) : Controller :=
  foldl (fun s ev => nested id ev s) (set_opened (opened s ∖ {[id]}) s) (closing id).

Definition closeActiveSource (nested : Listener) (target : nat) (s : Controller) : Controller :=
  let s := close nested target s in
  if bool_decide (source s = Some target) then setStreaming false (set_source None s) else s.

(** [completed] of the request, [true] when its listeners are not installed. *)
Definition completed (id : nat) (s : Controller) : bool :=
  negb (bool_decide (requests s !! id = Some (Listening false))).

Definition handleError (nested : Listener) (id : nat) (errorMessage errorCode : jsval) (s : Controller) :
    Controller :=
  if negb (isCurrent id s) || completed id s then s
  else closeActiveSource nested id (call id (onError errorMessage errorCode) (set_phase id (Listening true) s)).

(** The three listeners; [nested] is what the events dispatched inside a
    [close()] run. *)
Definition listener (nested : Listener) : Listener := fun id ev s =>
  if negb (isCurrent id s) || completed id s then s
  else match ev with
  | Ev_message data =>
      let data := default [] data in
      if isStreamDoneMessage data
      then call id onComplete (closeActiveSource nested id (set_phase id (Listening true) s))
      else match parseStreamMessageUpdates data with
           | Some updates => foldl (fun s u => call id (onUpdate (u_type u) (u_chunk u)) s) s updates
           | None => handleError nested id (JString PARSE_ERROR) JUndefined s
           end
  | Ev_error data readyState =>
      if isStreamClosedReadyState readyState then s
      else let d := parseStreamErrorDetails data in
           handleError nested id (d_errorMessage d) (d_errorCode d) s
  | Ev_readystatechange readyState status =>
      match getStreamReadyStateError readyState status with
      | Some errorMessage => handleError nested id (JString errorMessage) JUndefined s
      | None => s
      end
  end.

(** Listeners with a bound on the nesting of [close()] inside listeners;
    [listen_nesting] shows that a bound of one loses nothing. *)
Fixpoint listen (depth : nat) : Listener :=
  match depth with
  | O => fun _ _ s => s
  | S depth' => listener (listen depth')
  end.

Definition dispatch : Listener := listen 2.

(** [send] up to [await runtime.getHeaders()]. *)
Definition send (s : Controller) : Controller :=
  let requestGeneration := generation s + 1 in
  let previousSource := source s in
  let s := set_source None (set_generation requestGeneration s) in
  let s := match previousSource with Some p => close dispatch p s | None => s end in
  set_phase requestGeneration AwaitingHeaders (setStreaming false s).

(** The rest of [send] after the headers, up to [nextSource.stream()]. *)
Definition headersResolved (id : nat) (s : Controller) : Controller :=
  if negb (bool_decide (requests s !! id = Some AwaitingHeaders)) then s
  else if negb (bool_decide (generation s = id)) then set_phase id Ended s
  else set_phase id (Listening false)
         (setStreaming true (set_source (Some id) (set_opened ({[id]} ∪ opened s) s))).

(** The first [catch]: [message] is the message of an [Error]. *)
Definition headersRejected (id : nat) (message : option jsstr) (s : Controller) : Controller :=
  if negb (bool_decide (requests s !! id = Some AwaitingHeaders)) then s
  else if negb (bool_decide (generation s = id)) then set_phase id Ended s
  else call id (onError (JString (default STREAM_START_ERROR message)) JUndefined) (set_phase id Ended s).

(** The second [catch]: [nextSource.stream()] threw. *)
Definition streamThrew (id : nat) (s : Controller) : Controller :=
  if negb (isCurrent id s) || completed id s then s
  else handleError dispatch id (JString STREAM_START_ERROR) JUndefined s.

Definition cancel (notify : bool) (s : Controller) : Controller :=
  let activeSource := source s in
  let s := set_source None (set_generation (generation s + 1) s) in
  let s := match activeSource with Some p => close dispatch p s | None => s end in
  if notify then setStreaming false s else s.

Definition stop : Controller -> Controller := cancel true.
Definition dispose : Controller -> Controller := cancel false.

Inductive Step :=
| Send | HeadersResolved (id : nat) | HeadersRejected (id : nat) (message : option jsstr)
| Dispatch (id : nat) (ev : SourceEvent) | StreamThrew (id : nat) | Stop | Dispose.

Definition step (s : Controller) (x : Step) : Controller :=
  match x with
  | Send => send s
  | HeadersResolved id => headersResolved id s
  | HeadersRejected id m => headersRejected id m s
  | Dispatch id ev => dispatch id ev s
  | StreamThrew id => streamThrew id s
  | Stop => stop s
  | Dispose => dispose s
  end.

Definition run_steps (s : Controller) (xs : list Step) : Controller := foldl step s xs.

End Controller.

(** ** Lemmas *)

(** A listener of a request that is stale or completed does nothing. *)
Definition inert (id : nat) (s : Controller) : Prop := isCurrent id s = false \/ completed id s = true.

Lemma isCurrent_true id s : isCurrent id s = true <-> generation s = id /\ source s = Some id.
Proof. unfold isCurrent. rewrite andb_true_iff, !bool_decide_eq_true. done. Qed.

Lemma completed_false id s : completed id s = false <-> requests s !! id = Some (Listening false).
Proof. unfold completed. rewrite negb_false_iff, bool_decide_eq_true. done. Qed.

Lemma inert_spec id s : inert id s <-> (negb (isCurrent id s) || completed id s = true).
Proof. unfold inert. destruct (isCurrent id s), (completed id s); simpl; intuition congruence. Qed.

Lemma inert_dec id s : inert id s \/ (isCurrent id s = true /\ completed id s = false).
Proof. unfold inert. destruct (isCurrent id s), (completed id s); tauto. Qed.

Section Facts.
Variable closing : nat -> list SourceEvent.

Lemma listener_inert nested id ev s : inert id s -> listener closing nested id ev s = s.
Proof. intros H%inert_spec. unfold listener. by rewrite H. Qed.

Lemma listen_inert d id ev s : inert id s -> listen closing d id ev s = s.
Proof. destruct d; [done|]. apply listener_inert. Qed.

(** Closing the source of an inert request runs no listener. *)
Lemma close_inert d id s :
  inert id s -> close closing (listen closing d) id s = set_opened (opened s ∖ {[id]}) s.
Proof.
  intros H. unfold close. assert (inert id (set_opened (opened s ∖ {[id]}) s)) as H' by done.
  induction (closing id) as [|ev evs IH]; [done|]. simpl. by rewrite listen_inert.
Qed.

(** The effect of ending the current request [id] after [s]: its source is
    closed and forgotten and the streaming flag is down. *)
Definition ended (id : nat) (s : Controller) : Controller :=
  setStreaming false (set_source None (set_opened (opened s ∖ {[id]}) (set_phase id (Listening true) s))).

Lemma completed_set_phase id s : completed id (set_phase id (Listening true) s) = true.
Proof. unfold completed. simpl. rewrite lookup_insert_eq. done. Qed.

Lemma handleError_current d id m c s :
  isCurrent id s = true -> completed id s = false ->
  handleError closing (listen closing d) id m c s = call id (onError m c) (ended id s).
Proof.
  intros Hc Hd. unfold handleError. rewrite Hc, Hd. simpl. unfold closeActiveSource.
  rewrite close_inert by (right; apply completed_set_phase).
  apply isCurrent_true in Hc as [_ Hs]. cbn. rewrite Hs, bool_decide_eq_true_2 by done. done.
Qed.

Lemma handleError_inert nested id m c s :
  inert id s -> handleError closing nested id m c s = s.
Proof. intros H%inert_spec. unfold handleError. by rewrite H. Qed.

Lemma complete_current d id s :
  isCurrent id s = true ->
  closeActiveSource closing (listen closing d) id (set_phase id (Listening true) s) = ended id s.
Proof.
  intros Hc. unfold closeActiveSource. rewrite close_inert by (right; apply completed_set_phase).
  apply isCurrent_true in Hc as [_ Hs]. cbn. rewrite Hs, bool_decide_eq_true_2 by done. done.
Qed.

End Facts.

(** Calls made to the callbacks of one request. *)
Definition calls_of (id : nat) (s : Controller) : list Callback :=
  snd <$> filter (fun c => c.1 = id) (calls s).

Arguments calls_of : simpl never.

(** What an event asks of a listening request: nothing, updates, or its end. *)
Definition reaction (ev : SourceEvent) : list Callback :=
  match ev with
  | Ev_message data =>
      if isStreamDoneMessage (default [] data) then [onComplete]
      else match parseStreamMessageUpdates (default [] data) with
           | Some updates => (fun u => onUpdate (u_type u) (u_chunk u)) <$> updates
           | None => [onError (JString PARSE_ERROR) JUndefined]
           end
  | Ev_error data readyState =>
      if isStreamClosedReadyState readyState then []
      else [onError (d_errorMessage (parseStreamErrorDetails data)) (d_errorCode (parseStreamErrorDetails data))]
  | Ev_readystatechange readyState status =>
      match getStreamReadyStateError readyState status with
      | Some m => [onError (JString m) JUndefined]
      | None => []
      end
  end.

Definition call_all (id : nat) (cs : list Callback) (s : Controller) : Controller :=
  foldl (fun s c => call id c s) s cs.

(** The specification of an event on a listening, current request. *)
Definition answer (id : nat) (cs : list Callback) (s : Controller) : Controller :=
  call_all id cs (if existsb is_terminal cs then ended id s else s).
Definition react (id : nat) (ev : SourceEvent) (s : Controller) : Controller := answer id (reaction ev) s.

Lemma updates_not_terminal us :
  existsb is_terminal ((fun u => onUpdate (u_type u) (u_chunk u)) <$> us) = false.
Proof. by induction us. Qed.

Lemma listener_react closing d id ev s :
  isCurrent id s = true -> completed id s = false ->
  listener closing (listen closing d) id ev s = react id ev s.
Proof.
  intros Hc Hd. unfold listener. rewrite Hc, Hd. simpl. unfold react, answer, reaction. destruct ev as [data|data r|r st].
  - destruct (isStreamDoneMessage _) eqn:E.
    + rewrite complete_current by done. done.
    + destruct (parseStreamMessageUpdates _) as [us|].
      * rewrite updates_not_terminal. unfold call_all. by rewrite foldl_fmap.
      * by rewrite handleError_current.
  - destruct (isStreamClosedReadyState r); [done|]. by rewrite handleError_current.
  - destruct (getStreamReadyStateError r st); [|done]. by rewrite handleError_current.
Qed.

(** Events dispatched inside a [close()] change nothing: at any depth of
    nesting the listeners do what their specification says. *)
Lemma listen_nesting closing d id ev s :
  listen closing (S d) id ev s
  = if negb (isCurrent id s) || completed id s then s else react id ev s.
Proof.
  destruct (inert_dec id s) as [H|[Hc Hd]].
  - rewrite listen_inert by done. apply inert_spec in H. by rewrite H.
  - rewrite Hc, Hd. simpl. by apply listener_react.
Qed.

(** [send] and [cancel] close the previous source after they have made its
    request stale. *)
Lemma close_stale closing d id s :
  generation s <> id -> close closing (listen closing d) id s = set_opened (opened s ∖ {[id]}) s.
Proof.
  intros H. apply close_inert. left. unfold isCurrent. by rewrite bool_decide_eq_false_2.
Qed.

(** ** Invariant *)

(** Updates, then at most one terminal callback. *)
Definition calls_ok (cs : list Callback) : Prop :=
  exists us ts, cs = us ++ ts /\ existsb is_terminal us = false
                /\ (ts = [] \/ exists c, ts = [c] /\ is_terminal c = true).

Record Inv (s : Controller) : Prop := {
  inv_source id : source s = Some id ->
    generation s = id /\ requests s !! id = Some (Listening false) /\ streaming s = true
    /\ existsb is_terminal (calls_of id s) = false;
  inv_opened : opened s = match source s with Some id => {[id]} | None => ∅ end;
  inv_awaiting id : requests s !! id = Some AwaitingHeaders -> calls_of id s = [];
  inv_known id : generation s < id -> requests s !! id = None /\ calls_of id s = [];
  inv_calls id : calls_ok (calls_of id s) }.

Lemma calls_of_call id c s i :
  calls_of i (call id c s) = calls_of i s ++ if bool_decide (id = i) then [c] else [].
Proof.
  unfold calls_of. simpl. rewrite filter_app, fmap_app. f_equal.
  case_bool_decide; [rewrite filter_cons_True by done|rewrite filter_cons_False by done];
    by rewrite filter_nil.
Qed.

Lemma calls_of_call_all id cs : forall s i,
  calls_of i (call_all id cs s) = calls_of i s ++ if bool_decide (id = i) then cs else [].
Proof.
  induction cs as [|c cs IH]; intros s i; simpl.
  - case_bool_decide; by rewrite app_nil_r.
  - rewrite IH, calls_of_call, <- app_assoc. f_equal. by case_bool_decide.
Qed.

Lemma call_all_fields id cs : forall s,
  generation (call_all id cs s) = generation s /\ source (call_all id cs s) = source s
  /\ streaming (call_all id cs s) = streaming s /\ requests (call_all id cs s) = requests s
  /\ opened (call_all id cs s) = opened s.
Proof. induction cs as [|c cs IH]; intros s; [done|]. apply (IH (call id c s)). Qed.

Lemma reaction_ok ev :
  existsb is_terminal (reaction ev) = false
  \/ exists c, reaction ev = [c] /\ is_terminal c = true.
Proof.
  destruct ev as [data|data r|r st]; simpl; repeat case_match; eauto using updates_not_terminal.
Qed.

Lemma Inv_initial : Inv initialController.
Proof.
  split; try done. intros id. exists [], []. cbn. auto.
Qed.

Lemma calls_ok_app cs us ts :
  existsb is_terminal cs = false -> existsb is_terminal us = false ->
  ts = [] \/ (exists c, ts = [c] /\ is_terminal c = true) -> calls_ok (cs ++ us ++ ts).
Proof.
  intros H1 H2 H3. exists (cs ++ us), ts. rewrite app_assoc, existsb_app, H1, H2. auto.
Qed.

(** Forgetting the source while making its request stale, as [send] and
    [cancel] do; the streaming flag is free. *)
Lemma Inv_stale closing s g b :
  Inv s -> generation s < g ->
  Inv (setStreaming b
         (match source s with
          | Some p => close closing (dispatch closing) p (set_source None (set_generation g s))
          | None => set_source None (set_generation g s)
          end)).
Proof.
  intros [Hs Ho Ha Hk Hc] Hg. unfold dispatch. destruct (source s) as [p|] eqn:E.
  - destruct (Hs p eq_refl) as (Hp & _). rewrite close_stale by (simpl; lia).
    split; cbn; try done; [|intros; apply Hk; lia]. rewrite Ho. set_solver.
  - split; cbn; try done. intros; apply Hk; lia.
Qed.

Lemma Inv_set_phase s id p :
  Inv s -> source s <> Some id -> p <> AwaitingHeaders \/ calls_of id s = [] -> id <= generation s ->
  Inv (set_phase id p s).
Proof.
  intros [Hs Ho Ha Hk Hc] Hn Hp Hid. split; cbn; try done.
  - intros i Hi. rewrite lookup_insert_ne by congruence. by apply Hs.
  - intros i. destruct (decide (id = i)) as [->|]; [rewrite lookup_insert_eq|rewrite lookup_insert_ne by done; apply Ha].
    intros [= ->]. destruct Hp; [done|assumption].
  - intros i Hi. rewrite lookup_insert_ne by lia. by apply Hk.
Qed.

Lemma Inv_call s id c :
  Inv s -> id <= generation s -> calls_of id s = [] ->
  requests s !! id <> Some AwaitingHeaders -> source s <> Some id -> Inv (call id c s).
Proof.
  intros [Hs Ho Ha Hk Hc] Hid Hcs Hr Hso. split; cbn; try done; intros i.
  - intros Hi. rewrite calls_of_call, bool_decide_eq_false_2, app_nil_r by congruence. by apply Hs.
  - intros Hi. rewrite calls_of_call, bool_decide_eq_false_2, app_nil_r by congruence. by apply Ha.
  - intros Hi. rewrite calls_of_call, bool_decide_eq_false_2, app_nil_r by lia. by apply Hk.
  - rewrite calls_of_call. case_bool_decide; [subst; rewrite Hcs|by rewrite app_nil_r].
    destruct (is_terminal c) eqn:E.
    + exists [], [c]. naive_solver.
    + exists [c], []. simpl. rewrite E. auto.
Qed.

Lemma Inv_ended s id : Inv s -> isCurrent id s = true -> Inv (ended id s).
Proof.
  intros [Hs Ho Ha Hk Hc] [Hg Hso]%isCurrent_true. split; cbn; try done.
  - rewrite Ho, Hso. set_solver.
  - intros i. destruct (decide (id = i)) as [->|]; [by rewrite lookup_insert_eq|].
    rewrite lookup_insert_ne by done. apply Ha.
  - intros i Hi. rewrite lookup_insert_ne by lia. by apply Hk.
Qed.

(** Either only updates or one terminal callback. *)
Definition answer_ok (cs : list Callback) : Prop :=
  existsb is_terminal cs = false \/ exists c, cs = [c] /\ is_terminal c = true.

Lemma Inv_answer s id cs :
  Inv s -> isCurrent id s = true -> completed id s = false -> answer_ok cs -> Inv (answer id cs s).
Proof.
  intros HI Hcur Hcmp%completed_false Hok. pose proof Hcur as [Hg Hso]%isCurrent_true.
  destruct (inv_source _ HI id Hso) as (_ & Hr & Hstr & Ht).
  set (s0 := if existsb is_terminal cs then ended id s else s).
  assert (HI0 : Inv s0) by (unfold s0; case_match; [by apply Inv_ended|done]).
  assert (Hc0 : forall i, calls_of i s0 = calls_of i s) by (intros i; unfold s0; by case_match).
  assert (Hg0 : generation s0 = generation s) by (unfold s0; by case_match).
  assert (Hr0 : requests s0 !! id <> Some AwaitingHeaders).
  { unfold s0. case_match; [simpl; by rewrite lookup_insert_eq|by rewrite Hr]. }
  unfold answer. fold s0. destruct (call_all_fields id cs s0) as (E1 & E2 & E3 & E4 & E5).
  destruct HI0 as [Hs Ho Ha Hk Hc]. split.
  - rewrite E1, E2, E3, E4. intros i Hi. destruct (Hs i Hi) as (? & ? & ? & Hti).
    rewrite calls_of_call_all. repeat split; try done. rewrite existsb_app, Hti. case_bool_decide; [subst i|done].
    unfold s0 in Hi. destruct (existsb is_terminal cs); [done|reflexivity].
  - by rewrite E5, E2.
  - rewrite E4. intros i Hi. rewrite calls_of_call_all, bool_decide_eq_false_2, app_nil_r by congruence. by apply Ha.
  - rewrite E1, E4. intros i Hi. rewrite calls_of_call_all, bool_decide_eq_false_2, app_nil_r by lia. by apply Hk.
  - intros i. rewrite calls_of_call_all. case_bool_decide; [subst i|rewrite app_nil_r; apply Hc].
    rewrite Hc0. destruct Hok as [H|H].
    + rewrite <- (app_nil_r cs). apply calls_ok_app; auto.
    + rewrite <- (app_nil_l cs). apply calls_ok_app; auto.
Qed.

Lemma Inv_step closing s x : Inv s -> Inv (step closing s x).
Proof.
  intros HI. destruct x as [|id|id m|id ev|id| |]; cbn [step].
  - unfold send. pose proof (Inv_stale closing s (generation s + 1) false HI ltac:(lia)) as HI'.
    set (s' := setStreaming false _) in *. 
    assert (source s' = None /\ generation s' = generation s + 1 /\ calls_of (generation s + 1) s' = []) as (H1 & H2 & H3).
    { destruct (inv_known _ HI (generation s + 1) ltac:(lia)) as [_ Hk]. unfold s', dispatch.
      destruct (source s) as [p|] eqn:E; [|done].
      destruct (inv_source _ HI p E) as (Hp & _). rewrite close_stale by (simpl; lia). done. }
    apply Inv_set_phase; [done|by rewrite H1|by right|by rewrite H2].
  - unfold headersResolved. case_bool_decide as Hr; [|done]. case_bool_decide as Hg; simpl.
    + subst id. destruct HI as [Hs Ho Ha Hk Hc].
      assert (source s = None) as Hso.
      { destruct (source s) as [i|]; [|done]. destruct (Hs i eq_refl) as (<- & Hx & _). congruence. }
      split; cbn; try done.
      * intros i [= <-]. rewrite lookup_insert_eq. split_and!; try done. exact (f_equal (existsb is_terminal) (Ha _ Hr)).
      * rewrite Ho, Hso. set_solver.
      * intros i. destruct (decide (generation s = i)) as [<-|]; [by rewrite lookup_insert_eq|].
        rewrite lookup_insert_ne by done. apply Ha.
      * intros i Hi. rewrite lookup_insert_ne by lia. by apply Hk.
    + apply Inv_set_phase; [done| |by left|].
      * intros (<- & _)%(inv_source _ HI). done.
      * destruct (decide (id <= generation s)); [done|]. destruct (inv_known _ HI id); [lia|congruence].
  - unfold headersRejected. case_bool_decide as Hr; [|done]. simpl.
    assert (id <= generation s) as Hle.
    { destruct (decide (id <= generation s)); [done|]. destruct (inv_known _ HI id); [lia|congruence]. }
    assert (source s <> Some id) as Hso.
    { intros Hso. destruct (inv_source _ HI id Hso) as (_ & Hx & _). congruence. }
    assert (Inv (set_phase id Ended s)) by (apply Inv_set_phase; auto).
    case_bool_decide; simpl; [|done]. apply Inv_call; try done.
    + by apply (inv_awaiting _ HI).
    + simpl. by rewrite lookup_insert_eq.
  - unfold dispatch. rewrite listen_nesting. destruct (inert_dec id s) as [H%inert_spec|[Hc Hd]]; [by rewrite H|].
    rewrite Hc, Hd. simpl. apply Inv_answer; auto. apply reaction_ok.
  - unfold streamThrew. destruct (inert_dec id s) as [H%inert_spec|[Hc Hd]]; [by rewrite H|].
    rewrite Hc, Hd. simpl. unfold dispatch. rewrite handleError_current by done.
    apply (Inv_answer s id [onError (JString STREAM_START_ERROR) JUndefined]); auto.
    right. eauto.
  - unfold stop, cancel. apply Inv_stale; [done|lia].
  - unfold dispose, cancel.
    pose proof (Inv_stale closing s (generation s + 1)) as H. unfold dispatch in *.
    destruct (source s) as [p|] eqn:E.
    + destruct (inv_source _ HI p E) as (Hp & _). rewrite close_stale in * by (simpl; lia).
      apply (H (streaming s)); [done|lia].
    + apply (H (streaming s)); [done|lia].
Qed.

(** ** Stale requests *)

Lemma close_forgotten closing p s :
  source s = None -> close closing (dispatch closing) p s = set_opened (opened s ∖ {[p]}) s.
Proof.
  intros H. apply close_inert. left. unfold isCurrent. rewrite H. by rewrite andb_comm.
Qed.

Lemma dispatch_spec closing id ev s :
  dispatch closing id ev s = if negb (isCurrent id s) || completed id s then s else react id ev s.
Proof. apply listen_nesting. Qed.

Lemma streamThrew_spec closing id s :
  streamThrew closing id s
  = if negb (isCurrent id s) || completed id s then s
    else answer id [onError (JString STREAM_START_ERROR) JUndefined] s.
Proof.
  unfold streamThrew. destruct (inert_dec id s) as [H%inert_spec|[Hc Hd]]; [by rewrite H|].
  rewrite Hc, Hd. simpl. unfold dispatch. by rewrite handleError_current.
Qed.

(** The previous source is closed and forgotten, whatever it dispatches. *)
Definition forget (g : nat) (s : Controller) : Controller :=
  set_opened (match source s with Some p => opened s ∖ {[p]} | None => opened s end)
    (set_source None (set_generation g s)).

Lemma send_spec closing s :
  send closing s = set_phase (generation s + 1) AwaitingHeaders (setStreaming false (forget (generation s + 1) s)).
Proof.
  unfold send, forget. destruct (source s); [by rewrite close_forgotten|]. by destruct s.
Qed.

Lemma cancel_spec closing b s :
  cancel closing b s
  = if b then setStreaming false (forget (generation s + 1) s) else forget (generation s + 1) s.
Proof.
  unfold cancel, forget. destruct (source s); [by rewrite close_forgotten|]. by destruct s.
Qed.

Lemma step_closing closing s x : step closing s x = step (fun _ => []) s x.
Proof.
  destruct x; cbn [step]; try done.
  - by rewrite !send_spec.
  - by rewrite !dispatch_spec.
  - by rewrite !streamThrew_spec.
  - unfold stop. by rewrite !cancel_spec.
  - unfold dispose. by rewrite !cancel_spec.
Qed.

Lemma run_closing closing xs : forall s, run_steps closing s xs = run_steps (fun _ => []) s xs.
Proof.
  induction xs as [|x xs IH]; intros s; [done|]. unfold run_steps in *. simpl. by rewrite step_closing, IH.
Qed.

Lemma answer_fields id cs s : generation (answer id cs s) = generation s.
Proof. unfold answer. rewrite (proj1 (call_all_fields id cs _)). by case_match. Qed.

Lemma calls_of_answer id cs s i :
  calls_of i (answer id cs s) = calls_of i s ++ if bool_decide (id = i) then cs else [].
Proof. unfold answer. rewrite calls_of_call_all. by destruct (existsb is_terminal cs). Qed.

(** A step never lowers the generation and calls no callback of a request that
    is behind it. *)
Lemma step_stale closing s x id :
  generation s <= generation (step closing s x)
  /\ (id < generation s -> calls_of id (step closing s x) = calls_of id s).
Proof.
  destruct x as [|i|i m|i ev|i| |]; cbn [step].
  - rewrite send_spec. simpl. split; [lia|done].
  - unfold headersResolved. repeat case_match; simpl; split; (done || lia).
  - unfold headersRejected. repeat case_bool_decide; simpl; split; try (done || lia).
    intros Hid. rewrite calls_of_call, bool_decide_eq_false_2, app_nil_r by lia. done.
  - rewrite dispatch_spec. destruct (inert_dec i s) as [H%inert_spec|[Hc Hd]]; [by rewrite H|].
    rewrite Hc, Hd. cbn [negb orb]. unfold react. rewrite answer_fields. apply isCurrent_true in Hc as [Hg _].
    split; [done|]. intros Hid. rewrite calls_of_answer, bool_decide_eq_false_2, app_nil_r by lia. done.
  - rewrite streamThrew_spec. destruct (inert_dec i s) as [H%inert_spec|[Hc Hd]]; [by rewrite H|].
    rewrite Hc, Hd. cbn [negb orb]. rewrite answer_fields. apply isCurrent_true in Hc as [Hg _].
    split; [done|]. intros Hid. rewrite calls_of_answer, bool_decide_eq_false_2, app_nil_r by lia. done.
  - unfold stop. rewrite cancel_spec. simpl. split; [lia|done].
  - unfold dispose. rewrite cancel_spec. simpl. split; [lia|done].
Qed.

Lemma run_stale closing xs : forall s id,
  id < generation s -> calls_of id (run_steps closing s xs) = calls_of id s.
Proof.
  induction xs as [|x xs IH]; intros s id Hid; [done|]. unfold run_steps in *. simpl.
  destruct (step_stale closing s x id) as [Hg Hc]. rewrite IH by lia. by apply Hc.
Qed.

Lemma Inv_run closing xs : forall s, Inv s -> Inv (run_steps closing s xs).
Proof.
  induction xs as [|x xs IH]; intros s HI; [done|]. apply IH. by apply Inv_step.
Qed.

(** The streaming flag follows the source until the controller is disposed. *)
Lemma streaming_step closing s x :
  Inv s -> x <> Dispose -> (streaming s = true -> source s <> None) ->
  streaming (step closing s x) = true -> source (step closing s x) <> None.
Proof.
  intros HI Hx Hs. destruct x as [|i|i m|i ev|i| |]; cbn [step].
  - by rewrite send_spec.
  - unfold headersResolved. by repeat case_match.
  - unfold headersRejected. by repeat case_match.
  - rewrite dispatch_spec. case_match; [done|]. unfold react, answer.
    destruct (call_all_fields i (reaction ev) (if existsb is_terminal (reaction ev) then ended i s else s))
      as (_ & -> & -> & _). by case_match.
  - rewrite streamThrew_spec. by case_match.
  - unfold stop. by rewrite cancel_spec.
  - done.
Qed.

Lemma streaming_run closing xs : forall s,
  Inv s -> Dispose ∉ xs -> (streaming s = true -> source s <> None) ->
  streaming (run_steps closing s xs) = true -> source (run_steps closing s xs) <> None.
Proof.
  induction xs as [|x xs IH]; intros s HI Hx Hs; [done|]. apply not_elem_of_cons in Hx as [Hx Hxs].
  apply IH; [by apply Inv_step|done|]. by apply streaming_step.
Qed.

(** ** Properties *)

(** C15: After [send], [stop] or [dispose], no later step of the controller (the
    headers of an older request arriving, an event of its source, a synchronous
    event of a [close()], its [stream()] throwing) calls a callback of a request
    that was issued before. *)
Theorem stale_requests_silent closing s x later id :
  x = Send \/ x = Stop \/ x = Dispose -> id <= generation s ->
  calls_of id (run_steps closing (step closing s x) later) = calls_of id s.
Proof.
  intros Hx Hid. assert (generation (step closing s x) = generation s + 1
                         /\ calls_of id (step closing s x) = calls_of id s) as [Hg Hc].
  { destruct Hx as [-> | [-> | ->]]; cbn [step]; unfold stop, dispose;
      rewrite ?send_spec, ?cancel_spec; done. }
  by rewrite run_stale by lia.
Qed.

Lemma stale_requests_silent_witness :
  calls_of 1 (run_steps (fun _ => [Ev_message (Some (js "[DONE]"))])
    (step (fun _ => [Ev_message (Some (js "[DONE]"))])
       (run_steps (fun _ => []) initialController [Send; HeadersResolved 1]) Stop)
    [Dispatch 1 (Ev_message (Some (js "[DONE]"))); StreamThrew 1])
  = calls_of 1 (run_steps (fun _ => []) initialController [Send; HeadersResolved 1]).
Proof. apply stale_requests_silent; [tauto|vm_compute; lia]. Defined.

(** C6: In every reachable state the only open source is the current one, which
    belongs to the newest request, is listened to and has the streaming flag up;
    until the controller is disposed the flag is up only then; and the callbacks
    of every request were called as updates followed by at most one of
    [onComplete] and [onError]. *)
Theorem controller_invariant closing xs :
  let s := run_steps closing initialController xs in
  opened s = match source s with Some id => {[id]} | None => ∅ end
  /\ (forall id, source s = Some id ->
        generation s = id /\ requests s !! id = Some (Listening false) /\ streaming s = true
        /\ existsb is_terminal (calls_of id s) = false)
  /\ (Dispose ∉ xs -> streaming s = true -> is_Some (source s))
  /\ (forall id, exists us ts, calls_of id s = us ++ ts /\ existsb is_terminal us = false
        /\ (ts = [] \/ exists c, ts = [c] /\ is_terminal c = true)).
Proof.
  intros s. pose proof (Inv_run closing xs _ Inv_initial) as HI. fold s in HI.
  split_and!; [apply HI|apply HI| |apply HI].
  intros Hx Hs. destruct (source s) eqn:E; [eauto|]. exfalso. revert E.
  by apply (streaming_run closing xs _ Inv_initial).
Qed.

(** What an event does, whatever the source dispatches while it is closed:
    nothing unless its request is the current one and not completed; otherwise
    the callbacks its data calls for, and when one of them is terminal the
    request is completed, its source closed and forgotten and the streaming flag
    lowered.  Consequently the events dispatched inside [close()] never change
    the run of the controller. *)
Theorem event_behaviour closing s :
  (forall id ev,
     dispatch closing id ev s
     = if isCurrent id s && negb (completed id s) then
         foldl (fun s c => call id c s)
           (if existsb is_terminal (reaction ev)
            then setStreaming false (set_source None (set_opened (opened s ∖ {[id]})
                   (set_phase id (Listening true) s)))
            else s) (reaction ev)
       else s)
  /\ forall xs, run_steps closing s xs = run_steps (fun _ => []) s xs.
Proof.
  split; [|intros xs; apply run_closing]. intros id ev. rewrite dispatch_spec.
  destruct (isCurrent id s), (completed id s); done.
Qed.

(** The chunk a server sends for a delta with reasoning [r] and text [c]. *)
Definition chunk_of (r c : jsstr) : jsval :=
  JObject [(js "choices",
    JArray [JObject [(js "delta", JObject [(js "reasoning_content", JString r); (js "content", JString c)])]])].

(** The updates of such a chunk: reasoning first, empty texts left out. *)
Definition updates_of (r c : jsstr) : list Callback :=
  (if truthy r then [onUpdate reasoning_chunk (JString r)] else [])
  ++ (if truthy c then [onUpdate content_chunk (JString c)] else []).

Lemma reaction_chunk show r c :
  str_ok r = true -> str_ok c = true ->
  reaction (Ev_message (Some (stringify show (chunk_of r c)))) = updates_of r c.
Proof.
  intros Hr Hc. unfold reaction. change (default [] (Some ?x)) with x.
  assert (Hd : isStreamDoneMessage (stringify show (chunk_of r c)) = false).
  { apply bool_decide_eq_false_2. discriminate. }
  rewrite Hd. unfold parseStreamMessageUpdates. rewrite JSON_parse_stringify.
  - unfold updates_of. destruct r, c; reflexivity.
  - cbn [json_ok chunk_of forallb]. cbn [fst snd json_ok forallb]. rewrite Hr, Hc. reflexivity.
Qed.

(** A chunk printed as JSON by the server reaches the callbacks of the
    current request unchanged, for any texts: the reasoning, then the content,
    each left out when empty; nothing else of the controller changes. *)
Theorem stream_chunk_delivered closing show s id r c :
  source s = Some id -> generation s = id -> requests s !! id = Some (Listening false) ->
  str_ok r = true -> str_ok c = true ->
  dispatch closing id (Ev_message (Some (stringify show (chunk_of r c)))) s
  = mkController (generation s) (source s) (streaming s) (requests s) (opened s)
      (calls s ++ (pair id <$> updates_of r c)).
Proof.
  intros Hs Hg Hq Hr Hc. rewrite dispatch_spec.
  rewrite (proj2 (isCurrent_true id s)), (proj2 (completed_false id s)) by done. cbn [negb orb].
  unfold react, answer. rewrite reaction_chunk by done. unfold updates_of.
  destruct r, c; cbn; unfold call; cbn; rewrite <- ?app_assoc; destruct s; by rewrite ?app_nil_r.
Qed.

Lemma stream_chunk_delivered_witness :
  calls (dispatch (fun _ => []) 1
    (Ev_message (Some (stringify (fun _ => []) (chunk_of [] [34; 10; 55357; 56832]%N))))
    (run_steps (fun _ => []) initialController [Send; HeadersResolved 1]))
  = [(1, onUpdate content_chunk (JString [34; 10; 55357; 56832]%N))].
Proof.
  refine (eq_trans (f_equal calls (stream_chunk_delivered (fun _ => []) (fun _ => [])
    (run_steps (fun _ => []) initialController [Send; HeadersResolved 1]) 1 [] [34; 10; 55357; 56832]%N
    _ _ _ _ _)) _); vm_compute; reflexivity.
Defined.
