(* ===== verification/ChatHandler.v ===== *)
(** * The chat handler of the playground

    web/src/features/playground/hooks/use-chat-handler.ts and
    use-playground-conversation.ts: sending a conversation, collecting streamed
    chunks, flushing them into the last message every 50 ms, completion,
    errors, stopping, and the conversation actions that call them.

    The refs of the hook are fields of [Chat].  A call of the state setter
    queues an updater, and React runs the queue at the next render; React may
    instead run an updater at once when the queue is empty.  Both are modelled:
    [eager] says which, [render] runs the queue.  Requests are named by their
    generation.  The stream controller and the HTTP client are the environment:
    they call the handlers of any generation at any time, in any order. *)

From Stdlib Require Import SpecFloat.
From S2P Require Import Prelude JsValue PlaygroundMessages.

(** ** State *)

Record PendingStreamChunks := mkPending { p_generation : nat; p_content : jsstr; p_reasoning : jsstr }.

(** The updaters the hooks give to the setter of the messages. *)
Inductive MessageUpdate :=
| U_set (next : list Message)
| U_remove (messageKey : jsstr)
| U_flush (gen : nat) (reasoningText contentText : jsstr)
| U_complete (gen : nat)
| U_error (gen : nat) (displayError : jsstr) (code : option jsstr) (errorTitle : jsstr)
| U_response (gen : nat) (choices : list ChatCompletionChoice)
| U_stop (gen : nat).

(** Calls that leave the hook. *)
Inductive Effect :=
| E_sendStream (gen : nat) (payload : ChatCompletionRequest)
| E_sendChatCompletion (gen : nat) (payload : ChatCompletionRequest)
| E_stopStream
| E_toast (text : jsstr).

(** [flushTimer] is the ref to the timer with the generation its callback
    captured and whether the timer is still armed; [abortController] the
    generation of the controller in the ref and [aborted] the generations whose
    signal is aborted. *)
Record Chat := mkChat {
  requestGeneration : nat;
  pendingStreamChunks : PendingStreamChunks;
  flushTimer : option (nat * bool);
  abortController : option nat;
  aborted : gset nat;
  isRequesting : bool;
  messages : list Message;
  queue : list MessageUpdate;
  editingMessageKey : option jsstr;
  effects : list Effect }.

Definition initialChat : Chat :=
  mkChat 0 (mkPending 0 [] []) None None ∅ false [] [] None [].

Definition set_gen (g : nat) (c : Chat) : Chat :=
  mkChat g (pendingStreamChunks c) (flushTimer c) (abortController c) (aborted c) (isRequesting c)
    (messages c) (queue c) (editingMessageKey c) (effects c).
Definition set_pending (p : PendingStreamChunks) (c : Chat) : Chat :=
  mkChat (requestGeneration c) p (flushTimer c) (abortController c) (aborted c) (isRequesting c)
    (messages c) (queue c) (editingMessageKey c) (effects c).
Definition set_timer (t : option (nat * bool)) (c : Chat) : Chat :=
  mkChat (requestGeneration c) (pendingStreamChunks c) t (abortController c) (aborted c) (isRequesting c)
    (messages c) (queue c) (editingMessageKey c) (effects c).
Definition setIsRequesting (b : bool) (c : Chat) : Chat :=
  mkChat (requestGeneration c) (pendingStreamChunks c) (flushTimer c) (abortController c) (aborted c) b
    (messages c) (queue c) (editingMessageKey c) (effects c).
Definition set_abort (a : option nat) (ab : gset nat) (c : Chat) : Chat :=
  mkChat (requestGeneration c) (pendingStreamChunks c) (flushTimer c) a ab (isRequesting c)
    (messages c) (queue c) (editingMessageKey c) (effects c).
Definition set_messages (ms : list Message) (q : list MessageUpdate) (c : Chat) : Chat :=
  mkChat (requestGeneration c) (pendingStreamChunks c) (flushTimer c) (abortController c) (aborted c)
    (isRequesting c) ms q (editingMessageKey c) (effects c).
Definition setEditingMessageKey (k : option jsstr) (c : Chat) : Chat :=
  mkChat (requestGeneration c) (pendingStreamChunks c) (flushTimer c) (abortController c) (aborted c)
    (isRequesting c) (messages c) (queue c) k (effects c).
Definition emit (e : Effect) (c : Chat) : Chat :=
  mkChat (requestGeneration c) (pendingStreamChunks c) (flushTimer c) (abortController c) (aborted c)
    (isRequesting c) (messages c) (queue c) (editingMessageKey c) (effects c ++ [e]).

(** ** Updaters *)

Definition mergePendingStreamChunk (currentChunk nextChunk : jsstr) : jsstr :=
  if negb (truthy currentChunk) || negb (starts_with currentChunk nextChunk)
  then currentChunk ++ nextChunk else nextChunk.

(** The function inside [flushStreamUpdates]. *)
Definition flushMessage (reasoningText contentText : jsstr) (now : jsnum) (m : Message) : Message :=
  let m := if truthy reasoningText then applyStreamingChunk m reasoning_chunk reasoningText now else m in
  if truthy contentText then applyStreamingChunk m content_chunk contentText now else m.

(** An updater run when the ref holds [current]. *)
Definition applyUpdate (current : nat) (now : jsnum) (u : MessageUpdate) (prev : list Message) : list Message :=
  match u with
  | U_set next => next
  | U_remove k => removeMessageByKey prev k
  | U_flush gen r co =>
      if negb (gen =? current)%nat then prev
      else updateLastAssistantMessage prev (flushMessage r co now)
  | U_complete gen =>
      if negb (gen =? current)%nat then prev
      else updateLastAssistantMessage prev (fun m =>
             if isAssistantMessageFinal m then m else completeAssistantMessage m now)
  | U_error gen e code ttl =>
      if negb (gen =? current)%nat then prev
      else updateAssistantMessageWithError prev e code ttl now
  | U_response gen choices =>
      if negb (gen =? current)%nat then prev
      else updateLastAssistantMessage prev (fun m =>
             default m (applyChatCompletionResponse m choices now))
  | U_stop gen =>
      if negb (gen =? current)%nat then prev
      else updateLastAssistantMessage prev (fun m =>
             if isAssistantMessagePending m then completeAssistantMessage m now else m)
  end.

Definition render (now : jsnum) (c : Chat) : Chat :=
  set_messages (foldl (fun ms u => applyUpdate (requestGeneration c) now u ms) (messages c) (queue c)) [] c.

(** [onMessageUpdate(updater)]: run at once and kept as a constant update, or
    queued for the next render. *)
Definition onMessageUpdate (eager : bool) (now : jsnum) (u : MessageUpdate) (c : Chat) : Chat :=
  if eager && bool_decide (queue c = []) then
    let next := applyUpdate (requestGeneration c) now u (messages c) in
    if bool_decide (next = messages c) then c else set_messages (messages c) [U_set next] c
  else set_messages (messages c) (queue c ++ [u]) c.

(** ** Handlers *)

Definition discardPendingStreamUpdates (gen : nat) (c : Chat) : Chat :=
  set_pending (mkPending gen [] []) (set_timer None c).

Definition flushStreamUpdates (eager : bool) (now : jsnum) (gen : nat) (c : Chat) : Chat :=
  if negb (gen =? requestGeneration c)%nat then c
  else
    let c := set_timer None c in
    let p := pendingStreamChunks c in
    if negb (p_generation p =? gen)%nat then c
    else if negb (truthy (p_reasoning p)) && negb (truthy (p_content p)) then c
    else onMessageUpdate eager now (U_flush gen (p_reasoning p) (p_content p))
           (set_pending (mkPending gen [] []) c).

Definition scheduleStreamFlush (gen : nat) (c : Chat) : Chat :=
  if negb (gen =? requestGeneration c)%nat then c
  else match flushTimer c with
       | Some _ => c
       | None => set_timer (Some (gen, true)) c
       end.

(** The timer of [scheduleStreamFlush] fires. *)
Definition timerFires (eager : bool) (now : jsnum) (c : Chat) : Chat :=
  match flushTimer c with
  | Some (gen, true) => flushStreamUpdates eager now gen (set_timer (Some (gen, false)) c)
  | _ => c
  end.

Definition abortRequest (c : Chat) : Chat :=
  match abortController c with
  | Some g => set_abort None ({[g]} ∪ aborted c) c
  | None => c
  end.

(** The cleanup of the effect. *)
Definition unmount (c : Chat) : Chat :=
  let c := set_gen (requestGeneration c + 1) c in
  let c := match flushTimer c with Some (g, _) => set_timer (Some (g, false)) c | None => c end in
  abortRequest c.

Section Handlers.
Variable t : jsstr -> jsstr.

Definition KNOWN_ERROR_MESSAGES : list jsstr :=
  [API_REQUEST_ERROR; NETWORK_ERROR; PARSE_ERROR; STREAM_START_ERROR; CONNECTION_CLOSED; INTERRUPTED].

Definition getDisplayError (error : jsstr) : jsstr :=
  if bool_decide (error ∈ KNOWN_ERROR_MESSAGES) then t error
  else if ends_with (js ": " ++ CONNECTION_CLOSED) error
  then take (length error - length CONNECTION_CLOSED) error ++ t CONNECTION_CLOSED
  else error.

Definition handleStreamUpdate (gen : nat) (type : StreamChunkType) (chunk : jsstr) (c : Chat) : Chat :=
  if negb (gen =? requestGeneration c)%nat then c
  else
    let p := pendingStreamChunks c in
    if negb (p_generation p =? gen)%nat then c
    else
      let p' := match type with
                | content_chunk =>
                    mkPending (p_generation p) (mergePendingStreamChunk (p_content p) chunk) (p_reasoning p)
                | reasoning_chunk =>
                    mkPending (p_generation p) (p_content p) (mergePendingStreamChunk (p_reasoning p) chunk)
                end in
      scheduleStreamFlush gen (set_pending p' c).

Definition handleStreamComplete (eager : bool) (now : jsnum) (gen : nat) (c : Chat) : Chat :=
  if negb (gen =? requestGeneration c)%nat then c
  else onMessageUpdate eager now (U_complete gen)
         (setIsRequesting false (flushStreamUpdates eager now gen c)).

Definition handleStreamError (eager : bool) (now : jsnum) (gen : nat) (error : jsstr)
    (code : option jsstr) (c : Chat) : Chat :=
  if negb (gen =? requestGeneration c)%nat then c
  else
    let c := setIsRequesting false (flushStreamUpdates eager now gen c) in
    let displayError := getDisplayError error in
    onMessageUpdate eager now (U_error gen displayError code (t API_REQUEST_ERROR))
      (emit (E_toast displayError) c).

Section Sending.
Variable config : PlaygroundConfig.
Variable parameterEnabled : ParameterEnabled.

Definition sendStreamingChat (ms : list Message) (c : Chat) : Chat :=
  let gen := requestGeneration c + 1 in
  let c := abortRequest (set_gen gen c) in
  let c := setIsRequesting true (discardPendingStreamUpdates gen c) in
  emit (E_sendStream gen (buildChatCompletionPayload ms config parameterEnabled)) c.

(** [sendNonStreamingChat] up to its [await]. *)
Definition sendNonStreamingChat (ms : list Message) (c : Chat) : Chat :=
  let payload := buildChatCompletionPayload ms config parameterEnabled in
  let gen := requestGeneration c + 1 in
  let c := discardPendingStreamUpdates gen (emit E_stopStream (set_gen gen c)) in
  let c := abortRequest c in
  let c := setIsRequesting true (set_abort (Some gen) (aborted c) c) in
  emit (E_sendChatCompletion gen payload) c.

Definition sendChat (ms : list Message) (c : Chat) : Chat :=
  if stream config then sendStreamingChat ms c else sendNonStreamingChat ms c.

End Sending.

(** The [finally] of [sendNonStreamingChat]. *)
Definition chatFinally (gen : nat) (c : Chat) : Chat :=
  if (requestGeneration c =? gen)%nat then setIsRequesting false (set_abort None (aborted c) c) else c.

(** The response arrives. *)
Definition chatResponse (eager : bool) (now : jsnum) (gen : nat) (choices : list ChatCompletionChoice)
    (c : Chat) : Chat :=
  chatFinally gen
    (if bool_decide (gen ∈ aborted c) || negb (requestGeneration c =? gen)%nat then c
     else if negb (hasChatCompletionChoice choices)
     then handleStreamError eager now gen API_REQUEST_ERROR None c
     else onMessageUpdate eager now (U_response gen choices) c).

(** The request fails with a message and a code. *)
Definition chatFailure (eager : bool) (now : jsnum) (gen : nat) (error : jsstr) (code : option jsstr)
    (c : Chat) : Chat :=
  chatFinally gen
    (if bool_decide (gen ∈ aborted c) || negb (requestGeneration c =? gen)%nat then c
     else handleStreamError eager now gen error code c).

Definition stopGeneration (eager : bool) (now : jsnum) (c : Chat) : Chat :=
  let stoppedGeneration := requestGeneration c in
  let c := flushStreamUpdates eager now stoppedGeneration c in
  let idleGeneration := stoppedGeneration + 1 in
  let c := discardPendingStreamUpdates idleGeneration (set_gen idleGeneration c) in
  let c := setIsRequesting false (abortRequest (emit E_stopStream c)) in
  onMessageUpdate eager now (U_stop idleGeneration) c.

(** ** Conversation actions (use-playground-conversation.ts) *)

Section Conversation.
Variable config : PlaygroundConfig.
Variable parameterEnabled : ParameterEnabled.

Definition handleSendMessage (eager : bool) (now : jsnum) (fr : Fresh) (text : jsstr) (c : Chat) : Chat :=
  let nextMessages := appendUserMessagePair fr (messages c) text now in
  sendChat config parameterEnabled nextMessages (onMessageUpdate eager now (U_set nextMessages) c).

Definition handleRegenerateMessage (eager : bool) (now : jsnum) (fr : Fresh) (messageKey : jsstr) (c : Chat) : Chat :=
  match createRegeneratedMessages fr (messages c) messageKey now with
  | None => c
  | Some nextMessages =>
      sendChat config parameterEnabled nextMessages (onMessageUpdate eager now (U_set nextMessages) c)
  end.

Definition handleEditMessage (messageKey : jsstr) (c : Chat) : Chat := setEditingMessageKey (Some messageKey) c.

Definition handleEditOpenChange (open : bool) (c : Chat) : Chat :=
  if negb open then setEditingMessageKey None c else c.

Definition applyEdit (eager : bool) (now : jsnum) (fr : Fresh) (newContent : jsstr) (shouldSubmit : bool)
    (c : Chat) : Chat :=
  match editingMessageKey c with
  | None | Some [] => c
  | Some k =>
      match applyMessageEdit fr (messages c) k newContent shouldSubmit now with
      | None => c
      | Some r =>
          let c := onMessageUpdate eager now (U_set (edit_messages r)) (setEditingMessageKey None c) in
          if shouldSend r then sendChat config parameterEnabled (edit_messages r) c else c
      end
  end.

Definition handleDeleteMessage (eager : bool) (now : jsnum) (messageKey : jsstr) (c : Chat) : Chat :=
  onMessageUpdate eager now (U_remove messageKey) c.

End Conversation.

(** ** Runs *)

Inductive ChatStep :=
| S_send (config : PlaygroundConfig) (enabled : ParameterEnabled) (fr : Fresh) (text : jsstr)
| S_regenerate (config : PlaygroundConfig) (enabled : ParameterEnabled) (fr : Fresh) (messageKey : jsstr)
| S_openEdit (messageKey : jsstr) | S_editOpenChange (open : bool)
| S_applyEdit (config : PlaygroundConfig) (enabled : ParameterEnabled) (fr : Fresh)
    (newContent : jsstr) (shouldSubmit : bool)
| S_delete (messageKey : jsstr)
| S_update (gen : nat) (type : StreamChunkType) (chunk : jsstr)
| S_complete (gen : nat)
| S_error (gen : nat) (error : jsstr) (code : option jsstr)
| S_response (gen : nat) (choices : list ChatCompletionChoice)
| S_failure (gen : nat) (error : jsstr) (code : option jsstr)
| S_timer | S_stop | S_render | S_unmount.

(** A step at the instant [now]; [eager] is React's choice. *)
Definition chat_step (c : Chat) (x : bool * jsnum * ChatStep) : Chat :=
  let '(eager, now, st) := x in
  match st with
  | S_send config enabled fr text => handleSendMessage config enabled eager now fr text c
  | S_regenerate config enabled fr k => handleRegenerateMessage config enabled eager now fr k c
  | S_openEdit k => handleEditMessage k c
  | S_editOpenChange o => handleEditOpenChange o c
  | S_applyEdit config enabled fr nc sub => applyEdit config enabled eager now fr nc sub c
  | S_delete k => handleDeleteMessage eager now k c
  | S_update gen ty chunk => handleStreamUpdate gen ty chunk c
  | S_complete gen => handleStreamComplete eager now gen c
  | S_error gen e code => handleStreamError eager now gen e code c
  | S_response gen choices => chatResponse eager now gen choices c
  | S_failure gen e code => chatFailure eager now gen e code c
  | S_timer => timerFires eager now c
  | S_stop => stopGeneration eager now c
  | S_render => render now c
  | S_unmount => unmount c
  end.

Definition chat_run (c : Chat) (xs : list (bool * jsnum * ChatStep)) : Chat := foldl chat_step c xs.

End Handlers.

(** ** Lemmas *)

(** The refs of the hook while it is mounted: the pending text and the timer
    belong to the current generation, and pending text has a timer that will
    flush it. *)
Record refs_ok (c : Chat) : Prop := {
  ok_pending : p_generation (pendingStreamChunks c) = requestGeneration c;
  ok_timer x : flushTimer c = Some x -> x = (requestGeneration c, true);
  ok_flush : flushTimer c = None -> pendingStreamChunks c = mkPending (requestGeneration c) [] [];
  ok_abort g : abortController c = Some g -> g = requestGeneration c /\ g ∉ aborted c;
  ok_aborted g : g ∈ aborted c -> g < requestGeneration c }.

(** The fields [refs_ok] reads. *)
Definition refs (c : Chat) :=
  (requestGeneration c, pendingStreamChunks c, flushTimer c, abortController c, aborted c).

Lemma refs_ok_ext c c' : refs c' = refs c -> refs_ok c -> refs_ok c'.
Proof.
  unfold refs. intros [= E1 E2 E3 E4 E5] [H1 H2 H3 H4 H5].
  split; intros *; rewrite ?E1, ?E2, ?E3, ?E4, ?E5; auto.
Qed.

Lemma refs_onMessageUpdate eager now u c : refs (onMessageUpdate eager now u c) = refs c.
Proof. unfold onMessageUpdate. by repeat case_match. Qed.

Lemma refs_ok_onMessageUpdate eager now u c : refs_ok c -> refs_ok (onMessageUpdate eager now u c).
Proof. apply refs_ok_ext, refs_onMessageUpdate. Qed.

(** A flush of the current generation empties the pending text and clears the
    timer. *)
Lemma flush_refs eager now c :
  p_generation (pendingStreamChunks c) = requestGeneration c ->
  refs (flushStreamUpdates eager now (requestGeneration c) c)
  = (requestGeneration c, mkPending (requestGeneration c) [] [], None, abortController c, aborted c).
Proof.
  intros H1. unfold flushStreamUpdates. rewrite Nat.eqb_refl. simpl. rewrite H1, Nat.eqb_refl. simpl.
  destruct (pendingStreamChunks c) as [g co r] eqn:E. simpl in *. subst g.
  destruct (truthy r) eqn:Er; [|destruct (truthy co) eqn:Ec]; simpl.
  1,2: by rewrite refs_onMessageUpdate.
  apply truthy_false in Er, Ec. subst. unfold refs. simpl. by rewrite E.
Qed.

Lemma flush_ok eager now gen c : refs_ok c -> refs_ok (flushStreamUpdates eager now gen c).
Proof.
  intros HI. destruct (decide (gen = requestGeneration c)) as [->|Hne].
  - pose proof (flush_refs eager now c (ok_pending _ HI)) as [= E1 E2 E3 E4 E5]. destruct HI as [H1 H2 H3 H4 H5].
    split; intros *; rewrite ?E1, ?E2, ?E3, ?E4, ?E5; try done; auto.
  - unfold flushStreamUpdates. rewrite (proj2 (Nat.eqb_neq _ _) Hne). done.
Qed.

Lemma abortRequest_refs c :
  requestGeneration (abortRequest c) = requestGeneration c
  /\ pendingStreamChunks (abortRequest c) = pendingStreamChunks c
  /\ flushTimer (abortRequest c) = flushTimer c
  /\ abortController (abortRequest c) = None
  /\ aborted (abortRequest c) = match abortController c with Some g => {[g]} ∪ aborted c | None => aborted c end.
Proof. unfold abortRequest. by destruct (abortController c) eqn:E. Qed.

Lemma aborted_lt c g :
  refs_ok c ->
  g ∈ match abortController c with Some g => {[g]} ∪ aborted c | None => aborted c end ->
  g <= requestGeneration c.
Proof.
  intros HI. destruct (abortController c) as [a|] eqn:E.
  - destruct (ok_abort _ HI a E) as [-> _]. intros [->%elem_of_singleton|Hg]%elem_of_union; [done|].
    apply (ok_aborted _ HI) in Hg. lia.
  - intros Hg%(ok_aborted _ HI). lia.
Qed.

(** Starting a new generation with nothing pending, as sending and stopping do. *)
Lemma refs_ok_fresh c c' :
  refs_ok c ->
  requestGeneration c' = requestGeneration c + 1 ->
  pendingStreamChunks c' = mkPending (requestGeneration c + 1) [] [] -> flushTimer c' = None ->
  aborted c' = match abortController c with Some g => {[g]} ∪ aborted c | None => aborted c end ->
  abortController c' = None \/ abortController c' = Some (requestGeneration c + 1) -> refs_ok c'.
Proof.
  intros HI E1 E2 E3 E4 E5.
  assert (Hlt : forall g, g ∈ aborted c' -> g < requestGeneration c').
  { intros g. rewrite E4, E1. intros Hg%aborted_lt; [lia|done]. }
  split; try done.
  - by rewrite E2, E1.
  - by rewrite E3.
  - by rewrite E2, E1.
  - intros g Hg. destruct E5 as [E5|E5]; [congruence|]. rewrite E5 in Hg. injection Hg as <-.
    rewrite E1. split; [done|]. intros Hin%Hlt. lia.
Qed.

Lemma sendChat_ok config enabled ms c : refs_ok c -> refs_ok (sendChat config enabled ms c).
Proof.
  intros HI. unfold sendChat. case_match.
  - destruct (abortRequest_refs (set_gen (requestGeneration c + 1) c)) as (A1 & A2 & A3 & A4 & A5).
    apply (refs_ok_fresh c); simpl; auto.
  - set (c1 := discardPendingStreamUpdates (requestGeneration c + 1)
                 (emit E_stopStream (set_gen (requestGeneration c + 1) c))).
    destruct (abortRequest_refs c1) as (A1 & A2 & A3 & A4 & A5).
    apply (refs_ok_fresh c); simpl; auto.
Qed.

Lemma stop_ok eager now c : refs_ok c -> refs_ok (stopGeneration eager now c).
Proof.
  intros HI. unfold stopGeneration. apply refs_ok_onMessageUpdate.
  pose proof (flush_refs eager now c (ok_pending _ HI)) as [= E1 E2 E3 E4 E5].
  set (c0 := flushStreamUpdates eager now (requestGeneration c) c) in *.
  set (c1 := emit E_stopStream (discardPendingStreamUpdates (requestGeneration c + 1)
               (set_gen (requestGeneration c + 1) c0))).
  destruct (abortRequest_refs c1) as (A1 & A2 & A3 & A4 & A5).
  apply (refs_ok_fresh c); simpl; auto. rewrite A5. simpl. by rewrite E4, E5.
Qed.

Lemma update_ok gen ty chunk c : refs_ok c -> refs_ok (handleStreamUpdate gen ty chunk c).
Proof.
  intros HI. pose proof HI as [H1 H2 H3 H4 H5]. unfold handleStreamUpdate.
  destruct (Nat.eqb_spec gen (requestGeneration c)) as [->|]; [|done]. rewrite H1, Nat.eqb_refl. simpl.
  unfold scheduleStreamFlush. simpl. rewrite Nat.eqb_refl. simpl.
  destruct (flushTimer c) eqn:E; split; simpl; intros; destruct ty; simpl in *; simplify_eq; auto; congruence.
Qed.

Lemma handleStreamError_ok t eager now gen e code c :
  refs_ok c -> refs_ok (handleStreamError t eager now gen e code c).
Proof.
  intros HI. unfold handleStreamError. case_match; [done|]. apply refs_ok_onMessageUpdate.
  eapply refs_ok_ext; [|by apply (flush_ok eager now gen)]. done.
Qed.

Lemma chatFinally_ok gen c : refs_ok c -> refs_ok (chatFinally gen c).
Proof. intros [H1 H2 H3 H4 H5]. unfold chatFinally. case_match; split; simpl; auto; done. Qed.

Lemma chat_step_ok t c eager now st :
  refs_ok c -> st <> S_unmount -> refs_ok (chat_step t c (eager, now, st)).
Proof.
  intros HI Hst.
  destruct st as [cf en fr tx|cf en fr k|k|o|cf en fr nc sub|k|g ty ch|g|g e cd|g chs|g e cd| | | |]; cbn [chat_step]; try done.
  - apply sendChat_ok. by apply refs_ok_onMessageUpdate.
  - unfold handleRegenerateMessage. case_match; [|done]. apply sendChat_ok. by apply refs_ok_onMessageUpdate.
  - by apply (refs_ok_ext c).
  - unfold handleEditOpenChange. case_match; [by apply (refs_ok_ext c)|done].
  - unfold applyEdit. repeat case_match; try done; try apply sendChat_ok;
      apply refs_ok_onMessageUpdate; by apply (refs_ok_ext c).
  - by apply refs_ok_onMessageUpdate.
  - by apply update_ok.
  - unfold handleStreamComplete. case_match; [done|]. apply refs_ok_onMessageUpdate.
    eapply refs_ok_ext; [|by apply (flush_ok eager now g)]. done.
  - by apply handleStreamError_ok.
  - unfold chatResponse. apply chatFinally_ok. repeat case_match; auto using handleStreamError_ok, refs_ok_onMessageUpdate.
  - unfold chatFailure. apply chatFinally_ok. repeat case_match; auto using handleStreamError_ok.
  - unfold timerFires. destruct (flushTimer c) as [[g []]|] eqn:E; [|done..].
    apply (ok_timer _ HI) in E as E'. injection E' as ->.
    set (c1 := set_timer _ c).
    pose proof (flush_refs eager now c1 (ok_pending _ HI)) as [= E1 E2 E3 E4 E5].
    destruct HI as [H1 H2 H3 H4 H5].
    split; intros *; rewrite ?E1, ?E2, ?E3, ?E4, ?E5; try done; auto.
  - by apply stop_ok.
  - by apply (refs_ok_ext c).
Qed.

Lemma chat_run_ok t xs : forall c,
  refs_ok c -> Forall (fun x => x.2 <> S_unmount) xs -> refs_ok (chat_run t c xs).
Proof.
  induction xs as [|[[e n] st] xs IH]; intros c HI Hx; [done|]. apply Forall_cons in Hx as [Hst Hx].
  apply IH; [|done]. by apply chat_step_ok.
Qed.

Lemma refs_ok_initial : refs_ok initialChat.
Proof. split; try done; set_solver. Qed.

(** What the next render shows. *)
Definition shown (now : jsnum) (c : Chat) : list Message := messages (render now c).

Definition view (c : Chat) := (requestGeneration c, messages c, queue c).

Lemma shown_ext now c c' : view c' = view c -> shown now c' = shown now c.
Proof. unfold view, shown, render. intros [= E1 E2 E3]. simpl. by rewrite E1, E2, E3. Qed.

Lemma shown_update eager now u c :
  shown now (onMessageUpdate eager now u c) = applyUpdate (requestGeneration c) now u (shown now c).
Proof.
  unfold onMessageUpdate, shown, render. destruct eager; simpl.
  - case_bool_decide as Hq; [rewrite Hq; simpl|simpl; by rewrite foldl_app].
    case_bool_decide as Hn; simpl; [|done]. by rewrite Hq.
  - by rewrite foldl_app.
Qed.

Lemma view_gen_onMessageUpdate eager now u c :
  requestGeneration (onMessageUpdate eager now u c) = requestGeneration c.
Proof. unfold onMessageUpdate. by repeat case_match. Qed.

Lemma updateLast_id ms f : (forall m, f m = m) -> updateLastAssistantMessage ms f = ms.
Proof.
  intros Hf. unfold updateLastAssistantMessage. repeat case_match; try done.
  apply list_eq. intros i. destruct (decide (length ms - 1 = i)) as [<-|].
  - rewrite list_lookup_alter_eq. destruct (ms !! _); simpl; [by rewrite Hf|done].
  - by rewrite list_lookup_alter_ne.
Qed.

(** A flush of the current generation shows the pending text. *)
Lemma shown_flush eager now c :
  p_generation (pendingStreamChunks c) = requestGeneration c ->
  shown now (flushStreamUpdates eager now (requestGeneration c) c)
  = updateLastAssistantMessage (shown now c)
      (flushMessage (p_reasoning (pendingStreamChunks c)) (p_content (pendingStreamChunks c)) now).
Proof.
  intros H. unfold flushStreamUpdates. rewrite Nat.eqb_refl. cbn [negb].
  change (pendingStreamChunks (set_timer None c)) with (pendingStreamChunks c).
  rewrite H, Nat.eqb_refl. cbn [negb].
  destruct (truthy (p_reasoning _)) eqn:Er; [|destruct (truthy (p_content _)) eqn:Ec]; cbn [negb andb].
  1,2: rewrite shown_update; cbn [applyUpdate requestGeneration set_pending set_timer];
       rewrite Nat.eqb_refl; cbn [negb]; f_equal; by apply shown_ext.
  rewrite updateLast_id; [by apply shown_ext|]. intros m. unfold flushMessage. by rewrite Er, Ec.
Qed.

Lemma flush_gen eager now gen c : requestGeneration (flushStreamUpdates eager now gen c) = requestGeneration c.
Proof.
  unfold flushStreamUpdates. repeat case_match; try done. by rewrite view_gen_onMessageUpdate.
Qed.

(** ** Properties of the refs *)

(** C32: While the playground is mounted, in every reachable state the pending
    text belongs to the current request, pending text always has an armed timer
    that will flush it, a timer always belongs to the current request, and the
    request that can be aborted is the current one and is not yet aborted. *)
Theorem chat_refs_invariant t xs :
  Forall (fun x => x.2 <> S_unmount) xs ->
  let c := chat_run t initialChat xs in
  let p := pendingStreamChunks c in
  p_generation p = requestGeneration c
  /\ (p_content p <> [] \/ p_reasoning p <> [] -> flushTimer c = Some (requestGeneration c, true))
  /\ (forall x, flushTimer c = Some x -> x = (requestGeneration c, true))
  /\ (forall g, abortController c = Some g -> g = requestGeneration c /\ g ∉ aborted c).
Proof.
  intros Hx c p. destruct (chat_run_ok t xs _ refs_ok_initial Hx) as [H1 H2 H3 H4 H5]. fold c in H1, H2, H3, H4, H5.
  split_and!; auto. intros Hne. destruct (flushTimer c) as [x|] eqn:E; [by rewrite (H2 x)|].
  unfold p in Hne. rewrite (H3 eq_refl) in Hne. simpl in Hne. tauto.
Qed.

Definition sample_config : PlaygroundConfig :=
  mkConfig (js "gpt-4o") (js "default") (num 1) (num 1) (num 4096) (num 0) (num 0) None true.
Definition sample_enabled : ParameterEnabled := mkEnabled true true false true true false.
Definition sample_fresh : Fresh := mkFresh (js "k1") (js "i1") (js "k2") (js "i2").

Lemma chat_refs_invariant_witness :
  let c := chat_run (fun s => s) initialChat
    [(false, num 5, S_send sample_config sample_enabled sample_fresh (js "hi"));
     (false, num 6, S_render); (false, num 7, S_update 1 content_chunk (js "yo"))] in
  p_content (pendingStreamChunks c) = js "yo" /\ flushTimer c = Some (1, true).
Proof.
  split; [reflexivity|].
  refine (proj1 (proj2 (chat_refs_invariant (fun s => s) [_; _; _] _)) _).
  - repeat apply Forall_cons; split_and?; try done; by repeat constructor.
  - left. discriminate.
Defined.

Lemma neqb_stale gen c : gen <> requestGeneration c -> (gen =? requestGeneration c)%nat = false.
Proof. apply Nat.eqb_neq. Qed.

(** Steps that a request of generation [bound] or older can still cause. *)
Definition late (bound : nat) (st : ChatStep) : bool :=
  match st with
  | S_update g _ _ | S_complete g | S_error g _ _ | S_response g _ | S_failure g _ _ => (g <=? bound)%nat
  | S_timer | S_render => true
  | _ => false
  end.

Lemma stale_update gen ty ch c : gen <> requestGeneration c -> handleStreamUpdate gen ty ch c = c.
Proof. intros H%neqb_stale. unfold handleStreamUpdate. by rewrite H. Qed.

Lemma stale_complete e n gen c : gen <> requestGeneration c -> handleStreamComplete e n gen c = c.
Proof. intros H%neqb_stale. unfold handleStreamComplete. by rewrite H. Qed.

Lemma stale_error t e n gen er cd c : gen <> requestGeneration c -> handleStreamError t e n gen er cd c = c.
Proof. intros H%neqb_stale. unfold handleStreamError. by rewrite H. Qed.

Lemma stale_response t e n gen chs c : gen <> requestGeneration c -> chatResponse t e n gen chs c = c.
Proof.
  intros H. unfold chatResponse. rewrite (Nat.eqb_sym (requestGeneration c)), neqb_stale by done.
  cbn [negb]. rewrite orb_true_r. unfold chatFinally.
  by rewrite (Nat.eqb_sym (requestGeneration c)), neqb_stale by done.
Qed.

Lemma stale_failure t e n gen er cd c : gen <> requestGeneration c -> chatFailure t e n gen er cd c = c.
Proof.
  intros H. unfold chatFailure. rewrite (Nat.eqb_sym (requestGeneration c)), neqb_stale by done.
  cbn [negb]. rewrite orb_true_r. unfold chatFinally.
  by rewrite (Nat.eqb_sym (requestGeneration c)), neqb_stale by done.
Qed.

(** A state in which nothing is under way ignores what older requests cause. *)
Lemma late_inert t xs : forall c,
  flushTimer c = None -> queue c = [] -> Forall (fun x => late (requestGeneration c - 1) x.2 = true) xs ->
  0 < requestGeneration c -> chat_run t c xs = c.
Proof.
  induction xs as [|[[e n] st] xs IH]; intros c Ht Hq Hx Hg; [done|]. apply Forall_cons in Hx as [Hst Hx].
  assert (Hc : chat_step t c (e, n, st) = c).
  { destruct st; simpl in Hst; try done; try apply Nat.leb_le in Hst; cbn [chat_step].
    - apply stale_update. lia.
    - apply stale_complete. lia.
    - apply stale_error. lia.
    - apply stale_response. lia.
    - apply stale_failure. lia.
    - unfold timerFires. by rewrite Ht.
    - unfold render. rewrite Hq. destruct c; simpl in *; subst; done. }
  change (chat_run t (chat_step t c (e, n, st)) xs = c). rewrite Hc. by apply IH.
Qed.

(** ** Properties of stopping and of the end of a request *)

Lemma last_alter_pred {A} (f : A -> A) (l : list A) x :
  last l = Some x -> last (alter f (length l - 1) l) = Some (f x).
Proof.
  intros Hl. rewrite !last_lookup in *. rewrite length_alter.
  replace (Init.Nat.pred (length l)) with (length l - 1) in * by lia.
  rewrite list_lookup_alter_eq. by rewrite Hl.
Qed.

Lemma last_updateLast ms f m :
  last (updateLastAssistantMessage ms f) = Some m ->
  exists m0, last ms = Some m0 /\ m = if bool_decide (from m0 = ASSISTANT) then f m0 else m0.
Proof.
  unfold updateLastAssistantMessage. destruct (last ms) as [m0|] eqn:E.
  - case_bool_decide; simpl; intros HL; exists m0; (split; [done|]).
    + rewrite bool_decide_eq_true_2 by done. rewrite (last_alter_pred _ _ _ E) in HL. congruence.
    + rewrite bool_decide_eq_false_2 by done. congruence.
  - by rewrite E.
Qed.

Lemma completeAssistantMessage_status m now : status (completeAssistantMessage m now) = Some COMPLETE.
Proof. unfold completeAssistantMessage, completeAssistantTiming. by case_match. Qed.

(** The state after a stop and a render. *)
Lemma stop_shown eager now c :
  exists prev, shown now (stopGeneration eager now c)
               = applyUpdate (requestGeneration c + 1) now (U_stop (requestGeneration c + 1)) prev.
Proof.
  unfold stopGeneration. rewrite shown_update. eexists. f_equal.
  unfold abortRequest. by case_match.
Qed.

Lemma stop_fields eager now c :
  refs_ok c ->
  requestGeneration (stopGeneration eager now c) = requestGeneration c + 1
  /\ flushTimer (stopGeneration eager now c) = None
  /\ isRequesting (stopGeneration eager now c) = false.
Proof.
  intros HI. unfold stopGeneration.
  set (c1 := setIsRequesting false _).
  assert (Hc1 : requestGeneration c1 = requestGeneration c + 1 /\ flushTimer c1 = None /\ isRequesting c1 = false).
  { unfold c1, abortRequest. by case_match. }
  unfold onMessageUpdate. repeat case_match; exact Hc1.
Qed.

(** C7: Stopping is final: once a stop has been rendered the last assistant
    message is not pending, no request is under way, and nothing the requests
    issued before can still cause (chunks, completion, errors, responses, the
    flush timer), in any order and with any renders between, changes the state. *)
Theorem stop_final t xs eager now later :
  Forall (fun x => x.2 <> S_unmount) xs ->
  let c := chat_run t initialChat xs in
  Forall (fun x => late (requestGeneration c) x.2 = true) later ->
  let stopped := render now (stopGeneration eager now c) in
  chat_run t stopped later = stopped
  /\ isRequesting stopped = false
  /\ forall m, last (messages stopped) = Some m -> from m = ASSISTANT -> isAssistantMessagePending m = false.
Proof.
  intros Hx c Hl stopped. pose proof (chat_run_ok t xs _ refs_ok_initial Hx) as HI. fold c in HI.
  destruct (stop_fields eager now c HI) as (Hg & Ht & Hr). split_and!.
  - apply late_inert; try done; unfold stopped; cbn [requestGeneration render set_messages]; [|lia].
    rewrite Hg. eapply Forall_impl; [exact Hl|]. intros x. by replace (requestGeneration c + 1 - 1) with (requestGeneration c) by lia.
  - done.
  - intros m Hm Hfrom. change (messages stopped) with (shown now (stopGeneration eager now c)) in Hm.
    destruct (stop_shown eager now c) as [prev Hp]. rewrite Hp in Hm. cbn [applyUpdate] in Hm.
    rewrite Nat.eqb_refl in Hm. cbn [negb] in Hm. apply last_updateLast in Hm as (m0 & Hm0 & ->).
    case_bool_decide; [|done]. destruct (isAssistantMessagePending m0) eqn:E; [|done].
    unfold isAssistantMessagePending. by rewrite completeAssistantMessage_status.
Qed.

Lemma stop_final_witness :
  let c := chat_run (fun s => s) initialChat
    [(false, num 5, S_send sample_config sample_enabled sample_fresh (js "hi"));
     (false, num 6, S_render); (false, num 7, S_update 1 content_chunk (js "yo"))] in
  let stopped := render (num 8) (stopGeneration false (num 8) c) in
  chat_run (fun s => s) stopped [(false, num 9, S_update 1 content_chunk (js "late")); (false, num 9, S_complete 1)]
  = stopped.
Proof.
  refine (proj1 (stop_final (fun s => s) [_; _; _] false (num 8) [_; _] _ _)); by repeat constructor.
Defined.

(** The updates a flush queues when the queue is empty. *)
Lemma flush_lazy now c :
  p_generation (pendingStreamChunks c) = requestGeneration c -> queue c = [] ->
  let c' := flushStreamUpdates false now (requestGeneration c) c in
  messages c' = messages c
  /\ (queue c' = []
      \/ queue c' = [U_flush (requestGeneration c) (p_reasoning (pendingStreamChunks c))
                       (p_content (pendingStreamChunks c))]).
Proof.
  intros Hp Hq. unfold flushStreamUpdates. rewrite Nat.eqb_refl. simpl. rewrite Hp, Nat.eqb_refl. simpl.
  destruct (_ && _); simpl; [by rewrite Hq; auto|]. rewrite Hq. auto.
Qed.

Lemma flush_eager now c :
  p_generation (pendingStreamChunks c) = requestGeneration c -> queue c = [] ->
  let c' := flushStreamUpdates true now (requestGeneration c) c in
  let f := updateLastAssistantMessage (messages c)
             (flushMessage (p_reasoning (pendingStreamChunks c)) (p_content (pendingStreamChunks c)) now) in
  messages c' = messages c /\ (queue c' = [] /\ f = messages c \/ queue c' = [U_set f]).
Proof.
  intros Hp Hq. unfold flushStreamUpdates. rewrite Nat.eqb_refl. simpl. rewrite Hp, Nat.eqb_refl. simpl.
  destruct (truthy (p_reasoning _)) eqn:Er; [|destruct (truthy (p_content _)) eqn:Ec]; simpl.
  1,2: unfold onMessageUpdate; simpl; rewrite Hq, bool_decide_eq_true_2 by done; rewrite Nat.eqb_refl; simpl;
       case_bool_decide; simpl; rewrite ?Hq; auto.
  rewrite Hq. split; [done|]. left. split; [done|]. apply updateLast_id. intros m. unfold flushMessage.
  by rewrite Er, Ec.
Qed.

Lemma stop_shown_flush eager now c :
  shown now (stopGeneration eager now c)
  = updateLastAssistantMessage
      (let c' := flushStreamUpdates eager now (requestGeneration c) c in
       foldl (fun ms u => applyUpdate (requestGeneration c + 1) now u ms) (messages c') (queue c'))
      (fun m => if isAssistantMessagePending m then completeAssistantMessage m now else m).
Proof.
  unfold stopGeneration. rewrite shown_update. unfold abortRequest.
  case_match; cbn [applyUpdate requestGeneration setIsRequesting set_abort emit discardPendingStreamUpdates
    set_pending set_timer set_gen]; by rewrite Nat.eqb_refl.
Qed.

(** The text that is pending when the user stops reaches the message only if
    React runs the flush at once: the updater of the flush compares its
    generation with the ref when it runs, and at the next render the stop has
    already advanced the ref. *)
Theorem stop_and_pending_text t xs now :
  Forall (fun x => x.2 <> S_unmount) xs ->
  let c := chat_run t initialChat xs in
  let p := pendingStreamChunks c in
  let settle m := if isAssistantMessagePending m then completeAssistantMessage m now else m in
  queue c = [] ->
  shown now (stopGeneration false now c) = updateLastAssistantMessage (messages c) settle
  /\ shown now (stopGeneration true now c)
     = updateLastAssistantMessage
         (updateLastAssistantMessage (messages c) (flushMessage (p_reasoning p) (p_content p) now)) settle.
Proof.
  intros Hx c p settle Hq. pose proof (chat_run_ok t xs _ refs_ok_initial Hx) as HI. fold c in HI.
  rewrite !stop_shown_flush. cbv zeta. split; f_equal.
  - destruct (flush_lazy now c (ok_pending _ HI) Hq) as [E1 [E2 | E2]]; rewrite E1, E2; [done|]. simpl.
    by rewrite (proj2 (Nat.eqb_neq _ _)) by lia.
  - destruct (flush_eager now c (ok_pending _ HI) Hq) as [E1 [[E2 E3] | E2]]; rewrite E1, E2; [|done].
    symmetry. exact E3.
Qed.

Lemma stop_and_pending_text_witness :
  let c := chat_run (fun s => s) initialChat
    [(false, num 5, S_send sample_config sample_enabled sample_fresh (js "hi"));
     (false, num 6, S_render); (false, num 7, S_update 1 content_chunk (js "yo"))] in
  let settle m := if isAssistantMessagePending m then completeAssistantMessage m (num 8) else m in
  p_content (pendingStreamChunks c) = js "yo"
  /\ (getMessageContent <$> last (updateLastAssistantMessage (messages c) settle)) = Some []
  /\ shown (num 8) (stopGeneration false (num 8) c) = updateLastAssistantMessage (messages c) settle.
Proof.
  split; [reflexivity|]. split; [reflexivity|].
  refine (proj1 (stop_and_pending_text (fun s => s) [_; _; _] (num 8) _ _)); [by repeat constructor|reflexivity].
Defined.

Lemma onMessageUpdate_other eager now u c :
  effects (onMessageUpdate eager now u c) = effects c
  /\ isRequesting (onMessageUpdate eager now u c) = isRequesting c
  /\ pendingStreamChunks (onMessageUpdate eager now u c) = pendingStreamChunks c.
Proof. unfold onMessageUpdate. by repeat case_match. Qed.

Lemma flush_effects eager now gen c : effects (flushStreamUpdates eager now gen c) = effects c.
Proof.
  unfold flushStreamUpdates. repeat case_match; try done.
  apply (onMessageUpdate_other eager now _ (set_pending _ (set_timer None c))).
Qed.

(** The end of a request.  For the current request, whether React runs the
    updaters at once or at the next render, completion first shows the pending
    text and then settles the message, an error first shows the pending text and
    then replaces it by the translated error, both leave nothing pending and no
    request under way; for any other request both change nothing. *)
Theorem end_of_request t xs eager now e code gen :
  Forall (fun x => x.2 <> S_unmount) xs ->
  let c := chat_run t initialChat xs in
  let p := pendingStreamChunks c in
  let flushed := updateLastAssistantMessage (shown now c)
                   (flushMessage (p_reasoning p) (p_content p) now) in
  let completed := handleStreamComplete eager now gen c in
  let failed := handleStreamError t eager now gen e code c in
  if (gen =? requestGeneration c)%nat then
    shown now completed
    = updateLastAssistantMessage flushed
        (fun m => if isAssistantMessageFinal m then m else completeAssistantMessage m now)
    /\ shown now failed
       = updateAssistantMessageWithError flushed (getDisplayError t e) code (t API_REQUEST_ERROR) now
    /\ effects failed = effects c ++ [E_toast (getDisplayError t e)]
    /\ isRequesting completed = false /\ isRequesting failed = false
    /\ pendingStreamChunks completed = mkPending gen [] []
    /\ pendingStreamChunks failed = mkPending gen [] []
  else completed = c /\ failed = c.
Proof.
  intros Hx c p flushed completed failed. pose proof (chat_run_ok t xs _ refs_ok_initial Hx) as HI. fold c in HI.
  destruct (Nat.eqb_spec gen (requestGeneration c)) as [->|Hne];
    [|split; [by apply stale_complete|by apply stale_error]].
  pose proof (flush_refs eager now c (ok_pending _ HI)) as [= E1 E2 E3 E4 E5].
  pose proof (shown_flush eager now c (ok_pending _ HI)) as Hf. fold flushed in Hf.
  unfold completed, failed, handleStreamComplete, handleStreamError. rewrite Nat.eqb_refl. cbn [negb].
  rewrite !shown_update. cbn [requestGeneration emit setIsRequesting]. rewrite E1.
  cbn [applyUpdate]. rewrite Nat.eqb_refl. cbn [negb].
  split_and!; [by f_equal; exact Hf|by f_equal; exact Hf| | | | |].
  - rewrite (proj1 (onMessageUpdate_other _ _ _ _)). cbn. by rewrite flush_effects.
  - by rewrite (proj1 (proj2 (onMessageUpdate_other _ _ _ _))).
  - by rewrite (proj1 (proj2 (onMessageUpdate_other _ _ _ _))).
  - by rewrite (proj2 (proj2 (onMessageUpdate_other _ _ _ _))).
  - by rewrite (proj2 (proj2 (onMessageUpdate_other _ _ _ _))).
Qed.

Definition sample_steps : list (bool * jsnum * ChatStep) :=
  [(false, num 5, S_send sample_config sample_enabled sample_fresh (js "hi"));
   (false, num 6, S_render); (false, num 7, S_update 1 content_chunk (js "yo"))].

Lemma end_of_request_witness :
  isRequesting (chat_run (fun s => s) initialChat sample_steps) = true
  /\ isRequesting (handleStreamComplete true (num 8) 1 (chat_run (fun s => s) initialChat sample_steps)) = false.
Proof.
  split; [vm_compute; reflexivity|].
  assert (E : requestGeneration (chat_run (fun s => s) initialChat sample_steps) = 1) by (vm_compute; reflexivity).
  pose proof (end_of_request (fun s => s) sample_steps true (num 8) [] None 1 ltac:(by repeat constructor)) as H.
  cbv zeta in H. rewrite E in H. change (1 =? 1)%nat with true in H. apply H.
Defined.

(** ** Batches of chunks *)

Lemma mergePending_merge_text x c : mergePendingStreamChunk x c = merge_text x c.
Proof.
  rewrite merge_text_eq. unfold mergePendingStreamChunk.
  by destruct (truthy x), (starts_with x c).
Qed.

(** The chunks of a batch arrive, the timer fires and React renders. *)
Definition batch_steps (gen : nat) (now : jsnum) (b : list jsstr) : list (bool * jsnum * ChatStep) :=
  ((fun chunk => (false, now, S_update gen content_chunk chunk)) <$> b)
  ++ [(false, now, S_timer); (false, now, S_render)].

(** The last message is an assistant message that is not an error and its text
    is [x]; nothing is pending or queued. *)
Definition streaming_text (x : jsstr) (c : Chat) : Prop :=
  refs_ok c /\ queue c = [] /\ pendingStreamChunks c = mkPending (requestGeneration c) [] []
  /\ exists m, last (messages c) = Some m /\ from m = ASSISTANT /\ status m <> Some ERROR
               /\ getMessageContent m = x.

Lemma chat_run_app t c xs ys : chat_run t c (xs ++ ys) = chat_run t (chat_run t c xs) ys.
Proof. apply foldl_app. Qed.

Lemma handleStreamUpdate_current c chunk :
  refs_ok c ->
  let c' := handleStreamUpdate (requestGeneration c) content_chunk chunk c in
  view c' = view c
  /\ p_content (pendingStreamChunks c') = merge_text (p_content (pendingStreamChunks c)) chunk
  /\ p_reasoning (pendingStreamChunks c') = p_reasoning (pendingStreamChunks c).
Proof.
  intros [H1 _ _ _ _]. unfold handleStreamUpdate. rewrite Nat.eqb_refl. simpl. rewrite H1, Nat.eqb_refl. simpl.
  unfold scheduleStreamFlush. simpl. rewrite Nat.eqb_refl. simpl. rewrite <- mergePending_merge_text.
  by case_match.
Qed.

Lemma updates_run t now b : forall c,
  refs_ok c ->
  let c' := chat_run t c ((fun chunk => (false, now, S_update (requestGeneration c) content_chunk chunk)) <$> b) in
  refs_ok c' /\ view c' = view c
  /\ p_content (pendingStreamChunks c') = foldl merge_text (p_content (pendingStreamChunks c)) b
  /\ p_reasoning (pendingStreamChunks c') = p_reasoning (pendingStreamChunks c).
Proof.
  induction b as [|chunk b IH]; intros c HI; [done|].
  destruct (handleStreamUpdate_current c chunk HI) as (Hv & Hc & Hr).
  pose proof (update_ok (requestGeneration c) content_chunk chunk c HI) as HI'.
  set (c1 := handleStreamUpdate _ _ _ _) in *.
  assert (Hg : requestGeneration c1 = requestGeneration c) by (unfold view in Hv; congruence).
  destruct (IH c1 HI') as (K1 & K2 & K3 & K4). rewrite Hg in *.
  split_and!; [exact K1|by rewrite <- Hv| |].
  - etransitivity; [exact K3|]. by rewrite Hc.
  - etransitivity; [exact K4|]. done.
Qed.

Lemma flushMessage_nothing m now : flushMessage [] [] now m = m.
Proof. done. Qed.

Lemma timer_shown now c :
  refs_ok c ->
  let c' := timerFires false now c in
  requestGeneration c' = requestGeneration c
  /\ pendingStreamChunks c' = mkPending (requestGeneration c) [] []
  /\ shown now c' = updateLastAssistantMessage (shown now c)
       (flushMessage (p_reasoning (pendingStreamChunks c)) (p_content (pendingStreamChunks c)) now).
Proof.
  intros HI. unfold timerFires. destruct (flushTimer c) as [[g b]|] eqn:E.
  - apply (ok_timer _ HI) in E. injection E as -> ->.
    set (c1 := set_timer (Some (requestGeneration c, false)) c).
    pose proof (flush_refs false now c1 (ok_pending _ HI)) as [= E1 E2 E3 E4 E5].
    split_and!; [exact E1|exact E2|]. exact (shown_flush false now c1 (ok_pending _ HI)).
  - pose proof (ok_flush _ HI E) as Hp. split_and!; [done|done|]. rewrite Hp.
    symmetry. apply updateLast_id. intros m. apply flushMessage_nothing.
Qed.

Lemma applyStreamingChunk_from m ty c now : from (applyStreamingChunk m ty c now) = from m.
Proof.
  unfold applyStreamingChunk. case_match; [done|]. case_match; [done|].
  unfold processStreamingContent, completeReasoningTiming. by repeat case_match.
Qed.

Lemma flushMessage_text m co now :
  from m = ASSISTANT -> status m <> Some ERROR ->
  let m' := flushMessage [] co now m in
  from m' = ASSISTANT /\ status m' <> Some ERROR
  /\ getMessageContent m' = merge_text (getMessageContent m) co.
Proof.
  intros Hf Hs. unfold flushMessage. simpl. destruct (truthy co) eqn:E.
  - destruct (applyStreamingChunk_content m co now Hs) as [Hc Hst]. rewrite applyStreamingChunk_from, Hc, Hst. done.
  - apply truthy_false in E as ->. split_and!; try done. rewrite merge_text_eq.
    destruct (getMessageContent m); [done|]. simpl. by rewrite app_nil_r.
Qed.

Lemma batch_text t now b x c :
  streaming_text x c ->
  let c' := chat_run t c (batch_steps (requestGeneration c) now b) in
  requestGeneration c' = requestGeneration c
  /\ streaming_text (merge_text x (foldl merge_text [] b)) c'.
Proof.
  intros (HI & Hq & Hp & m & Hm & Hf & Hs & Hx). unfold batch_steps. cbv zeta. rewrite chat_run_app.
  destruct (updates_run t now b c HI) as (HI1 & Hv1 & Hc1 & Hr1). rewrite Hp in Hc1, Hr1. simpl in Hc1, Hr1.
  set (c1 := chat_run t c _) in *. clearbody c1.
  destruct (timer_shown now c1 HI1) as (Hg2 & Hp2 & Hs2).
  pose proof (chat_step_ok t c1 false now S_timer HI1 ltac:(done)) as HI2. cbn [chat_step] in HI2.
  change (chat_run t c1 _) with (render now (timerFires false now c1)).
  set (c2 := timerFires false now c1) in *. clearbody c2.
  unfold view in Hv1. injection Hv1 as V1 V2 V3.
  assert (Hsh : shown now c1 = messages c) by (unfold shown, render; simpl; by rewrite V2, V3, Hq).
  split; [simpl; congruence|]. split_and!.
  - by apply (refs_ok_ext c2).
  - done.
  - simpl. by rewrite Hp2, Hg2.
  - destruct (flushMessage_text m (foldl merge_text [] b) now Hf Hs) as (K1 & K2 & K3).
    eexists. split; [|split_and!; [exact K1|exact K2|by rewrite K3, Hx]].
    change (last (shown now c2) = Some (flushMessage [] (foldl merge_text [] b) now m)).
    rewrite Hs2, Hsh, Hc1, Hr1. unfold updateLastAssistantMessage. rewrite Hm, bool_decide_eq_true_2 by done.
    by apply last_alter_pred.
Qed.

Lemma batches_text t now bs : forall x c,
  streaming_text x c ->
  streaming_text (foldl merge_text x (foldl merge_text [] <$> bs))
    (chat_run t c (concat (batch_steps (requestGeneration c) now <$> bs))).
Proof.
  induction bs as [|b bs IH]; intros x c H; [done|]. simpl. rewrite chat_run_app.
  destruct (batch_text t now b x c H) as [Hg H']. apply (IH _ _) in H'. by rewrite Hg in H'.
Qed.

(** The last chunk of a stream of snapshots cut into batches. *)
Lemma merge_prefix x c : x = [] \/ starts_with x c = true -> merge_text x c = c.
Proof.
  rewrite merge_text_eq. intros [-> | ->]; [done|]. rewrite andb_true_r.
  destruct (truthy x) eqn:E; [done|]. apply truthy_false in E. by subst.
Qed.

Lemma snapshots_app x b bs :
  snapshots x (b ++ bs) -> snapshots x b /\ snapshots (default x (last b)) bs.
Proof.
  revert x. induction b as [|c b IH]; intros x H; [done|]. destruct H as [Hx H].
  destruct (IH c H) as [H1 H2]. rewrite last_cons. split; [done|]. by destruct (last b).
Qed.

Lemma snapshots_prefix x b : snapshots x b -> x = [] \/ starts_with x (default x (last b)) = true.
Proof.
  revert x. induction b as [|c b IH]; intros x H; [right; apply starts_with_refl|].
  destruct H as [[->|Hx] H]; [by left|]. rewrite last_cons. destruct (IH c H) as [->|Hc].
  - destruct x; [by left|done].
  - right. assert (Hd : default x (Some (default c (last b))) = default c (last b)) by done.
    destruct (last b); simpl in *; [|done]. by eapply starts_with_trans.
Qed.

Lemma snapshots_nil x b : snapshots x b -> snapshots [] b.
Proof. destruct b; simpl; naive_solver. Qed.

Lemma batched_snapshots bs : forall x,
  snapshots x (concat bs) ->
  foldl merge_text x (foldl merge_text [] <$> bs) = default x (last (concat bs)).
Proof.
  induction bs as [|b bs IH]; intros x H; [done|]. simpl in H. apply snapshots_app in H as [Hb Hbs].
  assert (Hm : merge_text x (foldl merge_text [] b) = default x (last b)).
  { rewrite (foldl_snapshots b [] (snapshots_nil _ _ Hb)). destruct (last b) as [l|] eqn:E; simpl.
    - apply merge_prefix. apply snapshots_prefix in Hb. by rewrite E in Hb.
    - rewrite merge_text_eq. destruct x; [done|]. simpl. by rewrite app_nil_r. }
  rewrite fmap_cons. cbn [foldl concat]. rewrite Hm, (IH _ Hbs), last_app. by destruct (last (concat bs)).
Qed.

Lemma batched_increments bs x :
  Forall (increments []) bs -> increments x (@concat N <$> bs) ->
  foldl merge_text x (foldl merge_text [] <$> bs) = x ++ concat (concat bs).
Proof.
  intros Hb Hi. assert (foldl merge_text [] <$> bs = @concat N <$> bs) as ->.
  { apply list_fmap_ext. intros i b Hlk. apply foldl_increments. by eapply Forall_lookup_1 in Hb. }
  rewrite (foldl_increments _ _ Hi). f_equal. clear. induction bs as [|b bs IH]; [done|]. rewrite fmap_cons. cbn [concat]. by rewrite concat_app, IH.
Qed.

(** The text a stream leaves in the message, however the flush timer cuts it
    into batches: a stream of snapshots leaves the last snapshot; a stream of
    increments leaves their concatenation when no increment repeats what is
    pending and no batch repeats the text so far. *)
Theorem batched_stream_text t now bs x c :
  streaming_text x c ->
  let c' := chat_run t c (concat (batch_steps (requestGeneration c) now <$> bs)) in
  (snapshots x (concat bs) -> streaming_text (default x (last (concat bs))) c')
  /\ (Forall (increments []) bs -> increments x (@concat N <$> bs) ->
      streaming_text (x ++ concat (concat bs)) c').
Proof.
  intros H. pose proof (batches_text t now bs x c H) as Hb. split.
  - intros Hs. by rewrite <- (batched_snapshots bs x Hs).
  - intros H1 H2. by rewrite <- (batched_increments bs x H1 H2).
Qed.

(** A conversation whose answer has begun. *)
Definition sample_answer : Chat :=
  chat_run (fun s => s) initialChat
    [(false, num 5, S_send sample_config sample_enabled sample_fresh (js "hi")); (false, num 6, S_render)].

Lemma sample_answer_ok : streaming_text [] sample_answer.
Proof.
  split; [|split; [reflexivity|split; [reflexivity|]]].
  - apply (chat_run_ok (fun s => s)); [apply refs_ok_initial|by repeat constructor].
  - eexists. split; [vm_compute; reflexivity|]. by split_and!.
Qed.

Lemma batched_stream_text_witness :
  streaming_text (js "Hello")
    (chat_run (fun s => s) sample_answer
       (concat (batch_steps (requestGeneration sample_answer) (num 9) <$> [[js "He"; js "l"]; [js "lo"]]))).
Proof.
  refine (proj2 (batched_stream_text (fun s => s) (num 9) [[js "He"; js "l"]; [js "lo"]] [] sample_answer
    sample_answer_ok) _ _).
  - repeat (apply Forall_cons; split); try apply Forall_nil; try done; simpl; auto 6.
  - simpl. auto 6.
Defined.

(** The text depends on when the timer fires: when the text so far is
    [a ++ b], the increments [a] and [b] double it if each is flushed on its own,
    and are lost if one flush takes both. *)
Theorem batching_changes_text t now a b c :
  streaming_text (a ++ b) c -> a <> [] -> b <> [] -> starts_with a b = false ->
  streaming_text ((a ++ b) ++ (a ++ b))
    (chat_run t c (concat (batch_steps (requestGeneration c) now <$> [[a]; [b]])))
  /\ streaming_text (a ++ b) (chat_run t c (concat (batch_steps (requestGeneration c) now <$> [[a; b]]))).
Proof.
  intros H Ha Hb Hs.
  assert (Hna : forall x y, length y < length x -> starts_with x y = false).
  { intros x y Hl. destruct (starts_with x y) eqn:E; [|done]. apply starts_with_length in E. lia. }
  assert (0 < length a) by (destruct a; simpl; [done|lia]).
  assert (0 < length b) by (destruct b; simpl; [done|lia]).
  split.
  - pose proof (batches_text t now [[a]; [b]] _ _ H) as K. cbn [fmap list_fmap foldl] in K.
    rewrite !(merge_prefix []) in K by auto. rewrite !merge_text_eq in K.
    rewrite (Hna (a ++ b) a), andb_false_r in K by (rewrite length_app; lia).
    rewrite (Hna ((a ++ b) ++ a) b), andb_false_r in K by (rewrite !length_app; lia).
    by rewrite <- app_assoc in K.
  - pose proof (batches_text t now [[a; b]] _ _ H) as K. cbn [fmap list_fmap foldl] in K.
    rewrite (merge_prefix [] a) in K by auto.
    rewrite (merge_text_eq a b), Hs, andb_false_r in K.
    rewrite merge_prefix in K by (right; apply starts_with_refl). done.
Qed.

Lemma batching_changes_text_witness :
  let c := chat_run (fun s => s) sample_answer (batch_steps (requestGeneration sample_answer) (num 9) [js "ab"]) in
  streaming_text (js "abab")
    (chat_run (fun s => s) c (concat (batch_steps (requestGeneration c) (num 9) <$> [[js "a"]; [js "b"]])))
  /\ streaming_text (js "ab")
    (chat_run (fun s => s) c (concat (batch_steps (requestGeneration c) (num 9) <$> [[js "a"; js "b"]]))).
Proof.
  intros c. refine (batching_changes_text (fun s => s) (num 9) (js "a") (js "b") c _ _ _ _); try done.
  exact (proj2 (batch_text (fun s => s) (num 9) [js "ab"] [] sample_answer sample_answer_ok)).
Defined.
