(* ===== verification/RatioSync.v ===== *)
(** * Synchronisation of upstream prices

    web/src/features/system-settings/models/upstream-ratio-sync-helpers.ts and the
    state of upstream-ratio-sync.tsx: the differences fetched from upstream sources,
    the values the administrator selects per model (the resolutions), and the
    settings written when the selection is applied.

    The objects indexed by model, by source and by option are maps; the object of
    differences of one model is an association list, since the order of its fields
    is shown.  A field name is a text: the server may send names outside the
    declared ones. *)

From Stdlib Require Import SpecFloat.
From S2P Require Import Prelude JsValue Json JsText.

Local Open Scope N_scope.

(** ** Fields *)

Definition RATIO_SYNC_FIELDS : list jsstr :=
  [ js "model_ratio"; js "completion_ratio"; js "cache_ratio"; js "create_cache_ratio";
    js "image_ratio"; js "audio_ratio"; js "audio_completion_ratio" ].

Definition SYNC_FIELD_ORDER : list jsstr :=
  RATIO_SYNC_FIELDS ++ [js "model_price"; js "billing_mode"; js "billing_expr"].

Definition NUMERIC_SYNC_FIELDS : list jsstr := RATIO_SYNC_FIELDS ++ [js "model_price"].

(** [upstreams] maps a source to a number, a text, the text same or [null]. *)
Record RatioDifferenceEntry := mkEntry { current : jsval; upstreams : gmap jsstr jsval }.

Abbreviation RatioTypes := (list (jsstr * RatioDifferenceEntry)).
Abbreviation Differences := (gmap jsstr RatioTypes).
Abbreviation Resolution := (gmap jsstr jsval).
Abbreviation ResolutionsMap := (gmap jsstr Resolution).
(** A set of fields to remove, per model. *)
Abbreviation ResolutionRemovalPlan := (gmap jsstr (gset jsstr)).

(** The settings: per option, a value per model. *)
Abbreviation Settings := (gmap jsstr (gmap jsstr jsval)).

Record ResolutionSelection := mkSelection {
  sel_model : jsstr; sel_ratioType : jsstr; sel_value : jsval; sel_sourceName : jsstr }.

Fixpoint find_field (f : jsstr) (ratioTypes : RatioTypes) : option RatioDifferenceEntry :=
  match ratioTypes with
  | [] => None
  | (k, e) :: rest => if f =s? k then Some e else find_field f rest
  end.

(** [ratioTypes[f]?.upstreams?.[sourceName]] *)
Definition upstream_value (ratioTypes : RatioTypes) (f sourceName : jsstr) : jsval :=
  match find_field f ratioTypes with
  | Some e => default JUndefined (upstreams e !! sourceName)
  | None => JUndefined
  end.

Definition isSelectableUpstreamValue (value : jsval) : bool :=
  negb (nullish value) && negb (is_literal "same" value).

(** ** What is shown *)

Definition keep_filter (filter_ : jsstr) (ordered : list jsstr) : list jsstr :=
  if negb (truthy filter_) || (filter_ =s? js "__all__") then ordered
  else filter (fun f => f = filter_) ordered.

Definition getOrderedRatioTypes (ratioTypes : RatioTypes) (filter_ : jsstr) : list jsstr :=
  let keys := ratioTypes.*1 in
  keep_filter filter_
    (filter (fun f => f ∈ keys) SYNC_FIELD_ORDER ++ filter (fun f => f ∉ SYNC_FIELD_ORDER) keys).

Definition getPreferredSyncField (ratioTypes : RatioTypes) (ratioType sourceName : jsstr) : jsstr :=
  let exprValue := upstream_value ratioTypes (js "billing_expr") sourceName in
  if negb (ratioType =s? js "billing_expr") && isSelectableUpstreamValue exprValue
  then js "billing_expr" else ratioType.

Definition getVisibleRatioTypesForSource (ratioTypes : RatioTypes) (sourceName filter_ : jsstr) : list jsstr :=
  filter (fun f => getPreferredSyncField ratioTypes f sourceName = f) (getOrderedRatioTypes ratioTypes filter_).

Definition getAlignedRatioTypes (ratioTypes : RatioTypes) (sourceNames : list jsstr) (filter_ : jsstr) :
  list jsstr :=
  let ordered := getOrderedRatioTypes ratioTypes filter_ in
  match sourceNames with
  | [] => ordered
  | _ => let visible := sourceNames ≫= (fun s => getVisibleRatioTypesForSource ratioTypes s filter_) in
         filter (fun f => f ∈ visible) ordered
  end.

Inductive BillingCategory := price | ratio | tiered.

#[export] Instance BillingCategory_eq_dec : EqDecision BillingCategory.
Proof. solve_decision. Defined.

Definition getBillingCategory (ratioType : jsstr) : BillingCategory :=
  if ratioType =s? js "model_price" then price
  else if (ratioType =s? js "billing_mode") || (ratioType =s? js "billing_expr") then tiered
  else ratio.

Section Sync.
(** [Number.prototype.toString] *)
Variable show : jsnum -> jsstr.

Definition isSelectedResolutionValue (resolutions : ResolutionsMap) (model ratioType : jsstr)
  (upstreamValue : jsval) : bool :=
  if negb (isSelectableUpstreamValue upstreamValue) then false
  else match resolutions !! model ≫= (fun r => r !! ratioType) with
       | None => false
       | Some selectedValue =>
           if bool_decide (ratioType ∈ NUMERIC_SYNC_FIELDS)
           then let a := js_number show selectedValue in
                let b := js_number show upstreamValue in
                is_finite a && is_finite b && num_eqb a b
           else match selectedValue, upstreamValue with
                | JString a, JString b => a =s? b
                | JNumber a, JNumber b => num_eqb a b
                | _, _ => false
                end
       end.

(** ** Selecting *)

Definition resolveResolutionSelection (differences : Differences) (selection : ResolutionSelection) :
  ResolutionSelection :=
  let modelDiffs := default [] (differences !! sel_model selection) in
  let preferredType :=
    getPreferredSyncField modelDiffs (sel_ratioType selection) (sel_sourceName selection) in
  let preferredValue :=
    if preferredType =s? sel_ratioType selection then sel_value selection
    else let v := upstream_value modelDiffs preferredType (sel_sourceName selection) in
         if nullish v then sel_value selection else v in
  mkSelection (sel_model selection) preferredType preferredValue (sel_sourceName selection).

(** Two categories that exclude each other: neither is tiered and they differ. *)
Definition conflicting (a b : BillingCategory) : bool :=
  negb (bool_decide (a = tiered)) && negb (bool_decide (b = tiered)) && negb (bool_decide (b = a)).

(** The map of effective selections, keyed by model and field around a zero unit, in
    order of insertion; setting an existing key keeps its place. *)
Definition selection_key (a : ResolutionSelection) : jsstr := sel_model a ++ [0] ++ sel_ratioType a.
Definition same_key (a b : ResolutionSelection) : bool := selection_key a =s? selection_key b.

Fixpoint set_selection (s : ResolutionSelection) (l : list ResolutionSelection) : list ResolutionSelection :=
  match l with
  | [] => [s]
  | x :: l' => if same_key s x then s :: l' else x :: set_selection s l'
  end.

Definition effective_step (differences : Differences) (effective : list ResolutionSelection)
  (selection : ResolutionSelection) : list ResolutionSelection :=
  let resolved := resolveResolutionSelection differences selection in
  let category := getBillingCategory (sel_ratioType resolved) in
  set_selection resolved
    (filter (fun e => negb ((sel_model e =s? sel_model resolved)
                            && conflicting category (getBillingCategory (sel_ratioType e))) = true) effective).

Definition getEffectiveResolutionSelections (differences : Differences)
  (selections : list ResolutionSelection) : list ResolutionSelection :=
  foldl (effective_step differences) [] selections.

Definition getDraftModelResolution (drafts : ResolutionsMap) (resolutions : ResolutionsMap) (model : jsstr) :
  Resolution :=
  match drafts !! model with
  | Some draft => draft
  | None => default ∅ (resolutions !! model)
  end.

(** The fields paired with a selection of the tiered category. *)
Definition pair_tiered (modelDiffs : RatioTypes) (resolved : ResolutionSelection) (draft : Resolution) :
  Resolution :=
  let modeValue := upstream_value modelDiffs (js "billing_mode") (sel_sourceName resolved) in
  let expressionValue := upstream_value modelDiffs (js "billing_expr") (sel_sourceName resolved) in
  let draft1 :=
    if isSelectableUpstreamValue modeValue then <[js "billing_mode" := modeValue]> draft
    else if sel_ratioType resolved =s? js "billing_expr"
         then <[js "billing_mode" := JString (js "tiered_expr")]> draft
         else draft in
  if isSelectableUpstreamValue expressionValue then <[js "billing_expr" := expressionValue]> draft1
  else draft1.

(** The draft of the model after a selection. *)
Definition select_in (differences : Differences) (selection : ResolutionSelection) (draft : Resolution) :
  Resolution :=
  let resolved := resolveResolutionSelection differences selection in
  let category := getBillingCategory (sel_ratioType resolved) in
  let kept := filter (fun kv => conflicting category (getBillingCategory kv.1) = false) draft in
  let draft1 := <[sel_ratioType resolved := sel_value resolved]> kept in
  match differences !! sel_model selection with
  | Some modelDiffs => if bool_decide (category = tiered) then pair_tiered modelDiffs resolved draft1 else draft1
  | None => draft1
  end.

Definition applyResolutionSelectionToDraft (resolutions : ResolutionsMap) (differences : Differences)
  (drafts : ResolutionsMap) (selection : ResolutionSelection) : ResolutionsMap :=
  <[sel_model selection :=
      select_in differences selection (getDraftModelResolution drafts resolutions (sel_model selection))]> drafts.

(** Drafts replace the resolutions of their models; an empty one removes it. *)
Definition install (drafts resolutions : ResolutionsMap) : ResolutionsMap :=
  merge (fun d r => match d with
                    | Some draft => if bool_decide (draft = ∅) then None else Some draft
                    | None => r
                    end) drafts resolutions.

Definition applyResolutionSelections (resolutions : ResolutionsMap) (differences : Differences)
  (selections : list ResolutionSelection) : ResolutionsMap :=
  match selections with
  | [] => resolutions
  | _ => install (foldl (applyResolutionSelectionToDraft resolutions differences) ∅ selections) resolutions
  end.

Definition applyResolutionSelection (resolutions : ResolutionsMap) (differences : Differences)
  (selection : ResolutionSelection) : ResolutionsMap :=
  applyResolutionSelections resolutions differences [selection].

(** ** Removing *)

(** A field takes its pair with it. *)
Definition removed_fields (ratioTypes : gset jsstr) : gset jsstr :=
  ratioTypes ∪ (if bool_decide (js "billing_expr" ∈ ratioTypes) then {[js "billing_mode"]} else ∅)
  ∪ (if bool_decide (js "billing_mode" ∈ ratioTypes) then {[js "billing_expr"]} else ∅).

Definition remove_from (ratioTypes : gset jsstr) (draft : Resolution) : Resolution :=
  filter (fun kv => kv.1 ∉ removed_fields ratioTypes) draft.

Definition applyResolutionRemovalPlan (resolutions : ResolutionsMap) (plan : ResolutionRemovalPlan) :
  ResolutionsMap :=
  merge (fun p r => match p, r with
                    | Some ratioTypes, Some current =>
                        let draft := remove_from ratioTypes current in
                        if bool_decide (draft = ∅) then None else Some draft
                    | _, _ => r
                    end) plan resolutions.

Definition applyResolutionRemovals (resolutions : ResolutionsMap) (removals : list (jsstr * jsstr)) :
  ResolutionsMap :=
  applyResolutionRemovalPlan resolutions
    (foldl (fun plan r => <[r.1 := default ∅ (plan !! r.1) ∪ {[r.2]}]> plan) ∅ removals).

Definition deleteResolutionField (resolutions : ResolutionsMap) (model ratioType : jsstr) : ResolutionsMap :=
  applyResolutionRemovals resolutions [(model, ratioType)].

(** ** Applying *)

(** [word.charAt(0).toUpperCase() + word.slice(1)] on the ASCII names of fields. *)
Definition capitalize (word : jsstr) : jsstr :=
  match word with
  | c :: rest => (if (97 <=? c) && (c <=? 122) then c - 32 else c) :: rest
  | [] => []
  end.

Definition optionKeyBySyncField (ratioType : jsstr) : jsstr :=
  if ratioType =s? js "billing_mode" then js "billing_setting.billing_mode"
  else if ratioType =s? js "billing_expr" then js "billing_setting.billing_expr"
  else concat (capitalize <$> split 95 ratioType).

Definition ratio_options : list jsstr :=
  [ js "ModelRatio"; js "CompletionRatio"; js "CacheRatio"; js "CreateCacheRatio"; js "ImageRatio";
    js "AudioRatio"; js "AudioCompletionRatio" ].
Definition all_options : list jsstr :=
  ratio_options ++ [js "ModelPrice"; js "billing_setting.billing_mode"; js "billing_setting.billing_expr"].

Definition drop_model (model : jsstr) (options : list jsstr) (s : Settings) : Settings :=
  foldl (fun s k => alter (delete model) k s) s options.

Definition synced_value (ratioType : jsstr) (value : jsval) : jsval :=
  if bool_decide (ratioType ∈ NUMERIC_SYNC_FIELDS) then JNumber (js_number show value) else value.

(** [finalRatios[optionKey][model] = ...]: [None] is the exception of an option that
    does not exist. *)
Definition write_field (model : jsstr) (s : option Settings) (tv : jsstr * jsval) : option Settings :=
  s ← s;
  let key := optionKeyBySyncField tv.1 in
  table ← s !! key;
  Some (<[key := <[model := synced_value tv.1 tv.2]> table]> s).

Definition sync_model (s : option Settings) (mr : jsstr * Resolution) : option Settings :=
  s ← s;
  let hasPrice := bool_decide (is_Some (mr.2 !! js "model_price")) in
  let hasRatio := existsb (fun f => bool_decide (is_Some (mr.2 !! f))) RATIO_SYNC_FIELDS in
  let s1 := if hasPrice then drop_model mr.1 ratio_options s else s in
  let s2 := if hasRatio then drop_model mr.1 [js "ModelPrice"] s1 else s1 in
  foldl (write_field mr.1) (Some s2) (map_to_list mr.2).

(** The settings sent to the server, as values: each option is sent as the JSON text of its
    table, one request after the other. *)
Definition performSync (current : Settings) (resolutions : ResolutionsMap) : option Settings :=
  foldl sync_model (Some current) (map_to_list resolutions).

(** ** The page *)

Record SyncState := mkSync { differences : Differences; resolutions : ResolutionsMap; settings : Settings }.

(** The differences left after the resolved fields were written: a model without
    differences is dropped. *)
Definition prune_model (ratios : Resolution) (types : RatioTypes) : RatioTypes :=
  filter (fun fe => ratios !! fe.1 = None) types.

Definition prune_differences (res : ResolutionsMap) (diffs : Differences) : Differences :=
  merge (fun r d => match r, d with
                    | Some ratios, Some types =>
                        let left := prune_model ratios types in
                        if bool_decide (left = [] /\ types <> []) then None else Some left
                    | _, _ => d
                    end) res diffs.

(** A selection the page offers: a declared field of a model that has differences. *)
Definition offered (diffs : Differences) (s : ResolutionSelection) : Prop :=
  is_Some (diffs !! sel_model s) /\ sel_ratioType s ∈ SYNC_FIELD_ORDER.

(** The page reads settings that hold every option. *)
Definition options_present (s : Settings) : Prop := Forall (fun k => is_Some (s !! k)) all_options.

Inductive step : SyncState -> SyncState -> Prop :=
| step_fetched st diffs : step st (mkSync diffs ∅ (settings st))
| step_select st s :
    offered (differences st) s ->
    step st (mkSync (differences st) (applyResolutionSelection (resolutions st) (differences st) s) (settings st))
| step_select_values st ss :
    Forall (offered (differences st)) ss ->
    step st (mkSync (differences st) (applyResolutionSelections (resolutions st) (differences st) ss) (settings st))
| step_unselect st model f :
    step st (mkSync (differences st) (deleteResolutionField (resolutions st) model f) (settings st))
| step_unselect_values st plan :
    step st (mkSync (differences st) (applyResolutionRemovalPlan (resolutions st) plan) (settings st))
| step_reloaded st s :
    (* the options are read again: after a synchronisation that stopped half way, or when
       someone else changed them *)
    options_present s -> step st (mkSync (differences st) (resolutions st) s)
| step_synced st next :
    performSync (settings st) (resolutions st) = Some next ->
    step st (mkSync (prune_differences (resolutions st) (differences st)) ∅ next).

Inductive reachable : SyncState -> Prop :=
| reach_open s : options_present s -> reachable (mkSync ∅ ∅ s)
| reach_step a b : reachable a -> step a b -> reachable b.

(** ** Well-formed resolutions *)

(** Declared fields, no two of categories that exclude each other, and an expression
    only together with a billing mode. *)
Definition well_formed (d : Resolution) : Prop :=
  (forall f, is_Some (d !! f) -> f ∈ SYNC_FIELD_ORDER)
  /\ (forall f g, is_Some (d !! f) -> is_Some (d !! g) ->
       conflicting (getBillingCategory f) (getBillingCategory g) = false)
  /\ (is_Some (d !! js "billing_expr") -> is_Some (d !! js "billing_mode")).

Definition resolutions_ok (r : ResolutionsMap) : Prop :=
  forall m d, r !! m = Some d -> d <> ∅ /\ well_formed d.

Lemma well_formed_empty : well_formed ∅.
Proof. split; [|split]; intros f; rewrite ?lookup_empty; [by intros []|intros g; by intros []|by destruct f]. Qed.

Lemma conflicting_sym a b : conflicting a b = conflicting b a.
Proof. by destruct a, b. Qed.
Lemma conflicting_tiered a : conflicting a tiered = false /\ conflicting tiered a = false.
Proof. by destruct a. Qed.
Lemma conflicting_self a : conflicting a a = false.
Proof. by destruct a. Qed.

Lemma tiered_category f :
  getBillingCategory f = tiered <-> f = js "billing_mode" \/ f = js "billing_expr".
Proof.
  unfold getBillingCategory. destruct (f =s? js "model_price") eqn:E.
  - apply str_eqb_eq in E as ->. split; [done|]. by intros [H|H].
  - destruct (f =s? js "billing_mode") eqn:E1, (f =s? js "billing_expr") eqn:E2; cbn;
      rewrite ?str_eqb_eq, ?str_eqb_neq in *; split; intros; tauto || done.
Qed.

(** Adding a field of a category that conflicts with none of the fields. *)
Lemma well_formed_insert f v d :
  f ∈ SYNC_FIELD_ORDER -> f <> js "billing_expr" -> well_formed d ->
  (forall g, is_Some (d !! g) -> conflicting (getBillingCategory f) (getBillingCategory g) = false) ->
  well_formed (<[f := v]> d).
Proof.
  intros Hf Hne (Hk & Hc & Hp) Hfree. split; [|split].
  - intros g Hg. destruct (decide (f = g)) as [<-|Hfg]; [done|]. rewrite lookup_insert_ne in Hg by done. by apply Hk.
  - intros g h Hg Hh. destruct (decide (f = g)) as [<-|Hfg]; destruct (decide (f = h)) as [<-|Hfh];
      rewrite ?lookup_insert_ne in * by done; [apply conflicting_self|by apply Hfree| |by apply Hc].
    rewrite conflicting_sym. by apply Hfree.
  - intros He. rewrite lookup_insert_ne in He by done. destruct (decide (f = js "billing_mode")) as [->|Hfm].
    + by rewrite lookup_insert_eq.
    + rewrite lookup_insert_ne by done. by apply Hp.
Qed.

Lemma mode_well_formed v d : well_formed d -> well_formed (<[js "billing_mode" := v]> d).
Proof.
  intros H. apply well_formed_insert; [by_decision|done|done|].
  intros g _. apply (conflicting_tiered (getBillingCategory g)).
Qed.

Lemma expr_well_formed v d :
  well_formed d -> is_Some (d !! js "billing_mode") -> well_formed (<[js "billing_expr" := v]> d).
Proof.
  intros (Hk & Hc & Hp) Hm. split; [|split].
  - intros g Hg. destruct (decide (js "billing_expr" = g)) as [<-|Hfg].
    + refine (bool_decide_unpack _ _). vm_compute. exact I.
    + rewrite lookup_insert_ne in Hg by done. by apply Hk.
  - intros g h Hg Hh.
    destruct (decide (js "billing_expr" = g)) as [<-|Hfg]; [apply (conflicting_tiered (getBillingCategory h))|].
    destruct (decide (js "billing_expr" = h)) as [<-|Hfh]; [apply (conflicting_tiered (getBillingCategory g))|].
    rewrite lookup_insert_ne in * by done. by apply Hc.
  - intros _. by rewrite lookup_insert_ne.
Qed.

Lemma well_formed_filter (P : jsstr * jsval -> Prop) `{!forall x, Decision (P x)} d :
  well_formed d ->
  (forall v w, d !! js "billing_mode" = Some v -> d !! js "billing_expr" = Some w ->
     P (js "billing_expr", w) -> P (js "billing_mode", v)) ->
  well_formed (filter P d).
Proof.
  intros (Hk & Hc & Hp) HP.
  assert (Hsub : forall f, is_Some (filter P d !! f) -> is_Some (d !! f)).
  { intros f [v [Hv _]%map_lookup_filter_Some]. eauto. }
  split; [|split].
  - intros f Hf. by apply Hk, Hsub.
  - intros f g Hf Hg. by apply Hc; apply Hsub.
  - intros [w [Hw HPw]%map_lookup_filter_Some]. destruct Hp as [v Hv]; [eauto|].
    exists v. apply map_lookup_filter_Some. eauto.
Qed.

(** *** Selections *)

Lemma preferred_offered diffs s :
  offered diffs s -> sel_ratioType (resolveResolutionSelection diffs s) ∈ SYNC_FIELD_ORDER.
Proof.
  intros [_ Hf]. cbn [resolveResolutionSelection sel_ratioType]. unfold getPreferredSyncField.
  destruct (_ && _); [|done]. refine (bool_decide_unpack _ _). vm_compute. exact I.
Qed.

Lemma maybe_expr (b : bool) v d :
  well_formed d -> is_Some (d !! js "billing_mode") ->
  well_formed (if b then <[js "billing_expr" := v]> d else d).
Proof. destruct b; [apply expr_well_formed|done]. Qed.

Lemma pair_tiered_ok modelDiffs r v kept :
  well_formed kept -> getBillingCategory (sel_ratioType r) = tiered ->
  well_formed (pair_tiered modelDiffs r (<[sel_ratioType r := v]> kept)).
Proof.
  intros Hk [Ht|Ht]%tiered_category; unfold pair_tiered; rewrite Ht.
  - change (js "billing_mode" =s? js "billing_expr") with false. cbn iota.
    apply maybe_expr; destruct (isSelectableUpstreamValue _); try (by repeat apply mode_well_formed);
      rewrite lookup_insert_eq; eauto.
  - change (js "billing_expr" =s? js "billing_expr") with true. cbn iota.
    match goal with |- well_formed (if _ then <[_ := ?w]> ?d else _) => assert (Hd : exists m,
      d = <[js "billing_expr" := v]> (<[js "billing_mode" := m]> kept)) end.
    { destruct (isSelectableUpstreamValue _); eexists; by apply insert_insert_ne. }
    destruct Hd as [m ->]. apply maybe_expr.
    + apply expr_well_formed; [by apply mode_well_formed|]. rewrite lookup_insert_eq. eauto.
    + rewrite lookup_insert_ne by done. rewrite lookup_insert_eq. eauto.
Qed.

Lemma select_in_ok diffs s d :
  offered diffs s -> well_formed d -> well_formed (select_in diffs s d) /\ select_in diffs s d <> ∅.
Proof.
  intros Ho Hd. unfold select_in. set (r := resolveResolutionSelection diffs s).
  set (kept := filter _ d).
  assert (Hk : well_formed kept).
  { apply well_formed_filter; [done|]. intros v w _ _ _. cbn [fst].
    apply (conflicting_tiered (getBillingCategory (sel_ratioType r))). }
  pose proof Ho as [[md Hmd] Hf]. rewrite Hmd.
  destruct (bool_decide_reflect (getBillingCategory (sel_ratioType r) = tiered)) as [Ht|Ht].
  - split; [by apply pair_tiered_ok|]. unfold pair_tiered.
    repeat case_match; apply insert_non_empty.
  - split; [|apply insert_non_empty]. apply well_formed_insert; [by apply preferred_offered| |done|].
    + intros He. apply Ht. apply tiered_category. by right.
    + intros g [v [_ Hv]%map_lookup_filter_Some]. exact Hv.
Qed.

Lemma install_lookup drafts r m :
  install drafts r !! m
  = match drafts !! m with
    | Some d => if bool_decide (d = ∅) then None else Some d
    | None => r !! m
    end.
Proof. unfold install. rewrite lookup_merge. by destruct (drafts !! m), (r !! m). Qed.

(** Drafts hold well-formed non-empty resolutions. *)
Lemma drafts_ok r diffs ss : forall drafts,
  resolutions_ok r -> resolutions_ok drafts -> Forall (offered diffs) ss ->
  resolutions_ok (foldl (applyResolutionSelectionToDraft r diffs) drafts ss).
Proof.
  induction ss as [|s ss IH]; intros drafts Hr Hd Hs; [done|]. apply Forall_cons in Hs as [Ho Hs].
  cbn [foldl]. apply IH; [done| |done]. intros m d Hm. unfold applyResolutionSelectionToDraft in Hm.
  destruct (decide (sel_model s = m)) as [<-|Hne]; [|rewrite lookup_insert_ne in Hm by done; by apply (Hd m)].
  rewrite lookup_insert_eq in Hm. injection Hm as <-.
  assert (Hw : well_formed (getDraftModelResolution drafts r (sel_model s))).
  { unfold getDraftModelResolution. destruct (drafts !! sel_model s) eqn:E; [by apply (Hd _ _ E)|].
    destruct (r !! sel_model s) eqn:E'; [by apply (Hr _ _ E')|apply well_formed_empty]. }
  destruct (select_in_ok diffs s _ Ho Hw). done.
Qed.

Lemma selections_ok r diffs ss :
  resolutions_ok r -> Forall (offered diffs) ss -> resolutions_ok (applyResolutionSelections r diffs ss).
Proof.
  intros Hr Hs. destruct ss as [|s ss]; [done|]. intros m d Hm. unfold applyResolutionSelections in Hm.
  rewrite install_lookup in Hm. destruct (foldl _ ∅ (s :: ss) !! m) as [d'|] eqn:E; [|by apply (Hr m)].
  assert (Hd : resolutions_ok (foldl (applyResolutionSelectionToDraft r diffs) ∅ (s :: ss))).
  { apply drafts_ok; [done| |done]. intros m' d'' H. by rewrite lookup_empty in H. }
  case_bool_decide; [done|]. injection Hm as <-. exact (Hd m d' E).
Qed.

Lemma removal_ok r plan : resolutions_ok r -> resolutions_ok (applyResolutionRemovalPlan r plan).
Proof.
  intros Hr m d Hm. unfold applyResolutionRemovalPlan in Hm. rewrite lookup_merge in Hm.
  destruct (plan !! m) as [rt|], (r !! m) as [c|] eqn:E; cbn in Hm; try done; [|by simplify_eq; apply (Hr m)].
  case_bool_decide as Hne; [done|]. injection Hm as <-. split; [done|].
  apply well_formed_filter; [by apply (Hr m)|]. intros v w _ _. cbn [fst]. unfold removed_fields.
  repeat case_bool_decide; set_solver.
Qed.

(** *** Writing the settings *)

(** The value an option holds for a model. *)
Definition priced (s : Settings) (k m : jsstr) : option jsval := s !! k ≫= (fun table => table !! m).

Lemma option_key_known t :
  t ∈ SYNC_FIELD_ORDER ->
  optionKeyBySyncField t ∈ all_options
  /\ forall u, u ∈ SYNC_FIELD_ORDER -> optionKeyBySyncField t = optionKeyBySyncField u -> t = u.
Proof.
  assert (H : Forall (fun t => optionKeyBySyncField t ∈ all_options
    /\ Forall (fun u => optionKeyBySyncField t = optionKeyBySyncField u -> t = u) SYNC_FIELD_ORDER) SYNC_FIELD_ORDER).
  { refine (bool_decide_unpack _ _). vm_compute. exact I. }
  rewrite Forall_forall in H. intros Ht. destruct (H t Ht) as [Hk Hu]. split; [done|].
  rewrite Forall_forall in Hu. exact Hu.
Qed.

Lemma drop_model_priced m opts : forall s k m',
  priced (drop_model m opts s) k m' = if decide (m' = m /\ k ∈ opts) then None else priced s k m'.
Proof.
  induction opts as [|o opts IH]; intros s k m'; cbn [drop_model foldl].
  - rewrite decide_False by set_solver. done.
  - change (foldl _ (alter (delete m) o s) opts) with (drop_model m opts (alter (delete m) o s)). rewrite IH.
    unfold priced. destruct (decide (m' = m /\ k ∈ opts)) as [[-> Hk]|Hn].
    + rewrite decide_True by set_solver. done.
    + destruct (decide (k = o)) as [->|Hko].
      * rewrite lookup_alter_eq. destruct (s !! o) as [t|] eqn:E; cbn; [|by case_decide].
        destruct (decide (m' = m)) as [->|Hm].
        -- rewrite decide_True by set_solver. apply lookup_delete_eq.
        -- rewrite decide_False by tauto. by apply lookup_delete_ne.
      * rewrite lookup_alter_ne by done. destruct (decide (m' = m /\ k ∈ o :: opts)); [set_solver|done].
Qed.

Lemma drop_model_present m opts : forall s, options_present s -> options_present (drop_model m opts s).
Proof.
  induction opts as [|o opts IH]; intros s Hs; [done|]. apply IH. eapply Forall_impl; [exact Hs|].
  intros k Hk. by rewrite lookup_alter_is_Some.
Qed.

Lemma write_fields m l : forall s,
  options_present s -> NoDup l.*1 -> Forall (fun t => t ∈ SYNC_FIELD_ORDER) l.*1 ->
  exists s', foldl (write_field m) (Some s) l = Some s' /\ options_present s'
  /\ (forall t v, (t, v) ∈ l -> priced s' (optionKeyBySyncField t) m = Some (synced_value t v))
  /\ (forall k m', m' <> m \/ k ∉ optionKeyBySyncField <$> l.*1 -> priced s' k m' = priced s k m').
Proof.
  induction l as [|[t v] l IH]; intros s Hs Hnd Hk.
  - exists s. split; [done|]. split; [done|]. split; [by intros t v ?%not_elem_of_nil|done].
  - rewrite fmap_cons in *. cbn [fst] in *. apply NoDup_cons in Hnd as [Hnt Hnd]. apply Forall_cons in Hk as [Ht Hk].
    destruct (option_key_known t Ht) as [Ho Hinj]. cbn [foldl].
    pose proof Hs as Hall. unfold options_present in Hall. rewrite Forall_forall in Hall.
    destruct (Hall _ Ho) as [table Htab].
    set (s1 := <[optionKeyBySyncField t := <[m := synced_value t v]> table]> s).
    assert (Hw : write_field m (Some s) (t, v) = Some s1) by (unfold write_field; cbn; by rewrite Htab).
    rewrite Hw.
    destruct (IH s1) as (s' & E & Hp & Hi & Hframe); [|done|done|].
    { apply Forall_forall. intros k Hk'. unfold s1. apply lookup_insert_is_Some'. right. by apply Hall. }
    assert (H1 : forall k m', m' <> m \/ k <> optionKeyBySyncField t -> priced s1 k m' = priced s k m').
    { intros k m' Hor. unfold priced, s1. destruct (decide (k = optionKeyBySyncField t)) as [->|Hne].
      - rewrite lookup_insert_eq, Htab. cbn. apply lookup_insert_ne. destruct Hor; [congruence|done].
      - by rewrite lookup_insert_ne. }
    exists s'. split; [exact E|]. split; [done|]. split.
    + intros u w Hin. apply elem_of_cons in Hin as [Heq|Hin]; [|by apply Hi]. injection Heq as -> ->.
      rewrite Hframe.
      * unfold priced, s1. rewrite lookup_insert_eq. cbn. apply lookup_insert_eq.
      * right. intros (u & Hu & Hin)%list_elem_of_fmap. apply Hnt. rewrite Forall_forall in Hk.
        by rewrite (Hinj u (Hk u Hin) Hu).
    + intros k m' Hor. rewrite fmap_cons, elem_of_cons in Hor. rewrite Hframe by tauto. apply H1. tauto.
Qed.

Lemma ratio_option_category t :
  t ∈ SYNC_FIELD_ORDER -> optionKeyBySyncField t ∈ ratio_options -> getBillingCategory t = ratio.
Proof.
  assert (H : Forall (fun t => optionKeyBySyncField t ∈ ratio_options -> getBillingCategory t = ratio) SYNC_FIELD_ORDER)
    by (by_decision).
  rewrite Forall_forall in H. apply H.
Qed.

Lemma ratio_field_category f : f ∈ RATIO_SYNC_FIELDS -> getBillingCategory f = ratio.
Proof.
  assert (H : Forall (fun f => getBillingCategory f = ratio) RATIO_SYNC_FIELDS)
    by (by_decision).
  rewrite Forall_forall in H. apply H.
Qed.

(** The options a selection clears of the model: the ratios for a price, the price for a ratio. *)
Definition cleared (d : Resolution) (k : jsstr) : Prop :=
  is_Some (d !! js "model_price") /\ k ∈ ratio_options
  \/ (exists f, f ∈ RATIO_SYNC_FIELDS /\ is_Some (d !! f)) /\ k = js "ModelPrice".

(** What the settings [s'] hold for a model with the selection [d], from settings [s]. *)
Definition synced (s s' : Settings) (m : jsstr) (d : Resolution) : Prop :=
  (forall f v, d !! f = Some v -> priced s' (optionKeyBySyncField f) m = Some (synced_value f v))
  /\ (forall k, cleared d k -> priced s' k m = None)
  /\ (forall k, ~ cleared d k -> (forall f, is_Some (d !! f) -> optionKeyBySyncField f <> k) ->
       priced s' k m = priced s k m).

Lemma sync_model_spec s m d :
  options_present s -> well_formed d ->
  exists s', sync_model (Some s) (m, d) = Some s' /\ options_present s'
  /\ (forall k m', m' <> m -> priced s' k m' = priced s k m') /\ synced s s' m d.
Proof.
  intros Hs Hd. pose proof Hd as (Hkeys & Hexcl & _). unfold sync_model. cbn [mbind option_bind fst snd].
  set (s1 := if bool_decide (is_Some (d !! js "model_price")) then drop_model m ratio_options s else s).
  set (s2 := if existsb _ RATIO_SYNC_FIELDS then drop_model m [js "ModelPrice"] s1 else s1).
  assert (H1 : options_present s1) by (unfold s1; case_bool_decide; [by apply drop_model_present|done]).
  assert (H2 : options_present s2) by (unfold s2; case_match; [by apply drop_model_present|done]).
  assert (Hin : forall t, t ∈ (map_to_list d).*1 -> is_Some (d !! t)).
  { intros t ([t' v] & -> & Hin%elem_of_map_to_list)%list_elem_of_fmap. eauto. }
  destruct (write_fields m (map_to_list d) s2) as (s' & E & Hp & Hi & Hf);
    [done|apply NoDup_fst_map_to_list|apply Forall_forall; intros t Ht; by apply Hkeys, Hin|].
  assert (Hdrop : forall k, priced s1 k m = None -> priced s2 k m = None).
  { intros k Hk. unfold s2. case_match; [|done]. rewrite drop_model_priced. by case_decide. }
  assert (Hratio : existsb (fun g => bool_decide (is_Some (d !! g))) RATIO_SYNC_FIELDS = true
    <-> exists f, f ∈ RATIO_SYNC_FIELDS /\ is_Some (d !! f)).
  { rewrite existsb_exists. split; intros (f & H & H'); exists f; rewrite list_elem_of_In, bool_decide_eq_true in *; done. }
  exists s'. split; [exact E|]. split; [done|]. split; [|split; [|split]].
  - intros k m' Hne. rewrite Hf by (by left). unfold s2, s1.
    repeat case_match; rewrite ?drop_model_priced, ?decide_False by tauto; done.
  - intros t v Htv. apply Hi. by apply elem_of_map_to_list.
  - intros k [[Hprice Hk]|[Hsel ->]]; rewrite Hf.
    + apply Hdrop. unfold s1. rewrite bool_decide_true by done. rewrite drop_model_priced. by rewrite decide_True.
    + right. intros (t & -> & Ht)%list_elem_of_fmap. specialize (Hin t Ht).
      specialize (Hexcl _ _ Hprice Hin). rewrite (ratio_option_category t (Hkeys t Hin) Hk) in Hexcl. discriminate Hexcl.
    + unfold s2. rewrite (proj2 Hratio Hsel), drop_model_priced. by rewrite decide_True by set_solver.
    + right. intros (t & Et & Ht)%list_elem_of_fmap. specialize (Hin t Ht). destruct Hsel as (f & Hf1 & Hf2).
      specialize (Hexcl _ _ Hf2 Hin). rewrite (ratio_field_category f Hf1) in Hexcl.
      assert (t = js "model_price") as ->; [|discriminate Hexcl].
      symmetry. apply (option_key_known (js "model_price")); [by_decision|by apply Hkeys|by rewrite <- Et].
  - intros k Hc Hk. rewrite Hf by (right; intros (t & -> & Ht)%list_elem_of_fmap; by apply (Hk t (Hin t Ht))).
    trans (priced s1 k m); unfold s2, s1.
    + destruct (existsb _ _) eqn:Er; [|done]. rewrite drop_model_priced, decide_False; [done|].
      intros [_ ->%list_elem_of_singleton]. apply Hc. right. split; [by apply Hratio|done].
    + case_bool_decide; [|done]. rewrite drop_model_priced, decide_False; [done|]. intros [_ ?]. apply Hc. by left.
Qed.

Lemma sync_all_spec l : forall s,
  options_present s -> NoDup l.*1 -> Forall well_formed l.*2 ->
  exists s', foldl sync_model (Some s) l = Some s' /\ options_present s'
  /\ (forall m d, (m, d) ∈ l -> synced s s' m d)
  /\ (forall k m, m ∉ l.*1 -> priced s' k m = priced s k m).
Proof.
  induction l as [|[m d] l IH]; intros s Hs Hnd Hw.
  - exists s. split; [done|]. split; [done|]. split; [by intros m d ?%not_elem_of_nil|done].
  - rewrite !fmap_cons in *. cbn [fst snd] in *. apply NoDup_cons in Hnd as [Hm Hnd]. apply Forall_cons in Hw as [Hd Hw].
    destruct (sync_model_spec s m d Hs Hd) as (s1 & E1 & Hp1 & Hf1 & Hv1 & Ha1 & Hb1).
    destruct (IH s1 Hp1 Hnd Hw) as (s' & E & Hp & Hall & Hf). exists s'. cbn [foldl]. rewrite E1.
    split; [exact E|]. split; [done|]. split.
    + intros m' d' Hin. apply elem_of_cons in Hin as [Heq|Hin].
      * injection Heq as -> ->. split; [|split]; intros; rewrite Hf by done; [by apply Hv1|by apply Ha1|by apply Hb1].
      * destruct (Hall m' d' Hin) as (Hv & Ha & Hb). split; [done|]. split; [done|]. intros k Hc Hk.
        rewrite Hb by done. apply Hf1. intros ->. apply Hm. by apply (list_elem_of_fmap_2 fst l (m, d')).
    + intros k m' Hn. rewrite elem_of_cons in Hn. rewrite Hf by tauto. apply Hf1. tauto.
Qed.

Lemma performSync_spec s r :
  options_present s -> resolutions_ok r ->
  exists s', performSync s r = Some s' /\ options_present s'
  /\ (forall m d, r !! m = Some d -> synced s s' m d)
  /\ (forall k m, r !! m = None -> priced s' k m = priced s k m).
Proof.
  intros Hs Hr. destruct (sync_all_spec (map_to_list r) s) as (s' & E & Hp & Hall & Hf);
    [done|apply NoDup_fst_map_to_list| |].
  { apply Forall_forall. intros d ([m d'] & -> & Hin%elem_of_map_to_list)%list_elem_of_fmap. by apply (Hr m). }
  exists s'. split; [exact E|]. split; [done|]. split.
  - intros m d Hm. apply Hall. by apply elem_of_map_to_list.
  - intros k m Hm. apply Hf. intros ([m' d] & -> & Hin%elem_of_map_to_list)%list_elem_of_fmap. cbn in *. congruence.
Qed.

Lemma reachable_ok st : reachable st -> resolutions_ok (resolutions st) /\ options_present (settings st).
Proof.
  assert (H0 : resolutions_ok ∅) by (intros m d H; by rewrite lookup_empty in H).
  induction 1 as [s Hs|a b _ [IH1 IH2] Hstep]; [done|].
  destruct Hstep as [st diffs|st s Ho|st ss Ho|st m f|st plan|st s Ho|st next E]; cbn [resolutions settings]; split; try done.
  - apply selections_ok; [done|]. apply Forall_cons. by split.
  - by apply selections_ok.
  - by apply removal_ok.
  - by apply removal_ok.
  - destruct (performSync_spec _ _ IH2 IH1) as (s' & E' & Hp & _). congruence.
Qed.

(** *** Properties *)

(** C9: in every reachable state of the synchronisation page, whatever was selected,
    selected in bulk, unselected and synchronised before, the values selected for a
    model are never empty, name declared fields only, never mix a fixed price with a
    ratio, and hold a billing expression only together with a billing mode. *)
Theorem resolutions_invariant st m d :
  reachable st -> resolutions st !! m = Some d ->
  d <> ∅ /\ (forall f, is_Some (d !! f) -> f ∈ SYNC_FIELD_ORDER)
  /\ ~ (is_Some (d !! js "model_price") /\ exists f, f ∈ RATIO_SYNC_FIELDS /\ is_Some (d !! f))
  /\ (is_Some (d !! js "billing_expr") -> is_Some (d !! js "billing_mode")).
Proof.
  intros [Hr _]%reachable_ok Hm. destruct (Hr m d Hm) as (Hne & Hk & Hc & Hp).
  split; [done|]. split; [done|]. split; [|done]. intros (Hprice & f & Hf & Hs).
  specialize (Hc _ _ Hprice Hs). rewrite (ratio_field_category f Hf) in Hc. discriminate Hc.
Qed.

(** C8: applying the selection of a reachable state raises no exception and changes
    exactly what was selected.  For a model with a selection: the option of every
    selected field holds the selected value, converted to a number where the field
    is numeric; the ratio options hold nothing for it when a price is selected, and
    ModelPrice holds nothing for it when a ratio is selected; every other option
    keeps what it held for the model (a selection of a billing mode or expression
    alone leaves its price and ratios in place).  Every option keeps what it held for
    the models without a selection. *)
Theorem sync_applies_selection st :
  reachable st ->
  exists next, performSync (settings st) (resolutions st) = Some next
  /\ (forall m d, resolutions st !! m = Some d ->
       (forall f v, d !! f = Some v -> priced next (optionKeyBySyncField f) m = Some (synced_value f v))
       /\ (forall k, cleared d k -> priced next k m = None)
       /\ (forall k, ~ cleared d k -> (forall f, is_Some (d !! f) -> optionKeyBySyncField f <> k) ->
            priced next k m = priced (settings st) k m))
  /\ (forall k m, resolutions st !! m = None -> priced next k m = priced (settings st) k m).
Proof.
  intros [Hr Hs]%reachable_ok. destruct (performSync_spec _ _ Hs Hr) as (next & E & _ & H). eauto.
Qed.

Lemma select_in_nonempty diffs s d : select_in diffs s d <> ∅.
Proof.
  unfold select_in, pair_tiered.
  repeat match goal with |- context [match ?x with _ => _ end] => destruct x end; apply insert_non_empty.
Qed.

Lemma select_installed r diffs drafts s :
  (forall m d, drafts !! m = Some d -> d <> ∅) ->
  applyResolutionSelection (install drafts r) diffs s
  = install (applyResolutionSelectionToDraft r diffs drafts s) r.
Proof.
  intros Hne. unfold applyResolutionSelection, applyResolutionSelections. cbn [foldl].
  unfold applyResolutionSelectionToDraft at 1 2.
  assert (Hd : getDraftModelResolution ∅ (install drafts r) (sel_model s)
               = getDraftModelResolution drafts r (sel_model s)).
  { unfold getDraftModelResolution. rewrite lookup_empty, install_lookup.
    destruct (drafts !! sel_model s) as [d|] eqn:E; [|done]. by rewrite bool_decide_false by (by apply (Hne _ _ E)). }
  rewrite Hd. apply map_eq. intros m. rewrite !install_lookup.
  destruct (decide (sel_model s = m)) as [<-|Hm]; [by rewrite !lookup_insert_eq|].
  rewrite !lookup_insert_ne by done. by rewrite lookup_empty, ?install_lookup.
Qed.

(** Selecting several values at once is selecting them one after another, in any
    state and for any list of selections: the drafts of a bulk selection see each
    other's changes and nothing else. *)
Theorem bulk_selection_sequential r diffs ss :
  applyResolutionSelections r diffs ss
  = foldl (fun r s => applyResolutionSelection r diffs s) r ss.
Proof.
  assert (H : forall drafts, (forall m d, drafts !! m = Some d -> d <> ∅) ->
    foldl (fun r s => applyResolutionSelection r diffs s) (install drafts r) ss
    = install (foldl (applyResolutionSelectionToDraft r diffs) drafts ss) r).
  { induction ss as [|s ss IH]; intros drafts Hd; [done|]. cbn [foldl]. rewrite select_installed by done.
    apply IH. intros m d Hm. unfold applyResolutionSelectionToDraft in Hm.
    destruct (decide (sel_model s = m)) as [<-|Hne].
    - rewrite lookup_insert_eq in Hm. injection Hm as <-. apply select_in_nonempty.
    - rewrite lookup_insert_ne in Hm by done. by apply (Hd m). }
  assert (E : install ∅ r = r) by (apply map_eq; intros m; by rewrite install_lookup, lookup_empty).
  rewrite <- E at 2. rewrite H by (intros m d Hm; by rewrite lookup_empty in Hm). by destruct ss.
Qed.

End Sync.

(** ** A concrete run *)

Definition sample_settings : Settings := foldl (fun s k => <[k := ∅]> s) ∅ all_options.
Definition sample_differences : Differences :=
  {[ js "gpt" := [(js "model_ratio", mkEntry JNull {[js "up" := JNumber (num 2)]});
                  (js "model_price", mkEntry JNull {[js "up" := JNumber (num 3)]})] ]}.
Definition sample_selection : ResolutionSelection :=
  mkSelection (js "gpt") (js "model_ratio") (JNumber (num 2)) (js "up").
Definition sample_state : SyncState :=
  mkSync sample_differences
    (applyResolutionSelection ∅ sample_differences sample_selection) sample_settings.

Lemma sample_reachable show : reachable show sample_state.
Proof.
  eapply reach_step; [eapply reach_step; [apply (reach_open show sample_settings)|]|].
  - refine (bool_decide_unpack _ _). vm_compute. exact I.
  - apply (step_fetched show _ sample_differences).
  - apply step_select. split; by_decision.
Qed.

Lemma resolutions_invariant_witness :
  let d := select_in sample_differences sample_selection ∅ in
  resolutions sample_state !! js "gpt" = Some d
  /\ ~ (is_Some (d !! js "model_price") /\ exists f, f ∈ RATIO_SYNC_FIELDS /\ is_Some (d !! f)).
Proof.
  cbv zeta.
  assert (E : resolutions sample_state !! js "gpt" = Some (select_in sample_differences sample_selection ∅))
    by (vm_compute; reflexivity).
  split; [exact E|]. exact (proj1 (proj2 (proj2
    (resolutions_invariant (fun _ => []) sample_state _ _ (sample_reachable (fun _ => [])) E)))).
Defined.

Lemma sync_applies_selection_witness :
  exists next, performSync (fun _ => []) (settings sample_state) (resolutions sample_state) = Some next
  /\ priced next (js "ModelRatio") (js "gpt") = Some (JNumber (num 2))
  /\ priced next (js "ModelPrice") (js "gpt") = None
  /\ priced next (js "CacheRatio") (js "gpt") = priced (settings sample_state) (js "CacheRatio") (js "gpt").
Proof.
  destruct (sync_applies_selection (fun _ => []) sample_state (sample_reachable (fun _ => []))) as (next & E & H & _).
  assert (D : resolutions sample_state !! js "gpt" = Some {[js "model_ratio" := JNumber (num 2)]}) by (vm_compute; reflexivity).
  destruct (H _ _ D) as (Hv & Hc & Hf). exists next. split; [exact E|]. split; [|split].
  - exact (Hv (js "model_ratio") (JNumber (num 2)) ltac:(vm_compute; reflexivity)).
  - apply Hc. right. split; [|reflexivity]. exists (js "model_ratio"). split; [by_decision|by_decision].
  - apply Hf.
    + intros [[[v P] _]|[_ P]]; [vm_compute in P; discriminate P|vm_compute in P; discriminate P].
    + intros f [v P]. apply lookup_singleton_Some in P as [<- _]. vm_compute. discriminate.
Defined.
