(* ===== verification/ChannelMonitor.v ===== *)
(** * Channel monitoring settings

    web/src/features/channels/lib/channel-monitor.ts: the settings of the monitor,
    of automatic priorities and of the recovery of dead channels, which share one
    JSON text of a channel with settings of other parts of the program; the bars of
    the history chart and the texts of the monitor column.

    A parsed settings object is the list of its properties.  The number of bars is
    an integer. *)

From Stdlib Require Import SpecFloat.
From S2P Require Import Prelude JsValue Json JsText.

Local Open Scope N_scope.

(** [a * b] and [Math.round] *)
Definition num_mul (a b : jsnum) : jsnum := SFmul 53 1024 a b.

Definition math_round (n : jsnum) : jsnum :=
  match n with
  | S754_finite s m e =>
      if (0 <=? e)%Z then n
      else let r := (2 * (Zpos m mod 2 ^ (- e)))%Z in
           let q := (Zpos m / 2 ^ (- e))%Z in
           let up := if s then (2 ^ (- e) <? r)%Z else (2 ^ (- e) <=? r)%Z in
           signed s (if up then q + 1 else q)%Z
  | _ => n
  end.

(** ** Data *)

(** The two properties of a channel the file reads. *)
Record Channel := mkChannel { ch_settings : option jsstr; ch_test_model : option jsstr }.

Record MonitorDraft := mkMonitor { m_enabled : bool; intervalMinutes : jsnum; monitorModel : jsstr }.
Record DeadRecoveryDraft := mkDead { d_enabled : bool; minMinutes : jsnum; maxMinutes : jsnum }.
Record AutoPriorityDraft := mkAuto {
  autoPriorityEnabled : bool; autoPriorityIntervalMinutes : jsnum; autoPriorityWindowHours : jsnum;
  autoPriorityAvailabilityWindowHours : jsnum; autoPriorityRateMultiplier : option jsnum }.

Definition DEFAULT_MONITOR_INTERVAL_MINUTES : jsnum := num 10.
Definition DEFAULT_CHANNEL_DEAD_RECOVERY_MIN_MINUTES : jsnum := num 15.
Definition DEFAULT_CHANNEL_DEAD_RECOVERY_MAX_MINUTES : jsnum := num 120.
Definition DEFAULT_AUTO_PRIORITY_INTERVAL_MINUTES : jsnum := num 30.
Definition DEFAULT_AUTO_PRIORITY_WINDOW_HOURS : jsnum := num 24.
Definition MAX_AUTO_PRIORITY_WINDOW_HOURS : jsnum := num 168.

Section Monitor.
(** [Number.prototype.toString] *)
Variable show : jsnum -> jsstr.

Definition parseChannelSettings (settings : option jsstr) : list (jsstr * jsval) :=
  match settings with
  | None => []
  | Some text =>
      if negb (truthy (trim text)) then []
      else match JSON_parse text with Some (JObject fs) => fs | _ => [] end
  end.

Definition read_field (k : string) (fs : list (jsstr * jsval)) : jsval := assoc (js k) fs.
Arguments read_field k%_stdpp_scope fs.
Definition is_true (v : jsval) : bool := match v with JBool b => b | _ => false end.

Definition isChannelAutoPriorityManagedByUpstream (channel : Channel) : bool :=
  let settings := parseChannelSettings (ch_settings channel) in
  num_lt (num 0) (js_number show (read_field "generated_by_upstream_source_id" settings))
  || num_lt (num 0) (js_number show (read_field "generated_by_upstream_mapping_id" settings)).

(** ** Normalisation *)

Definition normalizeMonitorInterval (value : jsval) (fallback : jsnum) : jsnum :=
  let interval := js_number show value in
  if is_integer interval && num_le (num 1) interval then interval else fallback.

Definition normalizeChannelDeadRecoveryMinutes (value : jsval) (fallback : jsnum) : jsnum :=
  let minutes := js_number show value in
  if is_integer minutes && num_le (num 1) minutes then minutes else fallback.

Definition isChannelDeadRecoveryRangeValid (minMinutes maxMinutes : jsval) : bool :=
  let minimum := js_number show minMinutes in
  let maximum := js_number show maxMinutes in
  is_integer minimum && num_le (num 1) minimum && is_integer maximum && num_le minimum maximum.

Definition normalizeAutoPriorityInterval (value : jsval) (fallback : jsnum) : jsnum :=
  let interval := js_number show value in
  if is_integer interval && num_le (num 0) interval then interval else fallback.

Definition normalizeAutoPriorityWindowHours (value : jsval) (fallback : jsnum) : jsnum :=
  let windowHours := js_number show value in
  if is_integer windowHours && num_le (num 1) windowHours && num_le windowHours MAX_AUTO_PRIORITY_WINDOW_HOURS
  then windowHours else fallback.

Definition normalizeAutoPriorityRateMultiplier (value : jsval) : option jsnum :=
  let multiplier := js_number show value in
  if is_finite multiplier && num_lt (num 0) multiplier then Some multiplier else None.

(** ** Reading *)

Definition readChannelMonitorSettings (channel : Channel) : MonitorDraft :=
  let settings := parseChannelSettings (ch_settings channel) in
  let model := match read_field "channel_monitor_model" settings with JString s => trim s | _ => [] end in
  let hasMonitorConfig :=
    has_key (js "channel_monitor_model") settings || has_key (js "channel_monitor_enabled") settings
    || has_key (js "channel_monitor_interval_minutes") settings in
  mkMonitor (is_true (read_field "channel_monitor_enabled" settings))
    (normalizeMonitorInterval (read_field "channel_monitor_interval_minutes" settings)
       DEFAULT_MONITOR_INTERVAL_MINUTES)
    (model ||| (if hasMonitorConfig then [] else default [] (trim <$> ch_test_model channel))).

Definition readChannelAutoPrioritySettings (channel : Channel) : AutoPriorityDraft :=
  let settings := parseChannelSettings (ch_settings channel) in
  mkAuto (is_true (read_field "channel_auto_priority_enabled" settings))
    (normalizeAutoPriorityInterval (read_field "channel_auto_priority_interval_minutes" settings)
       DEFAULT_AUTO_PRIORITY_INTERVAL_MINUTES)
    (normalizeAutoPriorityWindowHours (read_field "channel_auto_priority_window_hours" settings)
       DEFAULT_AUTO_PRIORITY_WINDOW_HOURS)
    (normalizeAutoPriorityWindowHours (read_field "channel_auto_priority_availability_window_hours" settings)
       DEFAULT_AUTO_PRIORITY_WINDOW_HOURS)
    (normalizeAutoPriorityRateMultiplier (read_field "channel_auto_priority_rate_multiplier" settings)).

Definition readChannelDeadRecoverySettings (channel : Channel) : DeadRecoveryDraft :=
  let settings := parseChannelSettings (ch_settings channel) in
  let minM := normalizeChannelDeadRecoveryMinutes (read_field "channel_dead_recovery_min_minutes" settings)
                DEFAULT_CHANNEL_DEAD_RECOVERY_MIN_MINUTES in
  let maxM := math_max minM
    (normalizeChannelDeadRecoveryMinutes (read_field "channel_dead_recovery_max_minutes" settings)
       DEFAULT_CHANNEL_DEAD_RECOVERY_MAX_MINUTES) in
  mkDead (is_true (read_field "channel_dead_recovery_enabled" settings)) minM maxM.

(** ** Writing *)

(** [settings.k = v] and [delete settings.k] *)
Definition put (k : string) (v : jsval) (fs : list (jsstr * jsval)) : list (jsstr * jsval) := obj_set (js k) v fs.
Definition drop_field (k : string) (fs : list (jsstr * jsval)) : list (jsstr * jsval) := obj_del (js k) fs.
Arguments put k%_stdpp_scope v fs.
Arguments drop_field k%_stdpp_scope fs.

Definition monitor_fields (draft : MonitorDraft) (settings : list (jsstr * jsval)) : list (jsstr * jsval) :=
  let s1 := put "channel_monitor_enabled" (JBool (m_enabled draft)) settings in
  let s2 := if m_enabled draft
            then put "channel_monitor_interval_minutes"
                   (JNumber (normalizeMonitorInterval (JNumber (intervalMinutes draft))
                               DEFAULT_MONITOR_INTERVAL_MINUTES)) s1
            else drop_field "channel_monitor_interval_minutes" s1 in
  let model := trim (monitorModel draft) in
  if truthy model then put "channel_monitor_model" (JString model) s2
  else drop_field "channel_monitor_model" s2.

Definition buildChannelMonitorSettingsPayload (channel : Channel) (draft : MonitorDraft) : jsstr :=
  stringify show (JObject (monitor_fields draft (parseChannelSettings (ch_settings channel)))).

Definition auto_priority_fields (draft : AutoPriorityDraft) (settings : list (jsstr * jsval)) :
  list (jsstr * jsval) :=
  let s1 := put "channel_auto_priority_enabled" (JBool (autoPriorityEnabled draft)) settings in
  let s2 := put "channel_auto_priority_availability_window_hours"
              (JNumber (normalizeAutoPriorityWindowHours (JNumber (autoPriorityAvailabilityWindowHours draft))
                          DEFAULT_AUTO_PRIORITY_WINDOW_HOURS)) s1 in
  if autoPriorityEnabled draft
  then
    let s3 := put "channel_auto_priority_interval_minutes"
                (JNumber (normalizeAutoPriorityInterval (JNumber (autoPriorityIntervalMinutes draft))
                            DEFAULT_AUTO_PRIORITY_INTERVAL_MINUTES)) s2 in
    let s4 := put "channel_auto_priority_window_hours"
                (JNumber (normalizeAutoPriorityWindowHours (JNumber (autoPriorityWindowHours draft))
                            DEFAULT_AUTO_PRIORITY_WINDOW_HOURS)) s3 in
    match normalizeAutoPriorityRateMultiplier
            (match autoPriorityRateMultiplier draft with Some n => JNumber n | None => JNull end) with
    | None => drop_field "channel_auto_priority_rate_multiplier" s4
    | Some rate => put "channel_auto_priority_rate_multiplier" (JNumber rate) s4
    end
  else drop_field "channel_auto_priority_rate_multiplier"
         (drop_field "channel_auto_priority_window_hours"
            (drop_field "channel_auto_priority_interval_minutes" s2)).

Definition buildChannelAutoPrioritySettingsPayload (channel : Channel) (draft : AutoPriorityDraft) : jsstr :=
  stringify show (JObject (auto_priority_fields draft (parseChannelSettings (ch_settings channel)))).

Definition dead_recovery_fields (draft : DeadRecoveryDraft) (settings : list (jsstr * jsval)) :
  list (jsstr * jsval) :=
  let minM := normalizeChannelDeadRecoveryMinutes (JNumber (minMinutes draft))
                DEFAULT_CHANNEL_DEAD_RECOVERY_MIN_MINUTES in
  let maxM := math_max minM
    (normalizeChannelDeadRecoveryMinutes (JNumber (maxMinutes draft))
       DEFAULT_CHANNEL_DEAD_RECOVERY_MAX_MINUTES) in
  put "channel_dead_recovery_max_minutes" (JNumber maxM)
    (put "channel_dead_recovery_min_minutes" (JNumber minM)
       (put "channel_dead_recovery_enabled" (JBool (d_enabled draft)) settings)).

Definition buildChannelDeadRecoverySettingsPayload (channel : Channel) (draft : DeadRecoveryDraft) : jsstr :=
  stringify show (JObject (dead_recovery_fields draft (parseChannelSettings (ch_settings channel)))).

(** ** History *)

(** A record of the history; its properties are optional. *)
Record MonitorRecord := mkRecord {
  r_id : option jsnum; r_model : option jsstr; r_status : option jsstr;
  r_latency_ms : option jsnum; r_endpoint_latency_ms : option jsnum; r_first_token_latency_ms : option jsnum;
  r_prompt_tokens : option jsnum; r_completion_tokens : option jsnum; r_checked_at : option jsnum;
  r_message : option jsstr }.

Record MonitorHistoryBar := mkBar {
  b_id : jsstr; b_status : jsstr; tone : jsstr; heightPercent : jsnum; b_model : jsstr;
  latencyMS : jsnum; endpointLatencyMS : jsnum; firstTokenLatencyMS : jsnum;
  promptTokens : jsnum; completionTokens : jsnum; checkedAt : jsnum; b_message : jsstr }.

Definition monitorHistoryTone (status : jsstr) : jsstr :=
  if status =s? js "success" then js "success"
  else if status =s? js "degraded" then js "warning"
  else if (status =s? js "failed") || (status =s? js "error") then js "danger"
  else js "empty".

(** The value of a metric when it is a positive number. *)
Definition positive_metric (v : option jsnum) : option jsnum :=
  match v with Some n => if num_lt (num 0) n then Some n else None | None => None end.

Definition metricValue (r : MonitorRecord) : jsnum :=
  match positive_metric (r_first_token_latency_ms r) with
  | Some n => n
  | None => match positive_metric (r_latency_ms r) with
            | Some n => n
            | None => default (num 0) (positive_metric (r_endpoint_latency_ms r))
            end
  end.

Definition history_bar (maxMetric : jsnum) (index : nat) (r : MonitorRecord) : MonitorHistoryBar :=
  let value := metricValue r in
  let height := if num_lt (num 0) value
                then math_max (num 25) (math_round (num_mul (num_div value maxMetric) (num 100)))
                else num 25 in
  let status := default (js "error") (r_status r) in
  mkBar (match r_id r with
         | Some n => show n
         | None => match r_checked_at r with Some n => show n | None => js "record" end
                   ++ js "-" ++ show_dec (N.of_nat index)
         end)
    status (monitorHistoryTone status) height (default [] (r_model r))
    (default (num 0) (r_latency_ms r)) (default (num 0) (r_endpoint_latency_ms r))
    (default (num 0) (r_first_token_latency_ms r)) (default (num 0) (r_prompt_tokens r))
    (default (num 0) (r_completion_tokens r)) (default (num 0) (r_checked_at r)) (default [] (r_message r)).

Definition empty_bar (index : nat) : MonitorHistoryBar :=
  mkBar (js "empty-" ++ show_dec (N.of_nat index)) (js "empty") (js "empty") (num 25) []
    (num 0) (num 0) (num 0) (num 0) (num 0) (num 0) [].

(** [records.slice(-n)] for a positive [n] *)
Definition last_n {A} (n : nat) (l : list A) : list A := drop (length l - n) l.

Definition buildMonitorHistoryBars (records : list MonitorRecord) (count : Z) : list MonitorHistoryBar :=
  let safeCount := Z.to_nat (Z.max 1 count) in
  let recent := last_n safeCount records in
  let maxMetric := foldl math_max (num 1) (metricValue <$> recent) in
  let bars := imap (history_bar maxMetric) recent in
  imap (fun i _ => empty_bar i) (repeat tt (safeCount - length bars)) ++ bars.

(** ** Texts *)

(** [t(key)] and [t(key, { value })] translate. *)
Variable t : jsstr -> jsstr.
Variable t_value : jsstr -> jsstr -> jsstr.
Variable formatTime : jsnum -> jsstr.

Definition monitorStatusText (status : option jsstr) : jsstr :=
  match status with
  | None => t (js "No data")
  | Some s => if s =s? js "success" then t (js "Normal")
              else if s =s? js "degraded" then t (js "Degraded")
              else if s =s? js "failed" then t (js "Failed")
              else if s =s? js "error" then t (js "Error")
              else t (js "No data")
  end.

Record MonitorInfo := mkInfo {
  i_enabled : bool; latest_checked_at : option jsnum; seconds_until_next_check : option jsnum;
  dead_recovery_eligible : bool; dead_recovery_next_check_at : option jsnum;
  dead_recovery_seconds_until_next_check : option jsnum }.

Definition truthy_num (v : option jsnum) : option jsnum :=
  match v with Some n => if num_truthy n then Some n else None | None => None end.

Definition monitorRefreshText (info : option MonitorInfo) : jsstr :=
  match info with
  | None => t (js "Disabled")
  | Some i =>
      if dead_recovery_eligible i
      then t_value (js "Next post-mortem recovery: {{value}}")
             (match truthy_num (dead_recovery_next_check_at i) with
              | Some next => if num_lt (num 0) (default (num 0) (dead_recovery_seconds_until_next_check i))
                             then formatTime next else t (js "Due now")
              | None => t (js "Due now")
              end)
      else if negb (i_enabled i) then t (js "Disabled")
      else match truthy_num (latest_checked_at i) with
           | None => t (js "No data")
           | Some _ =>
               match positive_metric (seconds_until_next_check i) with
               | Some seconds =>
                   t_value (js "Refresh in {{value}}")
                     (if num_le (num 60) seconds
                      then show (math_ceil (num_div seconds (num 60))) ++ js " " ++ t (js "minutes")
                      else show seconds ++ js " " ++ t (js "seconds"))
               | None => t (js "Due now")
               end
           end
  end.

End Monitor.
Arguments read_field k%_stdpp_scope fs.
Arguments put k%_stdpp_scope v fs.
Arguments drop_field k%_stdpp_scope fs.

(** ** Lemmas *)

Section MonitorLemmas.
Variable show : jsnum -> jsstr.

(** *** Normalised values *)

Definition whole (low n : jsnum) : Prop := is_integer n = true /\ num_le low n = true.

Lemma interval_whole v : whole (num 1) (normalizeMonitorInterval show v DEFAULT_MONITOR_INTERVAL_MINUTES).
Proof. unfold normalizeMonitorInterval, whole. destruct (_ && _) eqn:E; [by apply andb_true_iff in E|done]. Qed.

Lemma interval_fixed n f : whole (num 1) n -> normalizeMonitorInterval show (JNumber n) f = n.
Proof. intros [Hi Hn]. unfold normalizeMonitorInterval. cbn [js_number]. by rewrite Hi, Hn. Qed.

Lemma minutes_whole v f :
  whole (num 1) f -> whole (num 1) (normalizeChannelDeadRecoveryMinutes show v f).
Proof. unfold normalizeChannelDeadRecoveryMinutes, whole. intros H. destruct (_ && _) eqn:E; [by apply andb_true_iff in E|done]. Qed.

Lemma minutes_fixed n f : whole (num 1) n -> normalizeChannelDeadRecoveryMinutes show (JNumber n) f = n.
Proof. intros [Hi Hn]. unfold normalizeChannelDeadRecoveryMinutes. cbn [js_number]. by rewrite Hi, Hn. Qed.

Lemma auto_interval_whole v :
  whole (num 0) (normalizeAutoPriorityInterval show v DEFAULT_AUTO_PRIORITY_INTERVAL_MINUTES).
Proof. unfold normalizeAutoPriorityInterval, whole. destruct (_ && _) eqn:E; [by apply andb_true_iff in E|done]. Qed.

Lemma auto_interval_fixed n f : whole (num 0) n -> normalizeAutoPriorityInterval show (JNumber n) f = n.
Proof. intros [Hi Hn]. unfold normalizeAutoPriorityInterval. cbn [js_number]. by rewrite Hi, Hn. Qed.

Definition window_ok (n : jsnum) : Prop :=
  is_integer n = true /\ num_le (num 1) n = true /\ num_le n MAX_AUTO_PRIORITY_WINDOW_HOURS = true.

Lemma window_whole v : window_ok (normalizeAutoPriorityWindowHours show v DEFAULT_AUTO_PRIORITY_WINDOW_HOURS).
Proof.
  unfold normalizeAutoPriorityWindowHours, window_ok. destruct (_ && _) eqn:E; [|done].
  apply andb_true_iff in E as [[H1 H2]%andb_true_iff H3]. done.
Qed.

Lemma window_fixed n f : window_ok n -> normalizeAutoPriorityWindowHours show (JNumber n) f = n.
Proof. intros (Hi & Hn & Hm). unfold normalizeAutoPriorityWindowHours. cbn [js_number]. by rewrite Hi, Hn, Hm. Qed.

Definition rate_ok (n : jsnum) : Prop := is_finite n = true /\ num_lt (num 0) n = true.

Lemma rate_some v r : normalizeAutoPriorityRateMultiplier show v = Some r -> rate_ok r.
Proof.
  unfold normalizeAutoPriorityRateMultiplier. destruct (_ && _) eqn:E; [|done].
  intros [= <-]. by apply andb_true_iff in E.
Qed.

Lemma rate_fixed n : rate_ok n -> normalizeAutoPriorityRateMultiplier show (JNumber n) = Some n.
Proof. intros [Hf Hn]. unfold normalizeAutoPriorityRateMultiplier. cbn [js_number]. by rewrite Hf, Hn. Qed.

Lemma num_le_refl n : is_finite n = true -> num_le n n = true.
Proof.
  destruct n as [[]| | |[] m e]; try done; intros _; unfold num_le, SFleb, SFcompare;
    by rewrite Z.compare_refl, Pos.compare_cont_refl.
Qed.

Lemma num_lt_le a b : num_lt a b = true -> num_le a b = true.
Proof. unfold num_lt, num_le, SFltb, SFleb. by destruct (SFcompare a b) as [[]|]. Qed.

(** The larger of two whole numbers from one on. *)
Lemma max_whole a b :
  whole (num 1) a -> whole (num 1) b -> whole (num 1) (math_max a b) /\ num_le a (math_max a b) = true.
Proof.
  intros [Ha La] [Hb Lb]. destruct a as [[]|[]| |sa ma ea], b as [[]|[]| |sb mb eb]; try done.
  assert (Hm : math_max (S754_finite sa ma ea) (S754_finite sb mb eb)
    = if num_lt (S754_finite sa ma ea) (S754_finite sb mb eb) then S754_finite sb mb eb else S754_finite sa ma ea)
    by reflexivity.
  rewrite Hm. destruct (num_lt _ _) eqn:E.
  - split; [done|by apply num_lt_le].
  - split; [done|by apply num_le_refl].
Qed.

Lemma max_absorb a b : whole (num 1) a -> whole (num 1) b -> math_max a (math_max a b) = math_max a b.
Proof.
  intros [Ha La] [Hb Lb]. destruct a as [[]|[]| |sa ma ea], b as [[]|[]| |sb mb eb]; try done.
  cbn [math_max]. destruct (num_lt (S754_finite sa ma ea) (S754_finite sb mb eb)) eqn:E; cbn [math_max].
  - by rewrite E.
  - by case_match.
Qed.

(** *** The stored text *)

Lemma trim_solid c s : is_space c = false -> trim (c :: s) <> [].
Proof.
  intros Hc E. unfold trim, trim_start in E. cbn [drop_while] in E. rewrite Hc in E.
  destruct (trim_end_prefix (c :: s)) as (p & Hp & Hsp). rewrite E in Hp. cbn [app] in Hp. subst p.
  apply Forall_cons in Hsp as [H _]. congruence.
Qed.

(** Reading a text that was written. *)
Lemma parse_written fs :
  fields_ok show fs = true -> parseChannelSettings (Some (stringify show (JObject fs))) = fs.
Proof.
  intros Hok. unfold parseChannelSettings. rewrite parse_fields by done.
  assert (E : exists x, stringify show (JObject fs) = 123 :: x) by (by eexists). destruct E as [x ->].
  by rewrite (proj2 (truthy_true _)) by (by apply trim_solid).
Qed.

(** Two names of properties that differ. *)
Ltac names := first [discriminate | apply str_eqb_neq; vm_compute; reflexivity].

Lemma has_key_set_eq k v fs : has_key k (obj_set k v fs) = true.
Proof. apply bool_decide_eq_true, obj_set_keys. by left. Qed.

Lemma has_key_set_ne k k' v fs : k <> k' -> has_key k (obj_set k' v fs) = has_key k fs.
Proof. intros Hne. apply bool_decide_ext. rewrite obj_set_keys. tauto. Qed.

Lemma has_key_del_ne k k' fs : k <> k' -> has_key k (obj_del k' fs) = has_key k fs.
Proof.
  intros Hne. apply bool_decide_ext. unfold obj_del. rewrite !list_elem_of_fmap.
  split; intros ([k2 v] & -> & H); exists (k2, v); (split; [done|]).
  - by apply list_elem_of_filter in H as [_ H].
  - apply list_elem_of_filter. split; [|done]. cbn in Hne |- *. congruence.
Qed.

(** What the three writers leave alone. *)
Definition unchanged (k : jsstr) (a b : list (jsstr * jsval)) : Prop :=
  assoc k a = assoc k b /\ has_key k a = has_key k b.

Lemma unchanged_put k k' v a b : k <> js k' -> unchanged k a b -> unchanged k (put k' v a) b.
Proof. intros Hne [Ha Hk]. split; [by rewrite <- Ha; apply assoc_set_ne|by rewrite <- Hk; apply has_key_set_ne]. Qed.

Lemma unchanged_drop k k' a b : k <> js k' -> unchanged k a b -> unchanged k (drop_field k' a) b.
Proof. intros Hne [Ha Hk]. split; [by rewrite <- Ha; apply assoc_del_ne|by rewrite <- Hk; apply has_key_del_ne]. Qed.

Definition monitor_keys : list jsstr :=
  [js "channel_monitor_enabled"; js "channel_monitor_interval_minutes"; js "channel_monitor_model"].
Definition auto_priority_keys : list jsstr :=
  [ js "channel_auto_priority_enabled"; js "channel_auto_priority_availability_window_hours";
    js "channel_auto_priority_interval_minutes"; js "channel_auto_priority_window_hours";
    js "channel_auto_priority_rate_multiplier" ].
Definition dead_recovery_keys : list jsstr :=
  [ js "channel_dead_recovery_enabled"; js "channel_dead_recovery_min_minutes";
    js "channel_dead_recovery_max_minutes" ].

Ltac not_key H := intros ->; apply H; by_decision.

Lemma monitor_frame draft fs k : k ∉ monitor_keys -> unchanged k (monitor_fields show draft fs) fs.
Proof.
  intros Hk. unfold monitor_fields. destruct (m_enabled draft), (truthy (trim (monitorModel draft)));
    repeat first [apply unchanged_put; [not_key Hk|] | apply unchanged_drop; [not_key Hk|]]; done.
Qed.

Lemma auto_priority_frame draft fs k : k ∉ auto_priority_keys -> unchanged k (auto_priority_fields show draft fs) fs.
Proof.
  intros Hk. unfold auto_priority_fields.
  destruct (autoPriorityEnabled draft);
    [destruct (normalizeAutoPriorityRateMultiplier show
                 (match autoPriorityRateMultiplier draft with Some n => JNumber n | None => JNull end))|];
    repeat first [apply unchanged_put; [not_key Hk|] | apply unchanged_drop; [not_key Hk|]]; done.
Qed.

Lemma dead_recovery_frame draft fs k : k ∉ dead_recovery_keys -> unchanged k (dead_recovery_fields show draft fs) fs.
Proof.
  intros Hk. unfold dead_recovery_fields. repeat (apply unchanged_put; [not_key Hk|]). done.
Qed.

(** *** What is written can be stored *)

Lemma put_ok k v fs :
  fields_ok show fs = true -> str_ok (js k) = true -> json_ok show v = true ->
  fields_ok show (put k v fs) = true.
Proof. apply fields_ok_set. Qed.

Lemma drop_ok k fs : fields_ok show fs = true -> fields_ok show (drop_field k fs) = true.
Proof. apply fields_ok_del. Qed.

Ltac stored := repeat first [apply put_ok; [|vm_compute; reflexivity|] | apply drop_ok]; try done.

Lemma monitor_fields_ok draft fs :
  fields_ok show fs = true -> str_ok (trim (monitorModel draft)) = true ->
  num_ok show (normalizeMonitorInterval show (JNumber (intervalMinutes draft)) DEFAULT_MONITOR_INTERVAL_MINUTES) = true ->
  fields_ok show (monitor_fields show draft fs) = true.
Proof.
  intros Hf Hs Hn. unfold monitor_fields.
  destruct (m_enabled draft), (truthy (trim (monitorModel draft))); stored.
Qed.

(** The numbers the automatic priority dialog stores. *)
Definition auto_numbers (draft : AutoPriorityDraft) : list jsnum :=
  [ normalizeAutoPriorityWindowHours show (JNumber (autoPriorityAvailabilityWindowHours draft))
      DEFAULT_AUTO_PRIORITY_WINDOW_HOURS;
    normalizeAutoPriorityInterval show (JNumber (autoPriorityIntervalMinutes draft))
      DEFAULT_AUTO_PRIORITY_INTERVAL_MINUTES;
    normalizeAutoPriorityWindowHours show (JNumber (autoPriorityWindowHours draft))
      DEFAULT_AUTO_PRIORITY_WINDOW_HOURS ].

Definition auto_rate (draft : AutoPriorityDraft) : option jsnum :=
  normalizeAutoPriorityRateMultiplier show
    (match autoPriorityRateMultiplier draft with Some n => JNumber n | None => JNull end).

Lemma auto_fields_ok draft fs :
  fields_ok show fs = true -> Forall (fun n => num_ok show n = true) (auto_numbers draft) ->
  (forall r, auto_rate draft = Some r -> num_ok show r = true) ->
  fields_ok show (auto_priority_fields show draft fs) = true.
Proof.
  intros Hf [H1 [H2 [H3 _]%Forall_cons]%Forall_cons]%Forall_cons Hr. unfold auto_priority_fields, auto_rate in *.
  destruct (autoPriorityEnabled draft); [|stored].
  destruct (normalizeAutoPriorityRateMultiplier show _) as [r|]; stored. by apply Hr.
Qed.

Definition dead_min (draft : DeadRecoveryDraft) : jsnum :=
  normalizeChannelDeadRecoveryMinutes show (JNumber (minMinutes draft)) DEFAULT_CHANNEL_DEAD_RECOVERY_MIN_MINUTES.
Definition dead_max (draft : DeadRecoveryDraft) : jsnum :=
  math_max (dead_min draft)
    (normalizeChannelDeadRecoveryMinutes show (JNumber (maxMinutes draft)) DEFAULT_CHANNEL_DEAD_RECOVERY_MAX_MINUTES).

Lemma dead_fields_ok draft fs :
  fields_ok show fs = true -> num_ok show (dead_min draft) = true -> num_ok show (dead_max draft) = true ->
  fields_ok show (dead_recovery_fields show draft fs) = true.
Proof. intros Hf H1 H2. unfold dead_recovery_fields. stored. Qed.

Lemma dead_max_whole draft : whole (num 1) (dead_max draft) /\ num_le (dead_min draft) (dead_max draft) = true.
Proof. apply max_whole; by apply minutes_whole. Qed.

(** *** Reading what was written *)

Ltac read_back := unfold read_field, put, drop_field;
  repeat first [rewrite assoc_set_eq | rewrite assoc_set_ne by names | rewrite assoc_del_eq
               | rewrite assoc_del_ne by names].

Lemma read_monitor_written draft fs tm :
  fields_ok show (monitor_fields show draft fs) = true ->
  readChannelMonitorSettings show (mkChannel (Some (stringify show (JObject (monitor_fields show draft fs)))) tm)
  = mkMonitor (m_enabled draft)
      (if m_enabled draft
       then normalizeMonitorInterval show (JNumber (intervalMinutes draft)) DEFAULT_MONITOR_INTERVAL_MINUTES
       else DEFAULT_MONITOR_INTERVAL_MINUTES)
      (trim (monitorModel draft)).
Proof.
  intros Hok. unfold readChannelMonitorSettings. cbn [ch_settings ch_test_model]. rewrite parse_written by done.
  assert (He : has_key (js "channel_monitor_enabled") (monitor_fields show draft fs) = true).
  { unfold monitor_fields, put, drop_field. destruct (m_enabled draft), (truthy (trim (monitorModel draft)));
      repeat first [rewrite has_key_set_eq | rewrite has_key_set_ne by names | rewrite has_key_del_ne by names]; done. }
  rewrite He, orb_true_r. cbn [orb]. unfold monitor_fields.
  destruct (m_enabled draft) eqn:Em, (truthy (trim (monitorModel draft))) eqn:Et; read_back; cbn [is_true];
    rewrite ?(interval_fixed _ _ (interval_whole _)), ?trim_idem; unfold str_or; rewrite ?Et; try done;
    apply truthy_false in Et; by rewrite Et.
Qed.

Lemma read_auto_written draft fs tm :
  fields_ok show (auto_priority_fields show draft fs) = true ->
  readChannelAutoPrioritySettings show
    (mkChannel (Some (stringify show (JObject (auto_priority_fields show draft fs)))) tm)
  = mkAuto (autoPriorityEnabled draft)
      (if autoPriorityEnabled draft
       then normalizeAutoPriorityInterval show (JNumber (autoPriorityIntervalMinutes draft))
              DEFAULT_AUTO_PRIORITY_INTERVAL_MINUTES
       else DEFAULT_AUTO_PRIORITY_INTERVAL_MINUTES)
      (if autoPriorityEnabled draft
       then normalizeAutoPriorityWindowHours show (JNumber (autoPriorityWindowHours draft))
              DEFAULT_AUTO_PRIORITY_WINDOW_HOURS
       else DEFAULT_AUTO_PRIORITY_WINDOW_HOURS)
      (normalizeAutoPriorityWindowHours show (JNumber (autoPriorityAvailabilityWindowHours draft))
         DEFAULT_AUTO_PRIORITY_WINDOW_HOURS)
      (if autoPriorityEnabled draft then auto_rate draft else None).
Proof.
  intros Hok. unfold readChannelAutoPrioritySettings. cbn [ch_settings]. rewrite parse_written by done.
  unfold auto_priority_fields, auto_rate.
  destruct (autoPriorityEnabled draft).
  - destruct (normalizeAutoPriorityRateMultiplier show (match autoPriorityRateMultiplier draft with
      | Some n => JNumber n | None => JNull end)) as [r|] eqn:Er; read_back; cbn [is_true];
      rewrite (auto_interval_fixed _ _ (auto_interval_whole _)), !(window_fixed _ _ (window_whole _)); [|done].
    by rewrite (rate_fixed _ (rate_some _ _ Er)).
  - read_back. cbn [is_true]. by rewrite (window_fixed _ _ (window_whole _)).
Qed.

Lemma read_dead_written draft fs tm :
  fields_ok show (dead_recovery_fields show draft fs) = true ->
  readChannelDeadRecoverySettings show
    (mkChannel (Some (stringify show (JObject (dead_recovery_fields show draft fs)))) tm)
  = mkDead (d_enabled draft) (dead_min draft) (dead_max draft).
Proof.
  intros Hok. unfold readChannelDeadRecoverySettings. cbn [ch_settings]. rewrite parse_written by done.
  unfold dead_recovery_fields. fold (dead_min draft). fold (dead_max draft). read_back. cbn [is_true].
  assert (Hmin : whole (num 1) (dead_min draft)) by (by apply minutes_whole).
  destruct (dead_max_whole draft) as [Hmax Hle]. rewrite (minutes_fixed _ _ Hmin), (minutes_fixed _ _ Hmax). f_equal.
  apply max_absorb; [done|]. by apply minutes_whole.
Qed.

(** The stored settings and the new values can be written as JSON and read back. *)
Definition storable (fs : list (jsstr * jsval)) (md : MonitorDraft) (ad : AutoPriorityDraft)
  (dd : DeadRecoveryDraft) : Prop :=
  fields_ok show fs = true
  /\ str_ok (trim (monitorModel md)) = true
  /\ num_ok show (normalizeMonitorInterval show (JNumber (intervalMinutes md)) DEFAULT_MONITOR_INTERVAL_MINUTES) = true
  /\ Forall (fun n => num_ok show n = true) (auto_numbers ad)
  /\ (forall r, auto_rate ad = Some r -> num_ok show r = true)
  /\ num_ok show (dead_min dd) = true /\ num_ok show (dead_max dd) = true.

(** *** Properties *)

(** Whatever text a channel stores, the values the dialogs read from it are in
    range: intervals are whole numbers from one minute (from zero for automatic
    priorities), windows are whole hours between one and a week, a rate multiplier
    is positive and finite, and the range of the recovery delay is valid. *)
Theorem stored_settings_in_range channel :
  let m := readChannelMonitorSettings show channel in
  let a := readChannelAutoPrioritySettings show channel in
  let d := readChannelDeadRecoverySettings show channel in
  whole (num 1) (intervalMinutes m)
  /\ whole (num 0) (autoPriorityIntervalMinutes a)
  /\ window_ok (autoPriorityWindowHours a) /\ window_ok (autoPriorityAvailabilityWindowHours a)
  /\ (forall r, autoPriorityRateMultiplier a = Some r -> rate_ok r)
  /\ isChannelDeadRecoveryRangeValid show (JNumber (minMinutes d)) (JNumber (maxMinutes d)) = true.
Proof.
  cbv zeta. split; [apply interval_whole|]. split; [apply auto_interval_whole|].
  split; [apply window_whole|]. split; [apply window_whole|]. split; [intros r; apply rate_some|].
  unfold readChannelDeadRecoverySettings, isChannelDeadRecoveryRangeValid. cbn [minMinutes maxMinutes js_number].
  set (a := normalizeChannelDeadRecoveryMinutes show _ DEFAULT_CHANNEL_DEAD_RECOVERY_MIN_MINUTES).
  set (b := normalizeChannelDeadRecoveryMinutes show _ DEFAULT_CHANNEL_DEAD_RECOVERY_MAX_MINUTES).
  assert (Ha : whole (num 1) a) by (by apply minutes_whole).
  assert (Hb : whole (num 1) b) by (by apply minutes_whole).
  destruct (max_whole a b Ha Hb) as [[Hm _] Hle]. destruct Ha as [Ha1 Ha2]. by rewrite Ha1, Ha2, Hm, Hle.
Qed.

(** C36: saving a dialog and opening it again shows what was saved, normalised.  For a
    channel whose stored settings and new values can be written as JSON: the monitor
    dialog shows the switch, the interval (the default one while the monitor is off)
    and the trimmed model, also when the channel has a legacy test model; the
    automatic priority dialog and the recovery dialog likewise. *)
Theorem settings_dialogs_roundtrip channel tm md ad dd :
  let fs := parseChannelSettings (ch_settings channel) in
  storable fs md ad dd ->
  readChannelMonitorSettings show (mkChannel (Some (buildChannelMonitorSettingsPayload show channel md)) tm)
  = mkMonitor (m_enabled md)
      (if m_enabled md
       then normalizeMonitorInterval show (JNumber (intervalMinutes md)) DEFAULT_MONITOR_INTERVAL_MINUTES
       else DEFAULT_MONITOR_INTERVAL_MINUTES)
      (trim (monitorModel md))
  /\ readChannelAutoPrioritySettings show
       (mkChannel (Some (buildChannelAutoPrioritySettingsPayload show channel ad)) tm)
     = mkAuto (autoPriorityEnabled ad)
         (if autoPriorityEnabled ad
          then normalizeAutoPriorityInterval show (JNumber (autoPriorityIntervalMinutes ad))
                 DEFAULT_AUTO_PRIORITY_INTERVAL_MINUTES
          else DEFAULT_AUTO_PRIORITY_INTERVAL_MINUTES)
         (if autoPriorityEnabled ad
          then normalizeAutoPriorityWindowHours show (JNumber (autoPriorityWindowHours ad))
                 DEFAULT_AUTO_PRIORITY_WINDOW_HOURS
          else DEFAULT_AUTO_PRIORITY_WINDOW_HOURS)
         (normalizeAutoPriorityWindowHours show (JNumber (autoPriorityAvailabilityWindowHours ad))
            DEFAULT_AUTO_PRIORITY_WINDOW_HOURS)
         (if autoPriorityEnabled ad then auto_rate ad else None)
  /\ readChannelDeadRecoverySettings show
       (mkChannel (Some (buildChannelDeadRecoverySettingsPayload show channel dd)) tm)
     = mkDead (d_enabled dd) (dead_min dd) (dead_max dd).
Proof.
  cbv zeta. intros (Hf & Hs & Hn & Ha & Hr & Hmin & Hmax). split; [|split].
  - by apply read_monitor_written, monitor_fields_ok.
  - by apply read_auto_written, auto_fields_ok.
  - by apply read_dead_written, dead_fields_ok.
Qed.

(** The dialogs do not disturb each other nor the rest of the settings.  Saving
    one of them keeps every property that is not its own, so the other two dialogs,
    and the parts of the program that keep other settings in the same text, read
    what they read before. *)
Theorem settings_dialogs_independent channel tm md ad dd :
  let fs := parseChannelSettings (ch_settings channel) in
  storable fs md ad dd ->
  let after payload := mkChannel (Some payload) tm in
  let monitor := buildChannelMonitorSettingsPayload show channel md in
  let auto := buildChannelAutoPrioritySettingsPayload show channel ad in
  let dead := buildChannelDeadRecoverySettingsPayload show channel dd in
  (forall k, k ∉ monitor_keys -> assoc k (parseChannelSettings (Some monitor)) = assoc k fs)
  /\ (forall k, k ∉ auto_priority_keys -> assoc k (parseChannelSettings (Some auto)) = assoc k fs)
  /\ (forall k, k ∉ dead_recovery_keys -> assoc k (parseChannelSettings (Some dead)) = assoc k fs)
  /\ readChannelAutoPrioritySettings show (after monitor) = readChannelAutoPrioritySettings show channel
  /\ readChannelDeadRecoverySettings show (after monitor) = readChannelDeadRecoverySettings show channel
  /\ readChannelDeadRecoverySettings show (after auto) = readChannelDeadRecoverySettings show channel.
Proof.
  cbv zeta. intros (Hf & Hs & Hn & Ha & Hr & Hmin & Hmax).
  assert (Em : parseChannelSettings (Some (buildChannelMonitorSettingsPayload show channel md))
               = monitor_fields show md (parseChannelSettings (ch_settings channel)))
    by (by apply parse_written, monitor_fields_ok).
  assert (Ea : parseChannelSettings (Some (buildChannelAutoPrioritySettingsPayload show channel ad))
               = auto_priority_fields show ad (parseChannelSettings (ch_settings channel)))
    by (by apply parse_written, auto_fields_ok).
  assert (Ed : parseChannelSettings (Some (buildChannelDeadRecoverySettingsPayload show channel dd))
               = dead_recovery_fields show dd (parseChannelSettings (ch_settings channel)))
    by (by apply parse_written, dead_fields_ok).
  unfold readChannelAutoPrioritySettings, readChannelDeadRecoverySettings, read_field. cbn [ch_settings].
  rewrite Em, Ea, Ed.
  assert (Hm : forall k, k ∉ monitor_keys -> assoc k (monitor_fields show md (parseChannelSettings (ch_settings channel)))
                 = assoc k (parseChannelSettings (ch_settings channel))) by (intros k Hk; by apply monitor_frame).
  assert (Hau : forall k, k ∉ auto_priority_keys ->
      assoc k (auto_priority_fields show ad (parseChannelSettings (ch_settings channel)))
      = assoc k (parseChannelSettings (ch_settings channel))) by (intros k Hk; by apply auto_priority_frame).
  split; [exact Hm|]. split; [exact Hau|]. split; [intros k Hk; by apply dead_recovery_frame|].
  split; [|split].
  - by rewrite !Hm by (by_decision).
  - by rewrite !Hm by (by_decision).
  - by rewrite !Hau by (by_decision).
Qed.

Lemma history_bar_height mx i r : num_lt (heightPercent (history_bar show mx i r)) (num 25) = false.
Proof. unfold history_bar. cbn [heightPercent]. destruct (num_lt (num 0) (metricValue r)); [by apply math_max_ge|done]. Qed.

(** What a bar shows of its record. *)
Definition bar_data (b : MonitorHistoryBar) : jsstr * jsstr * jsnum :=
  (b_status b, b_model b, checkedAt b).
Definition record_data (r : MonitorRecord) : jsstr * jsstr * jsnum :=
  (default (js "error") (r_status r), default [] (r_model r), default (num 0) (r_checked_at r)).

(** The history chart has exactly the number of bars asked for (at least one),
    none lower than a quarter of the height: bars without data, then one bar per
    record for the most recent records, in their order. *)
Theorem history_bars_spec records count :
  let safe := Z.to_nat (Z.max 1 count) in
  exists empty bars,
    buildMonitorHistoryBars show records count = empty ++ bars
    /\ length (empty ++ bars) = safe
    /\ Forall (fun b => b_status b = js "empty") empty
    /\ bar_data <$> bars = record_data <$> last_n safe records
    /\ Forall (fun b => num_lt (heightPercent b) (num 25) = false) (empty ++ bars).
Proof.
  cbv zeta. unfold buildMonitorHistoryBars. set (safe := Z.to_nat (Z.max 1 count)).
  set (recent := last_n safe records). set (mx := foldl math_max (num 1) (metricValue <$> recent)).
  eexists _, _. split; [reflexivity|]. split; [|split; [|split]].
  - rewrite length_app, !length_imap, repeat_length. unfold recent, last_n. rewrite length_drop. lia.
  - apply Forall_lookup. intros i b Hb. rewrite list_lookup_imap in Hb. by destruct (repeat _ _ !! i); simplify_eq/=.
  - apply list_eq. intros i. rewrite !list_lookup_fmap, list_lookup_imap. by destruct (recent !! i).
  - apply Forall_app. split; apply Forall_lookup; intros i b Hb; rewrite list_lookup_imap in Hb.
    + by destruct (repeat _ _ !! i); simplify_eq/=.
    + destruct (recent !! i) as [r|]; [|done]. injection Hb as <-. apply history_bar_height.
Qed.

End MonitorLemmas.

(** ** A concrete channel *)

Definition sample_channel : Channel :=
  mkChannel (Some (stringify show_int (JObject [(js "other", JString (js "kept"));
    (js "channel_monitor_enabled", JBool true)]))) (Some (js "legacy")).
Definition sample_monitor : MonitorDraft := mkMonitor true (num 5) (js " gpt ").
Definition sample_auto : AutoPriorityDraft := mkAuto true (num 20) (num 48) (num 500) (Some (num 2)).
Definition sample_dead : DeadRecoveryDraft := mkDead true (num 60) (num 30).

Lemma sample_storable :
  storable show_int (parseChannelSettings (ch_settings sample_channel)) sample_monitor sample_auto sample_dead.
Proof.
  split; [vm_compute; reflexivity|]. split; [vm_compute; reflexivity|]. split; [vm_compute; reflexivity|].
  split; [repeat (apply Forall_cons; split; [vm_compute; reflexivity|]); done|].
  split; [|split; vm_compute; reflexivity].
  intros r E. assert (Er : auto_rate show_int sample_auto = Some (num 2)) by (vm_compute; reflexivity).
  rewrite Er in E. injection E as <-. vm_compute. reflexivity.
Qed.

Lemma settings_dialogs_roundtrip_witness :
  readChannelDeadRecoverySettings show_int
    (mkChannel (Some (buildChannelDeadRecoverySettingsPayload show_int sample_channel sample_dead)) None)
  = mkDead true (dead_min show_int sample_dead) (dead_max show_int sample_dead).
Proof.
  exact (proj2 (proj2 (settings_dialogs_roundtrip show_int sample_channel None sample_monitor sample_auto
    sample_dead sample_storable))).
Defined.

Lemma settings_dialogs_independent_witness :
  assoc (js "other") (parseChannelSettings
    (Some (buildChannelMonitorSettingsPayload show_int sample_channel sample_monitor)))
  = assoc (js "other") (parseChannelSettings (ch_settings sample_channel)).
Proof.
  apply (proj1 (settings_dialogs_independent show_int sample_channel None sample_monitor sample_auto
    sample_dead sample_storable)).
  refine (bool_decide_unpack _ _). vm_compute. exact I.
Defined.
