(* ===== verification/AdvancedCustom.v ===== *)
(** * Advanced custom channel configuration

    web/src/features/channels/lib/advanced-custom.ts: the routes of an advanced
    custom channel, their normalisation, validation, JSON form, templates and
    the defaults of the converters.

    Converters and authentication types are strings, as they reach the code from
    JSON.  [new URL(v)] is the parameter [url]: the host and protocol of [v], or
    [None] when it throws. *)

From Stdlib Require Import SpecFloat.
From S2P Require Import Prelude JsValue Json.

(** ** Data (types.ts) *)

Record AdvancedCustomRouteAuth := mkAuth {
  a_type : option jsstr; a_name : option jsstr; a_value : option jsstr }.

Record AdvancedCustomRoute := mkRoute {
  incoming_path : option jsstr;
  upstream_path : option jsstr;
  converter : option jsstr;
  models : option (list jsstr);
  auth : option AdvancedCustomRouteAuth }.

(** [advanced_routes] of an [AdvancedCustomConfig]. *)
Definition AdvancedCustomConfig := option (list AdvancedCustomRoute).

#[export] Instance AdvancedCustomRouteAuth_eq_dec : EqDecision AdvancedCustomRouteAuth.
Proof. solve_decision. Defined.
#[export] Instance AdvancedCustomRoute_eq_dec : EqDecision AdvancedCustomRoute.
Proof. solve_decision. Defined.

Record AdvancedCustomValidationError := mkError { routeIndex : option nat; message : jsstr }.

(** ** Tables *)

Definition CHANNEL_TYPE_ADVANCED_CUSTOM := 58%Z.
Definition ADVANCED_CUSTOM_MODEL_LIST_PATH := js "/v1/models".
Definition ADVANCED_CUSTOM_MODEL_LIST_LABEL := js "OpenAI Models".

Record ConverterOption := mkConverterOption { co_value : jsstr; co_label : jsstr; triggerLabel : jsstr }.

Definition ADVANCED_CUSTOM_CONVERTER_OPTIONS : list ConverterOption :=
  [mkConverterOption (js "none")
     (js "Native forwarding") (js "Native forwarding");
   mkConverterOption (js "anthropic_messages_to_openai_chat_completions")
     (js "Anthropic Messages to OpenAI Chat") (js "To OpenAI Chat");
   mkConverterOption (js "openai_chat_completions_to_anthropic_messages")
     (js "OpenAI Chat to Anthropic Messages") (js "To Anthropic Messages");
   mkConverterOption (js "openai_chat_completions_to_openai_responses")
     (js "OpenAI Chat to OpenAI Responses") (js "To OpenAI Responses");
   mkConverterOption (js "openai_responses_to_openai_chat_completions")
     (js "OpenAI Responses to OpenAI Chat") (js "To OpenAI Chat");
   mkConverterOption (js "openai_responses_to_gemini_generate_content")
     (js "OpenAI Responses to Gemini Generate Content") (js "To Gemini Generate Content");
   mkConverterOption (js "gemini_generate_content_to_openai_chat_completions")
     (js "Gemini Generate Content to OpenAI Chat") (js "To OpenAI Chat");
   mkConverterOption (js "openai_chat_completions_to_gemini_generate_content")
     (js "OpenAI Chat to Gemini Generate Content") (js "To Gemini Generate Content")].

Definition ADVANCED_CUSTOM_AUTH_MODE_OPTIONS : list (jsstr * jsstr) :=
  [(js "default", js "Default Bearer"); (js "none", js "No Auth"); (js "header", js "Header");
   (js "query", js "Query")].

Record AdvancedCustomIncomingPathOption := mkPathOption { po_value : jsstr; po_label : jsstr }.

Definition ADVANCED_CUSTOM_INCOMING_PATH_OPTIONS : list AdvancedCustomIncomingPathOption :=
  [mkPathOption (js "/v1/chat/completions") (js "OpenAI Chat");
   mkPathOption (js "/v1/responses") (js "OpenAI Responses");
   mkPathOption (js "/v1/responses/compact") (js "OpenAI Responses Compact");
   mkPathOption (js "/v1/alpha/search") (js "OpenAI Alpha Search");
   mkPathOption (ADVANCED_CUSTOM_MODEL_LIST_PATH) (ADVANCED_CUSTOM_MODEL_LIST_LABEL);
   mkPathOption (js "/v1/embeddings") (js "OpenAI Embeddings");
   mkPathOption (js "/v1/images/generations") (js "OpenAI Image Generations");
   mkPathOption (js "/v1/images/edits") (js "OpenAI Image Edits");
   mkPathOption (js "/v1/completions") (js "OpenAI Completions");
   mkPathOption (js "/v1/audio/speech") (js "OpenAI Audio Speech");
   mkPathOption (js "/v1/audio/transcriptions") (js "OpenAI Audio Transcriptions");
   mkPathOption (js "/v1/audio/translations") (js "OpenAI Audio Translations");
   mkPathOption (js "/v1/rerank") (js "OpenAI Rerank");
   mkPathOption (js "/v1/realtime") (js "OpenAI Realtime");
   mkPathOption (js "/v1/messages") (js "Claude Messages");
   mkPathOption (js "/v1beta/models/{model}:generateContent") (js "Gemini Generate Content");
   mkPathOption (js "/v1beta/models/{model}:embedContent") (js "Gemini Embed Content");
   mkPathOption (js "/v1beta/models/{model}:batchEmbedContents") (js "Gemini Batch Embed Contents")].

Definition ADVANCED_CUSTOM_ROUTE_SUMMARY_LABELS : list (jsstr * jsstr) :=
  [(js "/v1/chat/completions", js "OpenAI Chat");
   (ADVANCED_CUSTOM_MODEL_LIST_PATH, ADVANCED_CUSTOM_MODEL_LIST_LABEL)].

Definition ADVANCED_CUSTOM_MODEL_REGEX_PREFIX := js "re:".

Definition openAIChatPath := js "/v1/chat/completions".
Definition openAIResponsesPath := js "/v1/responses".
Definition claudeMessagesPath := js "/v1/messages".
Definition geminiGenerateContentPath := js "/v1beta/models/{model}:generateContent".

Definition bearerHeaderAuth : AdvancedCustomRouteAuth :=
  mkAuth (Some (js "header")) (Some (js "Authorization")) (Some (js "Bearer {api_key}")).
Definition apiKeyHeaderAuth : AdvancedCustomRouteAuth :=
  mkAuth (Some (js "header")) (Some (js "x-api-key")) (Some (js "{api_key}")).
Definition geminiQueryAuth : AdvancedCustomRouteAuth :=
  mkAuth (Some (js "query")) (Some (js "key")) (Some (js "{api_key}")).

Record AdvancedCustomTemplateOption := mkTemplate {
  tp_value : jsstr; tp_label : jsstr; tp_config : AdvancedCustomConfig }.

Definition template_route (incoming upstream conv : jsstr) (a : AdvancedCustomRouteAuth) : AdvancedCustomRoute :=
  mkRoute (Some incoming) (Some upstream) (Some conv) None (Some a).

Definition ADVANCED_CUSTOM_TEMPLATE_OPTIONS : list AdvancedCustomTemplateOption :=
  [mkTemplate (js "official_openai_chat") (js "Official OpenAI Chat")
     (Some [template_route (js "/v1/chat/completions")
              (js "/v1/chat/completions") (js "none") bearerHeaderAuth]);
   mkTemplate (js "official_openai_responses") (js "Official OpenAI Responses")
     (Some [template_route (js "/v1/responses")
              (js "/v1/responses") (js "none") bearerHeaderAuth]);
   mkTemplate (js "official_openai_embeddings") (js "Official OpenAI Embeddings")
     (Some [template_route (js "/v1/embeddings")
              (js "/v1/embeddings") (js "none") bearerHeaderAuth]);
   mkTemplate (js "official_openai_images") (js "Official OpenAI Images")
     (Some [template_route (js "/v1/images/generations")
              (js "/v1/images/generations") (js "none") bearerHeaderAuth;
            template_route (js "/v1/images/edits")
              (js "/v1/images/edits") (js "none") bearerHeaderAuth]);
   mkTemplate (js "official_claude_messages") (js "Official Claude Messages")
     (Some [template_route (js "/v1/messages")
              (js "/v1/messages") (js "none") apiKeyHeaderAuth]);
   mkTemplate (js "official_gemini_native") (js "Official Gemini Native")
     (Some [template_route (js "/v1beta/models/{model}:generateContent")
              (js "/v1beta/models/{model}:generateContent") (js "none") geminiQueryAuth;
            template_route (js "/v1beta/models/{model}:embedContent")
              (js "/v1beta/models/{model}:embedContent") (js "none") geminiQueryAuth;
            template_route (js "/v1beta/models/{model}:batchEmbedContents")
              (js "/v1beta/models/{model}:batchEmbedContents") (js "none") geminiQueryAuth]);
   mkTemplate (js "official_gemini_from_openai_chat") (js "Official Gemini from OpenAI Chat")
     (Some [template_route (js "/v1/chat/completions")
              (js "/v1beta/models/{model}:generateContent") (js "openai_chat_completions_to_gemini_generate_content") geminiQueryAuth])].

(** ** Converters and paths *)

Definition isConverterPathAllowed (incomingPath conv : jsstr) : bool :=
  if conv =s? js "none" then true
  else if incomingPath =s? js "/v1/alpha/search" then false
  else if conv =s? js "anthropic_messages_to_openai_chat_completions" then incomingPath =s? js "/v1/messages"
  else if (conv =s? js "openai_chat_completions_to_anthropic_messages")
          || (conv =s? js "openai_chat_completions_to_openai_responses")
          || (conv =s? js "openai_chat_completions_to_gemini_generate_content")
  then incomingPath =s? js "/v1/chat/completions"
  else if conv =s? js "openai_responses_to_openai_chat_completions" then incomingPath =s? js "/v1/responses"
  else if conv =s? js "openai_responses_to_gemini_generate_content" then incomingPath =s? js "/v1/responses"
  else includes (js ":generateContent") incomingPath || includes (js ":streamGenerateContent") incomingPath.

Definition isAdvancedCustomConverter (value : jsstr) : bool :=
  existsb (fun o => co_value o =s? value) ADVANCED_CUSTOM_CONVERTER_OPTIONS.

Definition getAdvancedCustomIncomingPathOptions (conv : jsstr) : list AdvancedCustomIncomingPathOption :=
  filter (fun o => isConverterPathAllowed (po_value o) conv = true) ADVANCED_CUSTOM_INCOMING_PATH_OPTIONS.

Definition getDefaultAdvancedCustomIncomingPath (conv : jsstr) : jsstr :=
  match getAdvancedCustomIncomingPathOptions conv with o :: _ => po_value o | [] => [] end
  ||| js "/v1/chat/completions".

Definition isAdvancedCustomIncomingPathAllowed (incomingPath conv : jsstr) : bool :=
  isConverterPathAllowed (trim incomingPath) conv.

Definition getAdvancedCustomConverterOptions (incomingPath : jsstr) : list ConverterOption :=
  let normalizedIncomingPath := trim incomingPath in
  filter (fun o => (co_value o =s? js "none") || isConverterPathAllowed normalizedIncomingPath (co_value o) = true)
    ADVANCED_CUSTOM_CONVERTER_OPTIONS.

Definition getAdvancedCustomIncomingPathLabel (value : jsstr) : jsstr :=
  match list_find (fun o => po_value o = value) ADVANCED_CUSTOM_INCOMING_PATH_OPTIONS with
  | Some (_, o) => po_label o
  | None => []
  end ||| value.

Definition getAdvancedCustomNativeAuth (incomingPath : jsstr) : AdvancedCustomRouteAuth :=
  if incomingPath =s? claudeMessagesPath then apiKeyHeaderAuth
  else if includes (js ":generateContent") incomingPath
          || includes (js ":streamGenerateContent") incomingPath
          || includes (js ":embedContent") incomingPath
          || includes (js ":batchEmbedContents") incomingPath
  then geminiQueryAuth
  else bearerHeaderAuth.

Record AdvancedCustomConverterDefaults := mkDefaults {
  d_upstream_path : jsstr; d_auth : AdvancedCustomRouteAuth }.

Definition getAdvancedCustomConverterDefaults (conv incomingPath : jsstr) : AdvancedCustomConverterDefaults :=
  let normalizedIncomingPath := trim incomingPath ||| getDefaultAdvancedCustomIncomingPath conv in
  if conv =s? js "none"
  then mkDefaults normalizedIncomingPath (getAdvancedCustomNativeAuth normalizedIncomingPath)
  else if (conv =s? js "anthropic_messages_to_openai_chat_completions")
          || (conv =s? js "gemini_generate_content_to_openai_chat_completions")
          || (conv =s? js "openai_responses_to_openai_chat_completions")
  then mkDefaults openAIChatPath bearerHeaderAuth
  else if conv =s? js "openai_chat_completions_to_openai_responses"
  then mkDefaults openAIResponsesPath bearerHeaderAuth
  else if conv =s? js "openai_chat_completions_to_anthropic_messages"
  then mkDefaults claudeMessagesPath apiKeyHeaderAuth
  else if (conv =s? js "openai_chat_completions_to_gemini_generate_content")
          || (conv =s? js "openai_responses_to_gemini_generate_content")
  then mkDefaults geminiGenerateContentPath geminiQueryAuth
  else mkDefaults (normalizedIncomingPath ||| openAIChatPath) (getAdvancedCustomNativeAuth normalizedIncomingPath).

Definition getAdvancedCustomUpstreamPathPlaceholder (conv : jsstr) (incomingPath : option jsstr) : jsstr :=
  d_upstream_path (getAdvancedCustomConverterDefaults conv
    (default (getDefaultAdvancedCustomIncomingPath conv) incomingPath)).

Definition createAdvancedCustomRoute : AdvancedCustomRoute :=
  mkRoute (Some openAIChatPath) (Some openAIChatPath) (Some (js "none")) None None.

Definition createAdvancedCustomConfig : AdvancedCustomConfig := Some [createAdvancedCustomRoute].

(** ** Normalisation *)

(** [route.field || d] *)
Definition or_default (d : jsstr) (o : option jsstr) : jsstr := default [] o ||| d.

Definition getAdvancedCustomRouteUpstreamPath (r : AdvancedCustomRoute) : jsstr :=
  trim (or_default [] (upstream_path r)).

Definition normalizeAdvancedCustomRouteModels (ms : option (list jsstr)) : list jsstr :=
  match ms with
  | None => []
  | Some l => filter (fun m => m <> []) (trim <$> l)
  end.

Definition normalizeAdvancedCustomRoute (r : AdvancedCustomRoute) : AdvancedCustomRoute :=
  let ms := normalizeAdvancedCustomRouteModels (models r) in
  mkRoute (Some (or_default [] (incoming_path r)))
    (Some (getAdvancedCustomRouteUpstreamPath r))
    (Some (or_default (js "none") (converter r)))
    (match ms with [] => None | _ => Some ms end)
    (match auth r with
     | Some a => Some (mkAuth (a_type a) (Some (or_default [] (a_name a))) (Some (or_default [] (a_value a))))
     | None => None
     end).

Definition normalizeAdvancedCustomConfig (c : AdvancedCustomConfig) : AdvancedCustomConfig :=
  Some (match c with Some rs => normalizeAdvancedCustomRoute <$> rs | None => [] end).

Definition parseAdvancedCustomRouteModels (value : jsstr) : list jsstr :=
  dedup_nonempty [] (trim <$> split 44%N value).

(** [true] is a regex rule, [false] an exact one. *)
Definition isRegexRule (modelRule : jsstr) : bool := starts_with ADVANCED_CUSTOM_MODEL_REGEX_PREFIX modelRule.

Definition getAdvancedCustomRegexModelPattern (modelRule : jsstr) : jsstr :=
  drop (length ADVANCED_CUSTOM_MODEL_REGEX_PREFIX) modelRule.

(** ** Validation *)

Definition validateRouteAuth (a : option AdvancedCustomRouteAuth) : option jsstr :=
  match a with
  | None => None
  | Some a =>
      if bool_decide (a_type a = Some (js "none")) then None
      else if negb (bool_decide (a_type a = Some (js "header"))) && negb (bool_decide (a_type a = Some (js "query")))
      then Some (js "Auth type is invalid")
      else if negb (truthy (trim (default [] (a_name a)))) then Some (js "Auth name is required")
      else if negb (truthy (trim (default [] (a_value a)))) then Some (js "Auth value is required")
      else None
  end.

(** The entry of [routeModelsByPath] for one path. *)
Record PathState := mkPathState { catchAllIndex : option nat; seenModels : gmap jsstr nat }.
Definition emptyPathState : PathState := mkPathState None ∅.

(** The loop over the models of a route. *)
Fixpoint models_loop (index : nat) (seenInRoute : list jsstr) (st : PathState) (ms : list jsstr) :
    AdvancedCustomValidationError + PathState :=
  match ms with
  | [] => inr st
  | m :: ms' =>
      if isRegexRule m && negb (truthy (getAdvancedCustomRegexModelPattern m))
      then inl (mkError (Some index) (js "Model regex cannot be empty"))
      else if bool_decide (m ∈ seenInRoute)
      then inl (mkError (Some index) (js "Duplicate model in route models"))
      else if bool_decide (is_Some (seenModels st !! m))
      then inl (mkError (Some index) (js "Route models must be unique for the same incoming path"))
      else models_loop index (m :: seenInRoute) (mkPathState (catchAllIndex st) (<[m := index]> (seenModels st))) ms'
  end.

Definition validateAdvancedCustomRouteModels (index : nat) (incomingPath : jsstr) (ms : list jsstr)
    (byPath : gmap jsstr PathState) : AdvancedCustomValidationError + gmap jsstr PathState :=
  let st := default emptyPathState (byPath !! incomingPath) in
  match ms with
  | [] =>
      if bool_decide (is_Some (catchAllIndex st))
      then inl (mkError (Some index) (js "Only one catch-all route is allowed for the same incoming path"))
      else inr (<[incomingPath := mkPathState (Some index) (seenModels st)]> byPath)
  | _ =>
      if bool_decide (is_Some (catchAllIndex st))
      then inl (mkError (Some index) (js "Catch-all route must be last for the same incoming path"))
      else match models_loop index [] st ms with
           | inl e => inl e
           | inr st' => inr (<[incomingPath := st']> byPath)
           end
  end.

Section Validation.
(** [new URL(v)]: host and protocol. *)
Variable url : jsstr -> option (jsstr * jsstr).

Definition isFullHttpURLOrAbsolutePath (value : jsstr) : bool :=
  if starts_with (js "/") value then negb (starts_with (js "//") value)
  else match url value with
       | Some (host, protocol) => truthy host && ((protocol =s? js "http:") || (protocol =s? js "https:"))
       | None => false
       end.

(** The checks of the OpenAI Models route. *)
Definition modelListError (modelListRouteIndex : option nat) (ms : list jsstr) (conv upstreamPath : jsstr) :
    option jsstr :=
  if bool_decide (is_Some modelListRouteIndex) then Some (js "Only one OpenAI Models route is allowed")
  else if negb (bool_decide (ms = [])) then Some (js "OpenAI Models route does not support client model rules")
  else if negb (conv =s? js "none") then Some (js "OpenAI Models route must use native forwarding")
  else if includes (js "{model}") upstreamPath
  then Some (js "OpenAI Models upstream path must not contain {model}")
  else None.

(** One iteration of the loop over the routes. *)
Definition validateRoute (index : nat) (r : AdvancedCustomRoute) (byPath : gmap jsstr PathState)
    (modelListRouteIndex : option nat) :
    AdvancedCustomValidationError + (gmap jsstr PathState * option nat) :=
  let fail m := inl (mkError (Some index) m) in
  let incomingPath := trim (default [] (incoming_path r)) in
  let upstreamPath := getAdvancedCustomRouteUpstreamPath r in
  let conv := or_default (js "none") (converter r) in
  let routeModels := normalizeAdvancedCustomRouteModels (models r) in
  if negb (truthy incomingPath) then fail (js "Incoming path is required")
  else if negb (starts_with (js "/") incomingPath) then fail (js "Incoming path must start with /")
  else if includes (js "?") incomingPath then fail (js "Incoming path must not include query")
  else
    let isModelList := incomingPath =s? ADVANCED_CUSTOM_MODEL_LIST_PATH in
    match (if isModelList then modelListError modelListRouteIndex routeModels conv upstreamPath else None) with
    | Some m => fail m
    | None =>
        match validateAdvancedCustomRouteModels index incomingPath routeModels byPath with
        | inl e => inl e
        | inr byPath' =>
            if negb (truthy upstreamPath) then fail (js "Upstream path is required")
            else if negb (isFullHttpURLOrAbsolutePath upstreamPath)
            then fail (js "Upstream path must be a full URL or a path starting with /")
            else if negb (isAdvancedCustomConverter conv) then fail (js "Converter is not registered")
            else if negb (isConverterPathAllowed incomingPath conv)
            then fail (js "Converter does not match incoming path")
            else match validateRouteAuth (auth r) with
                 | Some m => fail m
                 | None => inr (byPath', if isModelList then Some index else modelListRouteIndex)
                 end
        end
    end.

Fixpoint validate_loop (index : nat) (rs : list AdvancedCustomRoute) (byPath : gmap jsstr PathState)
    (modelListRouteIndex : option nat) : option AdvancedCustomValidationError :=
  match rs with
  | [] => None
  | r :: rs' =>
      match validateRoute index r byPath modelListRouteIndex with
      | inl e => Some e
      | inr (byPath', ml') => validate_loop (S index) rs' byPath' ml'
      end
  end.

Definition routes_of (c : AdvancedCustomConfig) : list AdvancedCustomRoute :=
  default [] (normalizeAdvancedCustomConfig c).

Definition validateAdvancedCustomConfig (c : option AdvancedCustomConfig) : option AdvancedCustomValidationError :=
  match c with
  | None => Some (mkError None (js "Advanced custom configuration is required"))
  | Some c =>
      match routes_of c with
      | [] => Some (mkError None (js "Advanced custom configuration requires at least one route"))
      | rs => validate_loop 0 rs ∅ None
      end
  end.

Definition hasValidAdvancedCustomModelListRoute (c : option AdvancedCustomConfig) : bool :=
  match c with
  | None => false
  | Some cfg =>
      if bool_decide (is_Some (message <$> validateAdvancedCustomConfig c)) then false
      else existsb (fun r => trim (default [] (incoming_path r)) =s? ADVANCED_CUSTOM_MODEL_LIST_PATH) (routes_of cfg)
  end.

Definition advancedCustomConfigUsesRelativeUpstreamPath (c : option AdvancedCustomConfig) : bool :=
  match c with
  | None => false
  | Some cfg => existsb (fun r => starts_with (js "/") (getAdvancedCustomRouteUpstreamPath r)) (routes_of cfg)
  end.

End Validation.

(** ** The JSON form

    The code does not check the types of the fields it reads.  [decode_config]
    reads a parsed value as a configuration: [Throws] when reading or normalising
    it raises a [TypeError], [IllTyped] when a field keeps a value of a type its
    declaration excludes. *)

(** A field read with [v || '']: falsy values count as absent. *)
Definition decode_string (v : jsval) : Decoded (option jsstr) :=
  match v with
  | JString s => Ok (Some s)
  | _ => if js_truthy v then IllTyped else Ok None
  end.

(** A field on which [trim] is called as well. *)
Definition decode_trimmed (v : jsval) : Decoded (option jsstr) :=
  match decode_string v with IllTyped => Throws | d => d end.

Fixpoint decode_list {A} (f : jsval -> Decoded A) (l : list jsval) : Decoded (list A) :=
  match l with
  | [] => Ok []
  | v :: l' => decoded_map2 cons (f v) (decode_list f l')
  end.

Definition decode_models (v : jsval) : Decoded (option (list jsstr)) :=
  match v with
  | JArray l =>
      match decode_list (fun x => match x with JString s => Ok s | _ => Throws end) l with
      | Ok ms => Ok (Some ms)
      | Throws => Throws
      | IllTyped => IllTyped
      end
  | _ => Ok None
  end.

Definition decode_type (v : jsval) : Decoded (option jsstr) :=
  match v with JUndefined => Ok None | JString s => Ok (Some s) | _ => IllTyped end.

Definition decode_auth (v : jsval) : Decoded (option AdvancedCustomRouteAuth) :=
  if negb (js_truthy v) then Ok None
  else decoded_map2 (fun ty nv => Some (mkAuth ty nv.1 nv.2)) (decode_type (field "type" v))
         (decoded_map2 pair (decode_string (field "name" v)) (decode_string (field "value" v))).

Definition decode_route (v : jsval) : Decoded AdvancedCustomRoute :=
  if nullish v then Throws
  else decoded_map2 (fun '(i, u) '(c, (m, a)) => mkRoute i u c m a)
         (decoded_map2 pair (decode_string (field "incoming_path" v)) (decode_trimmed (field "upstream_path" v)))
         (decoded_map2 pair (decode_string (field "converter" v))
            (decoded_map2 pair (decode_models (field "models" v)) (decode_auth (field "auth" v)))).

Definition decode_config (v : jsval) : Decoded AdvancedCustomConfig :=
  match field "advanced_routes" v with
  | JArray l => match decode_list decode_route l with
                | Ok rs => Ok (Some rs)
                | Throws => Throws
                | IllTyped => IllTyped
                end
  | _ => Ok None
  end.

(** [Ok None] is [null]. *)
Definition parseAdvancedCustomConfig (value : option jsstr) : Decoded (option AdvancedCustomConfig) :=
  let value := default [] value in
  if negb (truthy (trim value)) then Ok None
  else match JSON_parse value with
       | Some (JObject fs) =>
           match decode_config (JObject fs) with
           | Ok c => Ok (Some (normalizeAdvancedCustomConfig c))
           | Throws => Ok None
           | IllTyped => IllTyped
           end
       | _ => Ok None
       end.

(** The object of a configuration: absent fields are left out. *)
Definition opt_field (k : string) (o : option jsstr) : list (jsstr * jsval) :=
  match o with Some s => [(js k, JString s)] | None => [] end.
Arguments opt_field k%_stdpp_scope o.

Definition encode_auth (a : AdvancedCustomRouteAuth) : jsval :=
  JObject (opt_field "type" (a_type a) ++ opt_field "name" (a_name a) ++ opt_field "value" (a_value a)).

Definition encode_route (r : AdvancedCustomRoute) : jsval :=
  JObject (opt_field "incoming_path" (incoming_path r) ++ opt_field "upstream_path" (upstream_path r)
           ++ opt_field "converter" (converter r)
           ++ match models r with Some ms => [(js "models", JArray (JString <$> ms))] | None => [] end
           ++ match auth r with Some a => [(js "auth", encode_auth a)] | None => [] end).

Definition encode_config (c : AdvancedCustomConfig) : jsval :=
  JObject (match c with
           | Some rs => [(js "advanced_routes", JArray (encode_route <$> rs))]
           | None => []
           end).

(** A configuration holds no numbers: the printer of numbers is never used. *)
Definition no_numbers : jsnum -> jsstr := fun _ => [].

Definition stringifyAdvancedCustomConfig (c : AdvancedCustomConfig) : jsstr :=
  stringify2 no_numbers (encode_config (normalizeAdvancedCustomConfig c)).

Definition cloneAdvancedCustomConfig (c : AdvancedCustomConfig) : Decoded AdvancedCustomConfig :=
  match JSON_parse (stringify no_numbers (encode_config c)) with
  | Some v => decode_config v
  | None => Throws
  end.

Definition getAdvancedCustomTemplateConfig (templateKey : jsstr) : Decoded AdvancedCustomConfig :=
  match list_find (fun o => tp_value o = templateKey) ADVANCED_CUSTOM_TEMPLATE_OPTIONS with
  | Some (_, o) => cloneAdvancedCustomConfig (tp_config o)
  | None => match ADVANCED_CUSTOM_TEMPLATE_OPTIONS with
            | o :: _ => cloneAdvancedCustomConfig (tp_config o)
            | [] => Throws
            end
  end.

(** ** Summaries and authentication modes *)

(** The labels are looked up under paths, which are not names of
    [Object.prototype]. *)
Definition getAdvancedCustomRouteSummaryLabel (r : AdvancedCustomRoute) : option jsstr :=
  let incomingPath := trim (default [] (incoming_path r)) in
  if negb (truthy incomingPath) then None
  else Some (match list_find (fun kv => kv.1 = incomingPath) ADVANCED_CUSTOM_ROUTE_SUMMARY_LABELS with
             | Some (_, kv) => kv.2
             | None => []
             end ||| getAdvancedCustomIncomingPathLabel incomingPath).

Record AdvancedCustomStats := mkStats { routeCount : nat; valid : bool; routeTypeLabels : list jsstr }.

Definition getAdvancedCustomStats (url : jsstr -> option (jsstr * jsstr)) (value : option jsstr) :
    Decoded AdvancedCustomStats :=
  match parseAdvancedCustomConfig value with
  | Throws => Throws
  | IllTyped => IllTyped
  | Ok None => Ok (mkStats 0 false [])
  | Ok (Some c) =>
      let rs := routes_of c in
      Ok (mkStats (length rs)
            (bool_decide (message <$> validateAdvancedCustomConfig url (Some (normalizeAdvancedCustomConfig c)) = None))
            (dedup_nonempty [] (omap getAdvancedCustomRouteSummaryLabel rs)))
  end.

Definition getAdvancedCustomAuthMode (r : AdvancedCustomRoute) : jsstr :=
  match auth r with Some a => default [] (a_type a) | None => [] end ||| js "default".

Definition buildAdvancedCustomAuth (mode : jsstr) (previousAuth : option AdvancedCustomRouteAuth) :
    option AdvancedCustomRouteAuth :=
  let name := match previousAuth with Some a => default [] (a_name a) | None => [] end in
  let value := match previousAuth with Some a => default [] (a_value a) | None => [] end in
  if mode =s? js "default" then None
  else if mode =s? js "none" then Some (mkAuth (Some (js "none")) None None)
  else if mode =s? js "header"
  then Some (mkAuth (Some (js "header")) (Some (name ||| js "Authorization")) (Some (value ||| js "Bearer {api_key}")))
  else Some (mkAuth (Some (js "query")) (Some (name ||| js "api_key")) (Some (value ||| js "{api_key}"))).

(** ** Normalisation: lemmas *)

Lemma or_default_idem d o : or_default d (Some (or_default d o)) = or_default d o.
Proof. unfold or_default, str_or. simpl. destruct (truthy (default [] o)) eqn:E; [by rewrite E|]. by case_match. Qed.

Lemma or_default_nil o : or_default [] o = default [] o.
Proof. unfold or_default, str_or. case_match; [done|]. by apply truthy_false in H. Qed.

Lemma normalize_models_idem ms :
  normalizeAdvancedCustomRouteModels (Some (normalizeAdvancedCustomRouteModels ms))
  = normalizeAdvancedCustomRouteModels ms.
Proof.
  destruct ms as [l|]; [|done]. cbn [normalizeAdvancedCustomRouteModels]. induction l as [|m l IH]; [done|].
  rewrite fmap_cons, filter_cons. case_decide; [|done]. rewrite fmap_cons, filter_cons, trim_idem.
  rewrite decide_True by done. by rewrite IH.
Qed.

Lemma normalize_models_view r :
  normalizeAdvancedCustomRouteModels (models (normalizeAdvancedCustomRoute r))
  = normalizeAdvancedCustomRouteModels (models r).
Proof.
  unfold normalizeAdvancedCustomRoute. cbn [models].
  destruct (normalizeAdvancedCustomRouteModels (models r)) eqn:E; [done|]. rewrite <- E. apply normalize_models_idem.
Qed.

Lemma normalize_upstream_view r :
  getAdvancedCustomRouteUpstreamPath (normalizeAdvancedCustomRoute r) = getAdvancedCustomRouteUpstreamPath r.
Proof.
  unfold getAdvancedCustomRouteUpstreamPath at 1. simpl. rewrite or_default_nil. apply trim_idem.
Qed.

Lemma normalize_route_idem r :
  normalizeAdvancedCustomRoute (normalizeAdvancedCustomRoute r) = normalizeAdvancedCustomRoute r.
Proof.
  unfold normalizeAdvancedCustomRoute at 1. rewrite normalize_models_view, normalize_upstream_view. simpl.
  rewrite !or_default_idem. unfold normalizeAdvancedCustomRoute. f_equal.
  destruct (auth r) as [a|]; [|done]. simpl. by rewrite !or_default_idem.
Qed.

Lemma normalize_config_idem c :
  normalizeAdvancedCustomConfig (normalizeAdvancedCustomConfig c) = normalizeAdvancedCustomConfig c.
Proof.
  unfold normalizeAdvancedCustomConfig. f_equal. destruct c as [rs|]; [|done].
  rewrite <- list_fmap_compose. apply list_fmap_ext. intros. apply normalize_route_idem.
Qed.

(** ** The JSON form: lemmas *)

Lemma decode_list_encode {A} (f : jsval -> Decoded A) (g : A -> jsval) l :
  (forall x, f (g x) = Ok x) -> decode_list f (g <$> l) = Ok l.
Proof. intros H. induction l as [|x l IH]; [done|]. rewrite fmap_cons. cbn [decode_list]. by rewrite H, IH. Qed.

Lemma decode_models_encode ms : decode_models (JArray (JString <$> ms)) = Ok (Some ms).
Proof. unfold decode_models. by rewrite decode_list_encode. Qed.

Lemma decode_auth_encode a : decode_auth (encode_auth a) = Ok (Some a).
Proof. destruct a as [[] [] []]; reflexivity. Qed.

Lemma decode_route_encode r : decode_route (encode_route r) = Ok r.
Proof.
  assert (Ha : decode_auth (field "auth" (encode_route r)) = Ok (auth r)).
  { transitivity (match auth r with Some a => decode_auth (encode_auth a) | None => Ok None end).
    - destruct r as [[] [] [] [] []]; reflexivity.
    - destruct (auth r); [apply decode_auth_encode|done]. }
  assert (Hm : decode_models (field "models" (encode_route r)) = Ok (models r)).
  { transitivity (match models r with Some ms => decode_models (JArray (JString <$> ms)) | None => Ok None end).
    - destruct r as [[] [] [] [] []]; reflexivity.
    - destruct (models r); [apply decode_models_encode|done]. }
  unfold decode_route. rewrite Ha, Hm. destruct r as [[] [] [] [] []]; reflexivity.
Qed.

Lemma decode_config_encode c : decode_config (encode_config c) = Ok c.
Proof.
  destruct c as [rs|]; [|done]. unfold decode_config, encode_config.
  change (field "advanced_routes" _) with (JArray (encode_route <$> rs)). cbv iota.
  by rewrite (decode_list_encode decode_route encode_route rs decode_route_encode).
Qed.

(** The strings of a configuration are strings of 16-bit units. *)
Definition opt_ok (o : option jsstr) : bool := str_ok (default [] o).

Definition route_ok (r : AdvancedCustomRoute) : bool :=
  opt_ok (incoming_path r) && opt_ok (upstream_path r) && opt_ok (converter r)
  && forallb str_ok (default [] (models r))
  && match auth r with Some a => opt_ok (a_type a) && opt_ok (a_name a) && opt_ok (a_value a) | None => true end.

Definition config_ok (c : AdvancedCustomConfig) : bool := forallb route_ok (default [] c).

Lemma str_ok_trim s : str_ok s = true -> str_ok (trim s) = true.
Proof.
  unfold str_ok. rewrite !forallb_forall. intros H c Hc. apply H.
  apply list_elem_of_In, trim_elem_of, list_elem_of_In, Hc.
Qed.

Lemma opt_ok_or_default d o : str_ok d = true -> opt_ok o = true -> str_ok (or_default d o) = true.
Proof. unfold opt_ok, or_default, str_or. intros Hd Ho. by case_match. Qed.

Lemma normalize_route_ok r : route_ok r = true -> route_ok (normalizeAdvancedCustomRoute r) = true.
Proof.
  unfold route_ok. rewrite !andb_true_iff. intros ((((H1 & H2) & H3) & H4) & H5). split_and!.
  - by apply opt_ok_or_default.
  - unfold opt_ok. simpl. unfold getAdvancedCustomRouteUpstreamPath. apply str_ok_trim. by apply opt_ok_or_default.
  - by apply opt_ok_or_default.
  - unfold normalizeAdvancedCustomRoute. cbn [models].
    assert (Hm : forallb str_ok (normalizeAdvancedCustomRouteModels (models r)) = true).
    { destruct (models r) as [l|]; [|done]. simpl in H4 |- *. rewrite forallb_forall in H4 |- *.
      intros x Hx%list_elem_of_In. apply list_elem_of_filter in Hx as [_ Hx].
      apply list_elem_of_fmap in Hx as (y & -> & Hy). apply str_ok_trim, H4. by apply list_elem_of_In. }
    destruct (normalizeAdvancedCustomRouteModels (models r)); done.
  - unfold normalizeAdvancedCustomRoute. cbn [auth]. destruct (auth r) as [a|]; [|done]. simpl.
    rewrite !andb_true_iff in H5 |- *. destruct H5 as [[? ?] ?].
    split_and!; [done|by apply opt_ok_or_default|by apply opt_ok_or_default].
Qed.

Lemma json_ok_route r : route_ok r = true -> json_ok no_numbers (encode_route r) = true.
Proof.
  unfold route_ok. rewrite !andb_true_iff. intros ((((H1 & H2) & H3) & H4) & H5).
  assert (Hm : forall ms, forallb str_ok ms = true -> forallb (json_ok no_numbers) (JString <$> ms) = true).
  { induction ms as [|m ms IH]; [done|]. simpl. rewrite !andb_true_iff. naive_solver. }
  assert (Ha : match auth r with Some a => json_ok no_numbers (encode_auth a) | None => true end = true).
  { destruct (auth r) as [[[] [] []]|]; [..|done]; simpl in H5; unfold opt_ok in H5; simpl in H5;
      rewrite ?andb_true_iff in H5; unfold encode_auth; simpl; rewrite ?andb_true_iff; naive_solver. }
  assert (Hk : forall b l, forallb (fun kv => str_ok kv.1 && json_ok no_numbers kv.2) l = true ->
     b = true -> forallb (fun kv : jsstr * jsval => str_ok kv.1 && json_ok no_numbers kv.2) l && b = true)
    by (intros ? ? -> ->; done).
  unfold encode_route. cbn [json_ok]. apply Hk.
  - unfold opt_ok in *. rewrite !forallb_app, !andb_true_iff. split_and!.
    + destruct (incoming_path r); [|done]. simpl in *. by rewrite H1.
    + destruct (upstream_path r); [|done]. simpl in *. by rewrite H2.
    + destruct (converter r); [|done]. simpl in *. by rewrite H3.
    + destruct (models r); [|done]. simpl in *. by rewrite Hm.
    + destruct (auth r); [|done]. cbn [forallb fst snd]. by rewrite Ha.
  - destruct r as [[] [] [] [] []]; vm_compute; reflexivity.
Qed.

Lemma json_ok_config c : config_ok c = true -> json_ok no_numbers (encode_config c) = true.
Proof.
  intros H. destruct c as [rs|]; [|done]. unfold config_ok in H. cbn [default] in H.
  assert (Hr : forallb (json_ok no_numbers) (encode_route <$> rs) = true).
  { induction rs as [|r rs IH]; [done|]. rewrite fmap_cons. cbn [forallb] in H |- *.
    apply andb_true_iff in H as [H1 H2]. rewrite json_ok_route by done. by apply IH. }
  unfold encode_config. cbn [json_ok forallb fst snd]. by rewrite Hr.
Qed.

Lemma normalize_config_ok c : config_ok c = true -> config_ok (normalizeAdvancedCustomConfig c) = true.
Proof.
  unfold config_ok, normalizeAdvancedCustomConfig. destruct c as [rs|]; [|done]. simpl.
  rewrite !forallb_forall. intros H x Hx%list_elem_of_In.
  apply list_elem_of_fmap in Hx as (r & -> & Hr%list_elem_of_In). by apply normalize_route_ok, H.
Qed.

Lemma trim_brace s : truthy (trim (123%N :: s)) = true.
Proof.
  apply truthy_true. destruct (trim_decompose (123%N :: s)) as (a & b & E & Ha & Hb). intros Ht.
  rewrite Ht in E. destruct a as [|c a].
  - destruct b as [|c b]; [done|]. simpl in E. injection E as <- _. apply Forall_cons in Hb as [Hb _]. done.
  - simpl in E. injection E as <- _. apply Forall_cons in Ha as [Ha _]. done.
Qed.

Lemma parse_stringified_config c :
  config_ok c = true ->
  parseAdvancedCustomConfig (Some (stringifyAdvancedCustomConfig c)) = Ok (Some (normalizeAdvancedCustomConfig c)).
Proof.
  intros H. unfold parseAdvancedCustomConfig, stringifyAdvancedCustomConfig.
  change (default [] (Some ?x)) with x.
  assert (Ht : truthy (trim (stringify2 no_numbers (encode_config (normalizeAdvancedCustomConfig c)))) = true)
    by apply trim_brace.
  rewrite Ht. cbn [negb]. rewrite JSON_parse_stringify2 by (by apply json_ok_config, normalize_config_ok).
  unfold encode_config at 1. cbv iota. fold (encode_config (normalizeAdvancedCustomConfig c)).
  rewrite decode_config_encode. by rewrite normalize_config_idem.
Qed.

(** Saving and reading back an advanced custom configuration gives its
    normal form, for every configuration of strings; normalising is idempotent,
    so reading, saving and reading again changes nothing; and the deep copy
    through JSON that the templates use is the identity. *)
Theorem config_roundtrip c :
  config_ok c = true ->
  parseAdvancedCustomConfig (Some (stringifyAdvancedCustomConfig c))
  = Ok (Some (normalizeAdvancedCustomConfig c))
  /\ normalizeAdvancedCustomConfig (normalizeAdvancedCustomConfig c) = normalizeAdvancedCustomConfig c
  /\ stringifyAdvancedCustomConfig (normalizeAdvancedCustomConfig c) = stringifyAdvancedCustomConfig c
  /\ cloneAdvancedCustomConfig c = Ok c.
Proof.
  intros H. split_and!.
  - by apply parse_stringified_config.
  - apply normalize_config_idem.
  - unfold stringifyAdvancedCustomConfig. by rewrite normalize_config_idem.
  - unfold cloneAdvancedCustomConfig. rewrite JSON_parse_stringify by (by apply json_ok_config).
    apply decode_config_encode.
Qed.

Lemma config_roundtrip_witness :
  parseAdvancedCustomConfig (Some (stringifyAdvancedCustomConfig createAdvancedCustomConfig))
  = Ok (Some (normalizeAdvancedCustomConfig createAdvancedCustomConfig)).
Proof. refine (proj1 (config_roundtrip createAdvancedCustomConfig _)). vm_compute. reflexivity. Defined.

(** ** Validation: specification *)

(** What the validation reads of a route. *)
Definition path_of (r : AdvancedCustomRoute) : jsstr := trim (default [] (incoming_path r)).
Definition models_of (r : AdvancedCustomRoute) : list jsstr := normalizeAdvancedCustomRouteModels (models r).
Definition converter_of (r : AdvancedCustomRoute) : jsstr := or_default (js "none") (converter r).

(** A model rule that is an empty regex. *)
Definition empty_regex (m : jsstr) : Prop := m = ADVANCED_CUSTOM_MODEL_REGEX_PREFIX.

Section Specification.
Variable url : jsstr -> option (jsstr * jsstr).

(** What a route must satisfy on its own. *)
Record RouteOk (r : AdvancedCustomRoute) : Prop := {
  rk_path : starts_with (js "/") (path_of r) = true;
  rk_query : includes (js "?") (path_of r) = false;
  rk_list : path_of r = ADVANCED_CUSTOM_MODEL_LIST_PATH ->
    models_of r = [] /\ converter_of r = js "none"
    /\ includes (js "{model}") (getAdvancedCustomRouteUpstreamPath r) = false;
  rk_models : NoDup (models_of r) /\ Forall (fun m => ~ empty_regex m) (models_of r);
  rk_upstream : isFullHttpURLOrAbsolutePath url (getAdvancedCustomRouteUpstreamPath r) = true
                /\ getAdvancedCustomRouteUpstreamPath r <> [];
  rk_converter : isAdvancedCustomConverter (converter_of r) = true
                 /\ isConverterPathAllowed (path_of r) (converter_of r) = true;
  rk_auth : validateRouteAuth (auth r) = None }.

(** What it must satisfy with respect to an earlier route: on the same path the
    earlier one is not a catch-all and they share no model rule. *)
Definition Compatible (p r : AdvancedCustomRoute) : Prop :=
  path_of p = path_of r -> models_of p <> [] /\ forall m, m ∈ models_of p -> m ∉ models_of r.

Definition Acceptable (prev : list AdvancedCustomRoute) (r : AdvancedCustomRoute) : Prop :=
  RouteOk r /\ Forall (fun p => Compatible p r) prev.

(** Every route is acceptable after the ones before it. *)
Fixpoint AllAcceptable (prev rs : list AdvancedCustomRoute) : Prop :=
  match rs with
  | [] => True
  | r :: rs' => Acceptable prev r /\ AllAcceptable (prev ++ [r]) rs'
  end.

(** ** Validation: proofs *)

(** The tables after the routes [prev]. *)
Record Tables (prev : list AdvancedCustomRoute) (byPath : gmap jsstr PathState) (ml : option nat) : Prop := {
  tb_catch q : is_Some (catchAllIndex (default emptyPathState (byPath !! q)))
    <-> exists r, r ∈ prev /\ path_of r = q /\ models_of r = [];
  tb_models q m : is_Some (seenModels (default emptyPathState (byPath !! q)) !! m)
    <-> exists r, r ∈ prev /\ path_of r = q /\ m ∈ models_of r;
  tb_list : is_Some ml
    <-> exists r, r ∈ prev /\ path_of r = ADVANCED_CUSTOM_MODEL_LIST_PATH /\ models_of r = [] }.

Lemma Tables_nil : Tables [] ∅ None.
Proof.
  assert (Hn : forall A, ~ is_Some (@None A)) by (intros A [? ?]; done).
  split; intros *; rewrite ?lookup_empty; simpl; rewrite ?lookup_empty; split; try (by intros ?%Hn); set_solver.
Qed.

Lemma regex_empty_spec m :
  isRegexRule m && negb (truthy (getAdvancedCustomRegexModelPattern m)) = true <-> empty_regex m.
Proof.
  unfold isRegexRule, empty_regex, getAdvancedCustomRegexModelPattern. split.
  - rewrite andb_true_iff, negb_true_iff. intros [Hs Ht%truthy_false]. apply starts_with_drop in Hs.
    by rewrite Ht, app_nil_r in Hs.
  - by intros ->.
Qed.

Lemma models_loop_spec index ms : forall seen st,
  match models_loop index seen st ms with
  | inr st' =>
      NoDup ms /\ Forall (fun m => ~ empty_regex m /\ (m ∉ seen) /\ ~ is_Some (seenModels st !! m)) ms
      /\ catchAllIndex st' = catchAllIndex st
      /\ forall m, is_Some (seenModels st' !! m) <-> is_Some (seenModels st !! m) \/ m ∈ ms
  | inl e =>
      routeIndex e = Some index
      /\ ~ (NoDup ms /\ Forall (fun m => ~ empty_regex m /\ (m ∉ seen) /\ ~ is_Some (seenModels st !! m)) ms)
  end.
Proof.
  induction ms as [|m ms IH]; intros seen st; cbn [models_loop].
  { split_and!; try done; [constructor|]. set_solver. }
  destruct (isRegexRule m && _) eqn:E1.
  { apply regex_empty_spec in E1. split; [done|]. intros [_ H]. apply Forall_cons in H as [H _]. tauto. }
  assert (Hne : ~ empty_regex m) by (rewrite <- regex_empty_spec, E1; done).
  case_bool_decide as E2.
  { split; [done|]. intros [_ H]. apply Forall_cons in H as [H _]. tauto. }
  case_bool_decide as E3.
  { split; [done|]. intros [_ H]. apply Forall_cons in H as [H _]. tauto. }
  specialize (IH (m :: seen) (mkPathState (catchAllIndex st) (<[m := index]> (seenModels st)))).
  cbn [catchAllIndex seenModels] in IH.
  assert (Hcond : (NoDup ms /\ Forall (fun x => ~ empty_regex x /\ (x ∉ m :: seen)
                     /\ ~ is_Some (<[m := index]> (seenModels st) !! x)) ms)
                  <-> (NoDup (m :: ms) /\ Forall (fun x => ~ empty_regex x /\ (x ∉ seen)
                     /\ ~ is_Some (seenModels st !! x)) (m :: ms))).
  { rewrite NoDup_cons, Forall_cons, !Forall_forall. split.
    - intros [Hnd Hf]. split_and!; try done.
      + intros Hin. destruct (Hf m Hin) as (_ & Hx & _). set_solver.
      + intros x Hx. destruct (Hf x Hx) as (? & Hx1 & Hx2). apply not_elem_of_cons in Hx1 as [? ?].
        rewrite lookup_insert_ne in Hx2 by done. done.
    - intros [[Hm Hnd] [_ Hf]]. split; [done|]. intros x Hx. destruct (Hf x Hx) as (? & ? & ?).
      assert (m <> x) by congruence. rewrite lookup_insert_ne by done. set_solver. }
  destruct (models_loop _ _ _ ms) as [e|st'].
  - destruct IH as [He IH]. split; [done|]. by rewrite <- Hcond.
  - destruct IH as (H1 & H2 & H3 & H4). destruct (proj1 Hcond (conj H1 H2)) as [H5 H6].
    split_and!; try done. intros x. rewrite H4, elem_of_cons. destruct (decide (m = x)) as [->|].
    + rewrite lookup_insert_eq. split; [tauto|]. intros _. left. eauto.
    + rewrite lookup_insert_ne by done. naive_solver.
Qed.

(** Recording a route in the tables. *)
Lemma Tables_app prev byPath ml r st' ml' :
  Tables prev byPath ml ->
  let st := default emptyPathState (byPath !! path_of r) in
  (is_Some (catchAllIndex st') <-> (is_Some (catchAllIndex st) \/ models_of r = [])) ->
  (forall m, is_Some (seenModels st' !! m) <-> (is_Some (seenModels st !! m) \/ m ∈ models_of r)) ->
  (is_Some ml' <-> (is_Some ml \/ (path_of r = ADVANCED_CUSTOM_MODEL_LIST_PATH /\ models_of r = []))) ->
  Tables (prev ++ [r]) (<[path_of r := st']> byPath) ml'.
Proof.
  intros [Hc Hm Hl] st Hc' Hm' Hl'. split.
  - intros q. destruct (decide (path_of r = q)) as [<-|Hq].
    + rewrite lookup_insert_eq. simpl. rewrite Hc'. unfold st. rewrite Hc. set_solver.
    + rewrite lookup_insert_ne by done. rewrite Hc. set_solver.
  - intros q m. destruct (decide (path_of r = q)) as [<-|Hq].
    + rewrite lookup_insert_eq. simpl. rewrite Hm'. unfold st. rewrite Hm. set_solver.
    + rewrite lookup_insert_ne by done. rewrite Hm. set_solver.
  - rewrite Hl', Hl. set_solver.
Qed.

(** The conditions of [validateAdvancedCustomRouteModels]. *)
Definition ModelsOk (prev : list AdvancedCustomRoute) (r : AdvancedCustomRoute) : Prop :=
  NoDup (models_of r) /\ Forall (fun m => ~ empty_regex m) (models_of r)
  /\ Forall (fun p => Compatible p r) prev.

Definition models_result (prev : list AdvancedCustomRoute) (ml : option nat) (index : nat)
    (r : AdvancedCustomRoute) (res : AdvancedCustomValidationError + gmap jsstr PathState) : Prop :=
  match res with
  | inl e => routeIndex e = Some index /\ ~ ModelsOk prev r
  | inr byPath' =>
      ModelsOk prev r
      /\ forall ml', (is_Some ml' <-> (is_Some ml \/ (path_of r = ADVANCED_CUSTOM_MODEL_LIST_PATH /\ models_of r = []))) ->
         Tables (prev ++ [r]) byPath' ml'
  end.

(** An earlier catch-all route on the path. *)
Lemma catch_all_conflict prev byPath ml r :
  Tables prev byPath ml ->
  is_Some (catchAllIndex (default emptyPathState (byPath !! path_of r))) -> ~ ModelsOk prev r.
Proof.
  intros HT (p & Hp & Hq & Hn)%(tb_catch _ _ _ HT) (_ & _ & Hf). rewrite Forall_forall in Hf.
  destruct (Hf p Hp Hq) as [H _]. done.
Qed.

Lemma compatible_intro prev byPath ml r :
  Tables prev byPath ml ->
  let st := default emptyPathState (byPath !! path_of r) in
  ~ is_Some (catchAllIndex st) ->
  Forall (fun p => Compatible p r) prev <-> Forall (fun m => ~ is_Some (seenModels st !! m)) (models_of r).
Proof.
  intros HT st Hn. rewrite !Forall_forall. split.
  - intros H m Hm (p & Hp & Hq & Hpm)%(tb_models _ _ _ HT). destruct (H p Hp Hq) as [_ Hd]. by apply (Hd m).
  - intros H p Hp Hq. split.
    + intros He. apply Hn, (tb_catch _ _ _ HT). eauto.
    + intros m Hpm Hm. apply (H m Hm), (tb_models _ _ _ HT). eauto.
Qed.

Lemma validate_models_spec prev byPath ml index r :
  Tables prev byPath ml ->
  models_result prev ml index r (validateAdvancedCustomRouteModels index (path_of r) (models_of r) byPath).
Proof.
  intros HT. unfold validateAdvancedCustomRouteModels.
  set (st := default emptyPathState (byPath !! path_of r)).
  pose proof (catch_all_conflict prev byPath ml r HT) as Hconf. fold st in Hconf.
  pose proof (compatible_intro prev byPath ml r HT) as Hcomp. cbv zeta in Hcomp. fold st in Hcomp.
  destruct (models_of r) as [|m ms] eqn:Em.
  - case_bool_decide as Hc; [by split; [|apply Hconf]|]. split.
    + unfold ModelsOk. rewrite Em. split_and!; [constructor|constructor|]. by apply Hcomp.
    + intros ml' Hml. apply (Tables_app _ _ _ _ _ _ HT); simpl; [|intros ?|done]; rewrite Em; fold st; [|set_solver].
      split; [by right|by eauto].
  - case_bool_decide as Hc; [by split; [|apply Hconf]|]. specialize (Hcomp Hc). rewrite <- Em in *.
    pose proof (models_loop_spec index (models_of r) [] st) as Hloop.
    assert (Hok : ModelsOk prev r <-> NoDup (models_of r)
      /\ Forall (fun m => ~ empty_regex m /\ (m ∉ []) /\ ~ is_Some (seenModels st !! m)) (models_of r)).
    { unfold ModelsOk. rewrite Hcomp, !Forall_forall. set_solver. }
    destruct (models_loop index [] st (models_of r)) as [e|st'].
    + destruct Hloop as [He Hn]. split; [done|]. by rewrite Hok.
    + destruct Hloop as (H1 & H2 & H3 & H4). split; [by apply Hok|].
      intros ml' Hml. apply (Tables_app _ _ _ _ _ _ HT); [|intros ?|done]; fold st.
      * rewrite H3, Em. naive_solver.
      * by rewrite H4.
Qed.

(** One iteration accepts exactly the acceptable routes. *)
Lemma validateRoute_spec prev byPath ml index r :
  Tables prev byPath ml ->
  match validateRoute url index r byPath ml with
  | inl e => routeIndex e = Some index /\ ~ Acceptable prev r
  | inr (byPath', ml') => Acceptable prev r /\ Tables (prev ++ [r]) byPath' ml'
  end.
Proof.
  intros HT. unfold validateRoute. fold (path_of r) (models_of r) (converter_of r).
  destruct (truthy (path_of r)) eqn:E0; cbn [negb].
  2: { split; [done|]. intros [[H1 _ _ _ _ _ _] _]. apply truthy_false in E0. by rewrite E0 in H1. }
  destruct (starts_with (js "/") (path_of r)) eqn:E1; cbn [negb];
    [|split; [done|]; intros [[H _ _ _ _ _ _] _]; congruence].
  destruct (includes (js "?") (path_of r)) eqn:E2; [split; [done|]; intros [[_ H _ _ _ _ _] _]; congruence|].
  set (lerr := if path_of r =s? ADVANCED_CUSTOM_MODEL_LIST_PATH then _ else None).
  assert (Hl : match lerr with
               | Some _ => ~ Acceptable prev r
               | None => path_of r = ADVANCED_CUSTOM_MODEL_LIST_PATH ->
                   models_of r = [] /\ converter_of r = js "none"
                   /\ includes (js "{model}") (getAdvancedCustomRouteUpstreamPath r) = false
               end).
  { unfold lerr. destruct (path_of r =s? _) eqn:El; [|apply str_eqb_neq in El; done]. apply str_eqb_eq in El.
    unfold modelListError. case_bool_decide as Hml.
    { intros [_ Hf]. apply (tb_list _ _ _ HT) in Hml as (p & Hp & Hq & Hn).
      rewrite Forall_forall in Hf. destruct (Hf p Hp) as [Hne _]; congruence. }
    case_bool_decide as Hm; cbn [negb]; [|intros [[_ _ H _ _ _ _] _]; destruct (H El); tauto].
    destruct (converter_of r =s? js "none") eqn:Ec; cbn [negb].
    2: { apply str_eqb_neq in Ec. intros [[_ _ H _ _ _ _] _]. destruct (H El) as (_ & ? & _). done. }
    apply str_eqb_eq in Ec. destruct (includes (js "{model}") _) eqn:Ei; [|done].
    intros [[_ _ H _ _ _ _] _]. destruct (H El) as (_ & _ & ?). congruence. }
  destruct lerr as [m|]; [done|].
  pose proof (validate_models_spec prev byPath ml index r HT) as Hms.
  destruct (validateAdvancedCustomRouteModels _ _ _ _) as [e|byPath'].
  { destruct Hms as [He Hn]. split; [done|]. intros [[_ _ _ [H4 H4'] _ _ _] Hf]. by apply Hn. }
  destruct Hms as [(Hm1 & Hm2 & Hm3) HT'].
  destruct (truthy (getAdvancedCustomRouteUpstreamPath r)) eqn:E3; cbn [negb].
  2: { split; [done|]. apply truthy_false in E3. intros [[_ _ _ _ [_ H] _ _] _]. done. }
  destruct (isFullHttpURLOrAbsolutePath _ _) eqn:E4; cbn [negb];
    [|split; [done|]; intros [[_ _ _ _ [H _] _ _] _]; congruence].
  destruct (isAdvancedCustomConverter _) eqn:E5; cbn [negb];
    [|split; [done|]; intros [[_ _ _ _ _ [H _] _] _]; congruence].
  destruct (isConverterPathAllowed _ _) eqn:E6; cbn [negb];
    [|split; [done|]; intros [[_ _ _ _ _ [_ H] _] _]; congruence].
  destruct (validateRouteAuth _) eqn:E7; [split; [done|]; intros [[_ _ _ _ _ _ H] _]; congruence|].
  apply truthy_true in E3. split; [by split|]. apply HT'.
  destruct (path_of r =s? _) eqn:El.
  - apply str_eqb_eq in El. destruct (Hl El) as [Hn _]. split; [by right|by eauto].
  - apply str_eqb_neq in El. naive_solver.
Qed.

Lemma validate_loop_spec rs : forall prev byPath ml,
  Tables prev byPath ml ->
  match validate_loop url (length prev) rs byPath ml with
  | None => AllAcceptable prev rs
  | Some e => exists i r, rs !! i = Some r /\ routeIndex e = Some (length prev + i)
                /\ AllAcceptable prev (take i rs) /\ ~ Acceptable (prev ++ take i rs) r
  end.
Proof.
  induction rs as [|r rs IH]; intros prev byPath ml HT; [done|]. cbn [validate_loop].
  pose proof (validateRoute_spec prev byPath ml (length prev) r HT) as Hr.
  destruct (validateRoute _ _ _ _ _) as [e|[byPath' ml']].
  - destruct Hr as [He Hn]. exists 0, r. rewrite Nat.add_0_r, app_nil_r. done.
  - destruct Hr as [Ha HT']. specialize (IH (prev ++ [r]) byPath' ml' HT').
    rewrite length_app, Nat.add_1_r in IH.
    destruct (validate_loop _ _ _ _ _) as [e|]; [|done].
    destruct IH as (i & r' & H1 & H2 & H3 & H4). exists (S i), r'. split_and!; [done| |done|].
    + rewrite H2. f_equal. lia.
    + by rewrite <- app_assoc in H4.
Qed.

Lemma AllAcceptable_app prev a b :
  AllAcceptable prev (a ++ b) <-> AllAcceptable prev a /\ AllAcceptable (prev ++ a) b.
Proof.
  revert prev. induction a as [|r a IH]; intros prev; simpl; [by rewrite app_nil_r; tauto|].
  rewrite IH, <- app_assoc. simpl. tauto.
Qed.

Lemma AllAcceptable_spec rs :
  AllAcceptable [] rs <->
  Forall RouteOk rs
  /\ forall i j p r, i < j -> rs !! i = Some p -> rs !! j = Some r -> Compatible p r.
Proof.
  induction rs as [|r rs IH] using rev_ind.
  { split; [|done]. intros _. split; [apply Forall_nil_2|]. intros i j p r _ Hi. done. }
  rewrite AllAcceptable_app. simpl. rewrite IH. unfold Acceptable. rewrite Forall_app, Forall_singleton. split.
  - intros ((H1 & H2) & (H3 & H4) & _). split; [done|]. intros i j p q Hij Hi Hj.
    apply lookup_app_Some in Hj as [Hj|[Hl Hj]].
    + apply (H2 i j); try done. rewrite lookup_app_l in Hi; [done|]. apply lookup_lt_Some in Hj. lia.
    + destruct (j - length rs) as [|k] eqn:Ek; [|done]. injection Hj as <-.
      rewrite lookup_app_l in Hi by lia. rewrite Forall_forall in H4. apply H4. by eapply list_elem_of_lookup_2.
  - intros ((H1 & H3) & H2). split_and!; try done.
    + intros i j p q Hij Hi Hj. apply (H2 i j); try done; by apply lookup_app_l_Some.
    + apply Forall_forall. intros p [i Hi]%list_elem_of_lookup. apply (H2 i (length rs)).
      * by eapply lookup_lt_Some.
      * by apply lookup_app_l_Some.
      * by rewrite lookup_app_r, Nat.sub_diag by lia.
Qed.

End Specification.

(** ** Properties of the validation *)

Lemma validate_spec_aux url c :
  match validateAdvancedCustomConfig url (Some c) with
  | None => routes_of c <> [] /\ AllAcceptable url [] (routes_of c)
  | Some e =>
      match routeIndex e with
      | None => routes_of c = []
      | Some i => exists r, routes_of c !! i = Some r /\ AllAcceptable url [] (take i (routes_of c))
                    /\ ~ Acceptable url (take i (routes_of c)) r
      end
  end.
Proof.
  unfold validateAdvancedCustomConfig. destruct (routes_of c) as [|r0 rs0] eqn:E; [done|]. rewrite <- E.
  pose proof (validate_loop_spec url (routes_of c) [] ∅ None Tables_nil) as H. simpl length in H.
  destruct (validate_loop _ _ _ _ _) as [e|].
  - destruct H as (i & r & H1 & H2 & H3 & H4). rewrite H2. eauto.
  - split; [|done]. by rewrite E.
Qed.

(** C20: The validation accepts a configuration exactly when it has a route, every
    route is well formed on its own (path, upstream, converter registered and
    allowed on the path, authentication, distinct non-empty model rules, the
    restrictions of the OpenAI Models route), and of two routes on the same path
    the earlier is not a catch-all and they share no model rule; when it reports
    an error at an index, the routes before it are acceptable and this one is not. *)
Theorem validate_correct url c :
  (validateAdvancedCustomConfig url (Some c) = None <->
     routes_of c <> [] /\ Forall (RouteOk url) (routes_of c)
     /\ forall i j p r, i < j -> routes_of c !! i = Some p -> routes_of c !! j = Some r ->
        path_of p = path_of r -> models_of p <> [] /\ forall m, m ∈ models_of p -> m ∉ models_of r)
  /\ forall e i, validateAdvancedCustomConfig url (Some c) = Some e -> routeIndex e = Some i ->
     exists r, routes_of c !! i = Some r
       /\ (forall cfg, routes_of cfg = take i (routes_of c) -> i <> 0 ->
             validateAdvancedCustomConfig url (Some cfg) = None)
       /\ ~ (RouteOk url r /\ Forall (fun p => Compatible p r) (take i (routes_of c))).
Proof.
  pose proof (validate_spec_aux url c) as H. split.
  - destruct (validateAdvancedCustomConfig url (Some c)) as [e|]; split; try done.
    + intros (Hne & Ha). exfalso. destruct (routeIndex e) as [i|]; [|done].
      destruct H as (r & Hi & _ & Hn). apply Hn.
      apply (AllAcceptable_spec url) in Ha. rewrite <- (take_drop_middle _ _ _ Hi) in Ha.
      apply AllAcceptable_app in Ha as [_ [Ha _]]. done.
    + intros _. destruct H as [Hne Ha]. split; [done|]. by apply AllAcceptable_spec.
  - intros e i He Hi. rewrite He, Hi in H. destruct H as (r & Hr & Hp & Hn). exists r. split_and!; [done| |done].
    intros cfg Hcfg H0. pose proof (validate_spec_aux url cfg) as Hc. rewrite Hcfg in Hc.
    destruct (validateAdvancedCustomConfig url (Some cfg)) as [e'|]; [exfalso|done].
    assert (Hlt : i < length (routes_of c)) by (by eapply lookup_lt_Some).
    destruct (routeIndex e') as [k|].
    + destruct Hc as (r' & Hk & _ & Hn'). apply Hn'. rewrite <- (take_drop_middle _ _ _ Hk) in Hp.
      apply AllAcceptable_app in Hp as [_ [Hp _]]. done.
    + apply (f_equal length) in Hc. rewrite length_take in Hc. simpl in Hc. lia.
Qed.

Definition accepted (url : jsstr -> option (jsstr * jsstr)) (c : AdvancedCustomConfig) : bool :=
  match validateAdvancedCustomConfig url (Some c) with None => true | Some _ => false end.

(** The route the editor fills in for a converter and a path. *)
Definition default_route (conv path : jsstr) : AdvancedCustomRoute :=
  let d := getAdvancedCustomConverterDefaults conv path in
  mkRoute (Some path) (Some (d_upstream_path d)) (Some conv) None (Some (d_auth d)).

Lemma forallb_Forall {A} (f : A -> bool) l : forallb f l = true -> Forall (fun x => f x = true) l.
Proof. rewrite forallb_forall, Forall_forall. intros H x Hx%list_elem_of_In. by apply H. Qed.

(** Everything the editor offers is valid: each template, the configuration a
    new channel starts with, the default path of each converter (which it
    allows), and for each converter and each path offered for it the route
    filled in with the defaults of the converter. *)
Theorem offered_configurations_valid url :
  Forall (fun o => accepted url (tp_config o) = true) ADVANCED_CUSTOM_TEMPLATE_OPTIONS
  /\ accepted url createAdvancedCustomConfig = true
  /\ Forall (fun o =>
       isAdvancedCustomIncomingPathAllowed (getDefaultAdvancedCustomIncomingPath (co_value o)) (co_value o) = true
       /\ Forall (fun p => accepted url (Some [default_route (co_value o) (po_value p)]) = true)
            (getAdvancedCustomIncomingPathOptions (co_value o)))
     ADVANCED_CUSTOM_CONVERTER_OPTIONS.
Proof.
  split_and!.
  - repeat (apply Forall_cons; split); try apply Forall_nil_2; vm_compute; reflexivity.
  - vm_compute. reflexivity.
  - unfold ADVANCED_CUSTOM_CONVERTER_OPTIONS.
    repeat (apply Forall_cons_2;
            [split; [vm_compute; reflexivity|apply forallb_Forall; vm_compute; reflexivity]|]).
    apply Forall_nil_2.
Qed.
