(* ===== verification/ModelMapping.v ===== *)
(** * Models and model mappings of a channel

    web/src/features/channels/lib/model-mapping-validation.ts: the list of models of a channel
    as a text, the models a mapping redirects from and to, and the checks the form of a channel
    makes before it is saved.  A [Set] is the list of its elements in the order of insertion. *)

From S2P Require Import Prelude JsValue Json.

Local Open Scope N_scope.

(** ** Lists of models *)

Definition parseModelsString (modelsStr : jsstr) : list jsstr :=
  if truthy modelsStr then filter (fun m => m <> []) (trim <$> split 44 modelsStr) else [].

Definition formatModelsArray (models : list jsstr) : jsstr := join [44] (distinct [] models).

Definition normalizeModelName (model : jsstr) : jsstr := trim model.

(** ** Mappings *)

(** [JSON.parse] of a text that must be an object; anything else is ignored. *)
Definition mapping_object (text : jsstr) : option (list (jsstr * jsval)) :=
  match JSON_parse text with Some (JObject fs) => Some fs | _ => None end.

Definition extractMappingSourceModels (modelMapping : jsstr) : list jsstr :=
  let trimmed := trim modelMapping in
  if negb (truthy trimmed) then []
  else match mapping_object trimmed with
       | Some fs => distinct [] (filter (fun k => k <> []) (trim <$> fs.*1))
       | None => []
       end.

Definition extractRedirectModels (modelMapping : jsstr) : list jsstr :=
  let trimmed := trim modelMapping in
  if negb (truthy trimmed) then []
  else match mapping_object trimmed with
       | Some fs => distinct [] (filter (fun v => v <> []) (omap (fun v => trim <$> as_string v) fs.*2))
       | None => []
       end.

Definition hasModelConfigChanged (currentModels : list jsstr) (currentModelMapping : jsstr) (initialModels : list jsstr)
    (initialModelMapping : jsstr) : bool :=
  if bool_decide (initialModels = []) && negb (truthy initialModelMapping) then true
  else if negb (length currentModels =? length initialModels)%nat then true
  else if existsb (fun ab => negb (ab.1 =s? ab.2)) (zip currentModels initialModels) then true
  else negb (trim currentModelMapping =s? trim initialModelMapping).

Definition findMissingModelsInMapping (modelMapping : jsstr) (currentModels : list jsstr) : list jsstr :=
  if negb (truthy modelMapping) || (trim modelMapping =s? []) then []
  else match mapping_object modelMapping with
       | Some fs =>
           let modelSet := normalizeModelName <$> currentModels in
           distinct [] (filter (fun key => key <> [] /\ key ∉ modelSet) (normalizeModelName <$> fs.*1))
       | None => []
       end.

(** [None] is a valid mapping, [Some e] the error. *)
Definition validateModelMappingJson (modelMapping : jsstr) : option jsstr :=
  if negb (truthy modelMapping) || (trim modelMapping =s? []) then None
  else match JSON_parse modelMapping with
       | None => Some (js "Model mapping must be valid JSON format")
       | Some (JObject fs) =>
           if existsb (fun kv => negb (is_string kv.2)) fs then Some (js "Model mapping values must be strings") else None
       | Some _ => Some (js "Model mapping must be a valid JSON object")
       end.

Definition findExposedTargetModels (modelMapping : jsstr) (currentModels : list jsstr) : list jsstr :=
  let redirectModels := extractRedirectModels modelMapping in
  if bool_decide (redirectModels = []) then []
  else
    let modelSet := normalizeModelName <$> currentModels in
    filter (fun model => normalizeModelName model ∈ modelSet) redirectModels.

Record ModelCategories := mkCategories {
  normalizedCurrentModels : list jsstr; normalizedRedirectModels : list jsstr; classificationSet : list jsstr;
  redirectOnlySet : list jsstr }.

Definition categorizeModelsWithRedirect (currentModels redirectModels : list jsstr) : ModelCategories :=
  let current := distinct [] (filter (fun m => m <> []) (normalizeModelName <$> currentModels)) in
  let redirect := distinct [] (filter (fun m => m <> []) (normalizeModelName <$> redirectModels)) in
  mkCategories current redirect (distinct [] (current ++ redirect)) (distinct [] (filter (fun m => m ∉ current) redirect)).

(** ** Properties *)

(** A model as the form lists it. *)
Definition listed_model (m : jsstr) : Prop := trimmed m /\ m <> [] /\ (44 ∉ m).

Lemma distinct_Forall (P : jsstr -> Prop) names : Forall P names -> Forall P (distinct [] names).
Proof. rewrite !Forall_forall. intros H x [Hx _]%distinct_spec. by apply H. Qed.

(** What the form writes as a text of models it reads as the same models, each once. *)
Theorem models_text_roundtrip models : Forall listed_model models -> parseModelsString (formatModelsArray models) = distinct [] models.
Proof.
  intros H%distinct_Forall. unfold formatModelsArray, parseModelsString. set (l := distinct [] models) in *.
  destruct l as [|m ms] eqn:El; [done|].
  assert (Ht : trim <$> m :: ms = m :: ms).
  { rewrite <- (list_fmap_id (m :: ms)) at 2. apply list_fmap_ext. intros i x Hx%list_elem_of_lookup_2.
    rewrite Forall_forall in H. by apply trimmed_trim, (H x). }
  assert (Hs : split 44 (join [44] (m :: ms)) = m :: ms).
  { apply split_join; [done|]. eapply Forall_impl; [exact H|]. by intros x (_ & _ & Hx). }
  assert (Hne : truthy (join [44] (m :: ms)) = true).
  { apply truthy_true. intros E. rewrite E in Hs. cbn in Hs. injection Hs as <- _. apply Forall_cons in H as [(_ & [] & _) _]. done. }
  rewrite Hne, Hs, Ht. clear -H. induction H as [|x l (_ & Hx & _) _ IH]; [done|]. rewrite filter_cons, decide_True by done. by rewrite IH.
Qed.

(** The missing models are the names the mapping redirects from that are not blank and not among
    the models; nothing is missing when the mapping is no object. *)
Theorem missing_models_spec modelMapping models x :
  x ∈ findMissingModelsInMapping modelMapping models <->
  trim modelMapping <> [] /\ (exists fs, JSON_parse modelMapping = Some (JObject fs) /\ x ∈ trim <$> fs.*1) /\ x <> [] /\
  x ∉ trim <$> models.
Proof.
  unfold findMissingModelsInMapping. destruct (trim modelMapping =s? []) eqn:Et.
  - rewrite orb_true_r. apply str_eqb_eq in Et. split; [by intros []%not_elem_of_nil|]. by intros [H _].
  - apply str_eqb_neq in Et. assert (Hm : truthy modelMapping = true) by (apply truthy_true; by intros ->).
    rewrite Hm. cbn [negb orb]. unfold mapping_object.
    destruct (JSON_parse modelMapping) as [v|]; [|split; [by intros []%not_elem_of_nil|by intros (_ & (fs & [=] & _) & _)]].
    destruct v; try (split; [by intros []%not_elem_of_nil|by intros (_ & (fs & [=] & _) & _)]).
    rewrite distinct_spec, list_elem_of_filter. split.
    + intros [[[Hx Hn] Hk] _]. split; [done|]. split; [by eexists|done].
    + intros (_ & (fs & [= <-] & Hk) & Hx & Hn). split; [done|apply not_elem_of_nil].
Qed.

(** A mapping is accepted exactly when it is blank or a JSON object of texts. *)
Theorem mapping_valid_iff modelMapping :
  validateModelMappingJson modelMapping = None <->
  trim modelMapping = [] \/ exists fs, JSON_parse modelMapping = Some (JObject fs) /\ Forall (fun kv => is_string kv.2 = true) fs.
Proof.
  unfold validateModelMappingJson. destruct (trim modelMapping =s? []) eqn:Et.
  - rewrite orb_true_r. apply str_eqb_eq in Et. split; [by left|done].
  - apply str_eqb_neq in Et. assert (Hm : truthy modelMapping = true) by (apply truthy_true; by intros ->).
    rewrite Hm. cbn [negb orb].
    destruct (JSON_parse modelMapping) as [v|]; [|split; [done|by intros [?|(fs & [=] & _)]]].
    destruct v; try (split; [done|by intros [?|(fs & [=] & _)]]).
    destruct (existsb _ _) eqn:Ex.
    + split; [done|]. intros [?|(fs & [= <-] & Hf)]; [done|]. apply existsb_exists in Ex as (kv & Hin & Hk).
      rewrite Forall_forall in Hf. rewrite (Hf kv) in Hk; [done|by apply list_elem_of_In].
    + split; [|done]. intros _. right. eexists. split; [done|]. apply Forall_forall. intros kv Hin%list_elem_of_In.
      destruct (is_string kv.2) eqn:Ek; [done|]. exfalso. apply not_true_iff_false in Ex. apply Ex. apply existsb_exists.
      exists kv. by rewrite Ek.
Qed.
