(* ===== verification/ChannelForm.v ===== *)
(** * The channel form

    web/src/features/channels/lib/channel-form.ts: the values of the form that
    creates and edits a channel, the checks of its schema, the conversion of a
    channel of the API into form values and of form values into the payloads of a
    creation and of an update.

    A channel keeps two JSON texts, [setting] and [settings].  The form rebuilds the
    first and edits the second property by property: [settings_edits] lists, in the
    order of the source, what happens to every property the form knows.

    An optional text or switch of the form is the empty text or [false] when it is
    undefined, since the code treats both alike; numbers for which it does not are
    options.  [new URL] is a parameter. *)

From Stdlib Require Import SpecFloat.
From S2P Require Import Prelude JsValue Json JsText AdvancedCustom ChannelMonitor.

Local Open Scope N_scope.

(** ** Data *)

Record ChannelFormValues := mkForm {
  f_name : jsstr; f_type : jsnum; f_base_url : jsstr; f_key : jsstr; f_openai_organization : jsstr;
  f_models : jsstr; f_group : list jsstr; f_model_mapping : jsstr;
  f_priority : option jsnum; f_weight : option jsnum; f_test_model : jsstr; f_auto_ban : option jsnum;
  f_status : jsnum; f_status_code_mapping : jsstr; f_tag : jsstr; f_remark : jsstr; f_setting : jsstr;
  f_param_override : jsstr; f_header_override : jsstr; f_settings : jsstr; f_other : jsstr;
  f_multi_key_mode : jsstr; f_multi_key_type : option jsstr; f_batch_prefix : option bool; f_key_mode : jsstr;
  f_force_format : bool; f_thinking_to_content : bool; f_proxy : jsstr; f_http_protocol : jsstr;
  f_http2_connection_shards : option jsnum; f_pass_through_body_enabled : bool; f_system_prompt : jsstr;
  f_system_prompt_override : bool;
  f_is_enterprise_account : bool; f_vertex_key_type : jsstr; f_aws_key_type : jsstr;
  f_azure_responses_version : jsstr; f_client_identity_preset : jsstr; f_allow_service_tier : bool;
  f_disable_store : bool; f_allow_safety_identifier : bool; f_allow_include_obfuscation : bool;
  f_allow_inference_geo : bool; f_allow_speed : bool; f_claude_beta_query : bool;
  f_disable_task_polling_sleep : bool; f_upstream_check_enabled : bool; f_upstream_auto_sync_enabled : bool;
  f_upstream_ignored_models : jsstr; f_channel_monitor_enabled : bool; f_channel_monitor_interval : option jsnum;
  f_codex_policy : jsstr; f_auto_retry_times : option jsnum; f_channel_retry_status_codes : jsstr;
  f_channel_auto_disable_status_codes : jsstr; f_channel_failure_keywords : jsstr; f_advanced_custom : jsstr }.

(** The properties of a channel of the API the form reads; [None] is [null]. *)
Record ApiChannel := mkApi {
  a_name_ : jsstr; a_type_ : jsnum; a_base_url : option jsstr; a_openai_organization : option jsstr;
  a_models : jsstr; a_group : jsstr; a_model_mapping : option jsstr; a_priority : option jsnum;
  a_weight : option jsnum; a_test_model : option jsstr; a_auto_ban : option jsnum; a_status : jsnum;
  a_status_code_mapping : option jsstr; a_tag : option jsstr; a_remark : jsstr; a_setting : option jsstr;
  a_param_override : option jsstr; a_header_override : option jsstr; a_settings : jsstr; a_other : jsstr;
  a_multi_key_mode : jsstr }.

Definition HTTP_PROTOCOL_AUTO : jsstr := js "auto".
Definition HTTP_PROTOCOL_HTTP1 : jsstr := js "http1".
Definition MAX_HTTP2_CONNECTION_SHARDS : jsnum := num 8.
Definition CHANNEL_TYPE_NEW_API : Z := 60.
Definition CHANNEL_TYPE_CODEX : Z := 57.

Definition MODEL_FETCHABLE_TYPES : list Z :=
  [1; 4; 14; 17; 20; 23; 24; 25; 26; 27; 31; 34; 35; 40; 42; 43; 47; 48; 57; 58; 59; 60]%Z.

(** [type === n] and [[...].includes(type)] *)
Definition is_type (f : ChannelFormValues) (n : Z) : bool := num_eqb (f_type f) (num n).
Definition type_in (f : ChannelFormValues) (ns : list Z) : bool := existsb (is_type f) ns.

(** ** Normalisation *)

(** No unit outside ASCII lowers to a letter of the text compared. *)
Definition normalizeHttpProtocol (value : jsstr) : jsstr :=
  if lower_ascii (trim value) =s? HTTP_PROTOCOL_HTTP1 then HTTP_PROTOCOL_HTTP1 else HTTP_PROTOCOL_AUTO.

Definition normalizeHttp2ConnectionShards (value : option jsnum) : jsnum :=
  match value with
  | None => num 1
  | Some n =>
      if negb (num_truthy n) then num 1
      else if num_lt n (num 1) then num 1
      else if num_lt MAX_HTTP2_CONNECTION_SHARDS n then MAX_HTTP2_CONNECTION_SHARDS
      else n
  end.

Definition normalizeClientIdentityPreset (value : jsval) : jsstr :=
  if is_literal "codex_cli" value then js "codex_cli"
  else if is_literal "claude_code" value then js "claude_code"
  else js "off".

Definition form_normalizeCodexImageGenerationBridgePolicy (settings : list (jsstr * jsval)) : jsstr :=
  let policy := read_field "codex_image_generation_bridge_policy" settings in
  if is_literal "enabled" policy then js "enabled"
  else if is_literal "disabled" policy then js "disabled"
  else match read_field "codex_image_generation_bridge" settings with
       | JBool b => if b then js "enabled" else js "disabled"
       | _ => match read_field "codex_image_generation_bridge_enabled" settings with
              | JBool b => if b then js "enabled" else js "disabled"
              | _ => js "follow"
              end
       end.

(** The pieces of a list separated by commas, trimmed, without empty ones. *)
Definition parseModels (models : jsstr) : list jsstr :=
  if negb (truthy models) then [] else filter (fun m => m <> []) (trim <$> split 44 models).
Definition parseGroups (groups : jsstr) : list jsstr := parseModels groups.
Definition formatModels (models : list jsstr) : jsstr := join [44] models.
Definition formatGroups (groups : list jsstr) : jsstr := join [44] groups.

(** [value.trim().replace(/\/+$/, '')] *)
Definition normalizeBaseUrl (value : jsstr) : jsstr :=
  reverse (drop_while (N.eqb 47) (reverse (trim value))).

Definition validateJSON (value : jsstr) : bool :=
  if negb (truthy value) || negb (truthy (trim value)) then true
  else bool_decide (is_Some (JSON_parse value)).
Definition validateModelMapping (value : jsstr) : bool :=
  if negb (truthy value) || negb (truthy (trim value)) then true else validateJSON value.

Section Form.
(** [Number.prototype.toString] *)
Variable show : jsnum -> jsstr.

Definition form_normalizeMonitorInterval (value : jsval) (fallback : jsnum) : jsnum :=
  let numeric := js_number show value in
  if negb (is_finite numeric) then fallback else math_max (num 1) (math_trunc numeric).

Definition normalizeAutoRetryTimes (value : jsval) : option jsnum :=
  match value with
  | JUndefined | JNull | JString [] => None
  | _ =>
      let numeric := js_number show value in
      if negb (is_finite numeric) then None
      else let retryTimes := math_trunc numeric in
           if num_lt retryTimes (num 0) || num_lt (num 10) retryTimes then None else Some retryTimes
  end.

(** ** Checks of the schema *)

(** [new URL(text)]: protocol, host name and port. *)
Variable url : jsstr -> option (jsstr * jsstr * jsstr).
(** What the checks of the advanced configuration ask of it. *)
Variable route_url : jsstr -> option (jsstr * jsstr).

Definition SUPPORTED_PROXY_PROTOCOLS : list jsstr := [js "http:"; js "https:"; js "socks5:"; js "socks5h:"].

(** [/[/?#]/] *)
Definition is_suffix_unit (c : N) : bool := (c =? 47) || (c =? 63) || (c =? 35).

Definition isOptionalProxyURL (value : jsstr) : bool :=
  let text := trim value in
  if negb (truthy text) then true
  else match index_of (js "://") text with
       | None | Some O => false
       | Some i =>
           let suffix := drop_while (fun c => negb (is_suffix_unit c)) (drop (i + 3) text) in
           if truthy suffix && negb (suffix =s? js "/") then false
           else match url text with
                | Some (protocol, hostname, port) =>
                    bool_decide (protocol ∈ SUPPORTED_PROXY_PROTOCOLS) && truthy hostname
                    && negb (port =s? js "0")
                | None => false
                end
       end.

(** The parsed text of an optional JSON field: absent, unreadable or a value. *)
Inductive OptionalJson := Absent | Unreadable | Present (v : jsval).

Definition parseOptionalJson (value : jsstr) : OptionalJson :=
  if negb (truthy (trim value)) then Absent
  else match JSON_parse value with Some v => Present v | None => Unreadable end.

Definition isOptionalJsonObject (value : jsstr) : bool :=
  match parseOptionalJson value with Absent | Present (JObject _) => true | _ => false end.

Definition isOptionalModelMapping (value : jsstr) : bool :=
  match parseOptionalJson value with
  | Absent => true
  | Present (JObject fs) => forallb (fun kv => is_string kv.2) fs
  | _ => false
  end.

Definition is_http_code (n : jsnum) : bool := is_integer n && num_le (num 100) n && num_le n (num 599).

Definition isOptionalStatusCodeMapping (value : jsstr) : bool :=
  match parseOptionalJson value with
  | Absent => true
  | Present (JObject fs) =>
      forallb (fun kv => is_http_code (to_number kv.1) && is_http_code (js_number show kv.2)) fs
  | _ => false
  end.

Definition non_blank (v : jsval) : bool := match v with JString s => truthy (trim s) | _ => false end.

Definition isCodexCredential (value : jsstr) : bool :=
  match parseOptionalJson value with
  | Absent => true
  | Present (JObject fs) => non_blank (read_field "access_token" fs) && non_blank (read_field "account_id" fs)
  | _ => false
  end.

Definition is_object (v : jsval) : bool := match v with JObject _ => true | _ => false end.

Definition isVertexJsonKey (value : jsstr) : bool :=
  match parseOptionalJson value with
  | Absent => true
  | Present (JArray l) => forallb is_object l
  | Present v => is_object v
  | Unreadable => false
  end.

(** The issues [superRefine] adds, as pairs of a path and a message; the advanced
    configuration is given parsed. *)
Definition issue_if (b : bool) (path message : string) : list (jsstr * jsstr) :=
  if b then [(js path, js message)] else [].
Arguments issue_if b path%_stdpp_scope message%_stdpp_scope.

Definition blank (s : jsstr) : bool := negb (truthy (trim s)).

Definition advanced_issues (f : ChannelFormValues) (config : option AdvancedCustomConfig) : list (jsstr * jsstr) :=
  (match validateAdvancedCustomConfig route_url config with
   | Some e => [(js "advanced_custom", message e)]
   | None => []
   end)
  ++ issue_if (advancedCustomConfigUsesRelativeUpstreamPath config && blank (f_base_url f))
       "base_url" "Base URL is required when an advanced route uses an upstream path"
  ++ issue_if (f_upstream_check_enabled f && negb (hasValidAdvancedCustomModelListRoute route_url config))
       "upstream_model_update_check_enabled" "OpenAI Models route is required to enable upstream model checks".

Definition interval_missing (v : option jsnum) : bool :=
  match v with Some n => negb (is_integer n) || num_lt n (num 1) | None => true end.

Definition batch_mode (f : ChannelFormValues) : bool :=
  truthy (f_multi_key_mode f) && negb (f_multi_key_mode f =s? js "single").

Definition form_issues (f : ChannelFormValues) (config : option AdvancedCustomConfig) : list (jsstr * jsstr) :=
  issue_if (type_in f [3; 8; 36; 45; CHANNEL_TYPE_NEW_API]%Z && blank (f_base_url f))
    "base_url" "Base URL is required for this channel type"
  ++ (if is_type f CHANNEL_TYPE_ADVANCED_CUSTOM then advanced_issues f config else [])
  ++ issue_if (f_channel_monitor_enabled f && interval_missing (f_channel_monitor_interval f))
       "channel_monitor_interval_minutes" "Monitoring interval must be at least 1 minute"
  ++ issue_if (type_in f [3; 18; 21; 39; 41; 49]%Z && blank (f_other f))
       "other" "This channel type requires additional configuration"
  ++ (if is_type f CHANNEL_TYPE_CODEX
      then issue_if (batch_mode f) "multi_key_mode" "Codex channels do not support batch creation"
           ++ issue_if (negb (blank (f_key f)) && negb (isCodexCredential (f_key f)))
                "key" "Codex credential must be a JSON object with access_token and account_id"
      else [])
  ++ issue_if (is_type f 41 && (f_vertex_key_type f =s? js "json") && negb (blank (f_key f))
               && negb (isVertexJsonKey (f_key f)))
       "key" "Vertex AI service account key must be valid JSON"
  ++ issue_if (is_type f 41 && (f_vertex_key_type f =s? js "api_key") && batch_mode f)
       "multi_key_mode" "Vertex AI API Key mode does not support batch creation"
  ++ (let shards := default (num 1) (f_http2_connection_shards f) in
      issue_if (num_lt shards (num 1) || num_lt MAX_HTTP2_CONNECTION_SHARDS shards)
        "http2_connection_shards" "HTTP/2 connection shards must be between 1 and 8"
      ++ issue_if ((normalizeHttpProtocol (f_http_protocol f) =s? HTTP_PROTOCOL_HTTP1) && num_lt (num 1) shards)
           "http2_connection_shards" "HTTP/2 connection shards must be 1 when HTTP/1.1 is selected").

(** ** From the form to the texts of the channel *)

Definition protocol_of (f : ChannelFormValues) : jsstr := normalizeHttpProtocol (f_http_protocol f).
Definition shards_of (f : ChannelFormValues) : jsnum :=
  if protocol_of f =s? HTTP_PROTOCOL_HTTP1 then num 1
  else normalizeHttp2ConnectionShards (f_http2_connection_shards f).

Definition setting_fields (f : ChannelFormValues) : list (jsstr * jsval) :=
  [ (js "force_format", JBool (f_force_format f));
    (js "thinking_to_content", JBool (f_thinking_to_content f));
    (js "proxy", JString (trim (f_proxy f)));
    (js "pass_through_body_enabled", JBool (f_pass_through_body_enabled f));
    (js "system_prompt", JString (f_system_prompt f));
    (js "system_prompt_override", JBool (f_system_prompt_override f)) ]
  ++ (if protocol_of f =s? HTTP_PROTOCOL_HTTP1 then [(js "http_protocol", JString HTTP_PROTOCOL_HTTP1)]
      else if num_lt (num 1) (shards_of f) then [(js "http2_connection_shards", JNumber (shards_of f))]
      else []).

Definition buildSettingJSON (f : ChannelFormValues) : jsstr := stringify show (JObject (setting_fields f)).

(** What happens to a property of [settings]. *)
Inductive Edit := Put (v : jsval) | Drop | Keep.

Definition put_if (b : bool) (v : jsval) : Edit := if b then Put v else Drop.
Definition put_text (s : jsstr) : Edit := put_if (truthy (trim s)) (JString (trim s)).

(** [...new Set(text.split(',').map(trim).filter(Boolean))] *)
Definition ignored_models (f : ChannelFormValues) : list jsstr :=
  dedup_nonempty [] (trim <$> split 44 (f_upstream_ignored_models f)).

Definition settings_edits (f : ChannelFormValues) (config : option AdvancedCustomConfig)
  (fs : list (jsstr * jsval)) : list (jsstr * Edit) :=
  let fetchable := type_in f MODEL_FETCHABLE_TYPES in
  let openai_like := is_type f 1 || is_type f 57 in
  let identity := is_type f 1 || is_type f 14 || is_type f 57 in
  let codex := is_type f CHANNEL_TYPE_CODEX in
  [ (js "vertex_key_type", put_if (is_type f 41) (JString (f_vertex_key_type f ||| js "json")));
    (js "azure_responses_version",
       put_if (is_type f 3 && truthy (f_azure_responses_version f)) (JString (f_azure_responses_version f)));
    (js "openrouter_enterprise", put_if (is_type f 20) (JBool (f_is_enterprise_account f)));
    (js "aws_key_type", put_if (is_type f 33) (JString (f_aws_key_type f ||| js "ak_sk")));
    (js "client_identity_preset",
       put_if identity (JString (normalizeClientIdentityPreset (JString (f_client_identity_preset f)))));
    (js "allow_service_tier", put_if identity (JBool (f_allow_service_tier f)));
    (js "disable_store", put_if openai_like (JBool (f_disable_store f)));
    (js "allow_safety_identifier", put_if openai_like (JBool (f_allow_safety_identifier f)));
    (js "allow_include_obfuscation", put_if openai_like (JBool (f_allow_include_obfuscation f)));
    (js "allow_inference_geo", put_if (is_type f 1 || is_type f 14) (JBool (f_allow_inference_geo f)));
    (js "allow_speed", put_if (is_type f 14) (JBool (f_allow_speed f)));
    (js "claude_beta_query", put_if (is_type f 14) (JBool (f_claude_beta_query f)));
    (js "disable_task_polling_sleep", Put (JBool (f_disable_task_polling_sleep f)));
    (js "upstream_model_update_check_enabled",
       if fetchable then Put (JBool (f_upstream_check_enabled f)) else Keep);
    (js "upstream_model_update_auto_sync_enabled",
       if fetchable then Put (JBool (f_upstream_check_enabled f && f_upstream_auto_sync_enabled f)) else Keep);
    (js "upstream_model_update_ignored_models",
       if fetchable then Put (JArray (JString <$> ignored_models f)) else Keep);
    (js "upstream_model_update_last_detected_models",
       if fetchable then
         match read_field "upstream_model_update_last_detected_models" fs with
         | JArray _ => if f_upstream_check_enabled f then Keep else Put (JArray [])
         | _ => Put (JArray [])
         end
       else Keep);
    (js "upstream_model_update_last_check_time",
       if fetchable && negb (is_number (read_field "upstream_model_update_last_check_time" fs))
       then Put (JNumber (num 0)) else Keep);
    (js "advanced_custom",
       if is_type f CHANNEL_TYPE_ADVANCED_CUSTOM
       then match config with Some c => Put (encode_config c) | None => Keep end
       else Drop);
    (js "codex_image_generation_bridge_policy",
       put_if (codex && ((f_codex_policy f =s? js "enabled") || (f_codex_policy f =s? js "disabled")))
         (JString (f_codex_policy f)));
    (js "codex_image_generation_bridge", Drop);
    (js "codex_image_generation_bridge_enabled", Drop);
    (js "channel_monitor_enabled", Put (JBool (f_channel_monitor_enabled f)));
    (js "channel_monitor_interval_minutes",
       put_if (f_channel_monitor_enabled f)
         (JNumber (form_normalizeMonitorInterval
                     (match f_channel_monitor_interval f with Some n => JNumber n | None => JUndefined end) (num 10))));
    (js "auto_retry_times",
       match normalizeAutoRetryTimes (match f_auto_retry_times f with Some n => JNumber n | None => JUndefined end) with
       | Some n => Put (JNumber n)
       | None => Drop
       end);
    (js "channel_retry_status_codes", put_text (f_channel_retry_status_codes f));
    (js "channel_auto_disable_status_codes", put_text (f_channel_auto_disable_status_codes f));
    (js "channel_failure_keywords", put_text (f_channel_failure_keywords f)) ].

Definition edit (fs : list (jsstr * jsval)) (ke : jsstr * Edit) : list (jsstr * jsval) :=
  match ke.2 with
  | Put v => obj_set ke.1 v fs
  | Drop => obj_del ke.1 fs
  | Keep => fs
  end.

(** The settings object the form starts from: an unreadable text is logged and counts
    as empty; a property of [null] or of a primitive cannot be set. *)
Definition existing_settings (f : ChannelFormValues) : Decoded (list (jsstr * jsval)) :=
  if negb (truthy (f_settings f)) || (f_settings f =s? js "{}") then Ok []
  else match JSON_parse (f_settings f) with
       | None => Ok []
       | Some (JObject fs) => Ok fs
       | Some (JArray _) => IllTyped
       | Some _ => Throws
       end.

(** The configuration the form reads when its type asks for one. *)
Definition form_config (f : ChannelFormValues) : Decoded (option AdvancedCustomConfig) :=
  if is_type f CHANNEL_TYPE_ADVANCED_CUSTOM then parseAdvancedCustomConfig (Some (f_advanced_custom f))
  else Ok None.

Definition settings_fields (f : ChannelFormValues) : Decoded (list (jsstr * jsval)) :=
  decoded_map2 (fun fs config => foldl edit fs (settings_edits f config fs)) (existing_settings f) (form_config f).

Definition decoded_map {A B} (g : A -> B) (d : Decoded A) : Decoded B :=
  match d with Ok x => Ok (g x) | Throws => Throws | IllTyped => IllTyped end.

Definition buildSettingsJSON (f : ChannelFormValues) : Decoded jsstr :=
  decoded_map (fun fs => stringify show (JObject fs)) (settings_fields f).

(** ** Payloads *)

(** The channel of a creation; [None] is [null]. *)
Record CreateChannel := mkCreateChannel {
  c_name : option jsstr; c_type : jsnum; c_base_url : option jsstr; c_key : option jsstr;
  c_openai_organization : option jsstr; c_models : option jsstr; c_group : option jsstr;
  c_model_mapping : option jsstr; c_priority : option jsnum; c_weight : option jsnum;
  c_test_model : option jsstr; c_auto_ban : jsnum; c_status : jsnum; c_status_code_mapping : option jsstr;
  c_tag : option jsstr; c_remark : option jsstr; c_setting : jsstr; c_param_override : option jsstr;
  c_header_override : option jsstr; c_settings : jsstr; c_other : option jsstr }.

Record CreatePayload := mkCreate {
  cp_mode : jsstr; cp_multi_key_mode : option jsstr; cp_batch_prefix : option bool; cp_channel : CreateChannel }.

(** The payload of an update; the fields sent as empty texts are texts. *)
Record UpdatePayload := mkUpdate {
  u_id : jsnum; u_name : option jsstr; u_type : jsnum; u_base_url : jsstr; u_openai_organization : jsstr;
  u_models : option jsstr; u_group : option jsstr; u_model_mapping : jsstr; u_priority : jsnum;
  u_weight : jsnum; u_test_model : jsstr; u_auto_ban : jsnum; u_status_code_mapping : jsstr; u_tag : jsstr;
  u_remark : jsstr; u_setting : jsstr; u_param_override : jsstr; u_header_override : jsstr;
  u_settings : jsstr; u_other : option jsstr; u_key : option jsstr }.

(** An empty text becomes [null]; [n || null] on numbers. *)
Definition or_null (s : jsstr) : option jsstr := if truthy s then Some s else None.
Definition num_or_null (n : option jsnum) : option jsnum :=
  match n with Some n => if num_truthy n then Some n else None | None => None end.

Definition transformFormDataToCreatePayload (f : ChannelFormValues) : Decoded CreatePayload :=
  decoded_map (fun settings =>
    let mode := f_multi_key_mode f ||| js "single" in
    mkCreate mode
      (if mode =s? js "multi_to_single" then f_multi_key_type f else None)
      (if mode =s? js "batch" then f_batch_prefix f else None)
      (mkCreateChannel (or_null (f_name f)) (f_type f) (or_null (normalizeBaseUrl (f_base_url f)))
         (or_null (f_key f)) (or_null (f_openai_organization f)) (or_null (f_models f))
         (or_null (formatGroups (f_group f))) (or_null (f_model_mapping f)) (num_or_null (f_priority f))
         (num_or_null (f_weight f)) (or_null (f_test_model f)) (default (num 1) (f_auto_ban f)) (f_status f)
         (or_null (f_status_code_mapping f)) (or_null (f_tag f)) (or_null (f_remark f)) (buildSettingJSON f)
         (or_null (f_param_override f)) (or_null (f_header_override f)) settings (or_null (f_other f))))
    (buildSettingsJSON f).

Definition transformFormDataToUpdatePayload (f : ChannelFormValues) (channelId : jsnum) : Decoded UpdatePayload :=
  decoded_map (fun settings =>
    mkUpdate channelId (or_null (f_name f)) (f_type f) (normalizeBaseUrl (f_base_url f))
      (f_openai_organization f) (or_null (f_models f)) (or_null (formatGroups (f_group f))) (f_model_mapping f)
      (default (num 0) (f_priority f)) (default (num 0) (f_weight f)) (f_test_model f)
      (default (num 1) (f_auto_ban f)) (f_status_code_mapping f) (f_tag f) (f_remark f) (buildSettingJSON f)
      (f_param_override f) (f_header_override f) settings (or_null (f_other f))
      (if truthy (trim (f_key f)) then Some (f_key f) else None))
    (buildSettingsJSON f).

(** ** From the channel to the form *)

(** [v || false] and [v || ''] on a value read from JSON. *)
Definition read_flag (v : jsval) : Decoded bool :=
  match v with JBool b => Ok b | _ => if js_truthy v then IllTyped else Ok false end.
Definition read_text (d : jsstr) (v : jsval) : Decoded jsstr :=
  match v with JString s => Ok (s ||| d) | _ => if js_truthy v then IllTyped else Ok d end.
(** A number or nothing. *)
Definition read_number (v : jsval) : Decoded (option jsnum) :=
  match v with JNumber n => Ok (Some n) | JUndefined | JNull => Ok None | _ => IllTyped end.
(** [String(v || '')] *)
Definition text_of (v : jsval) : jsstr := js_string show (js_or v (JString [])).

Record ExtraSettings := mkExtra {
  e_force_format : bool; e_thinking_to_content : bool; e_proxy : jsstr; e_http_protocol : jsstr;
  e_shards : jsnum; e_pass_through : bool; e_system_prompt : jsstr; e_prompt_override : bool }.

Definition default_extra : ExtraSettings :=
  mkExtra false false [] HTTP_PROTOCOL_AUTO (num 1) false [] false.

Definition extra_of (v : jsval) : Decoded ExtraSettings :=
  let protocol := normalizeHttpProtocol (text_of (field "http_protocol" v)) in
  decoded_map2 (fun '(ff, tc) '(px, (sh, (pt, (sp, so)))) =>
      mkExtra ff tc px protocol
        (if protocol =s? HTTP_PROTOCOL_HTTP1 then num 1 else normalizeHttp2ConnectionShards sh) pt sp so)
    (decoded_map2 pair (read_flag (field "force_format" v)) (read_flag (field "thinking_to_content" v)))
    (decoded_map2 pair (read_text [] (field "proxy" v))
      (decoded_map2 pair (read_number (field "http2_connection_shards" v))
        (decoded_map2 pair (read_flag (field "pass_through_body_enabled" v))
          (decoded_map2 pair (read_text [] (field "system_prompt" v)) (read_flag (field "system_prompt_override" v)))))).

(** A text of the channel, parsed inside [try]: unreadable or [null] texts, whose
    properties cannot be read, leave the defaults. *)
Definition parsed_text {A} (d : A) (read : jsval -> Decoded A) (text : jsstr) : Decoded A :=
  if negb (truthy text) then Ok d
  else match JSON_parse text with
       | None | Some JNull => Ok d
       | Some v => read v
       end.

Record TypeSettings := mkTypeSettings {
  t_vertex_key_type : jsstr; t_azure_version : jsstr; t_enterprise : bool; t_aws_key_type : jsstr;
  t_identity : jsstr; t_service_tier : bool; t_disable_store : bool; t_safety : bool; t_obfuscation : bool;
  t_geo : bool; t_speed : bool; t_beta : bool; t_polling : bool; t_check : bool; t_auto_sync : bool;
  t_ignored : jsstr; t_monitor : bool; t_interval : jsnum; t_policy : jsstr; t_retry : option jsnum;
  t_retry_codes : jsstr; t_disable_codes : jsstr; t_keywords : jsstr; t_advanced : jsstr }.

Definition default_type_settings : TypeSettings :=
  mkTypeSettings (js "json") [] false (js "ak_sk") (js "off") false false false false false false false false
    false false [] false (num 10) (js "follow") None [] [] [] [].

Definition fields_of (v : jsval) : list (jsstr * jsval) := match v with JObject fs => fs | _ => [] end.

(** The last statement of the block: a configuration that cannot be normalised throws,
    and the text stays empty. *)
Definition advanced_text (v : jsval) : Decoded jsstr :=
  if negb (js_truthy v) then Ok []
  else match decode_config v with
       | Ok c => Ok (stringifyAdvancedCustomConfig c)
       | Throws => Ok []
       | IllTyped => IllTyped
       end.

Definition type_settings_of (v : jsval) : Decoded TypeSettings :=
  let flag k := is_true (field k v) in
  decoded_map2 (fun '(vk, az) '(aws, adv) =>
      mkTypeSettings vk az (flag "openrouter_enterprise"%string) aws
        (normalizeClientIdentityPreset (field "client_identity_preset" v))
        (flag "allow_service_tier"%string) (flag "disable_store"%string) (flag "allow_safety_identifier"%string)
        (flag "allow_include_obfuscation"%string) (flag "allow_inference_geo"%string) (flag "allow_speed"%string)
        (flag "claude_beta_query"%string) (flag "disable_task_polling_sleep"%string)
        (flag "upstream_model_update_check_enabled"%string) (flag "upstream_model_update_auto_sync_enabled"%string)
        (match field "upstream_model_update_ignored_models" v with
         | JArray l => js_string show (JArray l)
         | _ => []
         end)
        (flag "channel_monitor_enabled"%string)
        (form_normalizeMonitorInterval (field "channel_monitor_interval_minutes" v) (num 10))
        (form_normalizeCodexImageGenerationBridgePolicy (fields_of v))
        (normalizeAutoRetryTimes (field "auto_retry_times" v))
        (text_of (field "channel_retry_status_codes" v)) (text_of (field "channel_auto_disable_status_codes" v))
        (text_of (field "channel_failure_keywords" v)) adv)
    (decoded_map2 pair (read_text (js "json") (field "vertex_key_type" v))
                       (read_text [] (field "azure_responses_version" v)))
    (decoded_map2 pair (read_text (js "ak_sk") (field "aws_key_type" v)) (advanced_text (field "advanced_custom" v))).

(** The form of a channel, given what its two texts hold; the key is never shown. *)
Definition form_of (channel : ApiChannel) (e : ExtraSettings) (t : TypeSettings) : ChannelFormValues :=
  mkForm (a_name_ channel) (a_type_ channel) (default [] (a_base_url channel)) []
    (default [] (a_openai_organization channel)) (a_models channel)
    (parseGroups (a_group channel ||| js "default")) (default [] (a_model_mapping channel))
    (Some (default (num 0) (num_or_null (a_priority channel))))
    (Some (default (num 0) (num_or_null (a_weight channel))))
    (default [] (a_test_model channel)) (Some (default (num 1) (a_auto_ban channel))) (a_status channel)
    (default [] (a_status_code_mapping channel)) (default [] (a_tag channel)) (a_remark channel)
    (default [] (a_setting channel)) (default [] (a_param_override channel))
    (default [] (a_header_override channel)) (a_settings channel ||| js "{}") (a_other channel)
    (js "single") (Some (a_multi_key_mode channel ||| js "random")) (Some false) (js "append")
    (e_force_format e) (e_thinking_to_content e) (e_proxy e) (e_http_protocol e) (Some (e_shards e))
    (e_pass_through e) (e_system_prompt e) (e_prompt_override e)
    (t_enterprise t) (t_vertex_key_type t) (t_aws_key_type t) (t_azure_version t) (t_identity t)
    (t_service_tier t) (t_disable_store t) (t_safety t) (t_obfuscation t) (t_geo t) (t_speed t) (t_beta t)
    (t_polling t) (t_check t) (t_auto_sync t) (t_ignored t) (t_monitor t) (Some (t_interval t)) (t_policy t)
    (t_retry t) (t_retry_codes t) (t_disable_codes t) (t_keywords t) (t_advanced t).

Definition transformChannelToFormDefaults (channel : ApiChannel) : Decoded ChannelFormValues :=
  decoded_map2 (form_of channel)
    (parsed_text default_extra extra_of (default [] (a_setting channel)))
    (parsed_text default_type_settings type_settings_of (a_settings channel)).

End Form.
Arguments issue_if b path%_stdpp_scope message%_stdpp_scope.

(** ** Lemmas *)

Section FormLemmas.
Variable show : jsnum -> jsstr.

(** *** Edits *)

Definition edited (fs : list (jsstr * jsval)) (ke : jsstr * Edit) : jsval :=
  match ke.2 with Put v => v | Drop => JUndefined | Keep => assoc ke.1 fs end.

Lemma edit_here fs ke : assoc ke.1 (edit fs ke) = edited fs ke.
Proof. unfold edit, edited. destruct ke as [k []]; cbn [fst snd]; [apply assoc_set_eq|apply assoc_del_eq|done]. Qed.

Lemma edit_other k fs ke : k <> ke.1 -> assoc k (edit fs ke) = assoc k fs.
Proof. unfold edit. intros Hk. destruct ke.2; [by apply assoc_set_ne|by apply assoc_del_ne|done]. Qed.

Lemma edits_other k es : forall fs, k ∉ es.*1 -> assoc k (foldl edit fs es) = assoc k fs.
Proof.
  induction es as [|e es IH]; intros fs Hk; [done|]. rewrite fmap_cons, elem_of_cons in Hk. cbn [foldl].
  rewrite IH by tauto. apply edit_other. tauto.
Qed.

Lemma edits_at k e es : forall fs,
  NoDup es.*1 -> (k, e) ∈ es -> assoc k (foldl edit fs es) = edited fs (k, e).
Proof.
  induction es as [|e' es IH]; intros fs Hnd Hin; [by apply not_elem_of_nil in Hin|].
  rewrite fmap_cons in Hnd. apply NoDup_cons in Hnd as [Hk Hnd]. cbn [foldl].
  apply elem_of_cons in Hin as [<-|Hin].
  - rewrite edits_other by done. apply (edit_here fs (k, e)).
  - rewrite IH by done. unfold edited. cbn [fst snd]. destruct e; [done|done|]. apply edit_other.
    intros ->. apply Hk. change (e'.1) with ((e'.1, Keep).1). by apply list_elem_of_fmap_2.
Qed.

Lemma edits_ok es : forall fs,
  fields_ok show fs = true -> Forall (fun ke => str_ok ke.1 = true) es ->
  Forall (fun ke => match ke.2 with Put v => json_ok show v = true | _ => True end) es ->
  fields_ok show (foldl edit fs es) = true.
Proof.
  induction es as [|[k e] es IH]; intros fs Hf Hk Hv; [done|].
  apply Forall_cons in Hk as [Hk Hks]. apply Forall_cons in Hv as [Hv Hvs]. cbn [foldl].
  apply IH; [|done|done]. unfold edit. cbn [fst snd] in *. destruct e; [by apply fields_ok_set|by apply fields_ok_del|done].
Qed.

(** The properties of [settings] the form knows. *)
Definition form_keys : list jsstr :=
  [ js "vertex_key_type"; js "azure_responses_version"; js "openrouter_enterprise"; js "aws_key_type";
    js "client_identity_preset"; js "allow_service_tier"; js "disable_store"; js "allow_safety_identifier";
    js "allow_include_obfuscation"; js "allow_inference_geo"; js "allow_speed"; js "claude_beta_query";
    js "disable_task_polling_sleep"; js "upstream_model_update_check_enabled";
    js "upstream_model_update_auto_sync_enabled"; js "upstream_model_update_ignored_models";
    js "upstream_model_update_last_detected_models"; js "upstream_model_update_last_check_time";
    js "advanced_custom"; js "codex_image_generation_bridge_policy"; js "codex_image_generation_bridge";
    js "codex_image_generation_bridge_enabled"; js "channel_monitor_enabled";
    js "channel_monitor_interval_minutes"; js "auto_retry_times"; js "channel_retry_status_codes";
    js "channel_auto_disable_status_codes"; js "channel_failure_keywords" ].

Lemma edited_keys f config fs : (settings_edits show f config fs).*1 = form_keys.
Proof. reflexivity. Qed.

Lemma edit_keys_NoDup f config fs : NoDup (settings_edits show f config fs).*1.
Proof. rewrite edited_keys. refine (bool_decide_unpack _ _). vm_compute. exact I. Qed.

Lemma edit_keys_ok f config fs : Forall (fun ke => str_ok ke.1 = true) (settings_edits show f config fs).
Proof.
  assert (H : Forall (fun k => str_ok k = true) (settings_edits show f config fs).*1).
  { rewrite edited_keys. refine (bool_decide_unpack _ _). vm_compute. exact I. }
  rewrite Forall_fmap in H. exact H.
Qed.

(** *** Numbers *)

Lemma SFcompare_Eq a b : is_finite a = true -> num_truthy a = true -> SFcompare a b = Some Eq -> a = b.
Proof.
  destruct a as [[]|[]| |[] ma ea], b as [[]|[]| |[] mb eb]; try done; intros _ _; unfold SFcompare;
    destruct (Z.compare_spec ea eb) as [->| |]; try done; change (Pos.compare_cont Eq ma mb) with (ma ?= mb)%positive;
    destruct (Pos.compare_spec ma mb) as [->| |]; done.
Qed.

Lemma shards_idem v : normalizeHttp2ConnectionShards (Some (normalizeHttp2ConnectionShards v)) = normalizeHttp2ConnectionShards v.
Proof.
  destruct v as [n|]; [|done]. unfold normalizeHttp2ConnectionShards at 2 3.
  destruct (num_truthy n) eqn:Et; [|done]. cbn [negb].
  destruct (num_lt n (num 1)) eqn:E1; [done|]. destruct (num_lt MAX_HTTP2_CONNECTION_SHARDS n) eqn:E8; [done|].
  unfold normalizeHttp2ConnectionShards. by rewrite Et, E1, E8.
Qed.

(** Shards that are not more than one are one. *)
Lemma shards_one v : num_lt (num 1) (normalizeHttp2ConnectionShards v) = false -> normalizeHttp2ConnectionShards v = num 1.
Proof.
  destruct v as [n|]; [|done]. unfold normalizeHttp2ConnectionShards.
  destruct (num_truthy n) eqn:Et; [|done]. cbn [negb].
  destruct (num_lt n (num 1)) eqn:E1; [done|]. destruct (num_lt MAX_HTTP2_CONNECTION_SHARDS n) eqn:E8; [done|].
  intros E. assert (Hf : is_finite n = true) by (by destruct n as [[]|[]| |]).
  apply SFcompare_Eq; [done|done|]. revert E E1. unfold num_lt, SFltb. rewrite (SFcompare_antisym n (num 1)).
  destruct (SFcompare n (num 1)) as [[]|] eqn:Ec; try done.
  intros _ _. destruct n as [[]|[]| |[]]; done.
Qed.

Lemma protocol_idem v : normalizeHttpProtocol (normalizeHttpProtocol v) = normalizeHttpProtocol v.
Proof. unfold normalizeHttpProtocol at 2 3. by case_match. Qed.

Definition interval_value (v : option jsnum) : jsval := match v with Some n => JNumber n | None => JUndefined end.

Lemma form_interval_idem v :
  match v with Some n => num_valid n = true | None => True end ->
  form_normalizeMonitorInterval show (JNumber (form_normalizeMonitorInterval show (interval_value v) (num 10))) (num 10)
  = form_normalizeMonitorInterval show (interval_value v) (num 10).
Proof.
  intros Hv. destruct v as [n|]; [|done]. unfold form_normalizeMonitorInterval. cbn [interval_value js_number].
  destruct (is_finite n) eqn:Ef; [|done]. cbn [negb].
  rewrite math_max_finite by (done || by apply math_trunc_finite). cbn [negb]. by apply max_trunc_idem.
Qed.

Lemma retry_idem v r :
  match v with Some n => num_valid n = true | None => True end ->
  normalizeAutoRetryTimes show (interval_value v) = Some r -> normalizeAutoRetryTimes show (JNumber r) = Some r.
Proof.
  destruct v as [n|]; [|done]. unfold normalizeAutoRetryTimes. cbn [interval_value js_number]. intros Hv.
  destruct (is_finite n) eqn:Ef; [|done]. cbn [negb].
  destruct (num_lt (math_trunc n) (num 0) || num_lt (num 10) (math_trunc n)) eqn:E; [done|]. intros [= <-].
  rewrite math_trunc_finite by done. cbn [negb]. rewrite math_trunc_idem by done. by rewrite E.
Qed.

(** *** Reading the setting text *)

Lemma js_string_texts l : js_string show (JArray (JString <$> l)) = join [44] l.
Proof.
  cbn [js_string]. f_equal. induction l as [|x l IH]; [done|]. rewrite fmap_cons. cbn [nullish]. f_equal. exact IH.
Qed.

Lemma assoc_at k v rest : assoc (js k) ((js k, v) :: rest) = v.
Proof. cbn [assoc]. by rewrite str_eqb_refl. Qed.

(** Finds a property of a literal object. *)
Ltac find_prop := cbn [field];
  repeat first [rewrite assoc_at | rewrite assoc_skip_field by (vm_compute; reflexivity)].

Lemma protocol_auto f : (protocol_of f =s? HTTP_PROTOCOL_HTTP1) = false -> protocol_of f = HTTP_PROTOCOL_AUTO.
Proof. unfold protocol_of, normalizeHttpProtocol. case_match; [by vm_compute|done]. Qed.

Definition setting_ok (f : ChannelFormValues) : Prop := fields_ok show (setting_fields f) = true.

(** What the form shows of the setting text it wrote. *)
Definition reopened_extra (f : ChannelFormValues) : ExtraSettings :=
  mkExtra (f_force_format f) (f_thinking_to_content f) (trim (f_proxy f)) (protocol_of f) (shards_of f)
    (f_pass_through_body_enabled f) (f_system_prompt f) (f_system_prompt_override f).

Lemma extra_written f :
  setting_ok f ->
  parsed_text default_extra (extra_of show) (buildSettingJSON show f)
  = Ok (reopened_extra f).
Proof.
  intros Hok. unfold reopened_extra, parsed_text, buildSettingJSON. rewrite (parse_fields show _ Hok).
  assert (Ht : truthy (stringify show (JObject (setting_fields f))) = true) by reflexivity.
  rewrite Ht. cbn [negb]. unfold extra_of, setting_fields.
  destruct (protocol_of f =s? HTTP_PROTOCOL_HTTP1) eqn:Ep;
    [|destruct (num_lt (num 1) (shards_of f)) eqn:Es]; cbn [app]; find_prop; cbn [assoc];
    unfold read_text, read_flag, read_number, str_or, text_of, js_or; cbn [js_truthy];
    assert (Hor : forall t : jsstr, (if truthy t then t else []) = t) by (by intros []); rewrite !Hor;
    cbn [decoded_map2].
  - change (js_string show (if truthy HTTP_PROTOCOL_HTTP1 then JString HTTP_PROTOCOL_HTTP1 else JString []))
      with HTTP_PROTOCOL_HTTP1.
    apply str_eqb_eq in Ep. unfold shards_of. rewrite Ep. done.
  - change (js_string show (JString [])) with ([] : jsstr). change (normalizeHttpProtocol []) with HTTP_PROTOCOL_AUTO.
    change (HTTP_PROTOCOL_AUTO =s? HTTP_PROTOCOL_HTTP1) with false. cbv iota. rewrite (protocol_auto f Ep).
    unfold shards_of. rewrite Ep. by rewrite shards_idem.
  - change (js_string show (JString [])) with ([] : jsstr). change (normalizeHttpProtocol []) with HTTP_PROTOCOL_AUTO.
    change (HTTP_PROTOCOL_AUTO =s? HTTP_PROTOCOL_HTTP1) with false. cbv iota. rewrite (protocol_auto f Ep).
    unfold shards_of in *. rewrite Ep in *. by rewrite (shards_one _ Es).
Qed.

(** *** Reading the settings text *)

(** What the form shows of the settings it wrote: every value that belongs to the type
    of the channel, defaults for the others. *)
Definition reopened_settings (f : ChannelFormValues) (config : option AdvancedCustomConfig)
  (fs : list (jsstr * jsval)) : TypeSettings :=
  let fetchable := type_in f MODEL_FETCHABLE_TYPES in
  let openai_like := is_type f 1 || is_type f 57 in
  let identity := is_type f 1 || is_type f 14 || is_type f 57 in
  mkTypeSettings
    (if is_type f 41 then f_vertex_key_type f ||| js "json" else js "json")
    (if is_type f 3 then f_azure_responses_version f else [])
    (is_type f 20 && f_is_enterprise_account f)
    (if is_type f 33 then f_aws_key_type f ||| js "ak_sk" else js "ak_sk")
    (if identity then normalizeClientIdentityPreset (JString (f_client_identity_preset f)) else js "off")
    (identity && f_allow_service_tier f) (openai_like && f_disable_store f)
    (openai_like && f_allow_safety_identifier f) (openai_like && f_allow_include_obfuscation f)
    ((is_type f 1 || is_type f 14) && f_allow_inference_geo f) (is_type f 14 && f_allow_speed f)
    (is_type f 14 && f_claude_beta_query f) (f_disable_task_polling_sleep f)
    (if fetchable then f_upstream_check_enabled f
     else is_true (read_field "upstream_model_update_check_enabled" fs))
    (if fetchable then f_upstream_check_enabled f && f_upstream_auto_sync_enabled f
     else is_true (read_field "upstream_model_update_auto_sync_enabled" fs))
    (if fetchable then join [44] (ignored_models f)
     else match read_field "upstream_model_update_ignored_models" fs with
          | JArray l => js_string show (JArray l)
          | _ => []
          end)
    (f_channel_monitor_enabled f)
    (if f_channel_monitor_enabled f
     then form_normalizeMonitorInterval show (interval_value (f_channel_monitor_interval f)) (num 10)
     else num 10)
    (if is_type f CHANNEL_TYPE_CODEX && ((f_codex_policy f =s? js "enabled") || (f_codex_policy f =s? js "disabled"))
     then f_codex_policy f else js "follow")
    (normalizeAutoRetryTimes show (interval_value (f_auto_retry_times f)))
    (trim (f_channel_retry_status_codes f)) (trim (f_channel_auto_disable_status_codes f))
    (trim (f_channel_failure_keywords f))
    (match config with
     | Some c => if is_type f CHANNEL_TYPE_ADVANCED_CUSTOM then stringifyAdvancedCustomConfig c else []
     | None => []
     end).

Definition numbers_valid (f : ChannelFormValues) : Prop :=
  match f_channel_monitor_interval f with Some n => num_valid n = true | None => True end
  /\ match f_auto_retry_times f with Some n => num_valid n = true | None => True end.

Section Written.
Variables (f : ChannelFormValues) (config : option AdvancedCustomConfig) (fs : list (jsstr * jsval)).
Hypothesis Hvalid : numbers_valid f.
Hypothesis Hconfig : is_type f CHANNEL_TYPE_ADVANCED_CUSTOM = true -> is_Some config.

Definition out : list (jsstr * jsval) := foldl edit fs (settings_edits show f config fs).

Lemma out_at i k e : settings_edits show f config fs !! i = Some (k, e) -> assoc k out = edited fs (k, e).
Proof. intros H. apply edits_at; [apply edit_keys_NoDup|by apply (list_elem_of_lookup_2 _ i)]. Qed.

Lemma or_self (s d : jsstr) : (s ||| d) ||| d = s ||| d.
Proof. unfold str_or. destruct (truthy s) eqn:E; [by rewrite E|by destruct (truthy d)]. Qed.

Lemma read_put_text (b : bool) (s d : jsstr) k :
  read_text d (edited fs (k, put_if b (JString (s ||| d)))) = Ok (if b then s ||| d else d).
Proof. destruct b; unfold put_if, edited, read_text; cbn [snd js_truthy]; [by rewrite or_self|done]. Qed.

Lemma read_put_some (b : bool) (s : jsstr) k :
  read_text [] (edited fs (k, put_if (b && truthy s) (JString s))) = Ok (if b then s else []).
Proof. destruct b; [|done]. by destruct s. Qed.

Lemma identity_put (b : bool) s k :
  normalizeClientIdentityPreset (edited fs (k, put_if b (JString (normalizeClientIdentityPreset (JString s)))))
  = if b then normalizeClientIdentityPreset (JString s) else js "off".
Proof.
  destruct b; [|done]. unfold put_if, edited. cbn [snd]. unfold normalizeClientIdentityPreset at 2 3.
  by repeat case_match.
Qed.

Lemma ignored_put (b : bool) l k :
  match edited fs (js k, if b then Put (JArray (JString <$> l)) else Keep) with
  | JArray l => js_string show (JArray l)
  | _ => []
  end
  = if b then join [44] l
    else match read_field k fs with JArray l => js_string show (JArray l) | _ => [] end.
Proof. destruct b; [|done]. unfold edited. cbn [snd]. apply js_string_texts. Qed.

Lemma interval_put (b : bool) v k :
  match v with Some n => num_valid n = true | None => True end ->
  form_normalizeMonitorInterval show
    (edited fs (k, put_if b (JNumber (form_normalizeMonitorInterval show (interval_value v) (num 10))))) (num 10)
  = if b then form_normalizeMonitorInterval show (interval_value v) (num 10) else num 10.
Proof. intros Hv. destruct b; [|done]. unfold put_if, edited. cbn [snd]. by apply form_interval_idem. Qed.

Lemma retry_put v k :
  match v with Some n => num_valid n = true | None => True end ->
  normalizeAutoRetryTimes show
    (edited fs (k, match normalizeAutoRetryTimes show (interval_value v) with
                   | Some n => Put (JNumber n) | None => Drop end))
  = normalizeAutoRetryTimes show (interval_value v).
Proof.
  intros Hv. destruct (normalizeAutoRetryTimes show (interval_value v)) as [r|] eqn:E; [|done].
  unfold edited. cbn [snd]. by apply (retry_idem v).
Qed.

Lemma advanced_put k :
  advanced_text (edited fs (k, if is_type f CHANNEL_TYPE_ADVANCED_CUSTOM
                               then match config with Some c => Put (encode_config c) | None => Keep end
                               else Drop))
  = Ok (match config with
        | Some c => if is_type f CHANNEL_TYPE_ADVANCED_CUSTOM then stringifyAdvancedCustomConfig c else []
        | None => []
        end).
Proof.
  destruct (is_type f CHANNEL_TYPE_ADVANCED_CUSTOM) eqn:Et; [|by destruct config].
  destruct (Hconfig eq_refl) as [c ->]. unfold edited. cbn [snd]. unfold advanced_text.
  rewrite decode_config_encode. by destruct c.
Qed.

Lemma is_true_put (b v : bool) k : is_true (edited fs (k, put_if b (JBool v))) = b && v.
Proof. by destruct b. Qed.

Lemma is_true_keep (b v : bool) k :
  is_true (edited fs (js k, if b then Put (JBool v) else Keep)) = if b then v else is_true (read_field k fs).
Proof. by destruct b. Qed.

Lemma text_of_put s k : text_of show (edited fs (k, put_text s)) = trim s.
Proof.
  unfold put_text, put_if, edited, text_of, js_or. cbn [fst snd].
  destruct (truthy (trim s)) eqn:E; cbn [js_truthy]; [by rewrite E|]. apply truthy_false in E. by rewrite E.
Qed.

Lemma policy_written :
  form_normalizeCodexImageGenerationBridgePolicy out
  = if is_type f CHANNEL_TYPE_CODEX && ((f_codex_policy f =s? js "enabled") || (f_codex_policy f =s? js "disabled"))
    then f_codex_policy f else js "follow".
Proof.
  unfold form_normalizeCodexImageGenerationBridgePolicy, read_field.
  rewrite (out_at 19 (js "codex_image_generation_bridge_policy") _ eq_refl),
    (out_at 20 (js "codex_image_generation_bridge") _ eq_refl),
    (out_at 21 (js "codex_image_generation_bridge_enabled") _ eq_refl).
  unfold put_if, edited. cbn [fst snd].
  destruct (is_type f CHANNEL_TYPE_CODEX); cbn [andb]; [|done]. unfold is_literal.
  destruct (f_codex_policy f =s? js "enabled") eqn:E1; [by apply str_eqb_eq in E1 as ->|]. cbn [orb].
  destruct (f_codex_policy f =s? js "disabled") eqn:E2; [|done].
  apply str_eqb_eq in E2. rewrite E2. done.
Qed.

Lemma settings_read : type_settings_of show (JObject out) = Ok (reopened_settings f config fs).
Proof.
  destruct Hvalid as [Hv1 Hv2]. unfold type_settings_of. cbn [fields_of field].
  rewrite policy_written.
  rewrite (out_at 0 (js "vertex_key_type") _ eq_refl), (out_at 1 (js "azure_responses_version") _ eq_refl),
    (out_at 2 (js "openrouter_enterprise") _ eq_refl), (out_at 3 (js "aws_key_type") _ eq_refl),
    (out_at 4 (js "client_identity_preset") _ eq_refl), (out_at 5 (js "allow_service_tier") _ eq_refl),
    (out_at 6 (js "disable_store") _ eq_refl), (out_at 7 (js "allow_safety_identifier") _ eq_refl),
    (out_at 8 (js "allow_include_obfuscation") _ eq_refl), (out_at 9 (js "allow_inference_geo") _ eq_refl),
    (out_at 10 (js "allow_speed") _ eq_refl), (out_at 11 (js "claude_beta_query") _ eq_refl),
    (out_at 12 (js "disable_task_polling_sleep") _ eq_refl).
  rewrite (out_at 13 (js "upstream_model_update_check_enabled") _ eq_refl),
    (out_at 14 (js "upstream_model_update_auto_sync_enabled") _ eq_refl),
    (out_at 15 (js "upstream_model_update_ignored_models") _ eq_refl), (out_at 18 (js "advanced_custom") _ eq_refl),
    (out_at 22 (js "channel_monitor_enabled") _ eq_refl),
    (out_at 23 (js "channel_monitor_interval_minutes") _ eq_refl), (out_at 24 (js "auto_retry_times") _ eq_refl),
    (out_at 25 (js "channel_retry_status_codes") _ eq_refl),
    (out_at 26 (js "channel_auto_disable_status_codes") _ eq_refl),
    (out_at 27 (js "channel_failure_keywords") _ eq_refl).
  rewrite !is_true_put, !is_true_keep, !text_of_put, !read_put_text, read_put_some, identity_put, ignored_put,
    (interval_put _ _ _ Hv1), (retry_put _ _ Hv2), advanced_put.
  reflexivity.
Qed.

End Written.

End FormLemmas.
