(* ===== verification/ChannelReopen.v ===== *)
(** * Saving and reopening a channel

    The two directions of web/src/features/channels/lib/channel-form.ts composed:
    what the form shows of a channel it saved, and what happens to the settings the
    monitoring dialogs of channel-monitor.ts keep in the same text. *)

From Stdlib Require Import SpecFloat.
From S2P Require Import Prelude JsValue Json JsText AdvancedCustom ChannelMonitor ChannelForm.

Local Open Scope N_scope.

(** ** Edits that change nothing *)

Definition settled (fs : list (jsstr * jsval)) (ke : jsstr * Edit) : Prop :=
  match ke.2 with
  | Put v => assoc ke.1 fs = v /\ v <> JUndefined
  | Drop => assoc ke.1 fs = JUndefined
  | Keep => True
  end.

Lemma assoc_absent k fs : Forall (fun kv => kv.2 <> JUndefined) fs -> assoc k fs = JUndefined -> k ∉ fs.*1.
Proof.
  induction 1 as [|[k' w] fs Hw Hf IH]; cbn [assoc]; intros E; [apply not_elem_of_nil|].
  rewrite fmap_cons, elem_of_cons. cbn [fst]. destruct (k =s? k') eqn:Ek; [done|].
  apply str_eqb_neq in Ek. intros [?|?]; [done|]. by apply IH.
Qed.

Lemma del_absent k fs : k ∉ fs.*1 -> obj_del k fs = fs.
Proof.
  unfold obj_del. induction fs as [|[k' w] fs IH]; [done|]. rewrite fmap_cons, elem_of_cons, filter_cons. cbn [fst].
  intros H. rewrite decide_True by (intros ->; tauto). f_equal. apply IH. tauto.
Qed.

Lemma edits_settled show fs es :
  fields_ok show fs = true -> Forall (settled fs) es -> foldl edit fs es = fs.
Proof.
  intros Hok Hs. apply fields_ok_iff in Hok as [Hok _].
  assert (Hd : Forall (fun kv => kv.2 <> JUndefined) fs).
  { eapply Forall_impl; [exact Hok|]. intros [k v] [_ H]. cbn [snd] in *. by intros ->. }
  induction Hs as [|[k e] es He Hs IH]; [done|]. cbn [foldl]. rewrite <- IH at 2. f_equal.
  unfold settled, edit in *. cbn [fst snd] in *. destruct e; [by apply set_same; apply He| |done].
  by apply del_absent, assoc_absent.
Qed.

(** ** Lists of names *)

Definition clean_name (g : jsstr) : Prop := trimmed g /\ g <> [] /\ (44 ∉ g).

Lemma trim_clean gs : Forall clean_name gs -> trim <$> gs = gs.
Proof.
  induction 1 as [|g gs [Hg _] _ IH]; [done|]. rewrite fmap_cons, IH. by rewrite (trimmed_trim g Hg).
Qed.

Lemma groups_roundtrip gs : gs <> [] -> Forall clean_name gs -> parseGroups (formatGroups gs) = gs.
Proof.
  intros Hne Hc. unfold parseGroups, parseModels, formatGroups.
  assert (Hj : join [44] gs <> []).
  { destruct Hc as [|g gs (_ & Hg & _) _]; [done|]. destruct gs as [|g' gs]; [done|].
    rewrite join_cons by done. by destruct g. }
  rewrite (proj2 (truthy_true _) Hj). cbn [negb].
  rewrite split_join; [|done|by eapply Forall_impl; [exact Hc|intros g (_ & _ & H)]].
  rewrite (trim_clean gs Hc). clear Hne Hj. induction Hc as [|g gs (_ & Hg & _) _ IH]; [done|].
  rewrite filter_cons, decide_True by done. by f_equal.
Qed.

Lemma ignored_clean f : Forall clean_name (ignored_models f).
Proof.
  unfold ignored_models. apply Forall_forall. intros x (Hx & Hn & _)%dedup_elem_of.
  apply list_elem_of_fmap in Hx as (y & -> & Hy). split; [apply trim_trimmed|]. split; [done|].
  intros Hc%trim_elem_of. pose proof (split_free 44 (f_upstream_ignored_models f)) as Hf.
  rewrite Forall_forall in Hf. by apply (Hf y Hy).
Qed.

(** Names once trimmed and listed without repetition are read back as they are. *)
Lemma ignored_idem f :
  dedup_nonempty [] (trim <$> split 44 (join [44] (ignored_models f))) = ignored_models f.
Proof.
  pose proof (ignored_clean f) as Hc. pose proof (dedup_idem (trim <$> split 44 (f_upstream_ignored_models f))) as Hd.
  fold (ignored_models f) in Hd. destruct (ignored_models f) as [|m ms]; [done|].
  rewrite split_join; [|done|by eapply Forall_impl; [exact Hc|intros g (_ & _ & H)]].
  by rewrite (trim_clean _ Hc).
Qed.

(** ** Address *)

Lemma drop_while_idem (p : N -> bool) s : drop_while p (drop_while p s) = drop_while p s.
Proof.
  induction s as [|c s IH]; [done|]. cbn [drop_while]. destruct (p c) eqn:E; [done|]. cbn [drop_while]. by rewrite E.
Qed.

Lemma base_url_idem b :
  Forall (fun c => is_space c = false) (trim b) -> normalizeBaseUrl (normalizeBaseUrl b) = normalizeBaseUrl b.
Proof.
  intros Hb. unfold normalizeBaseUrl. rewrite (trimmed_trim (reverse (drop_while (N.eqb 47) (reverse (trim b))))).
  - by rewrite reverse_involutive, drop_while_idem.
  - apply solid_trimmed, Forall_reverse.
    destruct (drop_while_suffix (N.eqb 47) (reverse (trim b))) as (p & Hp & _).
    assert (Hr : Forall (fun c => is_space c = false) (reverse (trim b))) by (by apply Forall_reverse).
    rewrite Hp in Hr. by apply Forall_app in Hr as [_ Hr].
Qed.

(** ** Numbers *)

(** [Math.max(1, Math.trunc(n))] is an interval. *)
Lemma interval_at_least_one n :
  num_valid n = true -> is_finite n = true -> whole (num 1) (math_max (num 1) (math_trunc n)).
Proof.
  intros Hv Hf. pose proof (math_trunc_integer n Hv Hf) as Hi. pose proof (math_trunc_finite n Hv Hf) as Hf'.
  set (x := math_trunc n) in *. clearbody x.
  assert (Hm : math_max (num 1) x = if num_lt (num 1) x then x else num 1) by (by destruct x as [[]|[]| |[]]).
  rewrite Hm. destruct (num_lt (num 1) x) eqn:E; [|done]. split; [done|]. by apply num_lt_le.
Qed.

Section Reopen.
Variable show : jsnum -> jsstr.

(** ** Saving *)

(** What is written is representable in JSON: texts of 16-bit units, finite numbers
    whose printed form reads back, distinct names. *)
Definition writable (f : ChannelFormValues) (config : option AdvancedCustomConfig) (fs : list (jsstr * jsval)) : bool :=
  fields_ok show (setting_fields f) && fields_ok show fs
  && forallb (fun ke => match ke.2 with Put v => json_ok show v | _ => true end) (settings_edits show f config fs).

Lemma out_ok f config fs : writable f config fs = true -> fields_ok show (out show f config fs) = true.
Proof.
  unfold writable. rewrite !andb_true_iff. intros [[_ Hf] He]. apply edits_ok; [done|apply edit_keys_ok|].
  rewrite forallb_forall in He. apply Forall_forall. intros [k e] Hin%list_elem_of_In. specialize (He _ Hin).
  by destruct e.
Qed.

(** Neither [NaN] nor the negative zero. *)
Definition plain_number (o : option jsnum) : Prop :=
  match o with Some n => num_truthy n = true \/ n = num 0 | None => True end.

(** A form that passed the required checks of its schema, whose settings text and
    advanced configuration are [fs] and [config]. *)
Record saveable (f : ChannelFormValues) (config : option AdvancedCustomConfig) (fs : list (jsstr * jsval)) : Prop := {
  s_name : f_name f <> [];
  s_models : f_models f <> [];
  s_group : f_group f <> [] /\ Forall clean_name (f_group f);
  s_address : Forall (fun c => is_space c = false) (trim (f_base_url f));
  s_numbers : numbers_valid f;
  s_rank : plain_number (f_priority f) /\ plain_number (f_weight f);
  s_existing : existing_settings f = Ok fs;
  s_form_config : form_config f = Ok config;
  s_config : is_type f CHANNEL_TYPE_ADVANCED_CUSTOM = true -> exists c, config = Some c /\ config_ok c = true;
  s_writable : writable f config fs = true }.

(** The columns of a channel are those of a payload. *)
Definition carries (c : ApiChannel) (u : UpdatePayload) : Prop :=
  Some (a_name_ c) = u_name u /\ a_type_ c = u_type u /\ default [] (a_base_url c) = u_base_url u
  /\ default [] (a_openai_organization c) = u_openai_organization u /\ Some (a_models c) = u_models u
  /\ Some (a_group c) = u_group u /\ default [] (a_model_mapping c) = u_model_mapping u
  /\ a_priority c = Some (u_priority u) /\ a_weight c = Some (u_weight u)
  /\ default [] (a_test_model c) = u_test_model u /\ a_auto_ban c = Some (u_auto_ban u)
  /\ default [] (a_status_code_mapping c) = u_status_code_mapping u /\ default [] (a_tag c) = u_tag u
  /\ a_remark c = u_remark u /\ default [] (a_setting c) = u_setting u
  /\ default [] (a_param_override c) = u_param_override u /\ default [] (a_header_override c) = u_header_override u
  /\ a_settings c = u_settings u /\ a_other c = default [] (u_other u).

(** What the form shows of a channel it saved: texts trimmed, values normalised, the
    values that do not belong to the type of the channel at their defaults, the key
    and the choices for several keys at theirs. *)
Definition reopened (f : ChannelFormValues) (config : option AdvancedCustomConfig) (fs : list (jsstr * jsval))
  (status : jsnum) (multi_key_mode : jsstr) : ChannelFormValues :=
  let e := reopened_extra f in
  let t := reopened_settings show f config fs in
  let number o := Some (default (num 0) (num_or_null (Some (default (num 0) o)))) in
  mkForm (f_name f) (f_type f) (normalizeBaseUrl (f_base_url f)) [] (f_openai_organization f) (f_models f)
    (f_group f) (f_model_mapping f) (number (f_priority f)) (number (f_weight f)) (f_test_model f)
    (Some (default (num 1) (f_auto_ban f))) status (f_status_code_mapping f) (f_tag f) (f_remark f)
    (buildSettingJSON show f) (f_param_override f) (f_header_override f)
    (stringify show (JObject (out show f config fs))) (f_other f)
    (js "single") (Some (multi_key_mode ||| js "random")) (Some false) (js "append")
    (e_force_format e) (e_thinking_to_content e) (e_proxy e) (e_http_protocol e) (Some (e_shards e))
    (e_pass_through e) (e_system_prompt e) (e_prompt_override e)
    (t_enterprise t) (t_vertex_key_type t) (t_aws_key_type t) (t_azure_version t) (t_identity t)
    (t_service_tier t) (t_disable_store t) (t_safety t) (t_obfuscation t) (t_geo t) (t_speed t) (t_beta t)
    (t_polling t) (t_check t) (t_auto_sync t) (t_ignored t) (t_monitor t) (Some (t_interval t)) (t_policy t)
    (t_retry t) (t_retry_codes t) (t_disable_codes t) (t_keywords t) (t_advanced t).

Lemma or_null_default s : default [] (or_null s) = s.
Proof. unfold or_null. destruct (truthy s) eqn:E; [done|]. by apply truthy_false in E as ->. Qed.

Lemma or_null_some s : s <> [] -> or_null s = Some s.
Proof. unfold or_null. by intros ->%truthy_true. Qed.

Lemma settings_saved f config fs :
  existing_settings f = Ok fs -> form_config f = Ok config ->
  buildSettingsJSON show f = Ok (stringify show (JObject (out show f config fs))).
Proof. intros H1 H2. unfold buildSettingsJSON, settings_fields. by rewrite H1, H2. Qed.

Lemma group_text gs : gs <> [] -> Forall clean_name gs -> formatGroups gs <> [].
Proof.
  intros Hne Hc E. pose proof (groups_roundtrip gs Hne Hc) as H. rewrite E in H. by subst.
Qed.

Lemma settings_shown f config fs :
  saveable f config fs ->
  parsed_text default_type_settings (type_settings_of show) (stringify show (JObject (out show f config fs)))
  = Ok (reopened_settings show f config fs).
Proof.
  intros H. unfold parsed_text. rewrite parse_fields by (apply out_ok, H).
  assert (Ht : truthy (stringify show (JObject (out show f config fs))) = true) by reflexivity.
  rewrite Ht. cbn [negb]. apply settings_read; [apply H|].
  intros Hc. destruct (s_config _ _ _ H Hc) as (c & -> & _). by eexists.
Qed.

Lemma reopen_shows f config fs id u c :
  saveable f config fs -> transformFormDataToUpdatePayload show f id = Ok u -> carries c u ->
  transformChannelToFormDefaults show c = Ok (reopened f config fs (a_status c) (a_multi_key_mode c)).
Proof.
  intros H Hu Hc. unfold transformFormDataToUpdatePayload in Hu.
  rewrite (settings_saved f config fs) in Hu by apply H. cbn [decoded_map] in Hu. injection Hu as <-.
  destruct (s_group _ _ _ H) as [Hg Hgc]. pose proof (group_text _ Hg Hgc) as Hgt.
  unfold carries in Hc. cbn [u_name u_type u_base_url u_openai_organization u_models u_group u_model_mapping
    u_priority u_weight u_test_model u_auto_ban u_status_code_mapping u_tag u_remark u_setting u_param_override
    u_header_override u_settings u_other] in Hc.
  rewrite (or_null_some (f_name f)), (or_null_some (f_models f)), (or_null_some (formatGroups (f_group f))),
    or_null_default in Hc by (done || apply H).
  destruct Hc as ([= Hn] & Ht & Hb & Ho & [= Hm] & [= Hgr] & Hmm & Hp & Hw & Htm & Ha & Hs & Htag & Hr & Hset
    & Hpo & Hho & Hsts & Hot).
  unfold transformChannelToFormDefaults. rewrite Hset, Hsts, (settings_shown _ _ _ H), extra_written
    by (pose proof (s_writable _ _ _ H) as Hwr; unfold writable in Hwr; rewrite !andb_true_iff in Hwr; apply Hwr).
  cbn [decoded_map2]. f_equal. unfold form_of, reopened.
  rewrite Hn, Ht, Hb, Ho, Hm, Hgr, Hmm, Hp, Hw, Htm, Ha, Hs, Htag, Hr, Hset, Hpo, Hho, Hsts, Hot.
  unfold str_or at 1. rewrite (proj2 (truthy_true _) Hgt). rewrite groups_roundtrip by done. reflexivity.
Qed.

(** ** Saving again *)

(** The payload without the key. *)
Definition without_key (u : UpdatePayload) : UpdatePayload :=
  mkUpdate (u_id u) (u_name u) (u_type u) (u_base_url u) (u_openai_organization u) (u_models u)
    (u_group u) (u_model_mapping u) (u_priority u) (u_weight u) (u_test_model u) (u_auto_ban u)
    (u_status_code_mapping u) (u_tag u) (u_remark u) (u_setting u) (u_param_override u) (u_header_override u)
    (u_settings u) (u_other u) None.

Section Resave.
Variables (f : ChannelFormValues) (config : option AdvancedCustomConfig) (fs : list (jsstr * jsval)).
Variables (status : jsnum) (mode : jsstr).
Hypothesis Hs : saveable f config fs.

Abbreviation again := (reopened f config fs status mode).
Abbreviation result := (out show f config fs).

Lemma number_again o : plain_number o ->
  default (num 0) (Some (default (num 0) (num_or_null (Some (default (num 0) o))))) = default (num 0) o.
Proof.
  destruct o as [n|]; [|done]. intros [E | ->]; [|done]. unfold num_or_null, default, from_option, id. by rewrite E.
Qed.

Lemma setting_again : buildSettingJSON show again = buildSettingJSON show f.
Proof.
  assert (Hp : protocol_of again = protocol_of f) by apply protocol_idem.
  assert (Hsh : shards_of again = shards_of f).
  { unfold shards_of at 1. rewrite Hp. cbn [reopened f_http2_connection_shards reopened_extra e_shards].
    unfold shards_of. destruct (protocol_of f =s? HTTP_PROTOCOL_HTTP1); [done|]. apply shards_idem. }
  unfold buildSettingJSON, setting_fields. rewrite Hp, Hsh.
  cbn [reopened f_proxy reopened_extra e_proxy f_force_format e_force_format f_thinking_to_content
    e_thinking_to_content f_pass_through_body_enabled e_pass_through f_system_prompt e_system_prompt
    f_system_prompt_override e_prompt_override]. by rewrite trim_idem.
Qed.

Lemma existing_again : existing_settings again = Ok result.
Proof.
  unfold existing_settings. cbn [reopened f_settings].
  assert (Hp : JSON_parse (stringify show (JObject result)) = Some (JObject result)) by (apply parse_fields, out_ok, Hs).
  assert (Ht : truthy (stringify show (JObject result)) = true) by reflexivity. rewrite Ht. cbn [negb orb].
  destruct (stringify show (JObject result) =s? js "{}") eqn:E; [|by rewrite Hp].
  apply str_eqb_eq in E. rewrite E in Hp.
  assert (E0 : JSON_parse (js "{}") = Some (JObject [])) by (vm_compute; reflexivity).
  rewrite E0 in Hp. by injection Hp as <-.
Qed.

Lemma config_again : form_config again = Ok config.
Proof.
  pose proof (s_form_config _ _ _ Hs) as Hf. unfold form_config in *. change (is_type again ?n) with (is_type f n).
  destruct (is_type f CHANNEL_TYPE_ADVANCED_CUSTOM) eqn:Et; [|done].
  destruct (s_config _ _ _ Hs Et) as (c & -> & Hc).
  cbn [reopened f_advanced_custom reopened_settings t_advanced]. rewrite Et, parse_stringified_config by done.
  unfold parseAdvancedCustomConfig in Hf. repeat case_match; try done. injection Hf as <-.
  by rewrite normalize_config_idem.
Qed.

(** An edit that was made is settled. *)
Lemma settled_made i k e :
  settings_edits show f config fs !! i = Some (k, e) -> settled result (k, e).
Proof.
  intros Hi. unfold settled. cbn [fst snd]. pose proof (out_at show f config fs i k e Hi) as Ho.
  destruct e as [v| |]; [|done..]. rewrite Ho. split; [done|]. intros ->.
  pose proof (s_writable _ _ _ Hs) as Hw. unfold writable in Hw. rewrite !andb_true_iff, forallb_forall in Hw.
  destruct Hw as [_ Hw]. by specialize (Hw _ (proj1 (list_elem_of_In _ _) (list_elem_of_lookup_2 _ _ _ Hi))).
Qed.

(** Only the records of the last model check depend on the settings the form starts from. *)
Definition detected_key : jsstr := js "upstream_model_update_last_detected_models".
Definition checked_key : jsstr := js "upstream_model_update_last_check_time".

Lemma put_if_eq (b : bool) v w : (b = true -> v = w) -> put_if b v = put_if b w.
Proof. destruct b; [|done]. by intros ->. Qed.

Lemma put_text_trim s : put_text (trim s) = put_text s.
Proof. unfold put_text. by rewrite trim_idem. Qed.

Lemma identity_idem s : normalizeClientIdentityPreset (JString (normalizeClientIdentityPreset s)) = normalizeClientIdentityPreset s.
Proof. unfold normalizeClientIdentityPreset at 2 3. by repeat case_match. Qed.

Lemma policy_again (b : bool) p :
  let q := if b && ((p =s? js "enabled") || (p =s? js "disabled")) then p else js "follow" in
  put_if (b && ((q =s? js "enabled") || (q =s? js "disabled"))) (JString q)
  = put_if (b && ((p =s? js "enabled") || (p =s? js "disabled"))) (JString p).
Proof.
  cbv zeta. destruct b; [|done]. cbn [andb].
  destruct ((p =s? js "enabled") || (p =s? js "disabled")) eqn:E; [by rewrite E|done].
Qed.

(** Shows the values of the reopened form. *)
Ltac values := cbn [reopened reopened_settings f_vertex_key_type t_vertex_key_type f_azure_responses_version
  t_azure_version f_is_enterprise_account t_enterprise f_aws_key_type t_aws_key_type f_client_identity_preset
  t_identity f_allow_service_tier t_service_tier f_disable_store t_disable_store f_allow_safety_identifier t_safety
  f_allow_include_obfuscation t_obfuscation f_allow_inference_geo t_geo f_allow_speed t_speed f_claude_beta_query
  t_beta f_upstream_check_enabled t_check f_upstream_auto_sync_enabled t_auto_sync f_upstream_ignored_models t_ignored
  f_codex_policy t_policy f_channel_monitor_enabled t_monitor f_channel_monitor_interval t_interval f_auto_retry_times
  t_retry f_channel_retry_status_codes t_retry_codes f_channel_auto_disable_status_codes t_disable_codes
  f_channel_failure_keywords t_keywords].

Lemma edits_again :
  exists a b,
    settings_edits show again config result
    = <[17%nat := (checked_key, b)]> (<[16%nat := (detected_key, a)]> (settings_edits show f config fs))
    /\ settled result (detected_key, a) /\ settled result (checked_key, b).
Proof.
  destruct (s_numbers _ _ _ Hs) as [Hv1 Hv2]. eexists _, _. split; [|split].
  - unfold settings_edits. cbn [insert list_insert].
    repeat match goal with |- context [is_type again ?n] => change (is_type again n) with (is_type f n) end.
    change (type_in again ?l) with (type_in f l).
    repeat (apply (f_equal2 cons); [|]); try reflexivity; apply (f_equal (pair _)); values.
    all: try (apply put_if_eq; intros E; rewrite ?E; cbn [andb]; rewrite ?or_self, ?identity_idem; reflexivity).
    all: try apply put_text_trim.
    + destruct (is_type f 3); reflexivity.
    + destruct (type_in f MODEL_FETCHABLE_TYPES); reflexivity.
    + destruct (type_in f MODEL_FETCHABLE_TYPES); [|done]. by destruct (f_upstream_check_enabled f).
    + destruct (type_in f MODEL_FETCHABLE_TYPES) eqn:E; [|done]. unfold ignored_models at 1. values. rewrite E.
      by rewrite ignored_idem.
    + apply policy_again.
    + apply put_if_eq. intros E. rewrite E. by rewrite form_interval_idem.
    + fold (interval_value (f_auto_retry_times f)).
      destruct (normalizeAutoRetryTimes show (interval_value (f_auto_retry_times f))) as [r|] eqn:E; [|done].
      by rewrite (retry_idem show (f_auto_retry_times f) r).
  - change (type_in again ?l) with (type_in f l). unfold settled, read_field. fold detected_key. cbn [fst snd].
    pose proof (out_at show f config fs 16 detected_key _ eq_refl) as Ho. revert Ho. unfold edited, read_field.
    fold detected_key. cbn [fst snd]. values. generalize (assoc detected_key result). intros v Ho.
    destruct (type_in f MODEL_FETCHABLE_TYPES); [|done].
    destruct (f_upstream_check_enabled f); destruct (assoc detected_key fs); subst v; done.
  - change (type_in again ?l) with (type_in f l). unfold settled, read_field. fold checked_key. cbn [fst snd].
    pose proof (out_at show f config fs 17 checked_key _ eq_refl) as Ho. revert Ho. unfold edited, read_field.
    fold checked_key. cbn [fst snd]. generalize (assoc checked_key result). intros v Ho.
    destruct (type_in f MODEL_FETCHABLE_TYPES); [|done]. cbn [andb] in *.
    destruct (assoc checked_key fs); subst v; done.
Qed.

Lemma settings_again : foldl edit result (settings_edits show again config result) = result.
Proof.
  apply (edits_settled show); [apply out_ok, Hs|]. destruct edits_again as (a & b & -> & Ha & Hb).
  do 2 (apply Forall_insert; [|done]). apply Forall_lookup. intros i [k e]. apply settled_made.
Qed.

Lemma resave_same id :
  transformFormDataToUpdatePayload show again id
  = decoded_map without_key (transformFormDataToUpdatePayload show f id).
Proof.
  unfold transformFormDataToUpdatePayload.
  rewrite (settings_saved again config result) by (exact existing_again || exact config_again).
  rewrite (settings_saved f config fs) by apply Hs.
  assert (E : out show again config result = result) by exact settings_again. rewrite E.
  cbn [decoded_map]. f_equal. rewrite setting_again. destruct (s_rank _ _ _ Hs) as [Hp Hw].
  cbn [reopened f_base_url f_priority f_weight]. rewrite (number_again _ Hp), (number_again _ Hw).
  rewrite base_url_idem by apply Hs. reflexivity.
Qed.

End Resave.

(** C2: a channel that carries the columns of a payload the form sent opens as the form
    that was saved, with texts trimmed, numbers and presets normalised, the switches that
    do not belong to the type of the channel off, and no key; and saving it again without
    a change sends the same payload, less the key.  So opening and saving a channel is
    harmless, and nothing an administrator entered is lost on the way. *)
Theorem form_reopens f config fs id u c :
  saveable f config fs -> transformFormDataToUpdatePayload show f id = Ok u -> carries c u ->
  let again := reopened f config fs (a_status c) (a_multi_key_mode c) in
  transformChannelToFormDefaults show c = Ok again
  /\ transformFormDataToUpdatePayload show again id = Ok (without_key u).
Proof.
  intros Hs Hu Hc. split; [by eapply reopen_shows|]. rewrite (resave_same f config fs _ _ Hs), Hu. reflexivity.
Qed.

(** ** The monitoring dialogs *)

(** The model the settings name for the probe of the monitor. *)
Definition monitor_model (fs : list (jsstr * jsval)) : jsstr :=
  match read_field "channel_monitor_model" fs with JString m => trim m | _ => [] end.

Lemma assoc_has_key k fs : assoc k fs <> JUndefined -> has_key k fs = true.
Proof.
  intros H. apply bool_decide_eq_true. induction fs as [|[k' v] fs IH]; [done|]. rewrite fmap_cons.
  cbn [assoc] in H. destruct (k =s? k') eqn:E; [apply str_eqb_eq in E as ->; by left|]. right. by apply IH.
Qed.

(** C24: the form and the monitoring dialogs share the settings text.  Saving the form
    keeps every property that is not the form's own, so the automatic priority and the
    dead channel recovery read what they read before.  The monitoring dialog reads the
    switch the form wrote and, when it is on, the interval the form wrote, a whole number of
    minutes from one on; its model is the one the settings name, before and after, but
    after the form was saved it is no longer replaced by the test model of the
    channel when the settings name none ([test_model_fallback_lost]). *)
Theorem form_and_dialogs f config text test_model :
  saveable f config (parseChannelSettings (Some (f_settings f))) ->
  buildSettingsJSON show f = Ok text ->
  let before := mkChannel (Some (f_settings f)) test_model in
  let after := mkChannel (Some text) test_model in
  (forall k, k ∉ form_keys ->
     assoc k (parseChannelSettings (Some text)) = assoc k (parseChannelSettings (Some (f_settings f))))
  /\ readChannelAutoPrioritySettings show after = readChannelAutoPrioritySettings show before
  /\ readChannelDeadRecoverySettings show after = readChannelDeadRecoverySettings show before
  /\ m_enabled (readChannelMonitorSettings show after) = f_channel_monitor_enabled f
  /\ (f_channel_monitor_enabled f = true ->
      intervalMinutes (readChannelMonitorSettings show after)
      = form_normalizeMonitorInterval show (interval_value (f_channel_monitor_interval f)) (num 10)
      /\ whole (num 1) (intervalMinutes (readChannelMonitorSettings show after)))
  /\ monitorModel (readChannelMonitorSettings show after) = monitor_model (parseChannelSettings (Some (f_settings f)))
  /\ (monitor_model (parseChannelSettings (Some (f_settings f))) <> [] ->
      monitorModel (readChannelMonitorSettings show after) = monitorModel (readChannelMonitorSettings show before)).
Proof.
  set (fs := parseChannelSettings (Some (f_settings f))). intros Hs Ht. cbv zeta.
  rewrite (settings_saved f config fs) in Ht by apply Hs. injection Ht as <-.
  assert (Ep : parseChannelSettings (Some (stringify show (JObject (out show f config fs)))) = out show f config fs)
    by (apply parse_written, out_ok, Hs).
  assert (Hk : forall k, k ∉ form_keys -> assoc k (out show f config fs) = assoc k fs).
  { intros k H. apply edits_other. by rewrite edited_keys. }
  assert (Hm : assoc (js "channel_monitor_enabled") (out show f config fs) = JBool (f_channel_monitor_enabled f))
    by exact (out_at show f config fs 22 _ _ eq_refl).
  assert (Hi := out_at show f config fs 23 (js "channel_monitor_interval_minutes") _ eq_refl).
  assert (Hh : has_key (js "channel_monitor_enabled") (out show f config fs) = true)
    by (apply assoc_has_key; by rewrite Hm).
  unfold readChannelAutoPrioritySettings, readChannelDeadRecoverySettings, readChannelMonitorSettings, monitor_model, read_field.
  cbn [ch_settings m_enabled intervalMinutes monitorModel]. rewrite Ep. fold fs. rewrite Hm, Hi, Hh, orb_true_r.
  rewrite !Hk by (by_decision). cbn [orb].
  set (model := match assoc (js "channel_monitor_model") fs with JString m => trim m | _ => [] end).
  assert (Hmodel : model ||| [] = model) by (unfold str_or; by destruct model).
  split_and!; [done..| |done|].
  2:{ intros Hne. rewrite Hmodel. unfold str_or. by rewrite (proj2 (truthy_true _) Hne). }
  intros ->. unfold edited, put_if. cbn [snd]. fold (interval_value (f_channel_monitor_interval f)).
  assert (Hw : whole (num 1) (form_normalizeMonitorInterval show (interval_value (f_channel_monitor_interval f)) (num 10))).
  { destruct (s_numbers _ _ _ Hs) as [Hv _]. destruct (f_channel_monitor_interval f) as [n|]; [|done].
    unfold form_normalizeMonitorInterval. cbn [interval_value js_number].
    destruct (is_finite n) eqn:Ef; [|done]. by apply interval_at_least_one. }
  by rewrite interval_fixed.
Qed.

End Reopen.

(** ** Witnesses *)

Definition kept_fields : list (jsstr * jsval) := [(js "channel_auto_priority_enabled", JBool true)].

Definition sample_form : ChannelFormValues :=
  mkForm (js "primary") (num 1) (js "https://api.example.com/") (js "sk-new") [] (js "gpt-4,gpt-4o") [js "default"; js "vip"]
    [] (Some (num 5)) None [] None (num 1) [] (js "team") [] [] [] []
    (stringify show_int (JObject kept_fields)) [] (js "single") None None (js "append")
    true false (js " http://proxy:8080 ") (js "auto") (Some (num 4)) false (js "Answer briefly.") false
    false (js "json") (js "ak_sk") [] (js "codex_cli") true true false false false false false
    true true true (js " gpt-3, gpt-2 ,gpt-3") true (Some (num 30)) (js "follow") (Some (num 3))
    (js " 500-599 ") [] [] [].

(** The payload of the sample and a channel with its columns. *)
Definition sample_payload : UpdatePayload :=
  match transformFormDataToUpdatePayload show_int sample_form (num 7) with Ok u => u | _ =>
    mkUpdate (num 7) None (num 1) [] [] None None [] (num 0) (num 0) [] (num 0) [] [] [] [] [] [] [] None None end.

Definition saved_channel : ApiChannel :=
  mkApi (js "primary") (num 1) (Some (u_base_url sample_payload)) None (js "gpt-4,gpt-4o") (js "default,vip") None
    (Some (num 5)) (Some (num 0)) None (Some (num 1)) (num 1) None (Some (js "team")) []
    (Some (u_setting sample_payload)) None None (u_settings sample_payload) [] [].

Lemma sample_saveable : saveable show_int sample_form None kept_fields.
Proof.
  assert (Hc : forall g, g = js "default" \/ g = js "vip" -> clean_name g).
  { intros g [-> | ->]; (split; [by vm_compute|]); (split; [done|]); by_decision. }
  split.
  - discriminate.
  - discriminate.
  - split; [discriminate|]. apply Forall_cons. split; [apply Hc; by left|].
    apply Forall_cons. split; [apply Hc; by right|]. apply Forall_nil. exact I.
  - refine (bool_decide_unpack _ _). vm_compute. exact I.
  - split; [vm_compute; reflexivity|vm_compute; reflexivity].
  - split; [left; vm_compute; reflexivity|exact I].
  - vm_compute. reflexivity.
  - reflexivity.
  - intros E. vm_compute in E. discriminate E.
  - vm_compute. reflexivity.
Qed.

Lemma form_reopens_witness :
  transformChannelToFormDefaults show_int saved_channel
  = Ok (reopened show_int sample_form None kept_fields (num 1) []).
Proof.
  refine (proj1 (form_reopens show_int sample_form None kept_fields (num 7) sample_payload saved_channel
    sample_saveable _ _)).
  - vm_compute. reflexivity.
  - unfold carries. vm_compute. split_and!; reflexivity.
Defined.

Lemma form_and_dialogs_witness :
  autoPriorityEnabled (readChannelAutoPrioritySettings show_int (mkChannel (Some (u_settings sample_payload)) None)) = true.
Proof.
  refine (f_equal autoPriorityEnabled (proj1 (proj2 (form_and_dialogs show_int sample_form None (u_settings sample_payload) None _ _)))).
  - exact sample_saveable.
  - vm_compute. reflexivity.
Defined.

(** A channel without monitor settings whose test model is shown by the monitoring dialog:
    saving the form, with monitoring off, writes the switch, and the dialog shows no model. *)
Definition unmonitored_form : ChannelFormValues :=
  mkForm (js "primary") (num 1) (js "https://api.example.com/") [] [] (js "gpt-4") [js "default"]
    [] None None [] None (num 1) [] [] [] [] [] []
    (js "{}") [] (js "single") None None (js "append")
    false false [] (js "auto") None false [] false
    false (js "json") (js "ak_sk") [] [] false false false false false false false
    false false false [] false None (js "follow") None
    [] [] [] [].

Definition unmonitored_text : jsstr := match buildSettingsJSON show_int unmonitored_form with Ok s => s | _ => [] end.

Example test_model_fallback_lost :
  let shown text := monitorModel (readChannelMonitorSettings show_int (mkChannel (Some text) (Some (js "gpt-4")))) in
  shown (f_settings unmonitored_form) = js "gpt-4"
  /\ buildSettingsJSON show_int unmonitored_form = Ok unmonitored_text /\ shown unmonitored_text = [].
Proof. vm_compute. split_and!; reflexivity. Qed.
