(* ===== verification/BatchTest.v ===== *)
(** * Batch tests of the models of a channel

    web/src/features/channels/components/dialogs/channel-test-dialog-logic.ts: a manager
    that runs one batch of model tests at a time, five tests in flight, with a progress
    toast, a stop request and cancellation.

    The code is asynchronous.  A state holds every session ever started and where its
    run is suspended; an event is a call of the user interface or the resumption of a
    run: a test that settles, the end of a batch, of a pause between batches, or of the
    batch runner.  An event that cannot happen leaves the state as it is.  Callbacks are
    recorded in the order of their calls; they neither throw nor call back into the
    manager.  [run] is called once on a session, as the dialog does. *)

From S2P Require Import Prelude.

Local Open Scope nat_scope.

(** ** Data *)

Inductive TestStatus := idle | testing | success | error.
#[export] Instance TestStatus_eq_dec : EqDecision TestStatus.
Proof. solve_decision. Defined.

Record TestResult := mkResult {
  status : TestStatus; responseTime : option Z; completedAt : option Z; result_error : option jsstr;
  errorCode : option jsstr }.

Record BatchProgress := mkProgress { total : nat; completed : nat; succeeded : nat; failed : nat }.

Definition BATCH_TEST_CONCURRENCY : nat := 5.

Record BatchTestSummary := mkSummary { progress : BatchProgress; results : list TestResult; stopped : bool }.

Definition STREAM_INCOMPATIBLE_ENDPOINTS : list jsstr :=
  [js "embeddings"; js "image-generation"; js "jina-rerank"; js "openai-response-compact"].

(** The effective switch, whether tests stream, and whether the switch is disabled. *)
Definition resolveNonStreamTestMode (endpointType : jsstr) (nonStream : bool) : bool * bool * bool :=
  let disabled := bool_decide (endpointType ∈ STREAM_INCOMPATIBLE_ENDPOINTS) in
  let effective := disabled || nonStream in
  (effective, negb effective, disabled).

(** ** State *)

(** The toast of a session: its identifier once shown, and whether it was dismissed. *)
Record Toast := mkToast { toastId : option nat; isDismissed : bool }.

(** Where the run of a session is suspended: not started; waiting for the tests of the
    batch that starts at an index; in the pause after it; about to continue with the
    summary; over. *)
Inductive Phase :=
| NotRun
| Testing (start : nat) (waiting : list jsstr)
| Pausing (start : nat)
| Returned (summary : BatchTestSummary)
| Over.

Record Session := mkSession {
  cancelled : bool; stopRequested : bool; toast : Toast; lastProgress : option BatchProgress; phase : Phase;
  uniqueModels : list jsstr; collected : list TestResult; successes : nat }.

(** Calls of the interface the manager makes. *)
Inductive Call :=
| ToastLoading (stopping : bool) (id : option nat) (p : BatchProgress)
| ToastDismissed (id : nat)
| TestModel (model : jsstr)
| OnResult (model : jsstr) (r : TestResult)
| OnOutcome (s : BatchTestSummary)
| OnError
| OnFinally.

Record Manager := mkManager {
  currentGeneration : nat; currentSession : option nat; sessions : gmap nat Session; nextToast : nat;
  calls : list (nat * Call) }.

Definition empty_manager : Manager := mkManager 0 None ∅ 0 [].

(** A test that settled: with a result, with none, or rejected. *)
Inductive Settled := Tested (r : option TestResult) | Rejected.

Inductive Event :=
| Start
| Run (generation : nat) (models : list jsstr)
| TestSettled (generation : nat) (model : jsstr) (outcome : Settled)
| BatchSettled (generation : nat)
| PauseOver (generation : nat)
| PauseFailed (generation : nat)
| Resumed (generation : nat)
| RequestStop (generation : nat)
| Cancel (generation : nat)
| CancelCurrent.

(** ** Sessions *)

Definition set_session (g : nat) (s : Session) (m : Manager) : Manager :=
  mkManager (currentGeneration m) (currentSession m) (<[g := s]> (sessions m)) (nextToast m) (calls m).
Definition call (g : nat) (c : Call) (m : Manager) : Manager :=
  mkManager (currentGeneration m) (currentSession m) (sessions m) (nextToast m) (calls m ++ [(g, c)]).
Definition with_session (g : nat) (f : Session -> Manager -> Manager) (m : Manager) : Manager :=
  match sessions m !! g with Some s => f s m | None => m end.

Definition isCurrent (g : nat) (m : Manager) : bool :=
  match sessions m !! g with
  | Some s => negb (cancelled s) && (currentGeneration m =? g) && bool_decide (currentSession m = Some g)
  | None => false
  end.

Definition set_toast (t : Toast) (s : Session) : Session :=
  mkSession (cancelled s) (stopRequested s) t (lastProgress s) (phase s) (uniqueModels s) (collected s) (successes s).
Definition set_phase (p : Phase) (s : Session) : Session :=
  mkSession (cancelled s) (stopRequested s) (toast s) (lastProgress s) p (uniqueModels s) (collected s) (successes s).

(** [progressToast.dismiss()] *)
Definition dismiss (g : nat) : Manager -> Manager :=
  with_session g (fun s m =>
    if isDismissed (toast s) then m
    else let m' := set_session g (set_toast (mkToast None true) s) m in
         match toastId (toast s) with
         | Some id => call g (ToastDismissed id) m'
         | None => m'
         end).

(** [progressToast.show(...)]; [adapter.loading] returns a new identifier for a toast
    without one. *)
Definition show_toast (g : nat) (p : BatchProgress) : Manager -> Manager :=
  with_session g (fun s m =>
    if isDismissed (toast s) then m
    else let m' := call g (ToastLoading (stopRequested s) (toastId (toast s)) p) m in
         match toastId (toast s) with
         | Some _ => m'
         | None => mkManager (currentGeneration m') (currentSession m')
                     (<[g := set_toast (mkToast (Some (nextToast m')) false) s]> (sessions m')) (S (nextToast m')) (calls m')
         end).

Definition set_last (p : BatchProgress) (s : Session) : Session :=
  mkSession (cancelled s) (stopRequested s) (toast s) (Some p) (phase s) (uniqueModels s) (collected s) (successes s).

Definition reportProgress (g : nat) (p : BatchProgress) (m : Manager) : Manager :=
  if isCurrent g m then show_toast g p (with_session g (fun s => set_session g (set_last p s)) m) else m.

Definition progress_of (s : Session) : BatchProgress :=
  let done := length (collected s) in mkProgress (length (uniqueModels s)) done (successes s) (done - successes s).

Definition report (g : nat) : Manager -> Manager :=
  with_session g (fun s => reportProgress g (progress_of s)).

Definition stop_flag (s : Session) : Session :=
  mkSession (cancelled s) true (toast s) (lastProgress s) (phase s) (uniqueModels s) (collected s) (successes s).

Definition requestStop (g : nat) (m : Manager) : Manager :=
  with_session g (fun s m =>
    if negb (isCurrent g m) || stopRequested s then m
    else let m' := set_session g (stop_flag s) m in
         match lastProgress s with Some p => reportProgress g p m' | None => m' end) m.

(** [if (currentSession === session) currentSession = null] *)
Definition release (g : nat) (m : Manager) : Manager :=
  mkManager (currentGeneration m) (if bool_decide (currentSession m = Some g) then None else currentSession m)
    (sessions m) (nextToast m) (calls m).

Definition cancel_flag (s : Session) : Session :=
  mkSession true true (toast s) (lastProgress s) (phase s) (uniqueModels s) (collected s) (successes s).

Definition cancel (g : nat) : Manager -> Manager :=
  with_session g (fun s m =>
    if cancelled s then m else release g (dismiss g (set_session g (cancel_flag s) m))).

Definition cancelCurrent (m : Manager) : Manager :=
  match currentSession m with Some g => cancel g m | None => m end.

Definition new_session : Session := mkSession false false (mkToast None false) None NotRun [] [] 0.

Definition start (m : Manager) : Manager :=
  let m' := cancelCurrent m in
  let generation := currentGeneration m' + 1 in
  mkManager generation (Some generation) (<[generation := new_session]> (sessions m')) (nextToast m') (calls m').

(** ** The batch runner *)

Definition in_phase (g : nat) (p : Phase) : Manager -> Manager :=
  with_session g (fun s => set_session g (set_phase p s)).

Definition summary_of (s : Session) : BatchTestSummary :=
  mkSummary (progress_of s) (collected s)
    (stopRequested s && (length (collected s) <? length (uniqueModels s))).

(** The loop of the runner ends and it returns the summary. *)
Definition return_summary (g : nat) : Manager -> Manager :=
  with_session g (fun s => in_phase g (Returned (summary_of s))).

Definition call_tests (g : nat) (models : list jsstr) (m : Manager) : Manager :=
  foldl (fun m model => call g (TestModel model) m) m models.

(** The head of the loop, at the index a batch starts at. *)
Definition loop_at (g start : nat) : Manager -> Manager :=
  with_session g (fun s m =>
    if start <? length (uniqueModels s) then
      if stopRequested s || negb (isCurrent g m) then return_summary g m
      else let batch := take BATCH_TEST_CONCURRENCY (drop start (uniqueModels s)) in
           in_phase g (Testing start batch) (call_tests g batch m)
    else return_summary g m).

(** [[...new Set(models.map(trim).filter(Boolean))]] *)
Definition unique_models (models : list jsstr) : list jsstr := dedup_nonempty [] (trim <$> models).

Definition with_models (models : list jsstr) (s : Session) : Session :=
  mkSession (cancelled s) (stopRequested s) (toast s) (lastProgress s) (phase s) (unique_models models) [] 0.

Definition run_tests (g : nat) (models : list jsstr) : Manager -> Manager :=
  with_session g (fun s m => loop_at g 0 (report g (set_session g (with_models models s) m))).

Section Runner.
(** [createFallbackResult(error)] *)
Variable createFallbackResult : bool -> TestResult.

Definition collect (r : TestResult) (s : Session) : Session :=
  mkSession (cancelled s) (stopRequested s) (toast s) (lastProgress s) (phase s) (uniqueModels s) (collected s ++ [r])
    (successes s + match status r with success => 1 | _ => 0 end).

(** What a settled test does while its session is current. *)
Definition test_settled (g : nat) (model : jsstr) (outcome : Settled) (m : Manager) : Manager :=
  if negb (isCurrent g m) then m
  else
    let '(r, m1) := match outcome with
                    | Tested (Some r) => (r, m)
                    | Tested None => let r := createFallbackResult false in (r, call g (OnResult model r) m)
                    | Rejected => let r := createFallbackResult true in (r, call g (OnResult model r) m)
                    end in
    report g (with_session g (fun s => set_session g (collect r s)) m1).

(** After a batch: the end of the loop or a pause. *)
Definition batch_settled (g start : nat) : Manager -> Manager :=
  with_session g (fun s m =>
    if negb (isCurrent g m) || stopRequested s || (length (uniqueModels s) <=? start + BATCH_TEST_CONCURRENCY)
    then return_summary g m
    else in_phase g (Pausing start) m).

(** [finally] of the run. *)
Definition run_finally (g : nat) (m : Manager) : Manager :=
  let m1 := dismiss g m in
  let m2 := if isCurrent g m1 then call g OnFinally m1 else m1 in
  in_phase g Over (release g m2).

Definition run_resumed (g : nat) (summary : BatchTestSummary) (m : Manager) : Manager :=
  run_finally g (if isCurrent g m then call g (OnOutcome summary) (dismiss g m) else m).

Definition run_failed (g : nat) (m : Manager) : Manager :=
  run_finally g (if isCurrent g m then call g OnError (dismiss g m) else m).

(** ** Steps *)

Definition step (m : Manager) (ev : Event) : Manager :=
  match ev with
  | Start => start m
  | Run g models =>
      with_session g (fun s m => match phase s with NotRun => run_tests g models m | _ => m end) m
  | TestSettled g model outcome =>
      with_session g (fun s m =>
        match phase s with
        | Testing i waiting =>
            if bool_decide (model ∈ waiting)
            then test_settled g model outcome
                   (set_session g (set_phase (Testing i (filter (fun x => x <> model) waiting)) s) m)
            else m
        | _ => m
        end) m
  | BatchSettled g =>
      with_session g (fun s m => match phase s with Testing i [] => batch_settled g i m | _ => m end) m
  | PauseOver g =>
      with_session g (fun s m =>
        match phase s with Pausing i => loop_at g (i + BATCH_TEST_CONCURRENCY) m | _ => m end) m
  | PauseFailed g =>
      with_session g (fun s m => match phase s with Pausing _ => run_failed g m | _ => m end) m
  | Resumed g =>
      with_session g (fun s m => match phase s with Returned summary => run_resumed g summary m | _ => m end) m
  | RequestStop g => requestStop g m
  | Cancel g => cancel g m
  | CancelCurrent => cancelCurrent m
  end.

Definition reached (evs : list Event) : Manager := foldl step empty_manager evs.
End Runner.
