(* ===== verification/BatchProofs.v ===== *)
(** * Correctness of the batch tests of a channel

    Invariants of the manager of BatchTest.v.  An event of a generation changes the
    session of that generation only, appends calls of that generation only, and at most
    releases it as the current one: [moves].  The invariant of one session, [session_ok],
    is proved for each operation on the session alone and lifted to the manager once. *)

From S2P Require Import Prelude BatchTest.

Local Open Scope nat_scope.

(** ** Observations *)

Definition calls_of (g : nat) (m : Manager) : list Call :=
  omap (fun '(h, c) => if h =? g then Some c else None) (calls m).
Definition tests : list Call -> list jsstr := omap (fun c => match c with TestModel model => Some model | _ => None end).
Definition outcomes : list Call -> list BatchTestSummary :=
  omap (fun c => match c with OnOutcome o => Some o | _ => None end).
Definition count_success (l : list TestResult) : nat :=
  length (filter (fun r => status r = success) l).

Lemma tests_app a b : tests (a ++ b) = tests a ++ tests b.
Proof. apply omap_app. Qed.
Lemma outcomes_app a b : outcomes (a ++ b) = outcomes a ++ outcomes b.
Proof. apply omap_app. Qed.

Lemma test_calls l : tests (TestModel <$> l) = l /\ outcomes (TestModel <$> l) = [].
Proof. induction l as [|x l [IH1 IH2]]; [done|]. split; [cbn; by rewrite <- IH1 at 2|exact IH2]. Qed.

Lemma count_app a b : count_success (a ++ b) = count_success a + count_success b.
Proof. unfold count_success. by rewrite filter_app, length_app. Qed.
Lemma count_le l : count_success l <= length l.
Proof. apply length_filter. Qed.

Create Rewrite HintDb batch.
#[export] Hint Rewrite tests_app outcomes_app count_app app_nil_r : batch.

(** ** What an event does *)

Record moves (g : nat) (freed : bool) (m m' : Manager) (s' : Session) (cs : list Call) : Prop := mkMoves {
  mv_generation : currentGeneration m' = currentGeneration m;
  mv_current : currentSession m' = currentSession (if freed then release g m else m);
  mv_sessions : sessions m' = <[g := s']> (sessions m);
  mv_calls : calls m' = calls m ++ ((g,.) <$> cs) }.

Lemma moves_trans g r1 r2 m m1 m2 s1 s2 c1 c2 :
  moves g r1 m m1 s1 c1 -> moves g r2 m1 m2 s2 c2 -> moves g (r1 || r2) m m2 s2 (c1 ++ c2).
Proof.
  intros [G1 R1 S1 C1] [G2 R2 S2 C2]. split.
  - congruence.
  - rewrite R2. destruct r1, r2; cbn [orb release currentSession] in *; rewrite ?R1; repeat case_bool_decide; congruence.
  - by rewrite S2, S1, insert_insert_eq.
  - by rewrite C2, C1, fmap_app, (assoc_L (++)).
Qed.

Lemma moves_id g m s : sessions m !! g = Some s -> moves g false m m s [].
Proof. intros H. split; try done; [by rewrite insert_id|by rewrite app_nil_r]. Qed.

Lemma moves_lookup g r m m' s' cs : moves g r m m' s' cs -> sessions m' !! g = Some s'.
Proof. intros [_ _ -> _]. apply lookup_insert_eq. Qed.

Lemma moves_current g r m m' s s' cs :
  sessions m !! g = Some s -> moves g r m m' s' cs -> (r = false -> cancelled s' = cancelled s) ->
  isCurrent g m' = isCurrent g m && negb r.
Proof.
  intros Hs [G C S _] Hc. unfold isCurrent. rewrite S, lookup_insert_eq, Hs, G, C.
  destruct r; cbn [negb release currentSession].
  - rewrite andb_false_r. apply andb_false_intro2, bool_decide_eq_false_2. by case_bool_decide.
  - by rewrite Hc, andb_true_r.
Qed.

Lemma moves_set g m s s' : sessions m !! g = Some s -> moves g false m (set_session g s' m) s' [].
Proof. intros H. split; try done. cbn. by rewrite app_nil_r. Qed.
Lemma moves_call g m s c : sessions m !! g = Some s -> moves g false m (call g c m) s [c].
Proof. intros H. split; try done. cbn. by rewrite insert_id. Qed.

Lemma with_session_eq g f m s : sessions m !! g = Some s -> with_session g f m = f s m.
Proof. intros H. unfold with_session. by rewrite H. Qed.

Ltac in_session := erewrite with_session_eq by (first [eassumption | eapply moves_lookup; eassumption]).

Lemma moves_calls_of g r m m' s' cs : moves g r m m' s' cs ->
  calls_of g m' = calls_of g m ++ cs /\ forall h, h <> g -> calls_of h m' = calls_of h m.
Proof.
  intros [_ _ _ C]. unfold calls_of. rewrite C. clear C. split; [|intros h Hh]; rewrite omap_app; f_equal.
  - induction cs as [|c cs IH]; [done|]. cbn. rewrite Nat.eqb_refl. f_equal. exact IH.
  - rewrite <- (app_nil_r (omap _ (calls m))) at 2. f_equal. induction cs as [|c cs IH]; [done|].
    cbn. rewrite (proj2 (Nat.eqb_neq g h)) by congruence. exact IH.
Qed.

(** ** The operations as moves *)

(** Two states of a session that differ in what the toast shows only. *)
Definition like (s s' : Session) : Prop :=
  cancelled s' = cancelled s /\ isDismissed (toast s') = isDismissed (toast s) /\ phase s' = phase s /\
  uniqueModels s' = uniqueModels s /\ collected s' = collected s /\ successes s' = successes s.
Definition silent (cs : list Call) : Prop := tests cs = [] /\ outcomes cs = [].

#[export] Instance like_refl : Reflexive like.
Proof. intros s. done. Qed.
#[export] Instance like_trans : Transitive like.
Proof. intros a b c (?&?&?&?&?&?) (?&?&?&?&?&?). repeat split; congruence. Qed.

Lemma silent_nil : silent [].
Proof. done. Qed.
Lemma silent_app a b : silent a -> silent b -> silent (a ++ b).
Proof. intros [H1 H2] [H3 H4]. split; autorewrite with batch; [by rewrite H1, H3|by rewrite H2, H4]. Qed.
#[export] Hint Resolve silent_nil silent_app : core.

Definition dismissed (s : Session) : Session :=
  if isDismissed (toast s) then s else set_toast (mkToast None true) s.
Definition dismiss_calls (s : Session) : list Call :=
  if isDismissed (toast s) then [] else match toastId (toast s) with Some id => [ToastDismissed id] | None => [] end.

Lemma dismiss_moves g m s : sessions m !! g = Some s -> moves g false m (dismiss g m) (dismissed s) (dismiss_calls s).
Proof.
  intros Hs. unfold dismiss, dismissed, dismiss_calls. in_session. destruct (isDismissed (toast s)); [by apply moves_id|].
  destruct (toastId (toast s)); [|by eapply moves_set].
  eapply (moves_trans _ false false _ _ _ _ _ []); [by eapply moves_set|]. eapply moves_call, lookup_insert_eq.
Qed.

Lemma show_moves g m s p : sessions m !! g = Some s ->
  exists s' cs, moves g false m (show_toast g p m) s' cs /\ like s s' /\ silent cs.
Proof.
  intros Hs. unfold show_toast. in_session. destruct (isDismissed (toast s)) eqn:D; [exists s, []; split; [by apply moves_id|done]|].
  destruct (toastId (toast s)) as [id|] eqn:T; eexists _, [_]; (split; [split; cbn; [..|reflexivity]|]); try done.
  by rewrite insert_id.
Qed.

Lemma report_progress_moves g m s p : sessions m !! g = Some s ->
  exists s' cs, moves g false m (reportProgress g p m) s' cs /\ like s s' /\ silent cs /\ (isCurrent g m = false -> cs = []).
Proof.
  intros Hs. unfold reportProgress. destruct (isCurrent g m) eqn:C; [|exists s, []; split; [by apply moves_id|done]].
  in_session. pose proof (moves_set g m s (set_last p s) Hs) as M1.
  destruct (show_moves g _ _ p (moves_lookup _ _ _ _ _ _ M1)) as (s' & cs & M2 & L & Q).
  exists s', cs. split_and!; try done. exact (moves_trans _ _ _ _ _ _ _ _ _ _ M1 M2).
Qed.

Lemma report_moves g m s : sessions m !! g = Some s ->
  exists s' cs, moves g false m (report g m) s' cs /\ like s s' /\ silent cs /\ (isCurrent g m = false -> cs = []).
Proof. intros Hs. unfold report. in_session. by apply report_progress_moves. Qed.

Lemma return_moves g m s : sessions m !! g = Some s ->
  moves g false m (return_summary g m) (set_phase (Returned (summary_of s)) s) [].
Proof. intros Hs. unfold return_summary, in_phase. do 2 in_session. by eapply moves_set. Qed.

Lemma call_tests_moves g models : forall m s, sessions m !! g = Some s ->
  moves g false m (call_tests g models m) s (TestModel <$> models).
Proof.
  induction models as [|x l IH]; intros m s Hs; [by apply moves_id|].
  exact (moves_trans _ _ _ _ _ _ _ _ [_] _ (moves_call g m s (TestModel x) Hs) (IH (call g (TestModel x) m) s Hs)).
Qed.

(** The head of the loop on a session. *)
Definition looped (current : bool) (start : nat) (s : Session) : Session * list Call :=
  if (start <? length (uniqueModels s)) && negb (stopRequested s || negb current) then
    let batch := take BATCH_TEST_CONCURRENCY (drop start (uniqueModels s)) in
    (set_phase (Testing start batch) s, TestModel <$> batch)
  else (set_phase (Returned (summary_of s)) s, []).

Lemma loop_moves g m s start : sessions m !! g = Some s ->
  moves g false m (loop_at g start m) (looped (isCurrent g m) start s).1 (looped (isCurrent g m) start s).2.
Proof.
  intros Hs. unfold loop_at, looped. in_session.
  destruct (start <? _); cbn [andb]; [|by apply return_moves]. destruct (_ || _); cbn [negb]; [by apply return_moves|].
  set (batch := take _ _). pose proof (call_tests_moves g batch m s Hs) as M. cbn [fst snd].
  pose proof (moves_lookup _ _ _ _ _ _ M) as L. unfold in_phase. in_session.
  rewrite <- (app_nil_r (TestModel <$> batch)).
  exact (moves_trans _ _ _ _ _ _ _ _ _ _ M (moves_set _ _ _ _ L)).
Qed.

Lemma finally_moves g m s : sessions m !! g = Some s ->
  moves g true m (run_finally g m) (set_phase Over (dismissed s))
    (dismiss_calls s ++ if isCurrent g m then [OnFinally] else []).
Proof.
  intros Hs. unfold run_finally. pose proof (dismiss_moves g m s Hs) as M1.
  assert (isCurrent g (dismiss g m) = isCurrent g m) as ->.
  { rewrite (moves_current _ _ _ _ _ _ _ Hs M1), andb_true_r; [done|]. intros _. unfold dismissed. by destruct (isDismissed _). }
  assert (moves g false (dismiss g m) (if isCurrent g m then call g OnFinally (dismiss g m) else dismiss g m) (dismissed s)
            (if isCurrent g m then [OnFinally] else [])) as M2.
  { pose proof (moves_lookup _ _ _ _ _ _ M1). destruct (isCurrent g m); [by apply moves_call|by apply moves_id]. }
  pose proof (moves_trans _ _ _ _ _ _ _ _ _ _ M1 M2) as [G C S K]. cbn [orb] in C.
  unfold in_phase. erewrite with_session_eq by (cbn [release sessions]; rewrite S; apply lookup_insert_eq).
  split; cbn; [done|by rewrite C|by rewrite S, insert_insert_eq|done].
Qed.

Lemma run_tests_moves g models m s : sessions m !! g = Some s ->
  exists s1 cs, like (with_models models s) s1 /\ silent cs /\ (isCurrent g m = false -> cs = []) /\
    moves g false m (run_tests g models m) (looped (isCurrent g m) 0 s1).1 (cs ++ (looped (isCurrent g m) 0 s1).2).
Proof.
  intros Hs. unfold run_tests. in_session. pose proof (moves_set g m s (with_models models s) Hs) as M1.
  pose proof (moves_current _ _ _ _ _ _ _ Hs M1 (fun _ => eq_refl)) as C1. rewrite andb_true_r in C1.
  pose proof (moves_lookup _ _ _ _ _ _ M1) as L1.
  destruct (report_moves g _ _ L1) as (s1 & cs & M2 & L & Q & N). rewrite C1 in N.
  pose proof (moves_current _ _ _ _ _ _ _ L1 M2 (fun _ => proj1 L)) as C2. rewrite andb_true_r, C1 in C2.
  exists s1, cs. split_and!; try done. rewrite <- C2.
  exact (moves_trans _ _ _ _ _ _ _ _ [] _ M1
           (moves_trans _ _ _ _ _ _ _ _ _ _ M2 (loop_moves g _ _ 0 (moves_lookup _ _ _ _ _ _ M2)))).
Qed.

Lemma settled_moves createFallbackResult g model outcome m s : sessions m !! g = Some s -> isCurrent g m = true ->
  exists r s' cs, moves g false m (test_settled createFallbackResult g model outcome m) s' cs /\ like (collect r s) s' /\ silent cs.
Proof.
  intros Hs Hc. unfold test_settled. rewrite Hc. cbn [negb].
  destruct (match outcome with Tested (Some r) => _ | _ => _ end) as [r m1] eqn:E.
  assert (exists cs, moves g false m m1 s cs /\ silent cs) as (c1 & M1 & Q1).
  { destruct outcome as [[r0|]|]; injection E as <- <-; eexists; (split; [first [by apply moves_id|by apply moves_call]|done]). }
  pose proof (moves_lookup _ _ _ _ _ _ M1) as L1. in_session.
  pose proof (moves_set g m1 s (collect r s) L1) as M2.
  destruct (report_moves g _ _ (moves_lookup _ _ _ _ _ _ M2)) as (s' & c3 & M3 & L & Q3 & _).
  exists r, s', (c1 ++ ([] ++ c3)). split_and!; [|done|by apply silent_app].
  exact (moves_trans _ _ _ _ _ _ _ _ _ _ M1 (moves_trans _ _ _ _ _ _ _ _ _ _ M2 M3)).
Qed.

(** The end of a run: the callback [c] while the session is current, then [finally]. *)
Lemma end_moves g c m s : sessions m !! g = Some s ->
  moves g true m (run_finally g (if isCurrent g m then call g c (dismiss g m) else m)) (set_phase Over (dismissed s))
    (dismiss_calls s ++ if isCurrent g m then [c; OnFinally] else []).
Proof.
  intros Hs. destruct (isCurrent g m) eqn:C.
  2: { pose proof (finally_moves g m s Hs) as M. by rewrite C in M. }
  pose proof (dismiss_moves g m s Hs) as M1.
  pose proof (moves_call g _ _ c (moves_lookup _ _ _ _ _ _ M1)) as M2.
  pose proof (moves_trans _ _ _ _ _ _ _ _ _ _ M1 M2) as M3.
  pose proof (finally_moves g _ _ (moves_lookup _ _ _ _ _ _ M3)) as M4.
  rewrite (moves_current _ _ _ _ _ _ _ Hs M3), C in M4.
  2: { intros _. unfold dismissed. by destruct (isDismissed _). }
  pose proof (moves_trans _ _ _ _ _ _ _ _ _ _ M3 M4) as M.
  assert (dismissed (dismissed s) = dismissed s /\ dismiss_calls (dismissed s) = []) as [E1 E2].
  { unfold dismissed, dismiss_calls. destruct (isDismissed (toast s)) eqn:D; by rewrite ?D. }
  rewrite E1, E2, <- (assoc_L (++)) in M. exact M.
Qed.

Lemma cancel_moves g m s : sessions m !! g = Some s -> cancelled s = false ->
  moves g true m (cancel g m) (dismissed (cancel_flag s)) (dismiss_calls s).
Proof.
  intros Hs Hc. unfold cancel. in_session. rewrite Hc. pose proof (moves_set g m s (cancel_flag s) Hs) as M1.
  pose proof (dismiss_moves g _ _ (moves_lookup _ _ _ _ _ _ M1)) as M2.
  destruct (moves_trans _ _ _ _ _ _ _ _ _ _ M1 M2) as [G C S K]. split; [done| |done..].
  cbn [release currentSession]. by rewrite C.
Qed.

Lemma stop_moves g m s : sessions m !! g = Some s -> isCurrent g m = true -> stopRequested s = false ->
  exists s' cs, moves g false m (requestStop g m) s' cs /\ like s s' /\ silent cs.
Proof.
  intros Hs Hc Hst. unfold requestStop. in_session. rewrite Hc, Hst. cbn [negb orb].
  pose proof (moves_set g m s (stop_flag s) Hs) as M1. destruct (lastProgress s) as [p|].
  - destruct (report_progress_moves g _ _ p (moves_lookup _ _ _ _ _ _ M1)) as (s' & cs & M2 & L & Q & _).
    exists s', cs. split; [|done]. exact (moves_trans _ _ _ _ _ _ _ _ _ _ M1 M2).
  - exists (stop_flag s), []. done.
Qed.

(** ** The invariant of a session *)

(** A summary: its counters are those of its results, and a summary that is not
    [stopped] has a result for every model. *)
Definition summary_ok (models : list jsstr) (o : BatchTestSummary) : Prop :=
  let done := length (results o) in
  let good := count_success (results o) in
  progress o = mkProgress (length models) done good (done - good) /\ done <= length models /\
  (stopped o = false -> done = length models).

(** A session that is [current] and has made the calls [cs]. *)
Definition phase_ok (current : bool) (s : Session) (cs : list Call) : Prop :=
  let models := uniqueModels s in
  match phase s with
  | NotRun => tests cs = [] /\ outcomes cs = []
  | Testing i waiting =>
      i < length models /\ tests cs = take (i + BATCH_TEST_CONCURRENCY) models /\ outcomes cs = [] /\ NoDup waiting /\
      waiting ⊆ take BATCH_TEST_CONCURRENCY (drop i models) /\
      (current = true -> length (collected s) + length waiting = length (tests cs))
  | Pausing i =>
      i + BATCH_TEST_CONCURRENCY < length models /\ tests cs = take (i + BATCH_TEST_CONCURRENCY) models /\
      outcomes cs = [] /\ (current = true -> length (collected s) = i + BATCH_TEST_CONCURRENCY)
  | Returned o => outcomes cs = [] /\ (current = true -> summary_ok models o /\ length (collected s) = length (tests cs))
  | Over => current = false /\ length (outcomes cs) <= 1
  end.

Record session_ok (current : bool) (s : Session) (cs : list Call) : Prop := mkOk {
  ok_unique : NoDup (uniqueModels s);
  ok_tests : tests cs `prefix_of` uniqueModels s;
  ok_collected : length (collected s) <= length (tests cs);
  ok_successes : successes s = count_success (collected s);
  ok_outcomes : Forall (summary_ok (uniqueModels s)) (outcomes cs);
  ok_toast : current = false -> isDismissed (toast s) = true;
  ok_phase : phase_ok current s cs }.

Lemma ok_like current s s' cs0 cs : like s s' -> silent cs -> session_ok current s cs0 -> session_ok current s' (cs0 ++ cs).
Proof.
  intros (_&E2&E3&E4&E5&E6) [T O] [H1 H2 H3 H4 H5 H6 H7]. unfold phase_ok in H7.
  split; try unfold phase_ok; autorewrite with batch; rewrite ?T, ?O, ?app_nil_r, ?E2, ?E3, ?E4, ?E5, ?E6; done.
Qed.

(** The counters of the session as a summary. *)
Lemma summary_of_ok current s cs : session_ok current s cs ->
  (stopRequested s = true \/ length (collected s) = length (uniqueModels s)) -> summary_ok (uniqueModels s) (summary_of s).
Proof.
  intros [_ H2 H3 H4 _ _ _] Hend. apply prefix_length in H2. unfold summary_ok, summary_of. cbn [results progress stopped].
  split_and!; [unfold progress_of; by rewrite H4|lia|]. intros Hst.
  destruct Hend as [E|E]; [|exact E]. rewrite E in Hst. apply Nat.ltb_ge in Hst. lia.
Qed.

(** A session in a phase that has reported nothing yet returns its summary. *)
Lemma ok_return current s cs : session_ok current s cs -> outcomes cs = [] ->
  (current = true -> length (collected s) = length (tests cs) /\
     (stopRequested s = true \/ length (collected s) = length (uniqueModels s))) ->
  session_ok current (set_phase (Returned (summary_of s)) s) cs.
Proof.
  intros H Ho Hend. pose proof H as [H1 H2 H3 H4 H5 H6 H7]. split; try done.
  unfold phase_ok. cbn [set_phase phase uniqueModels]. split; [done|]. intros Hc. destruct (Hend Hc). split; [by eapply summary_of_ok|done].
Qed.

Lemma take_next {A} i n (l : list A) : take i l ++ take n (drop i l) = take (i + n) l.
Proof. rewrite <- (take_drop i (take (i + n) l)). by rewrite take_take, skipn_firstn_comm, Nat.min_l, Nat.add_comm, Nat.add_sub by lia. Qed.

Lemma ok_loop current start s cs :
  session_ok current s cs -> outcomes cs = [] -> tests cs = take start (uniqueModels s) ->
  (current = true -> length (collected s) = length (tests cs)) ->
  session_ok current (looped current start s).1 (cs ++ (looped current start s).2).
Proof.
  intros H Ho Ht Hc. pose proof H as [H1 H2 H3 H4 H5 H6 H7]. unfold looped.
  destruct (_ && _) eqn:B; cbn [fst snd].
  - apply andb_prop in B as [B1%Nat.ltb_lt _]. destruct (test_calls (take BATCH_TEST_CONCURRENCY (drop start (uniqueModels s)))) as [E1 E2].
    assert (tests (cs ++ (TestModel <$> take BATCH_TEST_CONCURRENCY (drop start (uniqueModels s))))
            = take (start + BATCH_TEST_CONCURRENCY) (uniqueModels s)) as Et.
    { autorewrite with batch. by rewrite E1, Ht, take_next. }
    split; cbn [set_phase uniqueModels collected successes toast]; try done.
    + rewrite Et. apply prefix_take.
    + rewrite tests_app, length_app. lia.
    + by rewrite outcomes_app, E2, app_nil_r.
    + unfold phase_ok. cbn [set_phase uniqueModels collected phase]. rewrite outcomes_app, Ho, E2. split_and!; try done.
      * eapply sublist_NoDup; [exact H1|]. etrans; [apply sublist_take|apply sublist_drop].
      * intros C. rewrite tests_app, E1, length_app. specialize (Hc C). lia.
  - rewrite app_nil_r. apply ok_return; [done..|]. intros C. specialize (Hc C). split; [done|]. apply andb_false_iff in B as [B%Nat.ltb_ge|B].
    + right. by rewrite Hc, Ht, take_ge.
    + left. rewrite C in B. cbn [negb] in B. rewrite orb_false_r in B. by apply negb_false_iff.
Qed.

(** A test that settles leaves the set of those waited for. *)
Lemma filter_waiting (x : jsstr) l : NoDup l -> x ∈ l -> S (length (filter (fun y => y <> x) l)) = length l.
Proof.
  induction 1 as [|y l Hy Hl IH]; intros Hx; [by apply not_elem_of_nil in Hx|].
  destruct (decide (y = x)) as [->|Hne].
  - rewrite filter_cons_False by (intros E; by apply E). cbn [length]. f_equal. f_equal. clear -Hy.
    induction l as [|z l IH]; [done|]. apply not_elem_of_cons in Hy as [Hz Hl].
    rewrite filter_cons_True by congruence. f_equal. by apply IH.
  - rewrite filter_cons_True by done. cbn [length]. f_equal. apply IH. apply elem_of_cons in Hx as [->|Hx]; done.
Qed.

Lemma ok_waiting s cs i waiting x : session_ok false s cs -> phase s = Testing i waiting ->
  session_ok false (set_phase (Testing i (filter (fun y => y <> x) waiting)) s) cs.
Proof.
  intros [H1 H2 H3 H4 H5 H6 H7] P. unfold phase_ok in H7. rewrite P in H7. destruct H7 as (?&?&?&?&Hw&?).
  split; try done. unfold phase_ok. cbn [set_phase phase uniqueModels]. split_and!; try done.
  - by apply NoDup_filter.
  - intros y [_ Hy]%list_elem_of_filter. by apply Hw.
Qed.

Lemma ok_collect s cs i waiting x r : session_ok true s cs -> phase s = Testing i waiting -> x ∈ waiting ->
  session_ok true (collect r (set_phase (Testing i (filter (fun y => y <> x) waiting)) s)) cs.
Proof.
  intros [H1 H2 H3 H4 H5 H6 H7] P Hx. unfold phase_ok in H7. rewrite P in H7. destruct H7 as (?&?&?&Hn&Hw&Hc).
  specialize (Hc eq_refl). pose proof (filter_waiting x waiting Hn Hx).
  split; try done; cbn [collect set_phase uniqueModels collected successes].
  - rewrite length_app. cbn. lia.
  - rewrite count_app, H4. f_equal. unfold count_success. rewrite filter_cons.
    case_decide as E; [by rewrite E|]. by destruct (status r).
  - unfold phase_ok. cbn [collect set_phase phase uniqueModels collected]. split_and!; try done.
    + by apply NoDup_filter.
    + intros y [_ Hy]%list_elem_of_filter. by apply Hw.
    + intros _. rewrite length_app. cbn. lia.
Qed.

Lemma ok_batch s cs i current : session_ok current s cs -> phase s = Testing i [] ->
  let s' := if negb current || stopRequested s || (length (uniqueModels s) <=? i + BATCH_TEST_CONCURRENCY)
            then set_phase (Returned (summary_of s)) s else set_phase (Pausing i) s in
  session_ok current s' cs.
Proof.
  intros H P. pose proof H as [H1 H2 H3 H4 H5 H6 H7]. unfold phase_ok in H7. rewrite P in H7.
  destruct H7 as (?&Ht&?&_&_&Hc). cbv zeta. cbn [length] in Hc. rewrite Nat.add_0_r in Hc. destruct (_ || _) eqn:B.
  - apply ok_return; [done..|]. intros C. rewrite C in B. specialize (Hc C). split; [done|]. cbn [negb orb] in B.
    apply orb_prop in B as [B|B%Nat.leb_le]; [by left|]. right. by rewrite Hc, Ht, take_ge.
  - apply orb_false_iff in B as [_ B%Nat.leb_gt]. split; try done. unfold phase_ok.
    cbn [set_phase phase uniqueModels collected]. split_and!; try done.
    intros C. rewrite (Hc C), Ht. apply length_take_le. lia.
Qed.

Lemma dismissed_toast s : isDismissed (toast (dismissed s)) = true.
Proof. unfold dismissed. by destruct (isDismissed (toast s)) eqn:D. Qed.
Lemma dismissed_like s : uniqueModels (dismissed s) = uniqueModels s /\ collected (dismissed s) = collected s /\
  successes (dismissed s) = successes s /\ phase (dismissed s) = phase s /\ cancelled (dismissed s) = cancelled s.
Proof. unfold dismissed. by destruct (isDismissed (toast s)). Qed.
Lemma dismiss_silent s : silent (dismiss_calls s).
Proof. unfold dismiss_calls. destruct (isDismissed (toast s)), (toastId (toast s)); done. Qed.
Lemma dismiss_quiet s : isDismissed (toast s) = true -> dismiss_calls s = [].
Proof. unfold dismiss_calls. by intros ->. Qed.

(** The end of a run, with the summary it returned if it reports one. *)
Lemma ok_end s cs c current : session_ok current s cs -> outcomes cs = [] ->
  (current = true -> tests [c] = [] /\ Forall (summary_ok (uniqueModels s)) (outcomes [c])) ->
  session_ok false (set_phase Over (dismissed s)) (cs ++ (dismiss_calls s ++ if current then [c; OnFinally] else [])).
Proof.
  intros [H1 H2 H3 H4 H5 H6 H7] Ho Hc. destruct (dismiss_silent s) as [T O]. destruct (dismissed_like s) as (E1&E2&E3&_&_).
  assert (tests (if current then [c; OnFinally] else []) = [] /\
          Forall (summary_ok (uniqueModels s)) (outcomes (if current then [c; OnFinally] else [])) /\
          length (outcomes (if current then [c; OnFinally] else [])) <= 1) as (T'&O'&L').
  { destruct current; [|cbn; auto using Forall_nil]. destruct (Hc eq_refl). destruct c; cbn in *; auto with lia. }
  split; unfold phase_ok; cbn [set_phase uniqueModels collected successes toast phase];
    rewrite ?tests_app, ?outcomes_app, ?T, ?O, ?Ho, ?T', ?E1, ?E2, ?E3, ?app_nil_r, ?app_nil_l; try done.
  intros _. apply dismissed_toast.
Qed.

Lemma ok_cancel s cs current : session_ok current s cs -> session_ok false (dismissed (cancel_flag s)) (cs ++ dismiss_calls s).
Proof.
  intros [H1 H2 H3 H4 H5 H6 H7]. destruct (dismiss_silent s) as [T O].
  destruct (dismissed_like (cancel_flag s)) as (E1&E2&E3&E4&_).
  split; autorewrite with batch; rewrite ?T, ?O, ?app_nil_r, ?E1, ?E2, ?E3; try done; [intros _; apply dismissed_toast|].
  unfold phase_ok in *. autorewrite with batch. rewrite T, O, !app_nil_r, E1, E2, E4. cbn [cancel_flag phase uniqueModels collected].
  destruct (phase s); destruct_and?; split_and!; done.
Qed.

Lemma ok_models s cs models current : session_ok current s cs -> phase s = NotRun -> session_ok current (with_models models s) cs.
Proof.
  intros [H1 H2 H3 H4 H5 H6 H7] P. unfold phase_ok in H7. rewrite P in H7. destruct H7 as [Ht Ho].
  split; unfold phase_ok; cbn [with_models uniqueModels collected successes toast phase]; rewrite ?P, ?Ht, ?Ho; try done.
  - apply dedup_NoDup.
  - apply prefix_nil.
Qed.

(** ** Events on the manager *)

(** What is left of a run: ten for every model not yet passed, the tests waited for,
    and the steps of the phase. *)
Definition run_measure (s : Session) : nat :=
  let left i := 10 * (length (uniqueModels s) - i) in
  match phase s with
  | NotRun | Over => 0
  | Testing i waiting => left i + length waiting + 2
  | Pausing i => left i + 1
  | Returned _ => 1
  end.

(** The events by which the run of a generation goes on. *)
Definition of_run (ev : Event) : option nat :=
  match ev with
  | TestSettled g _ _ | BatchSettled g | PauseOver g | PauseFailed g | Resumed g => Some g
  | _ => None
  end.

Record transition (g : nat) (running : bool) (m m' : Manager) (s s' : Session) (cs : list Call) (freed : bool) : Prop := mkTransition {
  tr_moves : moves g freed m m' s' cs;
  tr_cancelled : freed = false -> cancelled s' = cancelled s;
  tr_ok : session_ok (isCurrent g m && negb freed) s' (calls_of g m ++ cs);
  tr_quiet : isCurrent g m = false -> cs = [];
  tr_measure : phase s <> NotRun -> phase s' <> NotRun /\ run_measure s' <= run_measure s;
  tr_running : running = true -> run_measure s' < run_measure s }.

Definition changed (g : nat) (running : bool) (m m' : Manager) : Prop :=
  exists s s' cs freed, sessions m !! g = Some s /\ transition g running m m' s s' cs freed.

Section Transitions.
Context (g : nat) (m : Manager) (s : Session) (Hs : sessions m !! g = Some s).
Context (Hok : session_ok (isCurrent g m) s (calls_of g m)).

Lemma quiet_toast : isCurrent g m = false -> dismiss_calls s = [].
Proof using Hok. intros C. apply dismiss_quiet. by apply Hok. Qed.

Lemma like_measure s1 s2 : like s1 s2 -> run_measure s2 = run_measure s1.
Proof. intros (_&_&E3&E4&_&_). unfold run_measure. by rewrite E3, E4. Qed.

Lemma looped_started current start s1 : phase (looped current start s1).1 <> NotRun /\
  run_measure (looped current start s1).1 <= 10 * (length (uniqueModels s1) - start) + 7.
Proof.
  unfold looped, run_measure. destruct (_ && _); cbn [fst set_phase phase uniqueModels]; (split; [done|]); [|lia].
  rewrite length_take. unfold BATCH_TEST_CONCURRENCY. lia.
Qed.

Lemma run_transition models : phase s = NotRun -> changed g false m (run_tests g models m).
Proof using Hs Hok.
  intros P. destruct (run_tests_moves g models m s Hs) as (s1 & cs & L & Q & N & M).
  exists s, (looped (isCurrent g m) 0 s1).1, (cs ++ (looped (isCurrent g m) 0 s1).2), false. split; [done|].
  destruct L as (L1&L2) eqn:EL. clear EL.
  assert (session_ok (isCurrent g m) s1 (calls_of g m ++ cs)) as H1.
  { eapply ok_like; [exact (conj L1 L2)|done|]. by apply ok_models. }
  split; try done.
  - intros _. unfold looped. destruct (_ && _); cbn; by rewrite L1.
  - rewrite andb_true_r, (assoc_L (++)). destruct H1 as [h1 h2 h3 h4 h5 h6 h7] eqn:E. clear E.
    unfold phase_ok in h7. destruct L2 as (_&E3&_). rewrite E3 in h7. cbn [with_models phase] in h7. rewrite P in h7. destruct h7 as [T O].
    apply ok_loop; [done|done|by rewrite T|]. intros _. rewrite T in h3 |- *. cbn in *. lia.
  - intros C. rewrite (N C). unfold looped. rewrite C, orb_true_r, andb_false_r. done.
Qed.

Lemma settled_transition createFallbackResult i waiting model outcome : phase s = Testing i waiting -> model ∈ waiting ->
  changed g true m (test_settled createFallbackResult g model outcome
                      (set_session g (set_phase (Testing i (filter (fun x => x <> model) waiting)) s) m)).
Proof using Hs Hok.
  intros P Hin. set (s1 := set_phase _ s). pose proof (moves_set g m s s1 Hs) as M1.
  pose proof (moves_current _ _ _ _ _ _ _ Hs M1 (fun _ => eq_refl)) as C1. rewrite andb_true_r in C1.
  assert (run_measure s1 < run_measure s) as Hm.
  { unfold run_measure. subst s1. cbn [set_phase phase uniqueModels]. rewrite P.
    pose proof Hok as [_ _ _ _ _ _ H7]. unfold phase_ok in H7. rewrite P in H7. destruct H7 as (_&_&_&Hn&_).
    pose proof (filter_waiting model waiting Hn Hin). lia. }
  destruct (isCurrent g m) eqn:C.
  - destruct (settled_moves createFallbackResult g model outcome _ s1 (moves_lookup _ _ _ _ _ _ M1) C1) as (r & s' & cs & M2 & L & Q).
    exists s, s', ([] ++ cs), false. split; [done|]. pose proof (like_measure _ _ L) as E.
    assert (run_measure (collect r s1) = run_measure s1) as E' by done.
    split; [exact (moves_trans _ _ _ _ _ _ _ _ _ _ M1 M2)|by destruct L|..].
    + rewrite C. eapply ok_like; [done..|]. by apply ok_collect.
    + by rewrite C.
    + intros _. split; [|lia]. destruct L as (_&_&->&_). done.
    + intros _. lia.
  - exists s, s1, [], false. split; [done|]. unfold test_settled. rewrite C1. cbn [negb].
    split; try done.
    + rewrite C, app_nil_r. by apply ok_waiting.
    + intros _. split; [done|lia].
Qed.

Lemma batch_transition i : phase s = Testing i [] -> changed g true m (batch_settled g i m).
Proof using Hs Hok.
  intros P. pose proof (ok_batch _ _ _ _ Hok P) as H. cbv zeta in H.
  unfold batch_settled. in_session. destruct (_ || _).
  all: eexists s, _, [], false; split; [done|].
  all: split; [first [by apply return_moves|unfold in_phase; in_session; by eapply moves_set]|done|by rewrite andb_true_r, app_nil_r|done|..].
  all: unfold run_measure; rewrite P; cbn [set_phase phase uniqueModels length]; intros _; try split; try done; lia.
Qed.

Lemma pause_transition i : phase s = Pausing i -> changed g true m (loop_at g (i + BATCH_TEST_CONCURRENCY) m).
Proof using Hs Hok.
  intros P. pose proof Hok as [_ _ H3 _ _ _ H7]. unfold phase_ok in H7. rewrite P in H7. destruct H7 as (Hi & Ht & Ho & Hc).
  destruct (looped_started (isCurrent g m) (i + BATCH_TEST_CONCURRENCY) s) as [L1 L2].
  assert (run_measure (looped (isCurrent g m) (i + BATCH_TEST_CONCURRENCY) s).1 < run_measure s) as Hm.
  { unfold run_measure at 2. rewrite P. unfold BATCH_TEST_CONCURRENCY in *. lia. }
  eexists s, _, _, false. split; [done|]. split; [by apply loop_moves|..].
  - intros _. unfold looped. by destruct (_ && _).
  - rewrite andb_true_r. apply ok_loop; [done..|]. intros C. rewrite (Hc C), Ht, length_take. lia.
  - intros C. unfold looped. by rewrite C, orb_true_r, andb_false_r.
  - intros _. split; [done|lia].
  - done.
Qed.

Lemma end_transition c : 0 < run_measure s -> outcomes (calls_of g m) = [] ->
  (isCurrent g m = true -> tests [c] = [] /\ Forall (summary_ok (uniqueModels s)) (outcomes [c])) ->
  changed g true m (run_finally g (if isCurrent g m then call g c (dismiss g m) else m)).
Proof using Hs Hok.
  intros Hm Ho Hc. eexists s, _, _, true. split; [done|]. split; [by apply end_moves|done|..].
  - rewrite andb_false_r. by apply ok_end.
  - intros C. by rewrite quiet_toast, C.
  - intros _. split; [done|]. cbn. lia.
  - intros _. cbn. lia.
Qed.

Lemma cancel_transition : cancel g m = m \/ changed g false m (cancel g m).
Proof using Hs Hok.
  destruct (cancelled s) eqn:C; [left; unfold cancel; in_session; by rewrite C|]. right.
  eexists s, _, _, true. split; [done|]. destruct (dismissed_like (cancel_flag s)) as (E1&_&_&E4&_).
  split; [by apply cancel_moves|done| |exact quiet_toast| |done].
  - rewrite andb_false_r. eapply ok_cancel, Hok.
  - intros P. unfold run_measure. rewrite E4, E1. split; [done|]. apply Nat.le_refl.
Qed.

Lemma stop_transition : requestStop g m = m \/ changed g false m (requestStop g m).
Proof using Hs Hok.
  destruct (negb (isCurrent g m) || stopRequested s) eqn:B; [left; unfold requestStop; in_session; by rewrite B|].
  apply orb_false_iff in B as [C%negb_false_iff Hst]. right.
  destruct (stop_moves g m s Hs C Hst) as (s' & cs & M & L & Q). exists s, s', cs, false. split; [done|].
  split; [done|by destruct L| | | |done].
  - rewrite andb_true_r. by eapply ok_like.
  - by rewrite C.
  - intros P. rewrite (like_measure _ _ L). split; [|done]. by destruct L as (_&_&->&_).
Qed.
End Transitions.

(** ** The invariant of the manager *)

Record manager_ok (m : Manager) : Prop := mkManagerOk {
  mo_current : forall g, currentSession m = Some g -> g = currentGeneration m /\ isCurrent g m = true;
  mo_sessions : forall g s, sessions m !! g = Some s -> g <= currentGeneration m /\ session_ok (isCurrent g m) s (calls_of g m);
  mo_fresh : forall g, sessions m !! g = None -> calls_of g m = [] }.

Lemma moves_other g r m m' s' cs h : moves g r m m' s' cs -> h <> g ->
  sessions m' !! h = sessions m !! h /\ isCurrent h m' = isCurrent h m /\ calls_of h m' = calls_of h m.
Proof.
  intros M Hh. pose proof M as [G C S _]. assert (sessions m' !! h = sessions m !! h) as E by (rewrite S; by apply lookup_insert_ne).
  split_and!; [done| |by eapply moves_calls_of]. unfold isCurrent. rewrite E, G, C. destruct (sessions m !! h); [|done].
  destruct r; [|done]. cbn [release currentSession]. f_equal. repeat case_bool_decide; congruence.
Qed.

Lemma changed_ok g running m m' : manager_ok m -> changed g running m m' -> manager_ok m'.
Proof.
  intros [H1 H2 H3] (s & s' & cs & freed & Hs & [M Hc Ho _ _ _]).
  pose proof (moves_current _ _ _ _ _ _ _ Hs M Hc) as C. pose proof (moves_lookup _ _ _ _ _ _ M) as L.
  destruct (moves_calls_of _ _ _ _ _ _ M) as [K _]. pose proof M as [G U S _]. split.
  - intros h Hh. rewrite G.
    assert (currentSession m = Some h) as E by (rewrite U in Hh; destruct freed; [cbn in Hh; by case_bool_decide|done]).
    destruct (H1 h E) as [-> Hcur]. split; [done|]. destruct (decide (currentGeneration m = g)) as [<-|Hne].
    + rewrite C, Hcur. destruct freed; [|done]. rewrite U in Hh. cbn in Hh. by case_bool_decide.
    + by destruct (moves_other _ _ _ _ _ _ (currentGeneration m) M Hne) as (_&->&_).
  - intros h t Ht. rewrite G. destruct (decide (h = g)) as [->|Hne].
    + rewrite L in Ht. injection Ht as <-. rewrite C, K. split; [by eapply H2|exact Ho].
    + destruct (moves_other _ _ _ _ _ _ h M Hne) as (E1&E2&E3). rewrite E1 in Ht. rewrite E2, E3. by apply H2.
  - intros h Hh. destruct (decide (h = g)) as [->|Hne]; [congruence|].
    destruct (moves_other _ _ _ _ _ _ h M Hne) as (E1&_&->). apply H3. congruence.
Qed.

Lemma cancel_current_changed m : manager_ok m ->
  (cancelCurrent m = m \/ exists g, changed g false m (cancelCurrent m)) /\ currentSession (cancelCurrent m) = None.
Proof.
  intros [H1 H2 _]. unfold cancelCurrent. destruct (currentSession m) as [g|] eqn:E; [|auto].
  destruct (H1 g eq_refl) as [_ C]. pose proof C as C'. unfold isCurrent in C'. destruct (sessions m !! g) as [s|] eqn:Hs; [|done].
  destruct (cancelled s) eqn:Hc; [done|]. split.
  - destruct (cancel_transition g m s Hs) as [?|?]; [by apply H2|by left|right; eauto].
  - rewrite (mv_current _ _ _ _ _ _ (cancel_moves g m s Hs Hc)). cbn. by rewrite E, bool_decide_eq_true_2.
Qed.

(** A new session, after the current one was cancelled. *)
Lemma start_ok m : manager_ok m -> manager_ok (start m).
Proof.
  intros Hm. destruct (cancel_current_changed m Hm) as [Hc Hn].
  assert (manager_ok (cancelCurrent m)) as Hm' by (destruct Hc as [->|[g Hc]]; [done|by eapply changed_ok]).
  unfold start. revert Hm' Hn. generalize (cancelCurrent m). clear. intros m [H1 H2 H3] Hn.
  assert (forall g, currentGeneration m < g -> sessions m !! g = None) as Hf.
  { intros g Hg. destruct (sessions m !! g) as [s|] eqn:Hs; [|done]. apply H2 in Hs. lia. }
  set (m' := mkManager _ _ _ _ _).
  assert (isCurrent (currentGeneration m + 1) m' = true) as C.
  { unfold isCurrent, m'. cbn. rewrite lookup_insert_eq, Nat.eqb_refl. by rewrite bool_decide_eq_true_2. }
  assert (forall g, isCurrent g m = false) as N.
  { intros g. unfold isCurrent. destruct (sessions m !! g); [|done]. rewrite Hn. apply andb_false_r. }
  split.
  - intros g [= <-]. split; [done|exact C].
  - intros g s Hg. destruct (decide (g = currentGeneration m + 1)) as [->|Hne]; cbn in Hg.
    + rewrite lookup_insert_eq in Hg. injection Hg as <-. rewrite C. split; [done|].
      assert (calls_of (currentGeneration m + 1) m' = []) as -> by (apply (H3 (currentGeneration m + 1)), Hf; lia).
      split; cbn; try done. constructor.
    + rewrite lookup_insert_ne in Hg by congruence. destruct (H2 g s Hg) as [Hle Ho]. split; [cbn; lia|].
      assert (isCurrent g m' = false) as ->.
      { unfold isCurrent. cbn. rewrite lookup_insert_ne, Hg by congruence.
        rewrite (proj2 (Nat.eqb_neq _ _)) by congruence. by rewrite andb_false_r. }
      by rewrite N in Ho.
  - intros g Hg. cbn in Hg. apply lookup_insert_None in Hg as [Hg _]. by apply H3.
Qed.

Section Steps.
Context (createFallbackResult : bool -> TestResult).

Local Notation step := (BatchTest.step createFallbackResult).
Local Notation reached := (BatchTest.reached createFallbackResult).

Lemma start_dec ev : ev = Start \/ ev <> Start.
Proof. destruct ev; auto. Qed.

Lemma step_changed m ev : manager_ok m -> ev <> Start ->
  step m ev = m \/ exists g, (of_run ev = None \/ of_run ev = Some g) /\ changed g (bool_decide (of_run ev = Some g)) m (step m ev).
Proof.
  intros Hm Hev. pose proof (mo_sessions m Hm) as Ho.
  destruct ev as [|g models|g model outcome|g|g|g|g|g|g|]; cbn [BatchTest.step]; [done|..].
  all: try (destruct (sessions m !! g) as [s|] eqn:Hs;
            [|left; unfold requestStop, cancel, with_session; by rewrite Hs];
            destruct (Ho g s Hs) as [_ Hok]; pose proof (ok_phase _ _ _ Hok) as Hp; unfold phase_ok in Hp).
  all: try rewrite !(with_session_eq _ _ _ _ Hs).
  all: cbn [of_run].
  - destruct (phase s) eqn:P; try by left. right. exists g. split; [by auto|]. rewrite bool_decide_eq_false_2 by done. by eapply run_transition.
  - destruct (phase s) as [|i waiting| | |] eqn:P; try by left. case_bool_decide as Hin; [|by left].
    right. exists g. split; [by auto|]. rewrite bool_decide_eq_true_2 by done. by eapply settled_transition.
  - destruct (phase s) as [|i [|]| | |] eqn:P; try by left. right. exists g. split; [by auto|]. rewrite bool_decide_eq_true_2 by done. by eapply batch_transition.
  - destruct (phase s) eqn:P; try by left. right. exists g. split; [by auto|]. rewrite bool_decide_eq_true_2 by done. by eapply pause_transition.
  - destruct (phase s) eqn:P; try by left. right. exists g. split; [by auto|]. rewrite bool_decide_eq_true_2 by done.
    eapply (end_transition g m s); [done|done|unfold run_measure; rewrite P; lia|apply Hp|by split].
  - destruct (phase s) as [| | |o|] eqn:P; try by left. right. exists g. split; [by auto|]. rewrite bool_decide_eq_true_2 by done. destruct Hp as [Hp Hsum].
    eapply (end_transition g m s); [done|done|unfold run_measure; rewrite P; lia|done|].
    intros C. split; [done|]. constructor; [by apply Hsum|constructor].
  - destruct (stop_transition g m s Hs Hok) as [?|?]; [by left|right; exists g; split; [by left|]; by rewrite bool_decide_eq_false_2].
  - destruct (cancel_transition g m s Hs Hok) as [?|?]; [by left|right; exists g; split; [by left|]; by rewrite bool_decide_eq_false_2].
  - destruct (cancel_current_changed m Hm) as [[?|[g ?]] _]; [by left|right; exists g; split; [by left|]; by rewrite bool_decide_eq_false_2].
Qed.

Lemma step_ok m ev : manager_ok m -> manager_ok (step m ev).
Proof.
  intros Hm. destruct (start_dec ev) as [->|Hev]; [by apply start_ok|].
  destruct (step_changed m ev Hm Hev) as [->|(g & _ & Hc)]; [done|by eapply changed_ok].
Qed.

Lemma steps_ok evs : forall m, manager_ok m -> manager_ok (foldl step m evs).
Proof. induction evs as [|ev evs IH]; intros m Hm; [done|]. apply IH, step_ok, Hm. Qed.

Lemma reached_ok evs : manager_ok (reached evs).
Proof. apply steps_ok. split; [done| |done]. intros g s H. cbn [sessions empty_manager] in H. by rewrite lookup_empty in H. Qed.

(** What a change does to the session of a generation, seen from outside. *)
Definition session_moves (g : nat) (s : Session) (m m' : Manager) (s' : Session) : Prop :=
  sessions m' !! g = Some s' /\
  (isCurrent g m = false -> isCurrent g m' = false /\ calls_of g m' = calls_of g m) /\
  (phase s <> NotRun -> phase s' <> NotRun /\ run_measure s' <= run_measure s).

Lemma changed_session g s h m m' running : sessions m !! g = Some s -> changed h running m m' ->
  currentGeneration m' = currentGeneration m /\
  exists s', session_moves g s m m' s' /\ (g = h -> running = true -> run_measure s' < run_measure s).
Proof.
  intros Hs (t & t' & cs & freed & Ht & [M Hc _ Hq Hm Hr]). split; [apply M|].
  destruct (decide (g = h)) as [<-|Hne].
  - assert (t = s) as -> by congruence. exists t'. destruct (moves_calls_of _ _ _ _ _ _ M) as [K _].
    split; [|done]. split_and!; [by eapply moves_lookup| |done].
    intros C. by rewrite (moves_current _ _ _ _ _ _ _ Hs M Hc), C, K, (Hq C), app_nil_r.
  - destruct (moves_other _ _ _ _ _ _ g M Hne) as (E1&E2&E3). exists s. unfold session_moves. by rewrite E1, E2, E3.
Qed.

Lemma start_session m g s : manager_ok m -> sessions m !! g = Some s -> exists s', session_moves g s m (start m) s'.
Proof.
  intros Hm Hs. destruct (cancel_current_changed m Hm) as [Hc _].
  assert (currentGeneration (cancelCurrent m) = currentGeneration m /\ exists s', session_moves g s m (cancelCurrent m) s')
    as (Hg & s' & Hs' & Hq & Hme).
  { destruct Hc as [->|[h Hc]]; [by split; [|exists s]|]. by destruct (changed_session g s h _ _ _ Hs Hc) as (?&s'&?&_); eauto. }
  assert (currentGeneration m + 1 <> g) as Hne by (destruct (mo_sessions m Hm g s Hs); lia).
  exists s'. unfold start. split_and!; [cbn; by rewrite Hg, lookup_insert_ne| |done].
  intros C. destruct (Hq C) as [_ Hk]. split; [|exact Hk]. unfold isCurrent. cbn. rewrite Hg, lookup_insert_ne, Hs' by done.
  by rewrite (proj2 (Nat.eqb_neq _ _)), andb_false_r by done.
Qed.

Lemma step_session m ev g s : manager_ok m -> sessions m !! g = Some s ->
  exists s', session_moves g s m (step m ev) s' /\ (of_run ev = Some g -> step m ev = m \/ run_measure s' < run_measure s).
Proof.
  intros Hm Hs. destruct (start_dec ev) as [->|Hev].
  - destruct (start_session m g s Hm Hs) as [s' H]. by exists s'.
  - destruct (step_changed m ev Hm Hev) as [E|(h & Ho & Hc)]; [exists s; rewrite E; by split; [|left]|].
    destruct (changed_session g s h _ _ _ Hs Hc) as (_ & s' & H1 & H2). exists s'. split; [done|].
    intros E. right. apply H2; [|by apply bool_decide_eq_true_2; destruct Ho; congruence]. destruct Ho; congruence.
Qed.

Lemma steps_session evs g : forall m s, manager_ok m -> sessions m !! g = Some s ->
  exists s', session_moves g s m (foldl step m evs) s'.
Proof.
  induction evs as [|ev evs IH]; intros m s Hm Hs; [by exists s|].
  destruct (step_session m ev g s Hm Hs) as (s1 & (H1 & H2 & H3) & _).
  destruct (IH (step m ev) s1 (step_ok m ev Hm) H1) as (s2 & H4 & H5 & H6). exists s2. cbn [foldl]. split_and!; [done|..].
  - intros C. destruct (H2 C) as [C1 K1]. destruct (H5 C1) as [C2 K2]. split; [done|congruence].
  - intros P. destruct (H3 P) as [P1 M1]. destruct (H6 P1) as [P2 M2]. split; [done|lia].
Qed.

(** A run that is not over has an event that makes it go on. *)
Lemma run_enabled m g s : manager_ok m -> sessions m !! g = Some s -> phase s <> NotRun -> phase s <> Over ->
  exists ev s', of_run ev = Some g /\ sessions (step m ev) !! g = Some s' /\ phase s' <> NotRun /\ run_measure s' < run_measure s.
Proof.
  intros Hm Hs P1 P2. destruct (mo_sessions m Hm g s Hs) as [_ Hok]. pose proof (ok_phase _ _ _ Hok) as Hp. unfold phase_ok in Hp.
  assert (exists ev, of_run ev = Some g /\ changed g true m (step m ev)) as (ev & Hev & Hc).
  { destruct (phase s) as [|i waiting|i|o|] eqn:P; try done.
    - destruct waiting as [|x waiting].
      + exists (BatchSettled g). split; [done|]. cbn [BatchTest.step]. rewrite (with_session_eq _ _ _ _ Hs), P. by eapply batch_transition.
      + exists (TestSettled g x Rejected). split; [done|]. cbn [BatchTest.step]. rewrite (with_session_eq _ _ _ _ Hs), P.
        rewrite bool_decide_eq_true_2 by left. eapply settled_transition; [done..|left].
    - exists (PauseOver g). split; [done|]. cbn [BatchTest.step]. rewrite (with_session_eq _ _ _ _ Hs), P. by eapply pause_transition.
    - exists (Resumed g). split; [done|]. cbn [BatchTest.step]. rewrite (with_session_eq _ _ _ _ Hs), P. destruct Hp as [Hp Hsum].
      eapply (end_transition g m s); [done|done|unfold run_measure; rewrite P; lia|done|].
      intros C. split; [done|]. constructor; [by apply Hsum|constructor]. }
  destruct (changed_session g s g _ _ _ Hs Hc) as (_ & s' & (H1 & _ & H3) & H4). destruct (H3 P1). exists ev, s'. auto.
Qed.

Lemma run_ends n : forall m g s, manager_ok m -> sessions m !! g = Some s -> phase s <> NotRun -> run_measure s <= n ->
  exists evs s', Forall (fun ev => of_run ev = Some g) evs /\ length evs <= run_measure s /\
    sessions (foldl step m evs) !! g = Some s' /\ phase s' = Over.
Proof.
  induction n as [|n IH]; intros m g s Hm Hs P Hn.
  all: destruct (phase s) eqn:E; [done|..|exists [], s; split_and!; [constructor|cbn; lia|done|done]].
  all: try (exfalso; unfold run_measure in Hn; rewrite E in Hn; lia).
  all: destruct (run_enabled m g s Hm Hs) as (ev & s1 & Hev & H1 & P1 & M1); [by rewrite E..|].
  all: destruct (IH (step m ev) g s1 (step_ok m ev Hm) H1 P1 ltac:(lia)) as (evs & s' & F & L & H2 & H3).
  all: exists (ev :: evs), s'; split_and!; [by constructor|cbn; lia|done|done].
Qed.

Definition waiting (s : Session) : list jsstr := match phase s with Testing _ w => w | _ => [] end.

(** C11: whatever the user and the tests do, every session accounts for its tests: the models
    tested are a prefix of the trimmed, distinct, non-empty models, none is tested twice, at
    most five are in flight and each of these was started; results never outnumber the tests,
    the success counter counts the successful results, and while the session is current every
    started test is either in flight or has its result.  At most one summary is ever handed
    over, its counters are those of its results, and a summary not marked stopped has a result
    for every model. *)
Theorem batch_runs_accounted evs g s : sessions (reached evs) !! g = Some s ->
  let cs := calls_of g (reached evs) in
  tests cs `prefix_of` uniqueModels s /\ NoDup (tests cs) /\
  length (waiting s) <= BATCH_TEST_CONCURRENCY /\ waiting s ⊆ tests cs /\
  length (collected s) <= length (tests cs) /\ successes s = count_success (collected s) /\
  (isCurrent g (reached evs) = true -> length (collected s) + length (waiting s) = length (tests cs)) /\
  length (outcomes cs) <= 1 /\ Forall (summary_ok (uniqueModels s)) (outcomes cs).
Proof.
  intros Hs. destruct (mo_sessions _ (reached_ok evs) g s Hs) as [_ [H1 H2 H3 H4 H5 H6 H7]]. cbv zeta.
  assert (NoDup (tests (calls_of g (reached evs)))) as Hn.
  { destruct H2 as [k E]. rewrite E in H1. by apply NoDup_app in H1 as [? _]. }
  unfold waiting. unfold phase_ok in H7. destruct (phase s) as [|i w|i|o|].
  - destruct H7 as [T O]. rewrite T in *. rewrite O. cbn in *. split_and!; try done; lia.
  - destruct H7 as (Hi & Ht & O & Hw & Hsub & Hc). rewrite O.
    split_and!; try done; [|etrans; [exact Hsub|]|cbn; lia].
    + transitivity (length (take BATCH_TEST_CONCURRENCY (drop i (uniqueModels s)))); [|rewrite length_take; lia].
      by apply submseteq_length, NoDup_submseteq.
    + rewrite Ht, <- take_next. apply list_subseteq_app_r. done.
  - destruct H7 as (Hi & Ht & O & Hc). rewrite O. cbn. split_and!; try done; [lia|apply list_subseteq_nil|..|lia].
    intros C. rewrite (Hc C), Ht, length_take_le by lia. lia.
  - destruct H7 as (O & Hc). rewrite O. cbn. split_and!; try done; [lia|apply list_subseteq_nil|..|lia].
    intros C. destruct (Hc C). lia.
  - destruct H7 as [C O]. cbn. split_and!; try done; [lia|apply list_subseteq_nil|congruence].
Qed.

(** C16: a session that is not the current one any more (cancelled, replaced by a new one, or
    over) stays so and is silent: its toast was dismissed, and whatever happens later it
    starts no test and makes no call of the interface; in particular a test that settles after
    a cancellation reports nothing. *)
Theorem stale_sessions_silent evs evs' g s : sessions (reached evs) !! g = Some s -> isCurrent g (reached evs) = false ->
  isDismissed (toast s) = true /\ isCurrent g (reached (evs ++ evs')) = false /\
  calls_of g (reached (evs ++ evs')) = calls_of g (reached evs).
Proof.
  intros Hs C. pose proof (reached_ok evs) as Hm. destruct (mo_sessions _ Hm g s Hs) as [_ Hok]. split; [by apply Hok|].
  destruct (steps_session evs' g _ s Hm Hs) as (s' & _ & H & _). unfold BatchTest.reached. rewrite foldl_app. by apply H.
Qed.

(** C13: the run of a session ends: no event makes the rest of the run longer, an event of the
    run that happens makes it strictly shorter, and from every state of a run that was started
    some settlements of its tests, batches and pauses, no more than the measure of the rest,
    bring it to its end. *)
Theorem batch_runs_end evs g s : sessions (reached evs) !! g = Some s -> phase s <> NotRun ->
  (forall ev, exists s', sessions (step (reached evs) ev) !! g = Some s' /\ phase s' <> NotRun /\ run_measure s' <= run_measure s /\
     (of_run ev = Some g -> step (reached evs) ev = reached evs \/ run_measure s' < run_measure s)) /\
  exists evs' s', Forall (fun ev => of_run ev = Some g) evs' /\ length evs' <= run_measure s /\
    sessions (reached (evs ++ evs')) !! g = Some s' /\ phase s' = Over.
Proof.
  intros Hs P. pose proof (reached_ok evs) as Hm. split.
  - intros ev. destruct (step_session _ ev g s Hm Hs) as (s' & (H1 & _ & H3) & H4). destruct (H3 P). by exists s'.
  - destruct (run_ends (run_measure s) _ g s Hm Hs P (Nat.le_refl _)) as (evs' & s' & H). exists evs', s'.
    unfold BatchTest.reached. by rewrite foldl_app.
Qed.
End Steps.

(** ** Witnesses *)

Definition failed_result (rejected : bool) : TestResult := mkResult error None None None None.
Definition good_result : TestResult := mkResult success (Some 12%Z) None None None.

(** Six models in two batches: five tests settle, one is rejected, and the pause begins. *)
Definition six_models : list jsstr := js <$> ["a"; "b"; " b "; "c"; "d"; "e"; ""; "f"]%string.
Definition first_batch : list Event :=
  [Start; Run 1 six_models; TestSettled 1 (js "c"%string) (Tested (Some good_result)); TestSettled 1 (js "a"%string) Rejected;
   TestSettled 1 (js "b"%string) (Tested None); TestSettled 1 (js "d"%string) (Tested (Some good_result))].
Definition session_of (evs : list Event) : Session := default new_session (sessions (reached failed_result evs) !! 1).

Lemma batch_runs_accounted_witness :
  waiting (session_of first_batch) = [js "e"%string] /\ successes (session_of first_batch) = 2 /\
  length (collected (session_of first_batch)) + length (waiting (session_of first_batch))
    = length (tests (calls_of 1 (reached failed_result first_batch))).
Proof.
  split; [vm_compute; reflexivity|split; [vm_compute; reflexivity|]].
  apply (batch_runs_accounted failed_result first_batch 1 (session_of first_batch)); vm_compute; reflexivity.
Defined.

Lemma stale_sessions_silent_witness :
  calls_of 1 (reached failed_result ((first_batch ++ [Start]) ++ [TestSettled 1 (js "e"%string) Rejected; BatchSettled 1; Resumed 1]))
  = calls_of 1 (reached failed_result (first_batch ++ [Start])).
Proof.
  apply (stale_sessions_silent failed_result (first_batch ++ [Start]) _ 1 (session_of (first_batch ++ [Start])));
    vm_compute; reflexivity.
Defined.

Lemma batch_runs_end_witness :
  run_measure (session_of first_batch) = 63 /\
  exists evs' s', Forall (fun ev => of_run ev = Some 1) evs' /\ length evs' <= run_measure (session_of first_batch) /\
    sessions (reached failed_result (first_batch ++ evs')) !! 1 = Some s' /\ phase s' = Over.
Proof.
  split; [vm_compute; reflexivity|].
  apply (batch_runs_end failed_result first_batch 1 (session_of first_batch)); vm_compute; [reflexivity|discriminate].
Defined.

(** The same run to its end: the sixth model is tested after the pause, and the summary
    reports six results, three of them good. *)
Example full_run :
  let evs := first_batch ++ [TestSettled 1 (js "e"%string) (Tested (Some good_result)); BatchSettled 1; PauseOver 1;
                             TestSettled 1 (js "f"%string) Rejected; BatchSettled 1; Resumed 1] in
  (progress <$> outcomes (calls_of 1 (reached failed_result evs))) = [mkProgress 6 6 3 3] /\
  phase (session_of evs) = Over /\ currentSession (reached failed_result evs) = None.
Proof. vm_compute. auto. Qed.
