(* ===== verification/JsExact.v ===== *)
(** * Exact arithmetic on whole numbers

    Sums of non-negative whole numbers below 2^53 are exact in binary64: the
    fact behind every counter and total the client accumulates with [+=]. *)

From Stdlib Require Import SpecFloat.
From S2P Require Import Prelude JsValue.

Local Open Scope Z_scope.

(** ** Rounding drops trailing zeros only *)

Lemma iter_pos_nat {A} (f : A -> A) n x : SpecFloat.iter_pos f n x = Nat.iter (Pos.to_nat n) f x.
Proof.
  assert (Hadd : forall a b y, Nat.iter (a + b)%nat f y = Nat.iter a f (Nat.iter b f y)).
  { intros a b y. induction a as [|a IH]; [done|]. exact (f_equal f IH). }
  revert x. induction n as [n IH|n IH|]; intros x; cbn [SpecFloat.iter_pos]; [..|done]; rewrite !IH, <- Hadd.
  - rewrite Pos2Nat.inj_xI. replace (S (2 * Pos.to_nat n))%nat with ((Pos.to_nat n + Pos.to_nat n) + 1)%nat by lia. by rewrite (Hadd _ 1%nat).
  - rewrite Pos2Nat.inj_xO. f_equal. lia.
Qed.

Lemma shr_zeros n m : SpecFloat.iter_pos shr_1 n (Build_shr_record (Zpos (shift_pos n m)) false false) = Build_shr_record (Zpos m) false false.
Proof.
  rewrite iter_pos_nat. unfold shift_pos. rewrite Pos2Nat.inj_iter.
  induction (Pos.to_nat n) as [|k IH]; [done|]. rewrite Nat.iter_succ_r. cbn [nat_rect shr_1 orb]. exact IH.
Qed.

(** A mantissa of 53 bits is not changed by rounding. *)
Lemma round_aux_mant s q : Zpos q < 2 ^ 53 ->
  binary_round_aux 53 1024 s (Zpos (mant q)) (Zpos (digits2_pos q) - 53) loc_Exact = S754_finite s (mant q) (Zpos (digits2_pos q) - 53).
Proof.
  intros Hq. pose proof (digits_small q Hq) as Hd. set (d := Zpos (digits2_pos q)) in *.
  assert (Hz : Zdigits2 (Zpos (mant q)) = 53) by (apply mant_digits; lia).
  unfold binary_round_aux, shr_fexp. rewrite Hz. replace (53 + (d - 53)) with d by lia. rewrite fexp_small, Z.sub_diag by done.
  cbn [shr shr_record_of_loc shr_m loc_of_shr_record round_nearest_even].
  rewrite Hz. replace (53 + (d - 53)) with d by lia. rewrite fexp_small, Z.sub_diag by done.
  cbn [shr shr_record_of_loc shr_m]. by rewrite (proj2 (Z.leb_le _ _)) by lia.
Qed.

Lemma scaled_digits p q k : Zpos p = Zpos q * 2 ^ k -> 0 <= k -> Zpos (digits2_pos p) = Zpos (digits2_pos q) + k.
Proof.
  intros Hp Hk. destruct k as [|k|]; [|assert (p = shift_pos k q) as ->|lia].
  - assert (p = q) as -> by lia. lia.
  - pose proof (shift_pos_value k q). lia.
  - rewrite digits2_shift. lia.
Qed.

Lemma round_scaled s p q k : Zpos q < 2 ^ 53 -> 0 <= k -> Zpos p = Zpos q * 2 ^ k ->
  binary_round 53 1024 s p (- k) = S754_finite s (mant q) (Zpos (digits2_pos q) - 53).
Proof.
  intros Hq Hk Hp. pose proof (digits_small q Hq) as Hd. pose proof (scaled_digits p q k Hp Hk) as Hdp.
  pose proof (mant_value q ltac:(lia)) as Hm. unfold binary_round. rewrite Hdp.
  set (d := Zpos (digits2_pos q)) in *. replace (d + k + - k) with d by lia. rewrite fexp_small by done.
  unfold shl_align. replace (d - 53 - - k) with (d - 53 + k) by lia. destruct (d - 53 + k) as [|n|n] eqn:E.
  - assert (p = mant q) as -> by (apply Pos2Z.inj; rewrite Hp, Hm; do 2 f_equal; lia).
    replace (- k) with (d - 53) by lia. by apply round_aux_mant.
  - assert (p = shift_pos n (mant q)) as Hs.
    { apply Pos2Z.inj. rewrite shift_pos_value, Hp, Hm, <- Z.mul_assoc, <- Z.pow_add_r by lia. do 2 f_equal. lia. }
    unfold binary_round_aux at 1, shr_fexp at 1. cbn [Zdigits2]. rewrite Hdp. replace (d + k + - k) with d by lia.
    rewrite fexp_small by done. replace (d - 53 - - k) with (Zpos n) by lia.
    rewrite Hs. cbn [shr_record_of_loc shr]. rewrite shr_zeros. cbn [shr_m loc_of_shr_record round_nearest_even].
    replace (- k + Zpos n) with (d - 53) by lia. pose proof (round_aux_mant s q Hq) as R. fold d in R.
    unfold binary_round_aux, shr_fexp in R |- *.
    assert (Hz : Zdigits2 (Zpos (mant q)) = 53) by (apply mant_digits; lia).
    rewrite Hz in R |- *. replace (53 + (d - 53)) with d in R |- * by lia. rewrite fexp_small, Z.sub_diag in R |- * by done.
    cbn [shr shr_record_of_loc shr_m]. by rewrite (proj2 (Z.leb_le _ _)) by lia.
  - assert (Pos.iter xO p n = mant q) as ->.
    { change (Pos.iter xO p n) with (shift_pos n p). apply Pos2Z.inj.
      rewrite shift_pos_value, Hp, Hm, <- Z.mul_assoc, <- Z.pow_add_r by lia. do 2 f_equal. lia. }
    by apply round_aux_mant.
Qed.

(** ** Sums *)

Lemma num_small q : Zpos q < 2 ^ 53 -> num (Zpos q) = S754_finite false (mant q) (Zpos (digits2_pos q) - 53).
Proof. intros Hq. by apply binary_round_small. Qed.

Lemma aligned q e : Zpos q < 2 ^ 53 -> e <= Zpos (digits2_pos q) - 53 ->
  Zpos (fst (shl_align (mant q) (Zpos (digits2_pos q) - 53) e)) = Zpos q * 2 ^ (- e).
Proof.
  intros Hq He. pose proof (digits_small q Hq). pose proof (mant_value q ltac:(lia)) as Hm.
  unfold shl_align. destruct (e - _) as [|n|n] eqn:E; cbn [fst]; [rewrite Hm; do 2 f_equal; lia|lia|].
  change (Pos.iter xO (mant q) n) with (shift_pos n (mant q)).
  rewrite shift_pos_value, Hm, <- Z.mul_assoc, <- Z.pow_add_r by lia. do 2 f_equal. lia.
Qed.

Lemma num_add_exact a b : 0 <= a -> 0 <= b -> a + b < 2 ^ 53 -> num_add (num a) (num b) = num (a + b).
Proof.
  intros Ha Hb Hs. destruct a as [|a|]; [|destruct b as [|b|]|]; try lia.
  - destruct b as [|b|]; [done| |lia]. rewrite Z.add_0_l, num_small by lia. done.
  - rewrite Z.add_0_r, num_small by lia. done.
  - rewrite (num_small a), (num_small b) by lia. unfold num_add. cbn [SFadd cond_Zopp].
    set (ea := Zpos (digits2_pos a) - 53). set (eb := Zpos (digits2_pos b) - 53).
    pose proof (digits_small a ltac:(lia)). pose proof (digits_small b ltac:(lia)).
    pose proof (aligned a (Z.min ea eb) ltac:(lia) ltac:(lia)) as Aa. pose proof (aligned b (Z.min ea eb) ltac:(lia) ltac:(lia)) as Ab.
    fold ea in Aa. fold eb in Ab. set (pa := fst (shl_align (mant a) ea _)) in *. set (pb := fst (shl_align (mant b) eb _)) in *.
    change (Zpos a + Zpos b) with (Zpos (a + b)). rewrite num_small by lia.
    change (binary_normalize 53 1024 (Zpos pa + Zpos pb)) with (fun e (_ : bool) => binary_round 53 1024 false (pa + pb) e). cbv beta.
    rewrite <- (Z.opp_involutive (Z.min ea eb)).
    apply round_scaled; [lia|lia|]. rewrite Pos2Z.inj_add, Aa, Ab. lia.
Qed.

(** [numbers.reduce((sum, n) => sum + n, 0)] *)
Definition js_sum (l : list jsnum) : jsnum := foldl num_add (num 0) l.

Lemma js_sum_from l : forall a, 0 <= a -> Forall (fun z => 0 <= z) l -> a + foldr Z.add 0 l < 2 ^ 53 ->
  foldl num_add (num a) (num <$> l) = num (a + foldr Z.add 0 l).
Proof.
  induction l as [|z l IH]; intros a Ha Hl Hs; cbn [fmap list_fmap foldl foldr] in *; [by rewrite Z.add_0_r|].
  apply Forall_cons in Hl as [Hz Hl].
  assert (0 <= foldr Z.add 0 l) by (clear -Hl; induction Hl; cbn; lia).
  rewrite num_add_exact by lia. rewrite IH by (done || lia). f_equal. lia.
Qed.

Lemma js_sum_exact l : Forall (fun z => 0 <= z) l -> foldr Z.add 0 l < 2 ^ 53 -> js_sum (num <$> l) = num (foldr Z.add 0 l).
Proof. intros Hl Hs. unfold js_sum. by rewrite js_sum_from. Qed.
