(* ===== verification/Flow.v ===== *)
(** * The flow chart of the dashboard

    web/src/features/dashboard/lib/flow.ts: rows of usage data become paths through the
    stages of a Sankey chart (user, node, token, group, model, channel), filtered,
    limited to the largest nodes of each stage, summed into nodes and links, masked,
    highlighted, coloured and handed to the chart library.

    A [Map] of the code is an association list in the order of insertion; an object that
    is read from a map, changed and put back is an update at its place.  Numbers are
    binary64 numbers.  The order of [localeCompare], [Intl.NumberFormat], the text of a
    number and the colour schemes of the chart library are parameters. *)

From Stdlib Require Import SpecFloat.
From S2P Require Import Prelude JsValue JsText JsExact.

Local Open Scope nat_scope.

(** ** Data *)

Inductive FlowMetric := MQuota | MTokens | MRequests.
Inductive FlowOverflowMode := aggregate | hide.
Inductive FlowRole := RUser | RAdmin | RRoot.
Inductive FlowNodeKind := KUser | KNode | KToken | KGroup | KModel | KChannel.
#[export] Instance FlowNodeKind_eq_dec : EqDecision FlowNodeKind.
Proof. solve_decision. Defined.

(** The name of a kind. *)
Definition kind_name (k : FlowNodeKind) : jsstr :=
  match k with
  | KUser => js "user" | KNode => js "node" | KToken => js "token"
  | KGroup => js "group" | KModel => js "model" | KChannel => js "channel"
  end.

Definition FLOW_NODE_KINDS : list FlowNodeKind := [KUser; KNode; KToken; KGroup; KModel; KChannel].

Record FlowQuotaDataItem := mkRow {
  user_id : option jsnum; username : option jsstr; node_name : option jsstr; use_group : option jsstr;
  token_id : option jsnum; token_name : option jsstr; channel_id : option jsnum; channel_name : option jsstr;
  model_name : option jsstr; token_used : option jsnum; count : option jsnum; quota : option jsnum }.

Record FlowNodeFilter := mkFilter { f_kind : FlowNodeKind; f_id : jsstr }.
Record FlowLinkSelection := mkSelection { l_source : jsstr; l_target : jsstr }.
Record FlowMetrics := mkMetrics { m_quota : jsnum; m_tokens : jsnum; m_requests : jsnum }.
Record FlowPathNode := mkPathNode { p_id : jsstr; p_label : jsstr; p_kind : FlowNodeKind }.
Record PreparedFlowPath := mkPrepared { pp_path : list FlowPathNode; pp_metrics : FlowMetrics }.
Record FlowNodeRank := mkRank { r_node : FlowPathNode; r_value : jsnum }.

Record DashboardFlowNode := mkNode {
  n_id : jsstr; n_label : jsstr; n_kind : FlowNodeKind; n_value : jsnum; n_requests : jsnum; n_quota : jsnum;
  n_tokens : jsnum; n_color : jsstr; n_colorKey : jsstr; n_highlighted : option bool; n_dimmed : option bool }.

Record DashboardFlowLink := mkLink {
  k_source : jsstr; k_target : jsstr; k_value : jsnum; k_requests : jsnum; k_quota : jsnum; k_tokens : jsnum;
  k_sourceLabel : jsstr; k_targetLabel : jsstr; k_color : jsstr; k_linkColor : jsstr; k_linkAlpha : jsnum;
  k_hoverColor : jsstr; k_colorKey : jsstr; k_share : jsnum; k_highlighted : option bool; k_dimmed : option bool }.

Record DashboardFlowGraph := mkGraph { g_nodes : list DashboardFlowNode; g_links : list DashboardFlowLink }.

Definition OTHER_FLOW_NODE_IDS (k : FlowNodeKind) : jsstr := kind_name k ++ js ":__other__".

Definition DEFAULT_OTHER_FLOW_NODE_LABELS (k : FlowNodeKind) : jsstr :=
  match k with
  | KUser => js "Other users" | KNode => js "Other nodes" | KToken => js "Other tokens"
  | KGroup => js "Other groups" | KModel => js "Other models" | KChannel => js "Other channels"
  end.

Definition SENSITIVE_FLOW_KINDS : list FlowNodeKind := [KUser; KNode; KToken; KGroup; KChannel].
Definition OTHER_FLOW_NODE_ID_SET : list jsstr := OTHER_FLOW_NODE_IDS <$> FLOW_NODE_KINDS.
Definition DEFAULT_FLOW_CHART_COLOR : jsstr := js "#1664FF".
Definition MIN_FLOW_STAGES : nat := 2.

(** ** Maps and sorting *)

(** [map.set(key, update(map.get(key)))] *)
Fixpoint upsert {K V} `{EqDecision K} (key : K) (update : option V -> V) (map : list (K * V)) : list (K * V) :=
  match map with
  | [] => [(key, update None)]
  | (k, v) :: rest => if decide (k = key) then (k, update (Some v)) :: rest else (k, v) :: upsert key update rest
  end.

(** [map.get(key)] *)
Fixpoint map_get {K V} `{EqDecision K} (key : K) (map : list (K * V)) : option V :=
  match map with
  | [] => None
  | (k, v) :: rest => if decide (k = key) then Some v else map_get key rest
  end.

(** The distinct elements in the order of their first occurrence, [[...new Set(list)]]. *)
Fixpoint set_of {A} `{EqDecision A} (seen : list A) (l : list A) : list A :=
  match l with
  | [] => []
  | x :: l' => if bool_decide (x ∈ seen) then set_of seen l' else x :: set_of (x :: seen) l'
  end.

(** [list.sort(compare)], which is stable; [compare] tells the sign of the result. *)
Fixpoint sort_insert {A} (compare : A -> A -> comparison) (x : A) (l : list A) : list A :=
  match l with
  | [] => [x]
  | y :: l' => match compare y x with Gt => x :: l | _ => y :: sort_insert compare x l' end
  end.
Definition js_sort {A} (compare : A -> A -> comparison) (l : list A) : list A :=
  foldl (fun sorted x => sort_insert compare x sorted) [] l.

(** [first || second] on results of comparisons. *)
Definition cmp_or (first second : comparison) : comparison := match first with Eq => second | c => c end.

(** The sign of [a - b]; a difference that is not a number counts as zero. *)
Definition num_cmp (a b : jsnum) : comparison :=
  let d := num_sub a b in if num_lt d (num 0) then Lt else if num_lt (num 0) d then Gt else Eq.

(** ** Values of a row *)

(** [value || fallback] on an optional text. *)
Definition text_or (value : option jsstr) (fallback : jsstr) : jsstr := str_or (default [] value) fallback.
(** Truthiness of an optional text. *)
Definition has_text (value : option jsstr) : bool := truthy (default [] value).

Definition numberValue (value : option jsnum) : jsnum :=
  match value with Some n => if is_finite n then n else num 0 | None => num 0 end.

Definition rowMetrics (row : FlowQuotaDataItem) : FlowMetrics :=
  mkMetrics (numberValue (quota row)) (numberValue (token_used row)) (numberValue (count row)).

Definition metricValue (metrics : FlowMetrics) (metric : FlowMetric) : jsnum :=
  match metric with MRequests => m_requests metrics | MTokens => m_tokens metrics | MQuota => m_quota metrics end.

Definition positive_num (n : jsnum) : bool := num_lt (num 0) n.

Section Flow.
Variable show : jsnum -> jsstr.
Variable localeCompare : jsstr -> jsstr -> comparison.
Variable formatNumber : jsnum -> jsstr.
(** [vchartDefaultDataScheme]: for each scheme the largest domain and its colours. *)
Variable dataSchemes : list (option nat * list jsstr).
(** [ctx.deletedTokenLabel] *)
Variable tokenLabel : option (jsnum -> jsstr).
(** [options.otherNodeLabel] *)
Variable otherNodeLabel : option (FlowNodeKind -> jsstr).

Definition userNode (row : FlowQuotaDataItem) : FlowPathNode :=
  let userID := numberValue (user_id row) in
  mkPathNode
    (if positive_num userID then js "user:" ++ show userID else js "user:" ++ text_or (username row) (js "unknown"))
    (text_or (username row) (if positive_num userID then js "user-" ++ show userID else js "Unknown User"))
    KUser.

Definition nodeNameNode (row : FlowQuotaDataItem) : FlowPathNode :=
  let nodeName := text_or (node_name row) (js "default-node") in
  mkPathNode (js "node:" ++ nodeName) nodeName KNode.

Definition deletedTokenLabel (tokenID : jsnum) : jsstr :=
  if num_le tokenID (num 0) then js "Unknown Token"
  else match tokenLabel with Some label => label tokenID | None => js "token-" ++ show tokenID end.

Definition tokenNode (row : FlowQuotaDataItem) : FlowPathNode :=
  let tokenID := numberValue (token_id row) in
  mkPathNode
    (if positive_num tokenID then js "token:" ++ show tokenID else js "token:" ++ text_or (token_name row) (js "unknown"))
    (text_or (token_name row) (deletedTokenLabel tokenID))
    KToken.

Definition groupNode (row : FlowQuotaDataItem) : FlowPathNode :=
  let useGroup := text_or (use_group row) (js "unknown") in mkPathNode (js "group:" ++ useGroup) useGroup KGroup.

Definition modelNode (row : FlowQuotaDataItem) : FlowPathNode :=
  mkPathNode (js "model:" ++ text_or (model_name row) (js "unknown")) (text_or (model_name row) (js "Unknown Model")) KModel.

Definition channelNode (row : FlowQuotaDataItem) : FlowPathNode :=
  let channelID := numberValue (channel_id row) in
  mkPathNode
    (if positive_num channelID then js "channel:" ++ show channelID
     else js "channel:" ++ text_or (channel_name row) (js "unknown"))
    (text_or (channel_name row) (if positive_num channelID then js "channel-" ++ show channelID else js "Unknown"))
    KChannel.

Definition NODE_BUILDERS (k : FlowNodeKind) : FlowQuotaDataItem -> FlowPathNode :=
  match k with
  | KUser => userNode | KNode => nodeNameNode | KToken => tokenNode
  | KGroup => groupNode | KModel => modelNode | KChannel => channelNode
  end.

(** ** Stages and filters *)

Definition ROLE_FLOW_STAGES (role : FlowRole) : list FlowNodeKind :=
  match role with
  | RRoot => [KUser; KNode; KToken; KGroup; KModel; KChannel]
  | RAdmin => [KUser; KGroup; KModel; KChannel]
  | RUser => [KToken; KGroup; KModel]
  end.

Definition getFlowStages (role : FlowRole) : list FlowNodeKind := ROLE_FLOW_STAGES role.

Definition resolveVisibleStages (role : FlowRole) (visibleStages : option (list FlowNodeKind)) : list FlowNodeKind :=
  let stages := getFlowStages role in
  match visibleStages with
  | None => stages
  | Some visible =>
      let filtered := filter (fun stage => stage ∈ visible) stages in
      if MIN_FLOW_STAGES <=? length filtered then filtered else stages
  end.

Definition flowPathForStages (row : FlowQuotaDataItem) (stages : list FlowNodeKind) : list FlowPathNode :=
  (fun stage => NODE_BUILDERS stage row) <$> stages.

Definition filterRows (rows : list FlowQuotaDataItem) (selectedUsers : list jsstr) : list FlowQuotaDataItem :=
  match selectedUsers with
  | [] => rows
  | _ => filter (fun row => p_id (userNode row) ∈ selectedUsers) rows
  end.

(** The selected identifiers of each visible kind, in the order of selection. *)
Definition normalizeSelectedNodeFilters (selectedNodes : list FlowNodeFilter) (stages : list FlowNodeKind)
    : list (FlowNodeKind * list jsstr) :=
  foldl (fun filters flt =>
    if bool_decide (f_kind flt ∈ stages) then upsert (f_kind flt) (fun ids => default [] ids ++ [f_id flt]) filters
    else filters) [] selectedNodes.

Definition pathMatchesNodeFilters (path : list FlowPathNode) (filters : list (FlowNodeKind * list jsstr)) : bool :=
  match filters with
  | [] => true
  | _ =>
      let pathNodesByKind :=
        foldl (fun byKind node => upsert (p_kind node) (fun ids => default [] ids ++ [p_id node]) byKind) [] path in
      forallb (fun '(kind, selectedIds) =>
        match map_get kind pathNodesByKind with
        | None => false
        | Some pathIds => existsb (fun id => bool_decide (id ∈ pathIds)) selectedIds
        end) filters
  end.

Definition filterRowsByNodes (rows : list FlowQuotaDataItem) (selectedNodes : list FlowNodeFilter)
    (stages : list FlowNodeKind) : list FlowQuotaDataItem :=
  let filters := normalizeSelectedNodeFilters selectedNodes stages in
  match filters with
  | [] => rows
  | _ => filter (fun row => pathMatchesNodeFilters (flowPathForStages row stages) filters = true) rows
  end.

Definition selectedNodeFiltersExceptKind (selectedNodes : list FlowNodeFilter) (kind : FlowNodeKind) : list FlowNodeFilter :=
  filter (fun flt => f_kind flt <> kind) selectedNodes.

(** ** Colours *)

Definition getDashboardChartColors (domainLength : nat) : list jsstr :=
  let fits '(maxDomainLength, _) :=
    match maxDomainLength with Some (S n) => domainLength <=? S n | _ => true end in
  match List.find fits dataSchemes with
  | Some (_, scheme) => scheme
  | None => match last dataSchemes with Some (_, scheme) => scheme | None => [] end
  end.

Definition colorAt (index : nat) (palette : list jsstr) : jsstr :=
  let colors := match palette with [] => getDashboardChartColors (index + 1) | _ => palette end in
  match colors with [] => DEFAULT_FLOW_CHART_COLOR | _ => default DEFAULT_FLOW_CHART_COLOR (colors !! (index mod length colors)) end.

Definition colorPalette (colorCount : nat) (palette : list jsstr) : list jsstr :=
  match palette with
  | _ :: _ => palette
  | [] => match getDashboardChartColors colorCount with [] => [DEFAULT_FLOW_CHART_COLOR] | colors => colors end
  end.

Definition stableColorMap (keys : list jsstr) (palette : list jsstr) : list (jsstr * jsstr) :=
  let uniqueKeys := set_of [] keys in
  let colors := colorPalette (length uniqueKeys) palette in
  imap (fun index key => (key, colorAt index colors)) uniqueKeys.

(** ** Nodes and links *)

Definition addNode (pathNode : FlowPathNode) (metrics : FlowMetrics) (metric : FlowMetric) (color colorKey : jsstr)
    : list (jsstr * DashboardFlowNode) -> list (jsstr * DashboardFlowNode) :=
  upsert (p_id pathNode) (fun found =>
    let previous := default (mkNode (p_id pathNode) (p_label pathNode) (p_kind pathNode) (num 0) (num 0) (num 0) (num 0)
                               color colorKey None None) found in
    mkNode (n_id previous) (n_label previous) (n_kind previous)
      (num_add (n_value previous) (metricValue metrics metric)) (num_add (n_requests previous) (m_requests metrics))
      (num_add (n_quota previous) (m_quota metrics)) (num_add (n_tokens previous) (m_tokens metrics))
      (n_color previous) (n_colorKey previous) (n_highlighted previous) (n_dimmed previous)).

(** The key of a link: both identifiers with the null character between them. *)
Definition pathLinkKey (source target : FlowPathNode) : jsstr := p_id source ++ [0%N] ++ p_id target.
Definition linkStableKey (link : DashboardFlowLink) : jsstr := k_source link ++ [0%N] ++ k_target link.

Definition addLink (source target : FlowPathNode) (metrics : FlowMetrics) (metric : FlowMetric) (color colorKey : jsstr)
    : list (jsstr * DashboardFlowLink) -> list (jsstr * DashboardFlowLink) :=
  upsert (pathLinkKey source target) (fun found =>
    let previous := default (mkLink (p_id source) (p_id target) (num 0) (num 0) (num 0) (num 0) (p_label source)
                               (p_label target) color color (num 1) color colorKey (num 0) None None) found in
    mkLink (k_source previous) (k_target previous)
      (num_add (k_value previous) (metricValue metrics metric)) (num_add (k_requests previous) (m_requests metrics))
      (num_add (k_quota previous) (m_quota metrics)) (num_add (k_tokens previous) (m_tokens metrics))
      (k_sourceLabel previous) (k_targetLabel previous) (k_color previous) (k_linkColor previous) (k_linkAlpha previous)
      (k_hoverColor previous) (k_colorKey previous) (k_share previous) (k_highlighted previous) (k_dimmed previous)).

Definition buildSummary (rows : list FlowQuotaDataItem) : FlowMetrics :=
  foldl (fun summary row =>
    let metrics := rowMetrics row in
    mkMetrics (num_add (m_quota summary) (m_quota metrics)) (num_add (m_tokens summary) (m_tokens metrics))
      (num_add (m_requests summary) (m_requests metrics))) (mkMetrics (num 0) (num 0) (num 0)) rows.

(** *** The largest nodes of each stage *)

Definition normalizeTopNodeLimit (limit : option jsnum) : option jsnum :=
  match limit with
  | None => None
  | Some l => let parsed := math_floor l in if is_finite parsed && num_lt (num 0) parsed then Some parsed else None
  end.

(** The end of a [slice] that a whole positive number is. *)
Definition slice_end (n : jsnum) : nat :=
  match n with S754_finite false m e => Z.to_nat (fst (int_part m e)) | _ => 0 end.

Definition otherFlowNode (kind : FlowNodeKind) : FlowPathNode :=
  mkPathNode (OTHER_FLOW_NODE_IDS kind)
    (match otherNodeLabel with Some labeler => labeler kind | None => DEFAULT_OTHER_FLOW_NODE_LABELS kind end) kind.

(** The totals of the nodes of a stage. *)
Definition rank_node (value : jsnum) (node : FlowPathNode) : list (jsstr * FlowNodeRank) -> list (jsstr * FlowNodeRank) :=
  upsert (p_id node) (fun found =>
    let current := default (mkRank node (num 0)) found in mkRank (r_node current) (num_add (r_value current) value)).

Definition update_existing {K V} `{EqDecision K} (key : K) (f : V -> V) (map : list (K * V)) : list (K * V) :=
  (fun kv => if decide (kv.1 = key) then (kv.1, f kv.2) else kv) <$> map.

Definition by_rank (a b : FlowNodeRank) : comparison :=
  cmp_or (num_cmp (r_value b) (r_value a))
    (cmp_or (localeCompare (p_label (r_node a)) (p_label (r_node b))) (localeCompare (p_id (r_node a)) (p_id (r_node b)))).

Definition stage_totals (rows : list FlowQuotaDataItem) (metric : FlowMetric) (stages : list FlowNodeKind)
    : list (FlowNodeKind * list (jsstr * FlowNodeRank)) :=
  foldl (fun totals row =>
    let value := metricValue (rowMetrics row) metric in
    foldl (fun totals node => update_existing (p_kind node) (rank_node value node) totals) totals (flowPathForStages row stages))
    ((fun stage => (stage, [])) <$> stages) rows.

Definition buildTopNodeSets (rows : list FlowQuotaDataItem) (metric : FlowMetric) (stages : list FlowNodeKind)
    (limit : option jsnum) : option (list (FlowNodeKind * list jsstr)) :=
  match limit with
  | None => None
  | Some l =>
      Some ((fun '(kind, stageTotals) =>
               (kind, (fun rank => p_id (r_node rank)) <$> take (slice_end l) (js_sort by_rank stageTotals.*2)))
            <$> stage_totals rows metric stages)
  end.

Definition isTopFlowNode (node : FlowPathNode) (topNodeSets : list (FlowNodeKind * list jsstr)) : bool :=
  match map_get (p_kind node) topNodeSets with None => true | Some topNodes => bool_decide (p_id node ∈ topNodes) end.

Definition applyTopNodeLimit (path : list FlowPathNode) (topNodeSets : option (list (FlowNodeKind * list jsstr)))
    (mode : FlowOverflowMode) : option (list FlowPathNode) :=
  match topNodeSets with
  | None => Some path
  | Some sets =>
      if negb (existsb (fun node => negb (isTopFlowNode node sets)) path) then Some path
      else match mode with
           | hide => None
           | aggregate => Some ((fun node => if isTopFlowNode node sets then node else otherFlowNode (p_kind node)) <$> path)
           end
  end.

(** *** Highlighting *)

(** The pairs of consecutive nodes of a path. *)
Fixpoint path_links (path : list FlowPathNode) : list (FlowPathNode * FlowPathNode) :=
  match path with
  | source :: ((target :: _) as rest) => (source, target) :: path_links rest
  | _ => []
  end.

Definition pathContainsFlowNode (path : list FlowPathNode) (flt : FlowNodeFilter) : bool :=
  existsb (fun node => bool_decide (p_kind node = f_kind flt) && (p_id node =s? f_id flt)) path.

Definition pathContainsFlowLink (path : list FlowPathNode) (link : FlowLinkSelection) : bool :=
  existsb (fun '(source, target) => (p_id source =s? l_source link) && (p_id target =s? l_target link)) (path_links path).

(** [matchesPath] of the highlighting. *)
Definition matches_path (activeNode : option FlowNodeFilter) (activeLink : option FlowLinkSelection)
    (path : list FlowPathNode) : bool :=
  match activeLink with
  | Some link => pathContainsFlowLink path link
  | None => match activeNode with Some node => pathContainsFlowNode path node | None => false end
  end.

Definition buildFlowHighlightSets (preparedPaths : list PreparedFlowPath) (activeNode : option FlowNodeFilter)
    (activeLink : option FlowLinkSelection) (stages : list FlowNodeKind) : option (list jsstr * list jsstr) :=
  let nodeActive := match activeNode with Some node => bool_decide (f_kind node ∈ stages) | None => false end in
  if negb nodeActive && bool_decide (activeLink = None) then None
  else
    let matching := filter (fun prepared => matches_path activeNode activeLink (pp_path prepared) = true) preparedPaths in
    let nodes := mjoin ((fun prepared => p_id <$> pp_path prepared) <$> matching) in
    let links := mjoin ((fun prepared => (fun '(s, t) => pathLinkKey s t) <$> path_links (pp_path prepared)) <$> matching) in
    match nodes with [] => None | _ => Some (nodes, links) end.

Definition highlight_node (nodes : list jsstr) (node : DashboardFlowNode) : DashboardFlowNode :=
  let highlighted := bool_decide (n_id node ∈ nodes) in
  mkNode (n_id node) (n_label node) (n_kind node) (n_value node) (n_requests node) (n_quota node) (n_tokens node)
    (n_color node) (n_colorKey node) (Some highlighted) (Some (negb highlighted)).

Definition highlight_link (links : list jsstr) (link : DashboardFlowLink) : DashboardFlowLink :=
  let highlighted := bool_decide (linkStableKey link ∈ links) in
  mkLink (k_source link) (k_target link) (k_value link) (k_requests link) (k_quota link) (k_tokens link)
    (k_sourceLabel link) (k_targetLabel link) (k_color link) (k_linkColor link) (k_linkAlpha link) (k_hoverColor link)
    (k_colorKey link) (k_share link) (Some highlighted) (Some (negb highlighted)).

Definition applyFlowHighlights (highlightSets : option (list jsstr * list jsstr))
    (graph : list DashboardFlowNode * list DashboardFlowLink) : list DashboardFlowNode * list DashboardFlowLink :=
  match highlightSets with
  | None => graph
  | Some (nodes, links) => (highlight_node nodes <$> graph.1, highlight_link links <$> graph.2)
  end.

(** *** Masking *)

Definition FLOW_MASK_TEXT : jsstr := [8226; 8226; 8226; 8226]%N.
Definition maskFlowLabel (label : jsstr) : jsstr := match label with [] => label | _ => FLOW_MASK_TEXT end.

(** Whether the label of a node is masked. *)
Definition is_masked (node : DashboardFlowNode) : bool :=
  bool_decide (n_kind node ∈ SENSITIVE_FLOW_KINDS) && negb (bool_decide (n_id node ∈ OTHER_FLOW_NODE_ID_SET)).

Definition with_label (label : jsstr) (node : DashboardFlowNode) : DashboardFlowNode :=
  mkNode (n_id node) label (n_kind node) (n_value node) (n_requests node) (n_quota node) (n_tokens node)
    (n_color node) (n_colorKey node) (n_highlighted node) (n_dimmed node).

Definition with_link_labels (source target : jsstr) (link : DashboardFlowLink) : DashboardFlowLink :=
  mkLink (k_source link) (k_target link) (k_value link) (k_requests link) (k_quota link) (k_tokens link)
    source target (k_color link) (k_linkColor link) (k_linkAlpha link) (k_hoverColor link)
    (k_colorKey link) (k_share link) (k_highlighted link) (k_dimmed link).

Definition maskFlowGraphLabels (graph : list DashboardFlowNode * list DashboardFlowLink)
    : list DashboardFlowNode * list DashboardFlowLink :=
  let maskedById := (fun node => (n_id node, maskFlowLabel (n_label node))) <$> filter (fun node => is_masked node = true) graph.1 in
  ((fun node => if is_masked node then with_label (maskFlowLabel (n_label node)) node else node) <$> graph.1,
   (fun link => with_link_labels (default (k_sourceLabel link) (map_get (k_source link) maskedById))
                  (default (k_targetLabel link) (map_get (k_target link) maskedById)) link) <$> graph.2).

(** *** Colours of links *)

(** A decimal literal, [n / d] rounded to the nearest number. *)
Definition literal (n d : Z) : jsnum := num_div (num n) (num d).
Definition num_mul (a b : jsnum) : jsnum := SFmul 53 1024 a b.

(** [alpha.toFixed(2)] of a number that is not negative: the nearest number of hundredths,
    the larger of two as near. *)
Definition toFixed2 (n : jsnum) : jsstr :=
  let hundredths :=
    match n with
    | S754_finite false m e =>
        (if 0 <=? e then 100 * Zpos m * 2 ^ e else (200 * Zpos m + 2 ^ (- e)) / (2 * 2 ^ (- e)))%Z
    | _ => 0%Z
    end in
  show_dec (Z.to_N (hundredths / 100)%Z) ++ js "." ++
  show_dec (Z.to_N (hundredths mod 100 / 10)%Z) ++ show_dec (Z.to_N (hundredths mod 10)%Z).

Definition color_digit (c : N) : option Z :=
  if is_digit c then Some (Z.of_N c - 48)%Z
  else if ((97 <=? c) && (c <=? 102))%N then Some (Z.of_N c - 87)%Z
  else if ((65 <=? c) && (c <=? 70))%N then Some (Z.of_N c - 55)%Z
  else None.

(** [Number.parseInt(hex, 16)] of a text of six hexadecimal digits. *)
Definition color_value (hex : jsstr) : option Z :=
  if length hex =? 6 then foldl (fun acc d => match acc, d with Some a, Some b => Some (16 * a + b)%Z | _, _ => None end) (Some 0%Z) (color_digit <$> hex)
  else None.

Definition alphaColor (color : jsstr) (alpha : jsnum) : jsstr * jsnum :=
  let normalized := trim color in
  let hex := match normalized with 35%N :: rest => rest | _ => normalized end in
  match color_value hex with
  | None => (normalized, alpha)
  | Some value =>
      let channel shift := show_dec (Z.to_N (Z.land (Z.shiftr value shift) 255)) in
      (js "rgba(" ++ channel 16%Z ++ js ", " ++ channel 8%Z ++ js ", " ++ channel 0%Z ++ js ", " ++ toFixed2 alpha ++ js ")", num 1)
  end.

Definition by_link_value (a b : DashboardFlowLink) : comparison :=
  cmp_or (num_cmp (k_value b) (k_value a)) (localeCompare (linkStableKey a) (linkStableKey b)).

Definition with_colors (linkColor : jsstr) (linkAlpha : jsnum) (hoverColor : jsstr) (link : DashboardFlowLink) : DashboardFlowLink :=
  mkLink (k_source link) (k_target link) (k_value link) (k_requests link) (k_quota link) (k_tokens link)
    (k_sourceLabel link) (k_targetLabel link) (k_color link) linkColor linkAlpha hoverColor
    (k_colorKey link) (k_share link) (k_highlighted link) (k_dimmed link).

(** The place of a link among the sorted links of its source gives its opacity. *)
Definition display_colors (links : list DashboardFlowLink) (link : DashboardFlowLink) : DashboardFlowLink :=
  let sortedLinks := js_sort by_link_value (filter (fun other => k_source other = k_source link) links) in
  let index := default 0 (fst <$> list_find (fun other => linkStableKey other = linkStableKey link) sortedLinks) in
  let denominator := Nat.max (length sortedLinks - 1) 1 in
  let alpha := if length sortedLinks =? 1 then literal 34 100
               else num_add (literal 24 100)
                      (num_mul (num_div (num (Z.of_nat index)) (num (Z.of_nat denominator))) (literal 2 10)) in
  let '(linkColor, linkAlpha) := alphaColor (k_color link) alpha in
  with_colors linkColor linkAlpha (k_color link) link.

Definition assignLinkDisplayColors (links : list DashboardFlowLink) : list DashboardFlowLink := display_colors links <$> links.

(** ** The graph *)

Record FlowGraphOptions := mkGraphOptions {
  topNodeLimit : option jsnum; overflowMode : FlowOverflowMode; activeNode : option FlowNodeFilter;
  activeLink : option FlowLinkSelection; maskSensitive : bool }.

Definition prepare (rows : list FlowQuotaDataItem) (stages : list FlowNodeKind)
    (topNodeSets : option (list (FlowNodeKind * list jsstr))) (mode : FlowOverflowMode) : list PreparedFlowPath :=
  omap (fun row => (fun path => mkPrepared path (rowMetrics row)) <$>
                     applyTopNodeLimit (flowPathForStages row stages) topNodeSets mode) rows.

Definition root_ids (preparedPaths : list PreparedFlowPath) : list jsstr :=
  filter (fun id => truthy id = true) (omap (fun prepared => p_id <$> head (pp_path prepared)) preparedPaths).

(** One prepared path added to the nodes and the links. *)
Definition add_path (metric : FlowMetric) (colors : list (jsstr * jsstr)) (palette : list jsstr)
    (maps : list (jsstr * DashboardFlowNode) * list (jsstr * DashboardFlowLink)) (prepared : PreparedFlowPath)
    : list (jsstr * DashboardFlowNode) * list (jsstr * DashboardFlowLink) :=
  match pp_path prepared with
  | [] => maps
  | root :: _ =>
      let color := default (colorAt 0 palette) (map_get (p_id root) colors) in
      (foldl (fun nodes node => addNode node (pp_metrics prepared) metric color (p_id root) nodes) maps.1 (pp_path prepared),
       foldl (fun links '(source, target) => addLink source target (pp_metrics prepared) metric color (p_id root) links)
         maps.2 (path_links (pp_path prepared)))
  end.

Definition with_share (share : jsnum) (link : DashboardFlowLink) : DashboardFlowLink :=
  mkLink (k_source link) (k_target link) (k_value link) (k_requests link) (k_quota link) (k_tokens link)
    (k_sourceLabel link) (k_targetLabel link) (k_color link) (k_linkColor link) (k_linkAlpha link) (k_hoverColor link)
    (k_colorKey link) share (k_highlighted link) (k_dimmed link).

Definition byValueThenLabel (a b : DashboardFlowNode) : comparison :=
  cmp_or (num_cmp (n_value b) (n_value a)) (localeCompare (n_label a) (n_label b)).

Definition by_ends (a b : DashboardFlowLink) : comparison :=
  cmp_or (localeCompare (k_source a) (k_source b)) (localeCompare (k_target a) (k_target b)).

Definition buildFlowGraph (rows : list FlowQuotaDataItem) (metric : FlowMetric) (role : FlowRole) (palette : list jsstr)
    (visibleStages : option (list FlowNodeKind)) (options : FlowGraphOptions) : DashboardFlowGraph :=
  let stages := resolveVisibleStages role visibleStages in
  let topNodeSets := buildTopNodeSets rows metric stages (normalizeTopNodeLimit (topNodeLimit options)) in
  let preparedPaths := prepare rows stages topNodeSets (overflowMode options) in
  let colors := stableColorMap (js_sort localeCompare (root_ids preparedPaths)) palette in
  let '(nodes, links) := foldl (add_path metric colors palette) ([], []) preparedPaths in
  let graph := (nodes.*2, links.*2) in
  let masked := if maskSensitive options then maskFlowGraphLabels graph else graph in
  let highlighted :=
    applyFlowHighlights (buildFlowHighlightSets preparedPaths (activeNode options) (activeLink options) stages) masked in
  let flowLinks := js_sort by_ends highlighted.2 in
  let total := js_sum (k_value <$> filter (fun link => k_source link ∈ root_ids preparedPaths) flowLinks) in
  let shared := (fun link => with_share (if num_lt (num 0) total then num_div (k_value link) total else num 0) link) <$> flowLinks in
  mkGraph (js_sort byValueThenLabel highlighted.1) (assignLinkDisplayColors shared).

(** ** Filter options *)

Record FlowUserFilterOption := mkUserOption {
  u_value : jsstr; u_label : jsstr; u_valueLabel : jsstr; u_valueRaw : jsnum; u_color : jsstr }.
Record FlowNodeFilterOption := mkNodeOption {
  o_kind : FlowNodeKind; o_value : jsstr; o_label : jsstr; o_valueLabel : jsstr; o_valueRaw : jsnum; o_color : jsstr }.

Definition user_known (row : FlowQuotaDataItem) : bool :=
  match user_id row with Some n => num_truthy n | None => false end || has_text (username row).

Definition buildUserFilterOptions (rows : list FlowQuotaDataItem) (metric : FlowMetric) (palette : list jsstr)
    : list FlowUserFilterOption :=
  let colors := stableColorMap (js_sort localeCompare ((fun row => p_id (userNode row)) <$> rows)) palette in
  let users := foldl (fun users row =>
    if negb (user_known row) then users
    else
      let user := userNode row in
      upsert (p_id user) (fun found =>
        let '(label, value, color) :=
          default (p_label user, num 0, default (colorAt 0 palette) (map_get (p_id user) colors)) found in
        (label, num_add value (metricValue (rowMetrics row) metric), color)) users) [] rows in
  js_sort (fun a b => cmp_or (num_cmp (u_valueRaw b) (u_valueRaw a)) (localeCompare (u_label a) (u_label b)))
    ((fun '(value, (label, raw, color)) => mkUserOption value label (formatNumber raw) raw color) <$> users).

Definition nodeFilterKey (flt : FlowNodeFilter) : jsstr := kind_name (f_kind flt) ++ [0%N] ++ f_id flt.

(** The totals of the nodes of one stage over the rows the other filters keep. *)
Definition option_totals (rows : list FlowQuotaDataItem) (metric : FlowMetric) (stage : FlowNodeKind)
    : list (jsstr * FlowNodeRank) :=
  foldl (fun totals row =>
    let node := NODE_BUILDERS stage row in
    upsert (nodeFilterKey (mkFilter (p_kind node) (p_id node))) (fun found =>
      let current := default (mkRank node (num 0)) found in
      mkRank (r_node current) (num_add (r_value current) (metricValue (rowMetrics row) metric))) totals) [] rows.

(** The place of a stage, [stageOrder.get(kind) ?? 0]. *)
Definition stage_order (stages : list FlowNodeKind) (kind : FlowNodeKind) : nat :=
  default 0 (fst <$> list_find (fun stage => stage = kind) stages).

Definition by_option (stages : list FlowNodeKind) (a b : FlowNodeFilterOption) : comparison :=
  cmp_or (stage_order stages (o_kind a) ?= stage_order stages (o_kind b))
    (cmp_or (num_cmp (o_valueRaw b) (o_valueRaw a))
       (cmp_or (localeCompare (o_label a) (o_label b)) (localeCompare (o_value a) (o_value b)))).

Definition buildNodeFilterOptions (rows : list FlowQuotaDataItem) (metric : FlowMetric) (role : FlowRole)
    (visibleStages : option (list FlowNodeKind)) (palette : list jsstr) (selectedNodes : list FlowNodeFilter)
    : list FlowNodeFilterOption :=
  let stages := resolveVisibleStages role visibleStages in
  let colorIds := set_of [] (mjoin ((fun row => p_id <$> flowPathForStages row stages) <$> rows)) in
  let colors := stableColorMap (js_sort localeCompare colorIds) palette in
  let options := mjoin ((fun stage =>
    let candidateRows := filterRowsByNodes rows (selectedNodeFiltersExceptKind selectedNodes stage) stages in
    (fun rank => mkNodeOption (p_kind (r_node rank)) (p_id (r_node rank)) (p_label (r_node rank)) (formatNumber (r_value rank))
                   (r_value rank) (default (colorAt 0 palette) (map_get (p_id (r_node rank)) colors)))
      <$> (option_totals candidateRows metric stage).*2) <$> stages) in
  js_sort (by_option stages) options.

(** ** The data of the chart *)

Record FlowBuildOptions := mkBuildOptions {
  role : FlowRole; selectedUsers : list jsstr; selectedNodes : list FlowNodeFilter; palette : list jsstr;
  visibleStages : option (list FlowNodeKind); graphOptions : FlowGraphOptions }.

Record ProcessedFlowData := mkProcessed {
  summary : FlowMetrics; flow : DashboardFlowGraph; userOptions : list FlowUserFilterOption; nodeOptions : list FlowNodeFilterOption }.

Definition buildDashboardFlowData (rows : list FlowQuotaDataItem) (metric : FlowMetric) (options : FlowBuildOptions)
    : ProcessedFlowData :=
  let stages := resolveVisibleStages (role options) (visibleStages options) in
  let userFilteredRows := filterRows rows (selectedUsers options) in
  let filteredRows := filterRowsByNodes userFilteredRows (selectedNodes options) stages in
  mkProcessed (buildSummary filteredRows)
    (buildFlowGraph filteredRows metric (role options) (palette options) (visibleStages options) (graphOptions options))
    (buildUserFilterOptions rows metric (palette options))
    (buildNodeFilterOptions userFilteredRows metric (role options) (visibleStages options) (palette options) (selectedNodes options)).

(** ** The chart *)

Definition flag (value : option bool) : jsval := match value with Some b => JBool b | None => JUndefined end.

(** The object of a node in the data of the chart. *)
Definition node_datum (node : DashboardFlowNode) : jsval :=
  JObject [(js "key", JString (n_id node)); (js "name", JString (n_label node)); (js "rawLabel", JString (n_label node));
           (js "kind", JString (kind_name (n_kind node))); (js "value", JNumber (n_value node));
           (js "requests", JNumber (n_requests node)); (js "quota", JNumber (n_quota node)); (js "tokens", JNumber (n_tokens node));
           (js "color", JString (n_color node)); (js "colorKey", JString (n_colorKey node));
           (js "highlighted", flag (n_highlighted node)); (js "dimmed", flag (n_dimmed node))].

Definition link_datum (zIndex : Z) (link : DashboardFlowLink) : jsval :=
  JObject [(js "source", JString (k_source link)); (js "target", JString (k_target link)); (js "linkKey", JString (linkStableKey link));
           (js "sourceLabel", JString (k_sourceLabel link)); (js "targetLabel", JString (k_targetLabel link));
           (js "value", JNumber (k_value link)); (js "requests", JNumber (k_requests link)); (js "quota", JNumber (k_quota link));
           (js "tokens", JNumber (k_tokens link)); (js "color", JString (k_color link)); (js "linkColor", JString (k_linkColor link));
           (js "linkAlpha", JNumber (k_linkAlpha link)); (js "hoverColor", JString (k_hoverColor link));
           (js "colorKey", JString (k_colorKey link)); (js "share", JNumber (k_share link));
           (js "highlighted", flag (k_highlighted link)); (js "dimmed", flag (k_dimmed link)); (js "zIndex", JNumber (num zIndex))].

(** [Number(flag)]: undefined is not a number, and a difference with it counts as zero. *)
Definition flag_cmp (a b : option bool) : comparison :=
  match a, b with
  | Some false, Some true => Lt
  | Some true, Some false => Gt
  | _, _ => Eq
  end.

Definition byLinkDrawPriority (a b : DashboardFlowLink) : comparison :=
  cmp_or (flag_cmp (k_dimmed a) (k_dimmed b)) (cmp_or (flag_cmp (k_highlighted b) (k_highlighted a)) (by_link_value a b)).

Definition z_index (index : nat) (link : DashboardFlowLink) : Z :=
  if bool_decide (k_highlighted link = Some true) then (1000000 + Z.of_nat index)%Z
  else if bool_decide (k_dimmed link = Some true) then Z.of_nat index
  else (100000 + Z.of_nat index)%Z.

(** The nodes and the links the chart draws. *)
Definition sankey_nodes (graph : DashboardFlowGraph) : list jsval := node_datum <$> g_nodes graph.
Definition sankey_links (graph : DashboardFlowGraph) : list jsval :=
  imap (fun index link => link_datum (z_index index link) link)
    (js_sort byLinkDrawPriority (filter (fun link => num_lt (num 0) (k_value link) = true) (g_links graph))).

(** *** Reading what the chart hands back *)

Definition recordValue (value : jsval) : option jsval := if isRecord value then Some value else None.

(** [nested[depth]] for a whole number [depth]. *)
Definition array_at (nested : list jsval) (depth : jsnum) : jsval :=
  match depth with
  | S754_zero _ => default JUndefined (nested !! 0)
  | S754_finite false m e => if is_integer depth then default JUndefined (nested !! Z.to_nat (fst (int_part m e))) else JUndefined
  | _ => JUndefined
  end.

Definition finite_number (value : jsval) : jsnum := let n := js_number show value in if is_finite n then n else num 0.

Definition sankeyDatumSource (datum : jsval) : jsval :=
  match field "datum" datum with
  | JArray nested =>
      let depth := finite_number (field "depth" datum) in
      default (default datum (recordValue (default JUndefined (nested !! 0)))) (recordValue (array_at nested depth))
  | nested => default datum (recordValue nested)
  end.

Definition sankeyDatumValue (datum : jsval) (key : string) : jsval :=
  match field key datum with JUndefined => field key (sankeyDatumSource datum) | value => value end.

Definition sankeyDatumFlag (datum : jsval) (key : string) : bool :=
  match sankeyDatumValue datum key with JBool true => true | _ => false end.

Definition flowSankeyDatumValue (datum : jsval) (key : string) : jsval :=
  match recordValue datum with Some record => sankeyDatumValue record key | None => JUndefined end.

Definition defined (v : jsval) : bool := match v with JUndefined => false | _ => true end.

Definition isSankeyLinkDatum (datum : jsval) : bool :=
  defined (sankeyDatumValue datum "source") && defined (sankeyDatumValue datum "target").

Definition isFlowNodeKind (value : jsval) : option FlowNodeKind :=
  match value with JString s => List.find (fun kind => kind_name kind =s? s) FLOW_NODE_KINDS | _ => None end.

Definition flowNodeFilterFromSankeyDatum (datum : jsval) : option FlowNodeFilter :=
  match recordValue datum with
  | None => None
  | Some record =>
      if isSankeyLinkDatum record then None
      else
        let id := flowSankeyDatumValue record "key" in
        if is_string id || is_number id then
          (fun kind => mkFilter kind (js_string show id)) <$> isFlowNodeKind (flowSankeyDatumValue record "kind")
        else None
  end.
End Flow.

(** The filter options alone, without labels for deleted tokens. *)
Definition buildFlowFilterOptions (show : jsnum -> jsstr) (localeCompare : jsstr -> jsstr -> comparison) (formatNumber : jsnum -> jsstr)
    (dataSchemes : list (option nat * list jsstr)) (rows : list FlowQuotaDataItem) (metric : FlowMetric) (palette : list jsstr)
    (role : FlowRole) (visibleStages : option (list FlowNodeKind)) (selectedNodes : list FlowNodeFilter)
    : list FlowUserFilterOption * list FlowNodeFilterOption :=
  (buildUserFilterOptions show localeCompare formatNumber dataSchemes rows metric palette,
   buildNodeFilterOptions show localeCompare formatNumber dataSchemes None rows metric role visibleStages palette selectedNodes).
