(* ===== verification/FlowProofs.v ===== *)
(** * Correctness of the flow chart

    What buildFlowGraph of Flow.v draws.  Nodes and links are accumulated in maps; a fold of
    updates is described once, for any map, and used for both.  Sums are exact for whole
    numbers (JsExact.v), so the flow into a node, its value and the flow out of it agree. *)

From S2P Require Import Prelude JsValue JsText JsExact Flow.

Local Open Scope nat_scope.

(** ** Maps built by updates *)

Section Updates.
Context {K V E : Type} `{EqDecision K} (key : E -> K) (update : E -> option V -> V).

Definition build (map : list (K * V)) (events : list E) : list (K * V) :=
  foldl (fun map e => upsert (key e) (update e) map) map events.

Lemma upsert_get k f (map : list (K * V)) k' :
  map_get k' (upsert k f map) = if decide (k = k') then Some (f (map_get k map)) else map_get k' map.
Proof.
  induction map as [|[a v] map IH]; cbn [upsert map_get]; [done|].
  destruct (decide (a = k)) as [->|Hne]; cbn [map_get].
  - by destruct (decide (k = k')).
  - rewrite IH. destruct (decide (a = k')) as [->|]; [|done]. by destruct (decide (k = k')).
Qed.

Lemma upsert_keys k f (map : list (K * V)) : (upsert k f map).*1 = if decide (k ∈ map.*1) then map.*1 else map.*1 ++ [k].
Proof.
  induction map as [|[a v] map IH]; cbn [upsert fmap list_fmap fst].
  - by destruct (decide (k ∈ [])) as [H%not_elem_of_nil|].
  - destruct (decide (a = k)) as [->|Hne]; cbn [fmap list_fmap fst].
    + by rewrite decide_True by left.
    + cbn [fmap list_fmap fst] in IH. rewrite IH. destruct (decide (k ∈ map.*1)) as [Hin|Hout].
      * by rewrite decide_True by (by right).
      * rewrite decide_False; [done|]. intros [->|Hin]%elem_of_cons; done.
Qed.

Lemma build_get events : forall map k,
  map_get k (build map events) =
  foldl (fun found e => if decide (key e = k) then Some (update e found) else found) (map_get k map) events.
Proof.
  induction events as [|e events IH]; intros map k; [done|]. cbn [build foldl] in *. fold (build (upsert (key e) (update e) map) events).
  rewrite IH, upsert_get. destruct (decide (key e = k)) as [<-|]; done.
Qed.

Lemma build_keys events : forall map, NoDup map.*1 ->
  NoDup (build map events).*1 /\ forall k, k ∈ (build map events).*1 <-> k ∈ map.*1 \/ k ∈ key <$> events.
Proof.
  induction events as [|e events IH]; intros map Hm.
  - split; [done|]. intros k. split; [by left|]. intros [?|H%not_elem_of_nil]; done.
  - cbn [build foldl]. fold (build (upsert (key e) (update e) map) events).
    destruct (IH (upsert (key e) (update e) map)) as [H1 H2].
    + rewrite upsert_keys. destruct (decide _); [done|]. apply NoDup_app. split; [done|]. split; [|apply NoDup_singleton].
      intros x Hx ->%list_elem_of_singleton. done.
    + split; [done|]. intros k. rewrite H2, upsert_keys. cbn [fmap list_fmap]. rewrite elem_of_cons.
      destruct (decide _) as [Hin|]; [|rewrite elem_of_app, list_elem_of_singleton; tauto].
      split; [tauto|]. intros [?|[->|?]]; tauto.
Qed.

Lemma map_get_elem (map : list (K * V)) k v : NoDup map.*1 -> (k, v) ∈ map <-> map_get k map = Some v.
Proof.
  induction map as [|[a w] map IH]; cbn [map_get fmap list_fmap fst]; intros Hn.
  - split; [by intros ?%not_elem_of_nil|done].
  - apply NoDup_cons in Hn as [Ha Hn]. rewrite elem_of_cons. destruct (decide (a = k)) as [->|Hne].
    + split; [|by intros [= ->]; left]. intros [[= ->]|Hin]; [done|]. exfalso. apply Ha. by apply (list_elem_of_fmap_2 fst _ (k, v)).
    + rewrite <- IH by done. split; [intros [[= -> ->]|?]; done|by right].
Qed.
End Updates.

Lemma foldl_join {A B} (f : B -> A -> B) (ls : list (list A)) : forall b, foldl (fun b l => foldl f b l) b ls = foldl f b (mjoin ls).
Proof. induction ls as [|l ls IH]; intros b; [done|]. cbn [foldl mjoin list_join]. by rewrite foldl_app, IH. Qed.

Lemma js_sum_snoc l x : js_sum (l ++ [x]) = num_add (js_sum l) x.
Proof. unfold js_sum. by rewrite foldl_app. Qed.

(** The value a key ends with when each update adds to what its first update created. *)
Lemma fold_found {E V} (hit : E -> Prop) `{!forall e, Decision (hit e)} (update : E -> option V -> V) (result : E -> list E -> V) :
  (forall e, update e None = result e [e]) -> (forall e0 es e, update e (Some (result e0 es)) = result e0 (es ++ [e])) ->
  forall events, foldl (fun found e => if decide (hit e) then Some (update e found) else found) None events =
    match filter hit events with [] => None | e0 :: es => Some (result e0 (e0 :: es)) end.
Proof.
  intros H0 H1 events. induction events as [|e events IH] using rev_ind; [done|].
  rewrite foldl_app, filter_app. cbn [foldl]. rewrite IH, filter_cons. destruct (decide (hit e)).
  - destruct (filter hit events) as [|e0 es]; [by rewrite H0|]. by rewrite H1.
  - by rewrite filter_nil, app_nil_r.
Qed.

(** ** Sums of whole numbers *)

Definition zsum {A} (f : A -> Z) (l : list A) : Z := foldr (fun x acc => f x + acc)%Z 0%Z l.

Lemma zsum_cons {A} (f : A -> Z) x l : zsum f (x :: l) = (f x + zsum f l)%Z.
Proof. done. Qed.
Lemma zsum_ext {A} (f g : A -> Z) l : (forall x, x ∈ l -> f x = g x) -> zsum f l = zsum g l.
Proof.
  induction l as [|x l IH]; intros H; [done|]. rewrite !zsum_cons, (H x) by left. f_equal. apply IH. intros y Hy. apply H. by right.
Qed.
Lemma zsum_nonneg {A} (f : A -> Z) l : (forall x, x ∈ l -> (0 <= f x)%Z) -> (0 <= zsum f l)%Z.
Proof.
  induction l as [|x l IH]; intros H; [done|]. rewrite zsum_cons. pose proof (H x ltac:(left)).
  pose proof (IH ltac:(intros; apply H; by right)). lia.
Qed.
#[export] Instance zsum_perm {A} (f : A -> Z) : Proper (Permutation ==> eq) (zsum f).
Proof. induction 1; rewrite ?zsum_cons; lia. Qed.
Lemma zsum_fmap {A B} (f : B -> Z) (g : A -> B) l : zsum f (g <$> l) = zsum (fun x => f (g x)) l.
Proof. induction l as [|x l IH]; [done|]. cbn [fmap list_fmap]. by rewrite !zsum_cons, IH. Qed.
Lemma zsum_filter {A} (f : A -> Z) (P : A -> Prop) `{!forall x, Decision (P x)} l :
  zsum f (filter P l) = zsum (fun x => if decide (P x) then f x else 0%Z) l.
Proof.
  induction l as [|x l IH]; [done|]. rewrite filter_cons, zsum_cons. destruct (decide (P x)); [by rewrite zsum_cons, IH|].
  by rewrite IH.
Qed.
Lemma zsum_add {A} (f g : A -> Z) l : zsum (fun x => f x + g x)%Z l = (zsum f l + zsum g l)%Z.
Proof. induction l as [|x l IH]; [done|]. rewrite !zsum_cons, IH. lia. Qed.
Lemma zsum_scale {A} (f : A -> Z) c l : zsum (fun x => c * f x)%Z l = (c * zsum f l)%Z.
Proof. induction l as [|x l IH]; [cbn; lia|]. rewrite !zsum_cons, IH. lia. Qed.
Lemma zsum_swap {A B} (h : A -> B -> Z) l m :
  zsum (fun x => zsum (h x) m) l = zsum (fun y => zsum (fun x => h x y) l) m.
Proof.
  induction l as [|x l IH]; [induction m as [|y m IHm]; [done|]; by rewrite zsum_cons, <- IHm|].
  rewrite zsum_cons, IH, <- zsum_add. done.
Qed.
Lemma zsum_length {A} (P : A -> Prop) `{!forall x, Decision (P x)} l :
  zsum (fun x => if decide (P x) then 1 else 0)%Z l = Z.of_nat (length (filter P l)).
Proof.
  induction l as [|x l IH]; [done|]. rewrite filter_cons, zsum_cons, IH. destruct (decide (P x)); cbn [length]; lia.
Qed.

Lemma filter_same {A} (P Q : A -> Prop) `{!forall x, Decision (P x)} `{!forall x, Decision (Q x)} (l : list A) :
  (forall x, x ∈ l -> P x <-> Q x) -> filter P l = filter Q l.
Proof.
  induction l as [|x l IH]; intros Hi; [done|]. rewrite !filter_cons, IH by (intros; apply Hi; by right).
  pose proof (Hi x ltac:(left)). destruct (decide (P x)), (decide (Q x)); tauto.
Qed.

Lemma filter_fmap {A B} (P : B -> Prop) `{!forall x, Decision (P x)} (f : A -> B) (l : list A) :
  filter P (f <$> l) = f <$> filter (fun x => P (f x)) l.
Proof.
  induction l as [|x l IH]; [done|]. rewrite fmap_cons, !filter_cons, IH. by destruct (decide (P (f x))).
Qed.

Lemma js_sum_whole {A} (f : A -> jsnum) (w : A -> Z) l :
  (forall x, x ∈ l -> f x = num (w x) /\ (0 <= w x)%Z) -> (zsum w l < 2 ^ 53)%Z -> js_sum (f <$> l) = num (zsum w l).
Proof.
  intros H Hs. assert (f <$> l = num <$> (w <$> l)) as ->.
  { rewrite <- list_fmap_compose. apply list_fmap_ext. intros i x Hx%list_elem_of_lookup_2. by apply H. }
  assert (foldr Z.add 0%Z (w <$> l) = zsum w l) as E by (clear; induction l as [|x l IH]; [done|]; rewrite fmap_cons, zsum_cons, <- IH; done).
  rewrite js_sum_exact; [by rewrite E| |by rewrite E]. apply Forall_fmap, Forall_forall. intros x Hx. by apply H.
Qed.

Lemma NoDup_fmap_filter {A B} (f : A -> B) (P : A -> Prop) `{!forall x, Decision (P x)} (l : list A) :
  NoDup (f <$> l) -> NoDup (f <$> filter P l).
Proof.
  induction l as [|x l IH]; [done|]. rewrite fmap_cons, filter_cons. intros [Hx Hl]%NoDup_cons.
  destruct (decide (P x)); [|by apply IH]. rewrite fmap_cons. apply NoDup_cons. split; [|by apply IH].
  intros (y & E & [_ Hy]%list_elem_of_filter)%list_elem_of_fmap. apply Hx. rewrite E. by apply list_elem_of_fmap_2.
Qed.

(** Counting a weight once for every thing [xs] and every path it lies on is counting it for
    every path as often as the path has such a thing. *)
Lemma double_count {X P Y} `{EqDecision Y} (key : X -> Y) (items : P -> list Y) (xs : list X) (ps : list P)
    (sel : Y -> Prop) `{!forall y, Decision (sel y)} (w : P -> Z) :
  NoDup (key <$> xs) -> (forall p, p ∈ ps -> NoDup (items p) /\ items p ⊆ (key <$> xs)) ->
  zsum (fun x => zsum w (filter (fun p => key x ∈ items p) ps)) (filter (fun x => sel (key x)) xs)
  = zsum (fun p => w p * Z.of_nat (length (filter sel (items p))))%Z ps.
Proof.
  intros Hx Hp. rewrite zsum_filter.
  transitivity (zsum (fun x => zsum (fun p => if decide (sel (key x) /\ key x ∈ items p) then w p else 0%Z) ps) xs).
  { apply zsum_ext. intros x _. rewrite zsum_filter. destruct (decide (sel (key x))) as [Hs|Hs].
    - apply zsum_ext. intros p _. destruct (decide (key x ∈ items p)).
      + by rewrite decide_True.
      + by rewrite decide_False by tauto.
    - induction ps as [|p l IH]; [done|]. rewrite zsum_cons, <- IH by (intros; apply Hp; by right).
      by rewrite decide_False by tauto. }
  rewrite zsum_swap. apply zsum_ext. intros p Hin. destruct (Hp p Hin) as [Hn Hsub].
  transitivity (w p * zsum (fun x => if decide (sel (key x) /\ key x ∈ items p) then 1 else 0)%Z xs)%Z.
  { rewrite <- zsum_scale. apply zsum_ext. intros x _. destruct (decide _); lia. }
  f_equal. rewrite (zsum_length (fun x => sel (key x) /\ key x ∈ items p)). f_equal.
  rewrite <- (length_fmap key). apply Permutation_length, NoDup_Permutation.
  - by apply NoDup_fmap_filter.
  - by apply NoDup_filter.
  - intros y. rewrite list_elem_of_fmap, list_elem_of_filter. split.
    + intros (x & -> & [[Hs Hi] _]%list_elem_of_filter). done.
    + intros [Hs Hi]. pose proof (Hsub y Hi) as (x & -> & Hxs)%list_elem_of_fmap. exists x. split; [done|].
      by apply list_elem_of_filter.
Qed.

(** ** What is accumulated along paths *)

Section Along.
Context {P X K V : Type} `{EqDecision K} (items : P -> list X) (key : X -> K).
Context (update : P * X -> option V -> V) (result : P * X -> list (P * X) -> V).
Context (Hfirst : forall e, update e None = result e [e]).
Context (Hnext : forall e0 es e, update e (Some (result e0 es)) = result e0 (es ++ [e])).

Definition events (ps : list P) : list (P * X) := mjoin ((fun p => (p,.) <$> items p) <$> ps).
Definition accumulated (ps : list P) : list (K * V) := build (fun e => key e.2) update [] (events ps).

Lemma own_events p k : NoDup (key <$> items p) ->
  fst <$> filter (fun e : P * X => key e.2 = k) ((p,.) <$> items p) = if decide (k ∈ key <$> items p) then [p] else [].
Proof.
  induction (items p) as [|x l IH]; intros Hn.
  - by rewrite decide_False by apply not_elem_of_nil.
  - rewrite !fmap_cons in *. apply NoDup_cons in Hn as [Hx Hn]. rewrite filter_cons. cbn [snd].
    destruct (decide (key x = k)) as [<-|Hne].
    + rewrite decide_True by left. rewrite fmap_cons, IH, decide_False by done. done.
    + rewrite IH by done. destruct (decide (k ∈ key <$> l)) as [Hin|Hout].
      * by rewrite decide_True by (by right).
      * rewrite decide_False; [done|]. intros [->|Hin]%elem_of_cons; done.
Qed.

Lemma events_paths ps k : (forall p, p ∈ ps -> NoDup (key <$> items p)) ->
  fst <$> filter (fun e : P * X => key e.2 = k) (events ps) = filter (fun p => k ∈ key <$> items p) ps.
Proof.
  induction ps as [|p ps IH]; intros H; [done|]. change (events (p :: ps)) with (((p,.) <$> items p) ++ events ps).
  rewrite filter_app, fmap_app, filter_cons, IH by (intros; apply H; by right).
  rewrite (own_events p k) by (apply H; left). by destruct (decide _).
Qed.

Lemma accumulated_keys ps : NoDup (accumulated ps).*1 /\
  forall k, k ∈ (accumulated ps).*1 <-> exists p x, p ∈ ps /\ x ∈ items p /\ k = key x.
Proof.
  destruct (build_keys (fun e : P * X => key e.2) update (events ps) [] (NoDup_nil_2)) as [H1 H2]. split; [done|].
  intros k. unfold accumulated. rewrite H2. split.
  - intros [?%not_elem_of_nil|([p x] & -> & He)%list_elem_of_fmap]; [done|].
    apply list_elem_of_join in He as (l & He & Hl). apply list_elem_of_fmap in Hl as (p' & -> & Hp).
    apply list_elem_of_fmap in He as (x' & [= <- <-] & Hx). by exists p, x.
  - intros (p & x & Hp & Hx & ->). right. apply (list_elem_of_fmap_2 (fun e : P * X => key e.2) _ (p, x)).
    apply list_elem_of_join. exists ((p,.) <$> items p). split; [by apply list_elem_of_fmap_2|].
    by apply (list_elem_of_fmap_2 (fun p => (p,.) <$> items p)).
Qed.

Lemma accumulated_value ps k v : (forall p, p ∈ ps -> NoDup (key <$> items p)) -> (k, v) ∈ accumulated ps ->
  exists e0 es, v = result e0 (e0 :: es) /\ e0.1 ∈ ps /\ e0.2 ∈ items e0.1 /\ key e0.2 = k /\
    fst <$> (e0 :: es) = filter (fun p => k ∈ key <$> items p) ps.
Proof.
  intros Hn Hv. apply map_get_elem in Hv; [|apply accumulated_keys]. unfold accumulated in Hv. rewrite build_get in Hv.
  cbn [map_get] in Hv. rewrite (fold_found (fun e : P * X => key e.2 = k) update result Hfirst Hnext) in Hv.
  pose proof (events_paths ps k Hn) as E.
  destruct (filter (fun e : P * X => key e.2 = k) (events ps)) as [|e0 es] eqn:Ef; [done|]. injection Hv as <-.
  exists e0, es. split; [done|].
  assert (e0 ∈ filter (fun e : P * X => key e.2 = k) (events ps)) as [Hk He]%list_elem_of_filter by (rewrite Ef; left).
  apply list_elem_of_join in He as (l & He & Hl). apply list_elem_of_fmap in Hl as (p & -> & Hp).
  apply list_elem_of_fmap in He as (x & -> & Hx). done.
Qed.
End Along.

Section Graph.
Context (show : jsnum -> jsstr) (localeCompare : jsstr -> jsstr -> comparison) (dataSchemes : list (option nat * list jsstr)).
Context (tokenLabel : option (jsnum -> jsstr)) (otherNodeLabel : option (FlowNodeKind -> jsstr)).
Context (metric : FlowMetric) (colors : list (jsstr * jsstr)) (palette : list jsstr).

Local Notation add_path := (Flow.add_path dataSchemes metric colors palette).

(** ** Nodes and links of prepared paths *)

(** The colour a path is drawn in, and its key. *)
Definition path_color (p : PreparedFlowPath) : jsstr * jsstr :=
  match pp_path p with
  | [] => ([], [])
  | root :: _ => (default (colorAt dataSchemes 0 palette) (map_get (p_id root) colors), p_id root)
  end.

Definition links_of (p : PreparedFlowPath) : list (FlowPathNode * FlowPathNode) := path_links (pp_path p).
Definition link_key (l : FlowPathNode * FlowPathNode) : jsstr := pathLinkKey l.1 l.2.

(** The sum of a quantity over some paths. *)
Definition total_of {X} (f : FlowMetrics -> jsnum) (es : list (PreparedFlowPath * X)) : jsnum :=
  js_sum ((fun e => f (pp_metrics e.1)) <$> es).

Definition node_result (e0 : PreparedFlowPath * FlowPathNode) (es : list (PreparedFlowPath * FlowPathNode)) : DashboardFlowNode :=
  mkNode (p_id e0.2) (p_label e0.2) (p_kind e0.2) (total_of (fun m => metricValue m metric) es) (total_of m_requests es)
    (total_of m_quota es) (total_of m_tokens es) (path_color e0.1).1 (path_color e0.1).2 None None.

Definition link_result (e0 : PreparedFlowPath * (FlowPathNode * FlowPathNode))
    (es : list (PreparedFlowPath * (FlowPathNode * FlowPathNode))) : DashboardFlowLink :=
  let '(s, t) := e0.2 in let '(c, k) := path_color e0.1 in
  mkLink (p_id s) (p_id t) (total_of (fun m => metricValue m metric) es) (total_of m_requests es)
    (total_of m_quota es) (total_of m_tokens es) (p_label s) (p_label t) c c (num 1) c k (num 0) None None.

Definition node_update (e : PreparedFlowPath * FlowPathNode) (found : option DashboardFlowNode) : DashboardFlowNode :=
  let previous := default (node_result e []) found in
  mkNode (n_id previous) (n_label previous) (n_kind previous)
    (num_add (n_value previous) (metricValue (pp_metrics e.1) metric)) (num_add (n_requests previous) (m_requests (pp_metrics e.1)))
    (num_add (n_quota previous) (m_quota (pp_metrics e.1))) (num_add (n_tokens previous) (m_tokens (pp_metrics e.1)))
    (n_color previous) (n_colorKey previous) (n_highlighted previous) (n_dimmed previous).

Definition link_update (e : PreparedFlowPath * (FlowPathNode * FlowPathNode)) (found : option DashboardFlowLink) : DashboardFlowLink :=
  let previous := default (link_result e []) found in
  mkLink (k_source previous) (k_target previous)
    (num_add (k_value previous) (metricValue (pp_metrics e.1) metric)) (num_add (k_requests previous) (m_requests (pp_metrics e.1)))
    (num_add (k_quota previous) (m_quota (pp_metrics e.1))) (num_add (k_tokens previous) (m_tokens (pp_metrics e.1)))
    (k_sourceLabel previous) (k_targetLabel previous) (k_color previous) (k_linkColor previous) (k_linkAlpha previous)
    (k_hoverColor previous) (k_colorKey previous) (k_share previous) (k_highlighted previous) (k_dimmed previous).

Lemma total_snoc {X} f (es : list (PreparedFlowPath * X)) e : total_of f (es ++ [e]) = num_add (total_of f es) (f (pp_metrics e.1)).
Proof. unfold total_of. rewrite fmap_app. apply js_sum_snoc. Qed.

(** The maps of nodes and links are built from the nodes and links of the paths. *)
Lemma add_paths ps : forall maps,
  foldl add_path maps ps = (build (fun e => p_id e.2) node_update maps.1 (events pp_path ps),
                            build (fun e => link_key e.2) link_update maps.2 (events links_of ps)).
Proof.
  induction ps as [|p ps IH]; intros [nodes links]; [done|]. cbn [foldl]. rewrite IH.
  unfold events, links_of. cbn [fmap list_fmap mjoin list_join]. unfold build. rewrite !foldl_app.
  assert (Flow.add_path dataSchemes metric colors palette (nodes, links) p =
    (foldl (fun map e => upsert (p_id e.2) (node_update e) map) nodes ((p,.) <$> pp_path p),
     foldl (fun map e => upsert (link_key e.2) (link_update e) map) links ((p,.) <$> path_links (pp_path p)))) as ->; [|done].
  clear IH. unfold Flow.add_path. destruct (pp_path p) as [|root rest] eqn:E; [done|]. rewrite <- E. f_equal.
  - generalize (pp_path p) at 1 2. intros l. revert nodes. induction l as [|x l IHl]; intros nodes; [done|].
    cbn [foldl fmap list_fmap]. rewrite <- IHl. f_equal.
    unfold addNode, node_update, node_result, path_color. cbn [fst snd]. by rewrite E.
  - generalize (path_links (pp_path p)). intros l. revert links. induction l as [|[x y] l IHl]; intros links; [done|].
    cbn [foldl fmap list_fmap]. rewrite <- IHl. f_equal.
    unfold addLink, link_key, link_update, link_result, path_color. cbn [fst snd]. by rewrite E.
Qed.

Definition nodes_of (ps : list PreparedFlowPath) : list DashboardFlowNode := (accumulated pp_path p_id node_update ps).*2.
Definition links_in (ps : list PreparedFlowPath) : list DashboardFlowLink := (accumulated links_of link_key link_update ps).*2.

Lemma added_graph ps : let '(nodes, links) := foldl add_path ([], []) ps in (nodes.*2, links.*2) = (nodes_of ps, links_in ps).
Proof. by rewrite add_paths. Qed.

Lemma total_paths {X} f (es : list (PreparedFlowPath * X)) : total_of f es = js_sum ((fun p => f (pp_metrics p)) <$> es.*1).
Proof. unfold total_of. by rewrite <- list_fmap_compose. Qed.

(** A node: the paths it lies on and what it sums. *)
Definition node_sums (ps : list PreparedFlowPath) (n : DashboardFlowNode) : Prop :=
  let through := filter (fun p => n_id n ∈ p_id <$> pp_path p) ps in
  let sum f := js_sum ((fun p => f (pp_metrics p)) <$> through) in
  n_value n = sum (fun m => metricValue m metric) /\ n_requests n = sum m_requests /\ n_quota n = sum m_quota /\
  n_tokens n = sum m_tokens /\
  exists p x, p ∈ ps /\ x ∈ pp_path p /\ n_id n = p_id x /\ n_label n = p_label x /\ n_kind n = p_kind x.

Definition link_sums (ps : list PreparedFlowPath) (l : DashboardFlowLink) : Prop :=
  let through := filter (fun p => linkStableKey l ∈ link_key <$> links_of p) ps in
  let sum f := js_sum ((fun p => f (pp_metrics p)) <$> through) in
  k_value l = sum (fun m => metricValue m metric) /\ k_requests l = sum m_requests /\ k_quota l = sum m_quota /\
  k_tokens l = sum m_tokens /\
  exists p s t, p ∈ ps /\ (s, t) ∈ links_of p /\ k_source l = p_id s /\ k_target l = p_id t.

Lemma node_first e : node_update e None = node_result e [e].
Proof. reflexivity. Qed.
Lemma node_next e0 es e : node_update e (Some (node_result e0 es)) = node_result e0 (es ++ [e]).
Proof. unfold node_update, node_result. cbn [default]. by rewrite !total_snoc. Qed.
Lemma link_first e : link_update e None = link_result e [e].
Proof. destruct e as [p [s t]]. unfold link_update, link_result. cbn [default snd fst]. by destruct (path_color p). Qed.
Lemma link_next e0 es e : link_update e (Some (link_result e0 es)) = link_result e0 (es ++ [e]).
Proof. destruct e0 as [p [s t]]. unfold link_update, link_result. cbn [default snd fst]. destruct (path_color p). by rewrite !total_snoc. Qed.

Lemma nodes_spec ps : (forall p, p ∈ ps -> NoDup (p_id <$> pp_path p)) ->
  Forall (node_sums ps) (nodes_of ps) /\ n_id <$> nodes_of ps = (accumulated pp_path p_id node_update ps).*1.
Proof.
  intros Hn. assert (forall k n, (k, n) ∈ accumulated pp_path p_id node_update ps -> node_sums ps n /\ n_id n = k) as H.
  { intros k n (e0 & es & -> & Hp & Hx & Hk & E)%(accumulated_value _ _ _ _ node_first node_next); [|done].
    split; [|exact Hk]. unfold node_sums. cbn [node_result n_id n_value n_requests n_quota n_tokens n_label n_kind].
    rewrite Hk, <- E, !total_paths. split_and!; try done. exists e0.1, e0.2. done. }
  split.
  - apply Forall_forall. intros n ([k m] & -> & Hin)%list_elem_of_fmap. by eapply H.
  - unfold nodes_of. rewrite <- list_fmap_compose. apply list_fmap_ext. intros i [k n] Hin%list_elem_of_lookup_2. by eapply H.
Qed.

Lemma links_spec ps : (forall p, p ∈ ps -> NoDup (link_key <$> links_of p)) ->
  Forall (link_sums ps) (links_in ps) /\ linkStableKey <$> links_in ps = (accumulated links_of link_key link_update ps).*1.
Proof.
  intros Hn. assert (forall k l, (k, l) ∈ accumulated links_of link_key link_update ps -> link_sums ps l /\ linkStableKey l = k) as H.
  { intros k l ([p [s t]] & es & -> & Hp & Hx & Hk & E)%(accumulated_value _ _ _ _ link_first link_next); [|done].
    unfold link_result. cbn [fst snd] in *. destruct (path_color p) as [c ck].
    split; [|exact Hk]. unfold link_sums, linkStableKey.
    cbn [k_source k_target k_value k_requests k_quota k_tokens].
    change (p_id s ++ [0%N] ++ p_id t) with (link_key (s, t)). rewrite Hk. rewrite <- E, !total_paths. split_and!; try done.
    by exists p, s, t. }
  split.
  - apply Forall_forall. intros l ([k m] & -> & Hin)%list_elem_of_fmap. by eapply H.
  - unfold links_in. rewrite <- list_fmap_compose. apply list_fmap_ext. intros i [k l] Hin%list_elem_of_lookup_2. by eapply H.
Qed.
End Graph.

(** ** Paths *)

(** An identifier of a node of a kind, without a null character. *)
Definition of_kind (k : FlowNodeKind) (id : jsstr) : Prop := exists rest, id = kind_name k ++ 58%N :: rest /\ 0%N ∉ rest.

Definition path_ok (stages : list FlowNodeKind) (path : list FlowPathNode) : Prop :=
  p_kind <$> path = stages /\ Forall (fun x => of_kind (p_kind x) (p_id x)) path.

Lemma kind_name_plain k : (58%N ∉ kind_name k) /\ (0%N ∉ kind_name k).
Proof. destruct k; split; by_decision. Qed.
Lemma kind_name_inj k1 k2 : kind_name k1 = kind_name k2 -> k1 = k2.
Proof. destruct k1, k2; intros H; try reflexivity; vm_compute in H; discriminate H. Qed.

Lemma of_kind_inj k1 k2 id : of_kind k1 id -> of_kind k2 id -> k1 = k2.
Proof.
  intros (r1 & -> & _) (r2 & E & _). apply (f_equal (split 58%N)) in E.
  rewrite !split_cons in E by apply kind_name_plain. injection E as E _. by apply kind_name_inj.
Qed.

Lemma of_kind_plain k id : of_kind k id -> 0%N ∉ id.
Proof.
  intros (rest & -> & H). rewrite elem_of_app, elem_of_cons. intros [Hk|[?|?]]; [by apply (proj2 (kind_name_plain k))|done|done].
Qed.

Lemma kind_prefix k' id k : of_kind k' id -> starts_with (kind_name k ++ [58%N]) id = true <-> k' = k.
Proof.
  intros Ho. rewrite starts_with_spec. split.
  - intros [t Et]. eapply of_kind_inj; [exact Ho|]. exists t. rewrite Et, <- (assoc_L (++)).
    split; [done|]. intros H0. apply (of_kind_plain _ _ Ho). rewrite Et, elem_of_app. by right.
  - intros <-. destruct Ho as (rest & E & _). exists rest. by rewrite E, <- (assoc_L (++)).
Qed.

Lemma path_ids stages path : NoDup stages -> path_ok stages path -> NoDup (p_id <$> path).
Proof.
  intros Hs [<- Hf]. induction Hf as [|x l Hx Hl IH]; [constructor|]. rewrite !fmap_cons in *.
  apply NoDup_cons in Hs as [Hn Hs]. apply NoDup_cons. split; [|by apply IH].
  intros (y & E & Hy)%list_elem_of_fmap. apply Hn. rewrite Forall_forall in Hl. pose proof (Hl y Hy) as Ho. rewrite <- E in Ho.
  rewrite (of_kind_inj _ _ _ Hx Ho). by apply list_elem_of_fmap_2.
Qed.

(** The ends of the links of a path. *)
Definition link_ends (path : list FlowPathNode) : list (jsstr * jsstr) := (fun '(s, t) => (p_id s, p_id t)) <$> path_links path.

Lemma link_ends_cons x y l : link_ends (x :: y :: l) = (p_id x, p_id y) :: link_ends (y :: l).
Proof. done. Qed.

Lemma link_ends_ids x path : p_id <$> (x :: path) = p_id x :: (link_ends (x :: path)).*2.
Proof. revert x. induction path as [|y l IH]; intros x; [done|]. rewrite link_ends_cons, !fmap_cons. f_equal. apply (IH y). Qed.

Lemma link_ends_sources x path : exists y, y ∈ x :: path /\ last (x :: path) = Some y /\ p_id <$> (x :: path) = (link_ends (x :: path)).*1 ++ [p_id y].
Proof.
  revert x. induction path as [|y l IH]; intros x; [exists x; split; [left|done]|].
  destruct (IH y) as (z & Hz & Hl & E). exists z. split; [by right|]. split; [exact Hl|].
  rewrite link_ends_cons, !fmap_cons in *. cbn [fst]. by rewrite E.
Qed.

Lemma link_ends_path x y path : (x, y) ∈ path_links path -> x ∈ path /\ y ∈ path.
Proof.
  revert x y. induction path as [|a [|b l] IH]; intros x y; cbn [path_links]; try by intros ?%not_elem_of_nil.
  intros [[= -> ->]|H]%elem_of_cons; [split; [left|right; left]|]. apply IH in H as [??]. split; by right.
Qed.

(** On identifiers without null characters the key of a link determines its ends. *)
Lemma link_key_inj s1 t1 s2 t2 : 0%N ∉ s1 -> 0%N ∉ s2 -> s1 ++ [0%N] ++ t1 = s2 ++ [0%N] ++ t2 -> s1 = s2 /\ t1 = t2.
Proof.
  intros H1 H2 E. assert (s1 = s2) as ->; [|by apply app_inv_head, app_inv_head in E].
  cbn [app] in E. apply (f_equal (split 0%N)) in E. rewrite !split_cons in E by done. by injection E.
Qed.

Section Paths.
Context (stages : list FlowNodeKind) (Hst : NoDup stages).
Context (path : list FlowPathNode) (Hok : path_ok stages path).

Lemma ids_plain x : x ∈ path -> 0%N ∉ p_id x.
Proof using Hok. intros Hx. destruct Hok as [_ H]. rewrite Forall_forall in H. by eapply of_kind_plain, H. Qed.

Lemma ends_elem s t : 0%N ∉ s ->
  (s ++ [0%N] ++ t) ∈ (link_key <$> path_links path) <-> (s, t) ∈ link_ends path.
Proof using Hok.
  intros Hs. unfold link_ends. rewrite !list_elem_of_fmap. split.
  - intros ([x y] & E & Hin). exists (x, y). split; [|done]. destruct (link_ends_path _ _ _ Hin) as [Hx _].
    destruct (link_key_inj _ _ _ _ Hs (ids_plain x Hx) E) as [-> ->]. done.
  - intros ([x y] & [= -> ->] & Hin). by exists (x, y).
Qed.

Lemma ends_NoDup : NoDup (link_ends path).*1 /\ NoDup (link_ends path).*2 /\ NoDup (link_ends path) /\ NoDup (link_key <$> path_links path).
Proof using Hst Hok.
  pose proof (path_ids stages path Hst Hok) as Hn. assert (NoDup (link_ends path).*1 /\ NoDup (link_ends path).*2) as [H1 H2].
  { destruct path as [|x l]; [split; constructor|]. split.
    - destruct (link_ends_sources x l) as (y & _ & _ & E). rewrite E in Hn. by apply NoDup_app in Hn as [? _].
    - rewrite link_ends_ids in Hn. by apply NoDup_cons in Hn as [_ ?]. }
  assert (NoDup (link_ends path)) as H3 by by eapply NoDup_fmap_1.
  split_and!; try done. eapply (NoDup_fmap_1 (fun k => match split 0%N k with s :: t :: _ => (s, t) | _ => ([], []) end)).
  rewrite <- list_fmap_compose. assert ((fun l => match split 0%N (link_key l) with s :: t :: _ => (s, t) | _ => ([], []) end) <$> path_links path
    = link_ends path) as E; [|by setoid_rewrite E].
  apply list_fmap_ext. intros i [x y] [Hx Hy]%list_elem_of_lookup_2%link_ends_path. unfold link_key, pathLinkKey. cbn [fst snd app].
  rewrite split_cons, split_single by by apply ids_plain. done.
Qed.
End Paths.

(** ** Prepared paths *)

Definition plain_text (t : option jsstr) : Prop := 0%N ∉ default [] t.
(** A row whose names have no null character. *)
Definition row_plain (row : FlowQuotaDataItem) : Prop :=
  plain_text (username row) /\ plain_text (node_name row) /\ plain_text (use_group row) /\ plain_text (token_name row) /\
  plain_text (channel_name row) /\ plain_text (model_name row).

Lemma text_or_plain t d : plain_text t -> 0%N ∉ d -> 0%N ∉ text_or t d.
Proof. intros Ht Hd. unfold text_or, str_or. by destruct (truthy _). Qed.

Section Prepared.
Context (show : jsnum -> jsstr) (tokenLabel : option (jsnum -> jsstr)) (otherNodeLabel : option (FlowNodeKind -> jsstr)).
Context (Hshow : forall n, 0%N ∉ show n).

Lemma builder_kind k row : p_kind (NODE_BUILDERS show tokenLabel k row) = k.
Proof. by destruct k. Qed.

Lemma builder_ok k row : row_plain row -> of_kind k (p_id (NODE_BUILDERS show tokenLabel k row)).
Proof using Hshow.
  intros (H1 & H2 & H3 & H4 & H5 & H6).
  assert ((0%N ∉ js "unknown") /\ (0%N ∉ js "default-node")) as [Hu Hd] by (split; by_decision).
  destruct k; cbn [NODE_BUILDERS userNode nodeNameNode tokenNode groupNode modelNode channelNode p_id]; try case_match;
    eexists; (split; [reflexivity|]); first [apply Hshow|by apply text_or_plain].
Qed.

Lemma other_ok k : of_kind k (OTHER_FLOW_NODE_IDS k).
Proof. exists (js "__other__"). split; [reflexivity|]. refine (bool_decide_unpack _ _). vm_compute. exact I. Qed.

Lemma flow_path_ok row stages : row_plain row -> path_ok stages (flowPathForStages show tokenLabel row stages).
Proof using Hshow.
  intros Hr. split.
  - unfold flowPathForStages. rewrite <- list_fmap_compose. rewrite <- (list_fmap_id stages) at 2. apply list_fmap_ext.
    intros i k _. apply builder_kind.
  - apply Forall_fmap, Forall_forall. intros k _. cbn. rewrite builder_kind. by apply builder_ok.
Qed.

Lemma limited_ok stages path sets mode path' : path_ok stages path ->
  applyTopNodeLimit otherNodeLabel path sets mode = Some path' -> path_ok stages path'.
Proof.
  intros [Hk Hf] E. unfold applyTopNodeLimit in E. destruct sets as [sets|]; [|by injection E as <-].
  destruct (negb _); [by injection E as <-|]. destruct mode; [|done]. injection E as <-. split.
  - rewrite <- Hk, <- list_fmap_compose. apply list_fmap_ext. intros i x _. cbn. by destruct (isTopFlowNode x sets).
  - apply Forall_fmap. eapply Forall_impl; [exact Hf|]. intros x Hx. cbn. destruct (isTopFlowNode x sets); [done|apply other_ok].
Qed.

Lemma prepared_ok rows stages sets mode p : Forall row_plain rows ->
  p ∈ prepare show tokenLabel otherNodeLabel rows stages sets mode -> path_ok stages (pp_path p).
Proof using Hshow.
  intros Hr (row & Hin & E)%list_elem_of_omap. destruct (applyTopNodeLimit _ _ _ _) as [path|] eqn:Ep; [|done].
  injection E as <-. eapply limited_ok; [|exact Ep]. apply flow_path_ok. rewrite Forall_forall in Hr. by apply Hr.
Qed.

Lemma stages_ok role visible : NoDup (resolveVisibleStages role visible) /\ MIN_FLOW_STAGES <= length (resolveVisibleStages role visible).
Proof.
  assert (NoDup (ROLE_FLOW_STAGES role) /\ MIN_FLOW_STAGES <= length (ROLE_FLOW_STAGES role)) as [H1 H2].
  { destruct role; (split; [by_decision|cbn; unfold MIN_FLOW_STAGES; lia]). }
  unfold resolveVisibleStages, getFlowStages. destruct visible as [visible|]; [|done].
  destruct (Nat.leb_spec MIN_FLOW_STAGES (length (filter (fun stage => stage ∈ visible) (ROLE_FLOW_STAGES role)))); [|done].
  split; [by apply NoDup_filter|done].
Qed.
End Prepared.

(** Sums over a rearranged list. *)
Lemma js_sum_perm zs l : l ≡ₚ num <$> zs -> Forall (fun z => 0 <= z)%Z zs -> (foldr Z.add 0 zs < 2 ^ 53)%Z -> js_sum l = num (foldr Z.add 0%Z zs).
Proof.
  intros Hp Hz Hs. apply Permutation_sym in Hp. destruct (Permutation_map_inv _ _ (Permutation_sym Hp)) as (zs' & -> & Hp').
  assert (foldr Z.add 0%Z zs = foldr Z.add 0%Z zs') as E by (clear -Hp'; induction Hp'; cbn; lia).
  rewrite E in *. apply js_sum_exact; [|done]. by rewrite <- Hp'.
Qed.

Lemma js_sum_rearranged {A} (f : A -> jsnum) (W : A -> Z) (sel : A -> Prop) `{!forall x, Decision (sel x)} (d : A -> A) (xs ys : list A) :
  ys ≡ₚ d <$> xs -> (forall x, f (d x) = f x) -> (forall x, sel (d x) <-> sel x) ->
  (forall x, x ∈ xs -> f x = num (W x) /\ (0 <= W x)%Z) -> (zsum W (filter sel xs) < 2 ^ 53)%Z ->
  js_sum (f <$> filter sel ys) = js_sum (f <$> filter sel xs).
Proof.
  intros Hp Hf Hsel Hw Hs.
  assert (foldr Z.add 0%Z (W <$> filter sel xs) = zsum W (filter sel xs)) as E.
  { generalize (filter sel xs). clear. induction l as [|x l IH]; [done|]. rewrite fmap_cons, zsum_cons, <- IH. done. }
  assert (f <$> filter sel xs = num <$> (W <$> filter sel xs)) as Ef.
  { rewrite <- list_fmap_compose. apply list_fmap_ext. intros i x [_ Hx]%list_elem_of_lookup_2%list_elem_of_filter. by apply Hw. }
  transitivity (num (zsum W (filter sel xs))).
  - rewrite <- E. apply js_sum_perm; [|apply Forall_fmap, Forall_forall; intros x [_ Hx]%list_elem_of_filter; by apply Hw|by rewrite E].
    rewrite Hp, filter_fmap, <- list_fmap_compose, <- Ef. apply reflexive_eq.
    rewrite (filter_same (fun x => sel (d x)) sel) by (intros; apply Hsel). apply list_fmap_ext. intros i x _. apply Hf.
  - symmetry. apply js_sum_whole; [|done]. intros x [_ Hx]%list_elem_of_filter. by apply Hw.
Qed.

Definition ends (l : DashboardFlowLink) : jsstr * jsstr := (k_source l, k_target l).
(** What drawing does not change. *)
Definition node_core (n : DashboardFlowNode) := (n_id n, n_kind n, n_value n, (n_requests n, n_quota n, n_tokens n)).
Definition link_core (l : DashboardFlowLink) := (ends l, k_value l, (k_requests l, k_quota l, k_tokens l)).

(** ** Conservation *)

Section Conserve.
Context (dataSchemes : list (option nat * list jsstr)) (metric : FlowMetric) (colors : list (jsstr * jsstr)) (palette : list jsstr).
Context (stages : list FlowNodeKind) (Hst : NoDup stages) (ps : list PreparedFlowPath).
Context (Hps : forall p, p ∈ ps -> path_ok stages (pp_path p)).
(** The values of the paths are whole numbers [w]. *)
Context (w : PreparedFlowPath -> Z) (Hw : forall p, p ∈ ps -> metricValue (pp_metrics p) metric = num (w p) /\ (0 <= w p)%Z).
Context (Hsum : (zsum w ps < 2 ^ 53)%Z).

Local Notation nodes := (nodes_of dataSchemes metric colors palette ps).
Local Notation links := (links_in dataSchemes metric colors palette ps).

Lemma part_le (P : PreparedFlowPath -> Prop) `{!forall p, Decision (P p)} : (zsum w (filter P ps) <= zsum w ps)%Z.
Proof using Hw.
  rewrite zsum_filter. clear -Hw. induction ps as [|p l IH]; [done|]. rewrite !zsum_cons.
  destruct (Hw p ltac:(left)) as [_ Hp]. pose proof (IH ltac:(intros; apply Hw; by right)). destruct (decide (P p)); lia.
Qed.

Lemma part_sum (P : PreparedFlowPath -> Prop) `{!forall p, Decision (P p)} :
  js_sum ((fun p => metricValue (pp_metrics p) metric) <$> filter P ps) = num (zsum w (filter P ps)) /\ (0 <= zsum w (filter P ps))%Z.
Proof using Hw Hsum.
  split; [|apply zsum_nonneg; intros p [_ Hp]%list_elem_of_filter; by apply Hw].
  apply js_sum_whole; [intros p [_ Hp]%list_elem_of_filter; by apply Hw|]. pose proof (part_le P). lia.
Qed.

Lemma paths_NoDup : (forall p, p ∈ ps -> NoDup (p_id <$> pp_path p)) /\ (forall p, p ∈ ps -> NoDup (link_key <$> links_of p)).
Proof using Hst Hps. split; intros p Hp; [eapply path_ids|eapply ends_NoDup]; eauto. Qed.

Definition node_weight (n : DashboardFlowNode) : Z := zsum w (filter (fun p => n_id n ∈ p_id <$> pp_path p) ps).
Definition link_weight (l : DashboardFlowLink) : Z := zsum w (filter (fun p => ends l ∈ link_ends (pp_path p)) ps).

Lemma node_values n : n ∈ nodes -> n_value n = num (node_weight n) /\ (0 <= node_weight n)%Z.
Proof using Hst Hps Hw Hsum.
  intros Hn. destruct (nodes_spec dataSchemes metric colors palette ps (proj1 paths_NoDup)) as [H _].
  rewrite Forall_forall in H. destruct (H n Hn) as [-> _]. apply part_sum.
Qed.

Lemma link_source_plain l : l ∈ links -> 0%N ∉ k_source l.
Proof using Hst Hps.
  intros Hl. destruct (links_spec dataSchemes metric colors palette ps (proj2 paths_NoDup)) as [H _].
  rewrite Forall_forall in H. destruct (H l Hl) as (_ & _ & _ & _ & p & s & t & Hp & Hin & -> & _).
  apply link_ends_path in Hin as [Hs _]. eapply ids_plain; eauto.
Qed.

Lemma link_values l : l ∈ links -> k_value l = num (link_weight l) /\ (0 <= link_weight l)%Z.
Proof using Hst Hps Hw Hsum.
  intros Hl. destruct (links_spec dataSchemes metric colors palette ps (proj2 paths_NoDup)) as [H _].
  rewrite Forall_forall in H. destruct (H l Hl) as [-> _]. unfold link_weight.
  assert (filter (fun p => linkStableKey l ∈ link_key <$> links_of p) ps = filter (fun p => ends l ∈ link_ends (pp_path p)) ps) as ->; [|apply part_sum].
  apply filter_same. intros p Hp. eapply ends_elem; [by apply Hps|by apply link_source_plain].
Qed.

Lemma nodes_keys : NoDup (n_id <$> nodes) /\ forall id, id ∈ n_id <$> nodes <-> exists p x, p ∈ ps /\ x ∈ pp_path p /\ id = p_id x.
Proof using Hst Hps.
  destruct (nodes_spec dataSchemes metric colors palette ps (proj1 paths_NoDup)) as [_ E]. rewrite E. apply accumulated_keys.
Qed.

Lemma links_keys : NoDup (ends <$> links) /\ forall e, e ∈ ends <$> links <-> exists p, p ∈ ps /\ e ∈ link_ends (pp_path p).
Proof using Hst Hps.
  destruct (links_spec dataSchemes metric colors palette ps (proj2 paths_NoDup)) as [Hl E].
  destruct (accumulated_keys links_of link_key (link_update dataSchemes metric colors palette) ps) as [N M]. rewrite <- E in N, M. split.
  - eapply (NoDup_fmap_1 (fun e => e.1 ++ [0%N] ++ e.2)). rewrite <- list_fmap_compose. exact N.
  - intros [s t]. rewrite list_elem_of_fmap. split.
    + intros (l & [= -> ->] & Hin). rewrite Forall_forall in Hl. destruct (Hl l Hin) as (_&_&_&_&p & x & y & Hp & Hxy & -> & ->).
      exists p. split; [done|]. apply (list_elem_of_fmap_2 (fun '(s, t) => (p_id s, p_id t)) _ (x, y)), Hxy.
    + intros (p & Hp & Hin). pose proof Hin as ([x y] & [= -> ->] & Hxy)%list_elem_of_fmap.
      destruct (link_ends_path _ _ _ Hxy) as [Hx _].
      assert (link_key (x, y) ∈ linkStableKey <$> links) as (l & El & Hl')%list_elem_of_fmap by (apply M; exists p, (x, y); done).
      exists l. split; [|done]. destruct (link_key_inj _ _ _ _ (ids_plain stages _ (Hps p Hp) x Hx) (link_source_plain l Hl') El) as [E1 E2].
      unfold ends. f_equal; [exact E1|exact E2].
Qed.

Lemma count_one {A} `{EqDecision A} {B} (f : B -> A) (l : list B) a : NoDup (f <$> l) ->
  length (filter (fun x => f x = a) l) = if decide (a ∈ f <$> l) then 1 else 0.
Proof.
  induction l as [|x l IH]; intros Hn; [by rewrite decide_False by apply not_elem_of_nil|].
  rewrite !fmap_cons in *. apply NoDup_cons in Hn as [Hx Hn]. rewrite filter_cons. destruct (decide (f x = a)) as [<-|Hne].
  - cbn [length]. rewrite IH, decide_False by done. rewrite decide_True by left. done.
  - rewrite IH by done. destruct (decide (a ∈ f <$> l)) as [Hin|Hout].
    + by rewrite decide_True by (by right).
    + rewrite decide_False; [done|]. intros [->|Hin]%elem_of_cons; done.
Qed.

Lemma weigh (P : PreparedFlowPath -> Prop) `{!forall p, Decision (P p)} (c : PreparedFlowPath -> nat) :
  (forall p, p ∈ ps -> c p = if decide (P p) then 1 else 0) ->
  zsum (fun p => w p * Z.of_nat (c p))%Z ps = zsum w (filter P ps).
Proof. intros Hc. rewrite zsum_filter. apply zsum_ext. intros p Hp. rewrite Hc by done. destruct (decide (P p)); lia. Qed.

(** The links at one end of which is a node. *)
Lemma link_parts (side : jsstr * jsstr -> jsstr) id : (forall p, p ∈ ps -> NoDup (side <$> link_ends (pp_path p))) ->
  zsum link_weight (filter (fun l => side (ends l) = id) links) = zsum w (filter (fun p => id ∈ side <$> link_ends (pp_path p)) ps).
Proof using Hst Hps.
  intros Hside. etrans; [refine (double_count ends (fun p => link_ends (pp_path p)) links ps (fun e => side e = id) w _ _)|].
  - apply links_keys.
  - intros p Hp. split; [by apply (ends_NoDup stages Hst _ (Hps p Hp))|]. intros e He. apply links_keys. by exists p.
  - apply weigh. intros p Hp. by apply (count_one side), Hside.
Qed.

Lemma part_lt (P : PreparedFlowPath -> Prop) `{!forall p, Decision (P p)} : (zsum w (filter P ps) < 2 ^ 53)%Z.
Proof using Hw Hsum. pose proof (part_le P). lia. Qed.

Lemma flow_at (side : jsstr * jsstr -> jsstr) id : (forall p, p ∈ ps -> NoDup (side <$> link_ends (pp_path p))) ->
  js_sum (k_value <$> filter (fun l => side (ends l) = id) links) = num (zsum w (filter (fun p => id ∈ side <$> link_ends (pp_path p)) ps)).
Proof using Hst Hps Hw Hsum.
  intros Hside. rewrite <- link_parts by done. apply js_sum_whole; [|rewrite link_parts by done; apply part_lt].
  intros l [_ Hl]%list_elem_of_filter. by apply link_values.
Qed.

Lemma flow_in id : js_sum (k_value <$> filter (fun l => k_target l = id) links) =
  num (zsum w (filter (fun p => id ∈ (link_ends (pp_path p)).*2) ps)).
Proof using Hst Hps Hw Hsum. apply (flow_at snd). intros p Hp. by apply (ends_NoDup stages Hst _ (Hps p Hp)). Qed.
Lemma flow_out id : js_sum (k_value <$> filter (fun l => k_source l = id) links) =
  num (zsum w (filter (fun p => id ∈ (link_ends (pp_path p)).*1) ps)).
Proof using Hst Hps Hw Hsum. apply (flow_at fst). intros p Hp. by apply (ends_NoDup stages Hst _ (Hps p Hp)). Qed.

Lemma node_kind n : n ∈ nodes -> n_kind n ∈ stages /\ of_kind (n_kind n) (n_id n).
Proof using Hst Hps.
  intros Hn. destruct (nodes_spec dataSchemes metric colors palette ps (proj1 paths_NoDup)) as [H _].
  rewrite Forall_forall in H. destruct (H n Hn) as (_ & _ & _ & _ & p & x & Hp & Hx & -> & _ & ->).
  destruct (Hps p Hp) as [<- Hf]. rewrite Forall_forall in Hf. split; [by apply list_elem_of_fmap_2|by apply Hf].
Qed.

(** Every node but those of the first stage is reached by as much as it holds, and every node
    but those of the last stage passes as much on. *)
Lemma node_conserved n : n ∈ nodes ->
  (head stages <> Some (n_kind n) -> js_sum (k_value <$> filter (fun l => k_target l = n_id n) links) = n_value n) /\
  (last stages <> Some (n_kind n) -> js_sum (k_value <$> filter (fun l => k_source l = n_id n) links) = n_value n).
Proof using Hst Hps Hw Hsum.
  intros Hn. destruct (node_values n Hn) as [-> _]. destruct (node_kind n Hn) as [_ Hk]. unfold node_weight.
  split; intros Hne; [rewrite flow_in|rewrite flow_out]; do 2 f_equal; apply filter_same; intros p Hp;
    destruct (Hps p Hp) as [Es Hf]; rewrite Forall_forall in Hf; destruct (pp_path p) as [|x l] eqn:Ep;
    try (split; intros H; by apply not_elem_of_nil in H).
  - rewrite link_ends_ids. rewrite elem_of_cons. split; [by right|]. intros [E|?]; [|done]. exfalso. apply Hne. rewrite <- Es.
    cbn. f_equal. symmetry. eapply of_kind_inj; [exact Hk|]. rewrite E. apply Hf. left.
  - destruct (link_ends_sources x l) as (y & Hy & Hlast & E). rewrite E, elem_of_app, list_elem_of_singleton. split; [by left|].
    intros [?|Ei]; [done|]. exfalso. apply Hne. rewrite <- Es, fmap_last, Hlast. cbn. f_equal. symmetry.
    eapply of_kind_inj; [exact Hk|]. rewrite Ei. by apply Hf.
Qed.

(** The nodes of a stage hold all that flows. *)
Lemma stage_weight k : k ∈ stages -> zsum node_weight (filter (fun n => n_kind n = k) nodes) = zsum w ps.
Proof using Hst Hps.
  intros Hk. transitivity (zsum node_weight (filter (fun n => starts_with (kind_name k ++ [58%N]) (n_id n) = true) nodes)).
  - f_equal. apply filter_same. intros n Hn. by rewrite (kind_prefix _ _ k) by apply (node_kind n Hn).
  - etrans; [refine (double_count n_id (fun p => p_id <$> pp_path p) nodes ps (fun id => starts_with (kind_name k ++ [58%N]) id = true) w _ _)|].
    + apply nodes_keys.
    + intros p Hp. split; [by eapply path_ids; [|apply Hps]|]. intros id (x & -> & Hx)%list_elem_of_fmap. apply nodes_keys. by exists p, x.
    + transitivity (zsum w (filter (fun _ => True) ps)); [|rewrite zsum_filter; apply zsum_ext; intros; by rewrite decide_True].
      apply weigh. intros p Hp. rewrite decide_True by done. destruct (Hps p Hp) as [Es Hf]. rewrite Forall_forall in Hf.
      rewrite filter_fmap, length_fmap. transitivity (length (filter (fun x => p_kind x = k) (pp_path p))).
      * f_equal. apply filter_same. intros x Hx. apply kind_prefix. by apply Hf.
      * rewrite (count_one p_kind) by by rewrite Es. rewrite decide_True by by rewrite Es. done.
Qed.

Lemma stage_total k : k ∈ stages -> js_sum (n_value <$> filter (fun n => n_kind n = k) nodes) = num (zsum w ps).
Proof using Hst Hps Hw Hsum.
  intros Hk. rewrite <- (stage_weight k Hk). apply js_sum_whole; [|by rewrite stage_weight].
  intros n [_ Hn]%list_elem_of_filter. by apply node_values.
Qed.

(** The same of a graph that has the nodes and links in another order and with other looks. *)
Lemma conserved_drawn ns ls dn dl : ns ≡ₚ dn <$> nodes -> ls ≡ₚ dl <$> links ->
  (forall n, node_core (dn n) = node_core n) -> (forall l, link_core (dl l) = link_core l) ->
  Forall (fun n => n_kind n ∈ stages /\
    (head stages <> Some (n_kind n) -> js_sum (k_value <$> filter (fun l => k_target l = n_id n) ls) = n_value n) /\
    (last stages <> Some (n_kind n) -> js_sum (k_value <$> filter (fun l => k_source l = n_id n) ls) = n_value n)) ns /\
  forall k, k ∈ stages -> js_sum (n_value <$> filter (fun n => n_kind n = k) ns) = num (zsum w ps).
Proof using Hst Hps Hw Hsum.
  intros Hn Hl Cn Cl.
  assert (forall l, k_value (dl l) = k_value l /\ k_source (dl l) = k_source l /\ k_target (dl l) = k_target l) as Dl
    by (intros l; pose proof (Cl l) as E; unfold link_core, ends in E; by injection E).
  assert (forall n, n_value (dn n) = n_value n /\ n_id (dn n) = n_id n /\ n_kind (dn n) = n_kind n) as Dn
    by (intros n; pose proof (Cn n) as E; unfold node_core in E; by injection E).
  split.
  - rewrite Hn. apply Forall_fmap, Forall_forall. intros n Hin. cbn. destruct (Dn n) as (-> & -> & ->).
    split; [by apply node_kind|]. destruct (node_conserved n Hin) as [Hi Ho]. split; intros Hne.
    + rewrite <- (Hi Hne). eapply (js_sum_rearranged k_value link_weight _ dl); [done|apply Dl| |apply link_values|].
      * intros l. destruct (Dl l) as (_ & _ & ->). done.
      * rewrite (link_parts snd) by (intros p Hp; by apply (ends_NoDup stages Hst _ (Hps p Hp))). apply part_lt.
    + rewrite <- (Ho Hne). eapply (js_sum_rearranged k_value link_weight _ dl); [done|apply Dl| |apply link_values|].
      * intros l. destruct (Dl l) as (_ & -> & _). done.
      * rewrite (link_parts fst) by (intros p Hp; by apply (ends_NoDup stages Hst _ (Hps p Hp))). apply part_lt.
  - intros k Hk. rewrite <- (stage_total k Hk). eapply (js_sum_rearranged n_value node_weight _ dn); [done|apply Dn| |apply node_values|].
    + intros n. destruct (Dn n) as (_ & _ & ->). done.
    + by rewrite stage_weight.
Qed.
End Conserve.

(** ** The drawn graph *)

Lemma sort_insert_perm {A} cmp (x : A) l : sort_insert cmp x l ≡ₚ x :: l.
Proof.
  induction l as [|y l IH]; [done|]. cbn [sort_insert]. destruct (cmp y x); [|..]; try done; rewrite IH; apply Permutation_swap.
Qed.

Lemma js_sort_perm {A} cmp (l : list A) : js_sort cmp l ≡ₚ l.
Proof.
  unfold js_sort. rewrite <- (app_nil_r l) at 2. generalize (@nil A). induction l as [|x l IH]; intros acc; [done|].
  cbn [foldl]. rewrite IH, sort_insert_perm. cbn [app]. by rewrite Permutation_middle.
Qed.

Section Drawn.
Context (show : jsnum -> jsstr) (localeCompare : jsstr -> jsstr -> comparison) (dataSchemes : list (option nat * list jsstr)).
Context (tokenLabel : option (jsnum -> jsstr)) (otherNodeLabel : option (FlowNodeKind -> jsstr)).
Context (rows : list FlowQuotaDataItem) (metric : FlowMetric) (role : FlowRole) (palette : list jsstr).
Context (visibleStages : option (list FlowNodeKind)) (options : FlowGraphOptions).

Definition stages_shown : list FlowNodeKind := resolveVisibleStages role visibleStages.
Definition top_sets : option (list (FlowNodeKind * list jsstr)) :=
  buildTopNodeSets show localeCompare tokenLabel rows metric stages_shown (normalizeTopNodeLimit (topNodeLimit options)).
Definition prepared : list PreparedFlowPath := prepare show tokenLabel otherNodeLabel rows stages_shown top_sets (overflowMode options).
Definition graph : DashboardFlowGraph :=
  buildFlowGraph show localeCompare dataSchemes tokenLabel otherNodeLabel rows metric role palette visibleStages options.
Definition root_colors : list (jsstr * jsstr) := stableColorMap dataSchemes (js_sort localeCompare (root_ids prepared)) palette.
Definition raw_nodes : list DashboardFlowNode := nodes_of dataSchemes metric root_colors palette prepared.
Definition raw_links : list DashboardFlowLink := links_in dataSchemes metric root_colors palette prepared.
Definition masked_graph : list DashboardFlowNode * list DashboardFlowLink :=
  if maskSensitive options then maskFlowGraphLabels (raw_nodes, raw_links) else (raw_nodes, raw_links).
Definition marks : option (list jsstr * list jsstr) :=
  buildFlowHighlightSets prepared (activeNode options) (activeLink options) stages_shown.

(** The nodes and links of the graph, before they are sorted and coloured. *)
Lemma graph_parts : exists last_links : list DashboardFlowLink -> DashboardFlowLink -> DashboardFlowLink,
  (forall ls l, link_core (last_links ls l) = link_core l /\ k_sourceLabel (last_links ls l) = k_sourceLabel l /\
     k_targetLabel (last_links ls l) = k_targetLabel l /\ k_highlighted (last_links ls l) = k_highlighted l /\
     k_dimmed (last_links ls l) = k_dimmed l) /\
  g_nodes graph ≡ₚ (applyFlowHighlights marks masked_graph).1 /\
  exists ls, g_links graph ≡ₚ last_links ls <$> (applyFlowHighlights marks masked_graph).2.
Proof.
  unfold graph, buildFlowGraph. fold stages_shown. fold top_sets. fold prepared. fold root_colors.
  pose proof (added_graph dataSchemes metric root_colors palette prepared) as E.
  destruct (foldl _ ([], []) prepared) as [nodes links]. rewrite E. fold raw_nodes raw_links. fold masked_graph. fold marks.
  set (h := applyFlowHighlights marks masked_graph). cbn [g_nodes g_links].
  set (total := js_sum _). set (share := fun l => with_share _ l). set (shared := share <$> js_sort (by_ends localeCompare) h.2).
  exists (fun ls l => display_colors localeCompare ls (share l)). split; [|split; [apply js_sort_perm|]].
  - intros ls l. unfold display_colors. by destruct (alphaColor _ _).
  - exists shared. unfold assignLinkDisplayColors. rewrite <- (js_sort_perm (by_ends localeCompare) h.2).
    unfold shared at 2. by rewrite <- list_fmap_compose.
Qed.

Lemma masked_parts : exists dn dl, masked_graph = (dn <$> raw_nodes, dl <$> raw_links) /\
  (forall n, node_core (dn n) = node_core n) /\ (forall l, link_core (dl l) = link_core l).
Proof.
  unfold masked_graph. destruct (maskSensitive options).
  - eexists _, _. split; [reflexivity|]. split; [|done]. intros n. cbn beta. by destruct (is_masked n).
  - exists id, id. by rewrite !list_fmap_id.
Qed.

Lemma drawn : exists dn dl, g_nodes graph ≡ₚ dn <$> raw_nodes /\ g_links graph ≡ₚ dl <$> raw_links /\
  (forall n, node_core (dn n) = node_core n) /\ (forall l, link_core (dl l) = link_core l).
Proof.
  destruct graph_parts as (last_links & H1 & Hn & ls & Hl). destruct masked_parts as (dn & dl & E & Hdn & Hdl).
  rewrite E in Hn, Hl. unfold applyFlowHighlights in Hn, Hl. destruct marks as [[ns ks]|]; cbn [fst snd] in Hn, Hl.
  - exists (highlight_node ns ∘ dn), (last_links ls ∘ highlight_link ks ∘ dl). rewrite !list_fmap_compose.
    split_and!; try done. intros l. cbn. destruct (H1 ls (highlight_link ks (dl l))) as [-> _]. apply Hdl.
  - exists dn, (last_links ls ∘ dl). rewrite list_fmap_compose. split_and!; try done.
    intros l. cbn. destruct (H1 ls (dl l)) as [-> _]. apply Hdl.
Qed.
End Drawn.


(** ** Theorems *)

(** The integer a whole number is. *)
Definition as_int (n : jsnum) : Z := match n with SpecFloat.S754_finite false m e => fst (int_part m e) | _ => 0%Z end.
Definition whole (n : jsnum) : Prop := n = num (as_int n).

Lemma as_int_nonneg n : (0 <= as_int n)%Z.
Proof.
  destruct n as [| | |[] m e]; try done. cbn [as_int]. unfold int_part. destruct (Z.leb_spec 0 e); cbn [fst].
  - apply Z.mul_nonneg_nonneg; [lia|]. apply Z.pow_nonneg. lia.
  - apply Z.div_pos; [lia|]. apply Z.pow_pos_nonneg; lia.
Qed.

(** The value of a row, and the sum of the values of some rows. *)
Definition row_value (metric : FlowMetric) (row : FlowQuotaDataItem) : jsnum := metricValue (rowMetrics row) metric.
Definition rows_total (metric : FlowMetric) (rows : list FlowQuotaDataItem) : Z := zsum (fun row => as_int (row_value metric row)) rows.
Definition path_value (metric : FlowMetric) (p : PreparedFlowPath) : Z := as_int (metricValue (pp_metrics p) metric).

Lemma summary_total metric rows : metricValue (buildSummary rows) metric = js_sum (row_value metric <$> rows).
Proof.
  unfold buildSummary, js_sum, row_value.
  assert (forall s, metricValue (foldl (fun summary row => let metrics := rowMetrics row in
      mkMetrics (num_add (m_quota summary) (m_quota metrics)) (num_add (m_tokens summary) (m_tokens metrics))
        (num_add (m_requests summary) (m_requests metrics))) s rows) metric
    = foldl num_add (metricValue s metric) ((fun row => metricValue (rowMetrics row) metric) <$> rows)) as H.
  { induction rows as [|row rows IH]; intros s; [done|]. cbn [foldl]. rewrite IH, fmap_cons. cbn [foldl]. by destruct metric. }
  rewrite H. by destruct metric.
Qed.

Section Limits.
Context (show : jsnum -> jsstr) (localeCompare : jsstr -> jsstr -> comparison) (dataSchemes : list (option nat * list jsstr)).
Context (tokenLabel : option (jsnum -> jsstr)) (otherNodeLabel : option (FlowNodeKind -> jsstr)).

(** The rows that are drawn: hiding leaves out a row with a node beyond the limit. *)
Definition row_drawn (stages : list FlowNodeKind) (sets : option (list (FlowNodeKind * list jsstr))) (mode : FlowOverflowMode)
    (row : FlowQuotaDataItem) : bool :=
  match sets, mode with
  | Some sets, hide => forallb (fun node => isTopFlowNode node sets) (flowPathForStages show tokenLabel row stages)
  | _, _ => true
  end.

Lemma row_drawn_path stages sets mode row :
  is_Some (applyTopNodeLimit otherNodeLabel (flowPathForStages show tokenLabel row stages) sets mode)
  <-> row_drawn stages sets mode row = true.
Proof.
  unfold applyTopNodeLimit, row_drawn. destruct sets as [sets|]; [|by split; eauto].
  assert (E : forall l, existsb (fun node => negb (isTopFlowNode node sets)) l = negb (forallb (fun node => isTopFlowNode node sets) l)).
  { induction l as [|x l IH]; [done|]. cbn [existsb forallb]. rewrite IH. by destruct (isTopFlowNode x sets). }
  rewrite E, negb_involutive. destruct (forallb _ _), mode; split; eauto; intros [? ?] || intros ?; done.
Qed.

Lemma prepared_total metric rows stages sets mode :
  zsum (path_value metric) (prepare show tokenLabel otherNodeLabel rows stages sets mode)
  = rows_total metric (filter (fun row => row_drawn stages sets mode row = true) rows).
Proof.
  unfold rows_total, prepare. induction rows as [|row rows IH]; [done|]. cbn [omap list_omap]. rewrite filter_cons.
  pose proof (row_drawn_path stages sets mode row) as Hd.
  destruct (applyTopNodeLimit _ _ _ _) as [path|] eqn:E; cbn [fmap option_fmap option_map].
  - rewrite decide_True by (apply Hd; eauto). by rewrite !zsum_cons, IH.
  - rewrite decide_False by (by intros [? ?]%Hd). exact IH.
Qed.

Lemma filter_rows_total metric (P : FlowQuotaDataItem -> Prop) `{!forall row, Decision (P row)} rows :
  (rows_total metric (filter P rows) <= rows_total metric rows)%Z.
Proof.
  unfold rows_total. induction rows as [|row rows IH]; [done|]. rewrite filter_cons, zsum_cons.
  pose proof (as_int_nonneg (row_value metric row)) as H0. case_decide; rewrite ?zsum_cons; lia.
Qed.

Lemma prepared_whole metric rows stages sets mode p : Forall (fun row => whole (row_value metric row)) rows ->
  p ∈ prepare show tokenLabel otherNodeLabel rows stages sets mode ->
  metricValue (pp_metrics p) metric = num (path_value metric p) /\ (0 <= path_value metric p)%Z.
Proof.
  intros Hr (row & Hin & E)%list_elem_of_omap. destruct (applyTopNodeLimit _ _ _ _) as [path|]; [|done]. injection E as <-.
  rewrite Forall_forall in Hr. split; [exact (Hr row Hin)|apply as_int_nonneg].
Qed.

(** C5: the chart conserves what flows.  For rows whose names have no null character and whose
    values of the chosen metric are whole numbers with a sum below 2^53: every node is of a
    visible stage, the links into a node that is not of the first stage sum to its value, the
    links out of a node that is not of the last stage sum to its value, and the nodes of each
    stage sum to the values of the rows that are drawn.  These are all the rows, so that each
    stage sums to the total of the summary, when there is no limit on nodes or what is beyond it
    is aggregated; when it is hidden they are the rows that pass through top nodes only. *)
Theorem flow_conserved rows metric role palette visible options :
  (forall n, 0%N ∉ show n) -> Forall row_plain rows -> Forall (fun row => whole (row_value metric row)) rows ->
  (rows_total metric rows < 2 ^ 53)%Z ->
  let g := buildFlowGraph show localeCompare dataSchemes tokenLabel otherNodeLabel rows metric role palette visible options in
  let stages := resolveVisibleStages role visible in
  let sets := buildTopNodeSets show localeCompare tokenLabel rows metric stages (normalizeTopNodeLimit (topNodeLimit options)) in
  Forall (fun n => n_kind n ∈ stages /\
    (head stages <> Some (n_kind n) -> js_sum (k_value <$> filter (fun l => k_target l = n_id n) (g_links g)) = n_value n) /\
    (last stages <> Some (n_kind n) -> js_sum (k_value <$> filter (fun l => k_source l = n_id n) (g_links g)) = n_value n)) (g_nodes g) /\
  forall k, k ∈ stages ->
    js_sum (n_value <$> filter (fun n => n_kind n = k) (g_nodes g))
    = js_sum (row_value metric <$> filter (fun row => row_drawn stages sets (overflowMode options) row = true) rows) /\
    (overflowMode options = aggregate \/ topNodeLimit options = None ->
     js_sum (n_value <$> filter (fun n => n_kind n = k) (g_nodes g)) = metricValue (buildSummary rows) metric).
Proof.
  intros Hshow Hplain Hwhole Htotal g stages sets.
  destruct (drawn show localeCompare dataSchemes tokenLabel otherNodeLabel rows metric role palette visible options)
    as (dn & dl & Hn & Hl & Cn & Cl).
  pose proof (prepared_total metric rows stages sets (overflowMode options)) as Heq.
  set (drawn_rows := filter _ rows) in *.
  assert (Hle : (rows_total metric drawn_rows <= rows_total metric rows)%Z) by apply filter_rows_total.
  edestruct (conserved_drawn dataSchemes metric) with (w := path_value metric) (5 := Hn) (6 := Hl) as [H1 H2]; [..|split; [exact H1|]].
  - apply (stages_ok role visible).
  - intros p Hp. by eapply prepared_ok.
  - intros p Hp. by eapply prepared_whole.
  - eapply Z.le_lt_trans; [|exact Htotal]. etrans; [|exact Hle]. apply Z.eq_le_incl. exact Heq.
  - exact Cn.
  - exact Cl.
  - intros k Hk. assert (Hd : js_sum (n_value <$> filter (fun n => n_kind n = k) (g_nodes g)) = js_sum (row_value metric <$> drawn_rows)).
    { etrans; [exact (H2 k Hk)|]. etrans; [apply f_equal, Heq|]. symmetry.
      apply js_sum_whole; [|exact (Z.le_lt_trans _ _ _ Hle Htotal)].
      intros row [_ Hin]%list_elem_of_filter. rewrite Forall_forall in Hwhole. split; [by apply Hwhole|apply as_int_nonneg]. }
    split; [exact Hd|]. intros Hmode. rewrite Hd, summary_total. do 2 f_equal. apply filter_all.
    apply Forall_forall. intros row _. unfold sets, row_drawn, buildTopNodeSets, normalizeTopNodeLimit.
    destruct Hmode as [-> | ->]; [by case_match|done].
Qed.

Lemma limited_nodes path sets mode path' x : applyTopNodeLimit otherNodeLabel path (Some sets) mode = Some path' -> x ∈ path' ->
  isTopFlowNode x sets = true \/ (mode = aggregate /\ p_id x = OTHER_FLOW_NODE_IDS (p_kind x)).
Proof.
  unfold applyTopNodeLimit. destruct (existsb _ path) eqn:Eo; cbn [negb].
  - destruct mode; [|done]. intros [= <-] (y & -> & Hy)%list_elem_of_fmap. destruct (isTopFlowNode y sets) eqn:E; [by left|by right].
  - intros [= <-] Hx. left. destruct (isTopFlowNode x sets) eqn:E; [done|]. exfalso.
    assert (existsb (fun node => negb (isTopFlowNode node sets)) path = true) as Ht; [|congruence].
    apply existsb_exists. exists x. split; [by apply list_elem_of_In|by rewrite E].
Qed.

Lemma totals_keys metric rows stages : (stage_totals show tokenLabel rows metric stages).*1 = stages.
Proof.
  unfold stage_totals.
  assert (forall k f totals, (@update_existing FlowNodeKind (list (jsstr * FlowNodeRank)) _ k f totals).*1 = totals.*1) as Hu.
  { intros k f totals. unfold update_existing. rewrite <- list_fmap_compose. apply list_fmap_ext.
    intros i [a b] _. cbn. by destruct (decide (a = k)). }
  assert (forall totals, (foldl (fun totals row => foldl (fun totals node => update_existing (p_kind node)
      (rank_node (metricValue (rowMetrics row) metric) node) totals) totals (flowPathForStages show tokenLabel row stages)) totals rows).*1
    = totals.*1) as H.
  { induction rows as [|row rows IH]; intros totals; [done|]. cbn [foldl]. rewrite IH.
    generalize (flowPathForStages show tokenLabel row stages). intros path. revert totals.
    induction path as [|x l IHl]; intros totals; [done|]. cbn [foldl]. by rewrite IHl, Hu. }
  rewrite H, <- list_fmap_compose. apply list_fmap_id.
Qed.

Lemma map_get_fmap {K V W} `{EqDecision K} (f : K -> V -> W) k (m : list (K * V)) :
  map_get k ((fun '(k, v) => (k, f k v)) <$> m) = f k <$> map_get k m.
Proof. induction m as [|[a v] m IH]; [done|]. rewrite fmap_cons. cbn [map_get]. destruct (decide (a = k)) as [->|]; [done|exact IH]. Qed.

Lemma map_get_is_Some {K V} `{EqDecision K} k (m : list (K * V)) : k ∈ m.*1 -> is_Some (map_get k m).
Proof.
  induction m as [|[a v] m IH]; [by intros ?%not_elem_of_nil|]. rewrite fmap_cons, elem_of_cons. cbn [map_get fst].
  destruct (decide (a = k)); [by eexists|]. intros [->|?]; [done|by apply IH].
Qed.

Lemma top_set metric rows stages limit sets k : buildTopNodeSets show localeCompare tokenLabel rows metric stages (Some limit) = Some sets ->
  k ∈ stages -> exists top, map_get k sets = Some top /\ length top <= slice_end limit.
Proof.
  intros [= <-] Hk.
  pose proof (map_get_fmap (fun (_ : FlowNodeKind) totals =>
    (fun rank => p_id (r_node rank)) <$> take (slice_end limit) (js_sort (by_rank localeCompare) totals.*2)) k
    (stage_totals show tokenLabel rows metric stages)) as E.
  destruct (map_get_is_Some k (stage_totals show tokenLabel rows metric stages)) as [totals Ht]; [by rewrite totals_keys|].
  eexists. split; [etrans; [exact E|by rewrite Ht]|]. rewrite length_fmap, length_take. lia.
Qed.

(** A node of a limited chart is one of the largest of its stage, or the node of the others. *)
Lemma limited_node rows metric stages limit sets mode k p x :
  buildTopNodeSets show localeCompare tokenLabel rows metric stages (Some limit) = Some sets -> k ∈ stages ->
  p ∈ prepare show tokenLabel otherNodeLabel rows stages (Some sets) mode -> x ∈ pp_path p -> p_kind x = k ->
  exists top, map_get k sets = Some top /\ length top <= slice_end limit /\
    p_id x ∈ (top ++ match mode with aggregate => [OTHER_FLOW_NODE_IDS k] | hide => [] end).
Proof.
  intros Etop Hk Hp Hx <-. destruct (top_set _ _ _ _ _ (p_kind x) Etop Hk) as (top & Eget & Hlen).
  exists top. split_and!; try done. apply list_elem_of_omap in Hp as (row & _ & E).
  destruct (applyTopNodeLimit otherNodeLabel _ _ _) as [path|] eqn:Epath; [|done]. injection E as <-. cbn [pp_path] in Hx.
  rewrite elem_of_app. destruct (limited_nodes _ _ _ _ _ Epath Hx) as [Htop|[Hm Ho]].
  - left. unfold isTopFlowNode in Htop. rewrite Eget in Htop. by apply bool_decide_eq_true in Htop.
  - right. rewrite Hm, Ho. left.
Qed.

(** A limit on the nodes of a stage holds in the chart: with a limit of n, a stage has at
    most n nodes when the rest is hidden, and at most one more, the node of the others, when
    it is aggregated. *)
Theorem flow_top_nodes rows metric role palette visible options limit k :
  (forall n, 0%N ∉ show n) -> Forall row_plain rows -> normalizeTopNodeLimit (topNodeLimit options) = Some limit ->
  let g := buildFlowGraph show localeCompare dataSchemes tokenLabel otherNodeLabel rows metric role palette visible options in
  length (filter (fun n => n_kind n = k) (g_nodes g)) <=
  slice_end limit + match overflowMode options with aggregate => 1 | hide => 0 end.
Proof.
  intros Hshow Hplain Hlimit g. pose proof (proj1 (stages_ok role visible)) as Hst.
  destruct (drawn show localeCompare dataSchemes tokenLabel otherNodeLabel rows metric role palette visible options)
    as (dn & _ & Hn & _ & Cn & _). unfold graph in Hn. fold g in Hn. rewrite Hn, filter_fmap, length_fmap.
  rewrite (filter_same (fun n => n_kind (dn n) = k) (fun n => n_kind n = k))
    by (intros n _; pose proof (Cn n) as E; unfold node_core in E; injection E as _ ->; done).
  set (ps := prepared show localeCompare tokenLabel otherNodeLabel rows metric role visible options) in *.
  set (nodes := raw_nodes _ _ _ _ _ _ _ _ _ _ _).
  assert (forall p, p ∈ ps -> path_ok (resolveVisibleStages role visible) (pp_path p)) as Hps by (intros p Hp; by eapply prepared_ok).
  assert (Hnodes : forall n, n ∈ nodes -> exists p x, p ∈ ps /\ x ∈ pp_path p /\ n_id n = p_id x /\ n_kind n = p_kind x).
  { intros n Hin. destruct (nodes_spec dataSchemes metric (root_colors show localeCompare dataSchemes tokenLabel otherNodeLabel rows metric
      role palette visible options) palette ps (proj1 (paths_NoDup _ Hst ps Hps))) as [Hs _].
    rewrite Forall_forall in Hs. destruct (Hs n Hin) as (_ & _ & _ & _ & p & x & Hp & Hx & Hi & _ & Hk). by exists p, x. }
  assert (NoDup (n_id <$> nodes)) as Hnd by by eapply nodes_keys.
  destruct (filter (fun n => n_kind n = k) nodes) as [|n0 rest] eqn:E0; [cbn; lia|].
  assert (exists sets, top_sets show localeCompare tokenLabel rows metric role visible options = Some sets) as [sets Esets]
    by (unfold top_sets; rewrite Hlimit; by eexists).
  assert (Hkind : forall n, n ∈ n0 :: rest -> exists top, map_get k sets = Some top /\ length top <= slice_end limit /\
    n_id n ∈ (top ++ match overflowMode options with aggregate => [OTHER_FLOW_NODE_IDS k] | hide => [] end)).
  { intros n Hin. rewrite <- E0 in Hin. apply list_elem_of_filter in Hin as [Ek Hin].
    destruct (Hnodes n Hin) as (p & x & Hp & Hx & -> & Ekx). pose proof (Hps p Hp) as [Es _].
    unfold ps, prepared in Hp. rewrite Esets in Hp. unfold top_sets in Esets. rewrite Hlimit in Esets.
    eapply limited_node; try done; [|congruence]. unfold stages_shown. rewrite <- Es, <- Ek, Ekx. by apply list_elem_of_fmap_2. }
  destruct (Hkind n0 ltac:(left)) as (top & Etop & Hlen & _).
  transitivity (length (top ++ match overflowMode options with aggregate => [OTHER_FLOW_NODE_IDS k] | hide => [] end)).
  2: { rewrite length_app. destruct (overflowMode options); cbn [length]; lia. }
  rewrite <- (length_fmap n_id). apply submseteq_length, NoDup_submseteq; [rewrite <- E0; by apply NoDup_fmap_filter|].
  intros id (n & -> & Hin)%list_elem_of_fmap. destruct (Hkind n Hin) as (top' & E' & _ & Hid). congruence.
Qed.

(** ** Masking and highlighting *)











Definition unmarked_node (n : DashboardFlowNode) : Prop := n_highlighted n = None /\ n_dimmed n = None.
Definition unmarked_link (l : DashboardFlowLink) : Prop := k_highlighted l = None /\ k_dimmed l = None.

Lemma raw_unmarked metric colors palette ps :
  (forall p, p ∈ ps -> NoDup (p_id <$> pp_path p)) -> (forall p, p ∈ ps -> NoDup (link_key <$> links_of p)) ->
  Forall unmarked_node (nodes_of dataSchemes metric colors palette ps) /\
  Forall unmarked_link (links_in dataSchemes metric colors palette ps).
Proof.
  intros Hn Hl. split; apply Forall_forall; intros x ([k v] & -> & Hin)%list_elem_of_fmap.
  - destruct (accumulated_value _ _ _ _ (node_first _ _ _ _) (node_next _ _ _ _) _ _ _ Hn Hin) as (e0 & es & -> & _). done.
  - destruct (accumulated_value _ _ _ _ (link_first _ _ _ _) (link_next _ _ _ _) _ _ _ Hl Hin) as ([p [s t]] & es & -> & _).
    unfold link_result. cbn [fst snd snd]. by destruct (path_color _ _ _ p).
Qed.

Lemma mask_unmarked nodes links : Forall unmarked_node nodes -> Forall unmarked_link links ->
  Forall unmarked_node (maskFlowGraphLabels (nodes, links)).1 /\ Forall unmarked_link (maskFlowGraphLabels (nodes, links)).2.
Proof.
  intros Hn Hl. split; apply Forall_fmap; (eapply Forall_impl; [eassumption|]); intros x Hx; unfold compose; [by destruct (is_masked x)|done].
Qed.

(** The paths a selection marks. *)
Definition marked (options : FlowGraphOptions) (p : PreparedFlowPath) : Prop :=
  matches_path (activeNode options) (activeLink options) (pp_path p) = true.
Definition selection_shown (options : FlowGraphOptions) (stages : list FlowNodeKind) : Prop :=
  activeLink options <> None \/ exists node, activeNode options = Some node /\ f_kind node ∈ stages.

Lemma marked_nonempty options p : marked options p -> pp_path p <> [].
Proof.
  unfold marked, matches_path. intros H E. rewrite E in H. destruct (activeLink options); [done|]. by destruct (activeNode options).
Qed.

(** The sets of marked nodes and links, if any path is marked. *)
Lemma mark_sets options stages ps :
  let active := selection_shown options stages /\ Exists (marked options) ps in
  match buildFlowHighlightSets ps (activeNode options) (activeLink options) stages with
  | None => ~ active
  | Some (ns, ks) => active /\
      (forall id, id ∈ ns <-> exists p, p ∈ ps /\ marked options p /\ id ∈ p_id <$> pp_path p) /\
      (forall key, key ∈ ks <-> exists p, p ∈ ps /\ marked options p /\ key ∈ link_key <$> links_of p)
  end.
Proof.
  intros active. unfold buildFlowHighlightSets. destruct (negb _ && _) eqn:Ea.
  - intros [Hs _]. apply andb_prop in Ea as [Hn%negb_true_iff Hl%bool_decide_eq_true].
    destruct Hs as [?|(node & E & Hk)]; [done|]. rewrite E in Hn. by apply bool_decide_eq_false in Hn.
  - assert (Hsel : selection_shown options stages).
    { apply andb_false_iff in Ea as [Hn%negb_false_iff|Hl%bool_decide_eq_false]; [right|by left].
      destruct (activeNode options) as [node|]; [|done]. exists node. split; [done|]. by apply bool_decide_eq_true in Hn. }
    set (hits := filter _ ps).
    assert (Hjoin : forall {A} (f : PreparedFlowPath -> list A) x, x ∈ mjoin (f <$> hits) <-> exists p, p ∈ ps /\ marked options p /\ x ∈ f p).
    { intros A f x. rewrite list_elem_of_join. split.
      - intros (l & Hx & (p & -> & [Hm Hp]%list_elem_of_filter)%list_elem_of_fmap). by exists p.
      - intros (p & Hp & Hm & Hx). exists (f p). split; [done|]. apply list_elem_of_fmap_2. by apply list_elem_of_filter. }
    destruct (mjoin _) as [|id0 ns] eqn:En.
    + intros [_ (p & Hp & Hm)%Exists_exists]. destruct (pp_path p) as [|x l] eqn:Ep; [by eapply marked_nonempty|].
      apply (not_elem_of_nil (p_id x)). rewrite <- En. apply Hjoin. exists p. split_and!; try done. rewrite Ep. left.
    + rewrite <- En. split; [split; [done|]|split; [apply Hjoin|]].
      * assert (id0 ∈ mjoin ((fun prepared => p_id <$> pp_path prepared) <$> hits)) as (p & Hp & Hm & _)%Hjoin by (rewrite En; left).
        apply Exists_exists. by exists p.
      * intros key. rewrite (Hjoin _ (fun prepared => (fun '(s, t) => pathLinkKey s t) <$> path_links (pp_path prepared))).
        assert (forall p, (fun '(s, t) => pathLinkKey s t) <$> path_links (pp_path p) = link_key <$> links_of p) as E
          by (intros p; apply list_fmap_ext; by intros i [s t] _).
        by setoid_rewrite E.
Qed.

(** A node or link is marked as [P] says: highlighted if it holds, dimmed if not. *)
Definition marks_as (highlighted dimmed : option bool) (P : Prop) : Prop :=
  exists b : bool, highlighted = Some b /\ dimmed = Some (negb b) /\ (b = true <-> P).

Lemma marks_decide P Q `{!Decision P} : (P <-> Q) -> marks_as (Some (bool_decide P)) (Some (negb (bool_decide P))) Q.
Proof. intros HPQ. exists (bool_decide P). by rewrite bool_decide_eq_true. Qed.

(** C21: a selection marks whole paths.  When a link is selected, or a node of a visible stage,
    and some drawn path runs through it, exactly the nodes and links of such paths are
    highlighted and all others are dimmed; a selected link counts before a selected node.
    Otherwise nothing is highlighted or dimmed. *)
Theorem flow_highlighting rows metric role palette visible options :
  (forall n, 0%N ∉ show n) -> Forall row_plain rows ->
  let g := buildFlowGraph show localeCompare dataSchemes tokenLabel otherNodeLabel rows metric role palette visible options in
  let ps := prepared show localeCompare tokenLabel otherNodeLabel rows metric role visible options in
  let active := selection_shown options (resolveVisibleStages role visible) /\ Exists (marked options) ps in
  (active ->
   Forall (fun n => marks_as (n_highlighted n) (n_dimmed n)
             (exists p, p ∈ ps /\ marked options p /\ n_id n ∈ p_id <$> pp_path p)) (g_nodes g) /\
   Forall (fun l => marks_as (k_highlighted l) (k_dimmed l)
             (exists p, p ∈ ps /\ marked options p /\ (k_source l, k_target l) ∈ link_ends (pp_path p))) (g_links g)) /\
  (~ active -> Forall unmarked_node (g_nodes g) /\ Forall unmarked_link (g_links g)).
Proof.
  intros Hshow Hplain g ps active. pose proof (proj1 (stages_ok role visible)) as Hst.
  assert (Hps : forall p, p ∈ ps -> path_ok (resolveVisibleStages role visible) (pp_path p)) by (intros p Hp; by eapply prepared_ok).
  destruct (graph_parts show localeCompare dataSchemes tokenLabel otherNodeLabel rows metric role palette visible options)
    as (last_links & Hlast & Hn & ls & Hl). unfold graph in Hn, Hl. fold g in Hn, Hl.
  pose proof (mark_sets options (resolveVisibleStages role visible) ps) as Hmarks. cbv zeta in Hmarks. fold active in Hmarks.
  unfold marks, stages_shown in Hn, Hl. fold ps in Hn, Hl.
  destruct (paths_NoDup _ Hst ps Hps) as [Np Nl].
  destruct (buildFlowHighlightSets ps _ _ _) as [[ns ks]|]; cbn [applyFlowHighlights fst snd] in Hn, Hl.
  - destruct Hmarks as (Ha & Hns & Hks). split; [|done]. intros _. rewrite Hn, Hl. split.
    + apply Forall_fmap, Forall_forall. intros n _. apply (marks_decide (n_id n ∈ ns)), Hns.
    + rewrite <- list_fmap_compose. apply Forall_fmap, Forall_forall. intros l Hin. unfold compose.
      destruct (Hlast ls (highlight_link ks l)) as (Ec & _ & _ & -> & ->). cbn [highlight_link k_highlighted k_dimmed].
      apply (f_equal (fun c => c.1.1)) in Ec. cbn [fst link_core] in Ec. fold (ends (last_links ls (highlight_link ks l))). rewrite Ec.
      apply (marks_decide (linkStableKey l ∈ ks)). rewrite Hks.
      assert (Hplain_l : 0%N ∉ k_source l).
      { destruct (masked_parts show localeCompare dataSchemes tokenLabel otherNodeLabel rows metric role palette visible options)
          as (dn & dl & E & _ & Cl). rewrite E in Hin. apply list_elem_of_fmap in Hin as (l0 & -> & Hl0).
        pose proof (f_equal (fun c => c.1.1.1) (Cl l0)) as Es. cbn in Es. rewrite Es.
        exact (link_source_plain _ _ _ _ _ Hst ps Hps l0 Hl0). }
      split; intros (p & Hp & Hm & Hx); exists p; (split_and!; [done..|]); by apply (ends_elem _ _ (Hps p Hp)).
  - split; [done|]. intros _. rewrite Hn, Hl.
    destruct (raw_unmarked metric (root_colors show localeCompare dataSchemes tokenLabel otherNodeLabel rows metric role palette visible options)
      palette ps Np Nl) as [Un Ul].
    assert (Um : Forall unmarked_node (masked_graph show localeCompare dataSchemes tokenLabel otherNodeLabel rows metric role palette visible options).1 /\
      Forall unmarked_link (masked_graph show localeCompare dataSchemes tokenLabel otherNodeLabel rows metric role palette visible options).2).
    { unfold masked_graph. destruct (maskSensitive options); [by apply mask_unmarked|done]. }
    split; [apply Um|]. apply Forall_fmap. eapply Forall_impl; [apply Um|]. intros l [U1 U2]. unfold compose, unmarked_link.
    destruct (Hlast ls l) as (_ & _ & _ & -> & ->). done.
Qed.
End Limits.

(** *** What the chart hands back *)

Lemma array_single x d : array_at [x] d = x \/ array_at [x] d = JUndefined.
Proof.
  assert (Hi : forall i, default JUndefined ([x] !! i) = x \/ default JUndefined ([x] !! i) = JUndefined) by (intros [|[|i]]; auto).
  destruct d as [ | | |[] m e]; cbn [array_at]; auto. by destruct (is_integer _); auto.
Qed.

Lemma wrapped_source show depth x : isRecord x = true ->
  sankeyDatumSource show (JObject [(js "depth", depth); (js "datum", JArray [x])]) = x.
Proof.
  intros Hx. unfold sankeyDatumSource.
  change (field "datum" (JObject [(js "depth", depth); (js "datum", JArray [x])])) with (JArray [x]). cbv iota beta.
  assert (recordValue x = Some x) as E by (unfold recordValue; by rewrite Hx).
  destruct (array_single x (finite_number show (field "depth" (JObject [(js "depth", depth); (js "datum", JArray [x])])))) as [-> | ->].
  - by rewrite E.
  - change ([x] !! 0) with (Some x). cbn [default from_option id]. by rewrite E.
Qed.

(** The datum of a node, bare or wrapped by the chart library, is read back as the filter of
    that node, and the datum of a link as none. *)
Theorem chart_selection show n l z depth :
  flowNodeFilterFromSankeyDatum show (node_datum n) = Some (mkFilter (n_kind n) (n_id n)) /\
  flowNodeFilterFromSankeyDatum show (JObject [(js "datum", node_datum n)]) = Some (mkFilter (n_kind n) (n_id n)) /\
  flowNodeFilterFromSankeyDatum show (JObject [(js "depth", depth); (js "datum", JArray [node_datum n])]) = Some (mkFilter (n_kind n) (n_id n)) /\
  flowNodeFilterFromSankeyDatum show (link_datum z l) = None.
Proof.
  assert (Hkind : forall k, isFlowNodeKind (JString (kind_name k)) = Some k) by (by intros []).
  destruct n as [id label kind v r q t c ck h d]. split_and!; [..|reflexivity].
  - cbv -[kind_name isFlowNodeKind flag]. by rewrite Hkind.
  - cbv -[kind_name isFlowNodeKind flag]. by rewrite Hkind.
  - set (node := mkNode _ _ _ _ _ _ _ _ _ _ _). pose proof (wrapped_source show depth (node_datum node) eq_refl) as E.
    set (datum := JObject _) in *.
    assert (Hv : forall key, field key datum = JUndefined -> sankeyDatumValue show datum key = field key (node_datum node))
      by (intros key Hk; unfold sankeyDatumValue; by rewrite Hk, E).
    unfold flowNodeFilterFromSankeyDatum, isSankeyLinkDatum, flowSankeyDatumValue. cbn [recordValue isRecord datum].
    rewrite !Hv by reflexivity. change (field "kind" (node_datum node)) with (JString (kind_name kind)). rewrite Hkind. reflexivity.
Qed.

(** ** Witnesses *)

Definition show_int_num (n : jsnum) : jsstr := show_dec (Z.to_N (as_int n)).
Lemma show_int_plain n : 0%N ∉ show_int_num n.
Proof. intros H. pose proof (all_digits_elem_of _ _ (show_dec_all_digits (Z.to_N (as_int n))) H) as E. done. Qed.

Fixpoint text_order (a b : jsstr) : comparison :=
  match a, b with
  | [], [] => Eq
  | [], _ => Lt
  | _, [] => Gt
  | x :: a', y :: b' => match (x ?= y)%N with Eq => text_order a' b' | c => c end
  end.

Definition usage (token group model : string) (q : Z) : FlowQuotaDataItem :=
  mkRow None None None (Some (js group)) None (Some (js token)) None None (Some (js model)) None (Some (num 1)) (Some (num q)).
Arguments usage token%_stdpp_scope group%_stdpp_scope model%_stdpp_scope q%_Z_scope.

Definition sample_rows : list FlowQuotaDataItem :=
  [usage "ci" "default" "gpt-4o" 30; usage "ci" "vip" "claude" 20; usage "app" "default" "claude" 5; usage "app" "default" "gpt-4o" 7].
Definition sample_options (mask : bool) : FlowGraphOptions :=
  mkGraphOptions (Some (num 1)) aggregate (Some (mkFilter KToken (js "token:ci"))) None mask.
Definition sample_graph (mask : bool) : DashboardFlowGraph :=
  buildFlowGraph show_int_num text_order [] None None sample_rows MQuota RUser [] None (sample_options mask).

Lemma sample_plain : Forall row_plain sample_rows.
Proof. repeat (apply Forall_cons; split; [repeat split; by_decision|]). apply Forall_nil; exact I. Qed.

Lemma flow_conserved_witness :
  js_sum (n_value <$> filter (fun n => n_kind n = KModel) (g_nodes (sample_graph false))) = num 62.
Proof.
  transitivity (metricValue (buildSummary sample_rows) MQuota); [|vm_compute; reflexivity].
  refine (proj2 (proj2 (flow_conserved show_int_num text_order [] None None sample_rows MQuota RUser [] None (sample_options false)
    _ _ _ _) KModel _) _).
  - exact show_int_plain.
  - exact sample_plain.
  - repeat (apply Forall_cons; split; [vm_compute; reflexivity|]). apply Forall_nil; exact I.
  - vm_compute. reflexivity.
  - refine (bool_decide_unpack _ _). vm_compute. exact I.
  - left. reflexivity.
Defined.

(** With the same limit and hiding, one row is drawn: the stage sums to 30, the summary says 62. *)
Example hidden_rows_not_drawn :
  let options := mkGraphOptions (Some (num 1)) hide None None false in
  let g := buildFlowGraph show_int_num text_order [] None None sample_rows MQuota RUser [] None options in
  js_sum (n_value <$> filter (fun n => n_kind n = KModel) (g_nodes g)) = num 30
  /\ metricValue (buildSummary sample_rows) MQuota = num 62.
Proof. vm_compute. split; reflexivity. Qed.

Lemma flow_top_nodes_witness : length (filter (fun n => n_kind n = KToken) (g_nodes (sample_graph false))) <= 2.
Proof.
  apply (flow_top_nodes show_int_num text_order [] None None sample_rows MQuota RUser [] None (sample_options false) (num 1) KToken).
  - exact show_int_plain.
  - exact sample_plain.
  - vm_compute. reflexivity.
Defined.

Lemma flow_highlighting_witness :
  Forall (fun n => marks_as (n_highlighted n) (n_dimmed n)
    (exists p, p ∈ prepared show_int_num text_order None None sample_rows MQuota RUser None (sample_options false) /\
      marked (sample_options false) p /\ n_id n ∈ p_id <$> pp_path p)) (g_nodes (sample_graph false)).
Proof.
  apply (flow_highlighting show_int_num text_order [] None None sample_rows MQuota RUser [] None (sample_options false)).
  - exact show_int_plain.
  - exact sample_plain.
  - split.
    + right. eexists. split; [reflexivity|]. refine (bool_decide_unpack _ _). vm_compute. exact I.
    + apply Exists_exists. eexists. split; [vm_compute; left|vm_compute; reflexivity].
Defined.

(** A user without an identifier who is called as the nodes of the others are marked keeps the
    name when labels are masked. *)
Example reserved_name_shown :
  let row := mkRow None (Some (js "__other__")) None (Some (js "vip")) None None None None (Some (js "gpt-4o")) None (Some (num 1)) (Some (num 3)) in
  n_label <$> filter (fun n => n_kind n = KUser)
    (g_nodes (buildFlowGraph show_int_num text_order [] None None [row] MQuota RAdmin [] None (mkGraphOptions None aggregate None None true)))
  = [js "__other__"].
Proof. vm_compute. reflexivity. Qed.
