(* ===== verification/AccountPool.v ===== *)
(** * Forms of account pools

    web/src/features/account-pools/lib/account-pool-form.ts: the conversions between the
    stored pools, accounts and proxies, the values of their forms and the requests that save
    them, and the change of an account's status in web/src/features/account-pools/index.tsx,
    which saves the form of the account with another status.

    A stored record has the fields the conversions read.  A request that cannot be built
    because the code throws is [inr] of the message. *)

From S2P Require Import Prelude JsValue Json JsText.

Local Open Scope N_scope.

(** ** Platforms *)

Definition CHANNEL_TYPE_OPENAI : Z := 1.
Definition CHANNEL_TYPE_ANTHROPIC : Z := 14.
Definition CHANNEL_TYPE_GEMINI : Z := 24.
Definition CHANNEL_TYPE_XAI : Z := 48.
Definition CHANNEL_TYPE_CODEX_VALUE : Z := 57.
Definition CHANNEL_TYPE_GROK_WEB : Z := 59.

Definition MODEL_MAPPING_ERROR : jsstr := js "Model mapping must be a JSON object with string values".
Definition HEADER_OVERRIDES_ERROR : jsstr := js "Header overrides must be a JSON object with string values".

Definition allowedChannelTypesForPlatform (platform : jsstr) : list Z :=
  if platform =s? js "anthropic" then [CHANNEL_TYPE_ANTHROPIC]
  else if platform =s? js "gemini" then [CHANNEL_TYPE_GEMINI]
  else if platform =s? js "xai" then [CHANNEL_TYPE_XAI]
  else if platform =s? js "grok_web" then [CHANNEL_TYPE_GROK_WEB]
  else [CHANNEL_TYPE_OPENAI; CHANNEL_TYPE_CODEX_VALUE].

Definition defaultChannelTypeForPlatform (platform : jsstr) : option Z := head (allowedChannelTypesForPlatform platform).

Definition platformIsGrokWebCookie (platform : jsstr) : bool := platform =s? js "grok_web".
Definition platformSupportsOAuthCredential (platform : jsstr) : bool := negb (platformIsGrokWebCookie platform).

Definition platformSupportsAccountOutboundOverrides (platform : option jsstr) : bool :=
  match platform with
  | Some p => (p =s? js "openai") || (p =s? js "anthropic") || (p =s? js "gemini") || (p =s? js "xai")
  | None => false
  end.

Definition normalizeAccountPoolSchedulePolicy (value : jsstr) : jsstr :=
  if trim value =s? js "random" then js "random" else js "round_robin".

Definition normalizeOptionalAccountPoolSchedulePolicy (value : jsstr) : jsstr :=
  let trimmed := trim value in if trimmed =s? [] then [] else normalizeAccountPoolSchedulePolicy trimmed.

(** ** Values *)

Definition toInteger (value : jsnum) : jsnum := if negb (is_finite value) then num 0 else math_trunc value.

(** [value || fallback] on a number. *)
Definition num_or (value fallback : jsnum) : jsnum := if num_truthy value then value else fallback.

(** Separators of lists of models: both commas, line feed and carriage return. *)
Definition is_model_sep (c : N) : bool := (c =? 44) || (c =? 65292) || (c =? 10) || (c =? 13).

(** [text.split(/[,，\n\r]+/)]: the pieces between runs of separators. *)
Fixpoint model_pieces (in_run : bool) (cur text : jsstr) : list jsstr :=
  match text with
  | [] => [reverse cur]
  | c :: rest =>
      if is_model_sep c then if in_run then model_pieces true cur rest else reverse cur :: model_pieces true [] rest
      else model_pieces false (c :: cur) rest
  end.

Definition normalizeModelListText (value : jsstr) : list jsstr := dedup_nonempty [] (trim <$> model_pieces false [] value).

Definition isStringRecord (value : jsval) : option (list (jsstr * jsval)) :=
  match value with JObject fs => if forallb (fun kv => is_string kv.2) fs then Some fs else None | _ => None end.

(** [parseModelMapping] and [parseHeaderOverrides] differ in the message only. *)
Definition parse_record (message value : jsstr) : list (jsstr * jsval) + jsstr :=
  let text := trim value in
  if negb (truthy text) then inl []
  else match JSON_parse text with
       | Some parsed => match isStringRecord parsed with Some fs => inl fs | None => inr message end
       | None => inr message
       end.
Definition parseModelMapping : jsstr -> list (jsstr * jsval) + jsstr := parse_record MODEL_MAPPING_ERROR.
Definition parseHeaderOverrides : jsstr -> list (jsstr * jsval) + jsstr := parse_record HEADER_OVERRIDES_ERROR.

Definition maskSecretPreview (value : jsstr) : jsstr :=
  let secret := trim value in
  if negb (truthy secret) then []
  else if (length secret <? 8)%nat then js "***"
  else take 4 secret ++ js "..." ++ drop (length secret - 4) secret.

(** ** Pools *)

Record AccountPool := mkPool {
  pool_name : jsstr; pool_platform : jsstr; pool_default_proxy_id : jsnum; pool_default_monitor_enabled : bool;
  pool_default_schedule_policy : jsstr; pool_check_enabled : bool; pool_check_interval_minutes : jsnum; pool_check_mode : jsstr;
  pool_check_channel_id : jsnum; pool_check_models : list jsstr; pool_check_timeout_seconds : jsnum; pool_check_merge : bool;
  pool_remark : jsstr }.

(** The form has the same fields with the models as text. *)
Record AccountPoolFormValues := mkPoolForm {
  pf_name : jsstr; pf_platform : jsstr; pf_default_proxy_id : jsnum; pf_default_monitor_enabled : bool;
  pf_default_schedule_policy : jsstr; pf_check_enabled : bool; pf_check_interval_minutes : jsnum; pf_check_mode : jsstr;
  pf_check_channel_id : jsnum; pf_check_models_text : jsstr; pf_check_timeout_seconds : jsnum; pf_check_merge : bool;
  pf_remark : jsstr }.

Definition emptyPoolForm : AccountPoolFormValues :=
  mkPoolForm [] (js "openai") (num 0) false [] false (num 1440) (js "models_endpoint") (num 0) [] (num 30) false [].

Definition poolToFormValues (pool : AccountPool) : AccountPoolFormValues :=
  mkPoolForm (pool_name pool) (pool_platform pool) (pool_default_proxy_id pool) (pool_default_monitor_enabled pool)
    (normalizeOptionalAccountPoolSchedulePolicy (pool_default_schedule_policy pool)) (pool_check_enabled pool)
    (num_or (pool_check_interval_minutes pool) (num 1440)) (str_or (pool_check_mode pool) (js "models_endpoint"))
    (num_or (pool_check_channel_id pool) (num 0)) (join [10] (pool_check_models pool))
    (num_or (pool_check_timeout_seconds pool) (num 30)) (pool_check_merge pool) (pool_remark pool).

(** The request has the fields of a pool. *)
Definition buildPoolPayload (values : AccountPoolFormValues) : AccountPool :=
  mkPool (trim (pf_name values)) (str_or (pf_platform values) (js "openai")) (toInteger (pf_default_proxy_id values))
    (pf_default_monitor_enabled values) (normalizeOptionalAccountPoolSchedulePolicy (pf_default_schedule_policy values))
    (pf_check_enabled values) (toInteger (pf_check_interval_minutes values)) (str_or (pf_check_mode values) (js "models_endpoint"))
    (toInteger (pf_check_channel_id values)) (normalizeModelListText (pf_check_models_text values))
    (toInteger (pf_check_timeout_seconds values)) (pf_check_merge values) (trim (pf_remark values)).

(** ** Accounts *)

Record AccountPoolAccount := mkAccount {
  a_name : jsstr; a_identifier : jsstr; a_credential_type : option jsstr; a_status : jsstr; a_oauth_type : jsstr;
  a_priority : jsnum; a_weight : jsnum; a_max_concurrency : jsnum; a_request_quota : jsnum; a_quota_window : jsnum;
  a_expires_at : jsnum; a_auto_pause : bool; a_proxy_id : jsnum; a_supported_models : list jsstr;
  a_model_mapping : list (jsstr * jsval); a_last_used_at : jsnum; a_rate_limited_until : jsnum;
  a_temp_disabled_until : jsnum; a_temp_disabled_reason : jsstr; a_last_error : jsstr; a_has_token : bool;
  a_base_url : option jsstr; a_header_override_enabled : option bool; a_header_overrides : option (list (jsstr * jsval)) }.

(** The texts of the form that are secrets or details of a token. *)
Record AccountSecrets := mkSecrets {
  s_api_key : jsstr; s_cf_clearance : jsstr; s_email : jsstr; s_refresh_token : jsstr; s_id_token : jsstr; s_client_id : jsstr;
  s_scope : jsstr; s_token_type : jsstr; s_subject : jsstr; s_team_id : jsstr; s_subscription_tier : jsstr;
  s_entitlement_status : jsstr; s_access_token : jsstr; s_token_refresh_token : jsstr; s_token_expires_at : jsnum;
  s_token_version : jsnum }.

Record AccountPoolAccountFormValues := mkAccountForm {
  v_name : jsstr; v_identifier : jsstr; v_credential_type : jsstr; v_oauth_type : jsstr; v_secrets : AccountSecrets;
  v_base_url : jsstr; v_header_override_enabled : bool; v_header_overrides_text : jsstr; v_status : jsstr;
  v_priority : jsnum; v_weight : jsnum; v_max_concurrency : jsnum; v_request_quota : jsnum; v_quota_window : jsnum;
  v_expires_at : jsnum; v_auto_pause : bool; v_proxy_id : jsnum; v_supported_models_text : jsstr; v_model_mapping_text : jsstr;
  v_last_used_at : jsnum; v_rate_limited_until : jsnum; v_temp_disabled_until : jsnum; v_temp_disabled_reason : jsstr;
  v_last_error : jsstr }.

Definition no_secrets : AccountSecrets := mkSecrets [] [] [] [] [] [] [] [] [] [] [] [] [] [] (num 0) (num 0).

Definition emptyAccountForm : AccountPoolAccountFormValues :=
  mkAccountForm [] [] (js "api_key") [] no_secrets [] false [] (js "enabled") (num 0) (num 1) (num 1) (num 0) (num 0) (num 0)
    false (num 0) [] [] (num 0) (num 0) (num 0) [] [].

(** The part of a request that holds the credential; optional parts are absent unless set. *)
Record AccountPoolCredentialConfigRequest := mkCredential {
  c_type : jsstr; c_oauth_type : jsstr; c_api_key : jsstr; c_email : jsstr; c_refresh_token : jsstr;
  c_cf_clearance : option jsstr; c_base_url : option jsstr; c_header_override_enabled : option bool;
  c_header_overrides : option (list (jsstr * jsval)); c_id_token : option jsstr; c_client_id : option jsstr;
  c_scope : option jsstr; c_token_type : option jsstr; c_sub : option jsstr; c_team_id : option jsstr;
  c_subscription_tier : option jsstr; c_entitlement_status : option jsstr }.

(** A text that is sent when it is not blank. *)
Definition when_given (value : jsstr) : option jsstr := let t := trim value in if truthy t then Some t else None.

Definition buildCredentialPayload (values : AccountPoolAccountFormValues) (platform : option jsstr)
    : AccountPoolCredentialConfigRequest + jsstr :=
  let s := v_secrets values in
  let type := v_credential_type values in
  if type =s? js "grok_web_cookie" then
    inl (mkCredential (js "grok_web_cookie") [] (trim (s_api_key s)) [] [] (Some (trim (s_cf_clearance s))) None None None
           None None None None None None None None)
  else
    let base overrides :=
      let '(url, enabled, headers) := match overrides with
                                      | Some fs => (Some (trim (v_base_url values)), Some (v_header_override_enabled values), Some fs)
                                      | None => (None, None, None)
                                      end in
      let oauth value := if type =s? js "oauth" then when_given value else None in
      mkCredential (str_or type (js "api_key")) (v_oauth_type values)
        (if type =s? js "api_key" then trim (s_api_key s) else []) (trim (s_email s)) (trim (s_refresh_token s)) None url enabled headers
        (oauth (s_id_token s)) (oauth (s_client_id s)) (oauth (s_scope s)) (oauth (s_token_type s)) (oauth (s_subject s))
        (oauth (s_team_id s)) (oauth (s_subscription_tier s)) (oauth (s_entitlement_status s)) in
    if platformSupportsAccountOutboundOverrides platform then
      match parseHeaderOverrides (v_header_overrides_text values) with inl fs => inl (base (Some fs)) | inr e => inr e end
    else inl (base None).

Record AccountPoolAccountCreateRequest := mkAccountRequest {
  q_name : jsstr; q_identifier : jsstr; q_credential : AccountPoolCredentialConfigRequest; q_access_token : jsstr;
  q_refresh_token : jsstr; q_token_expires_at : jsnum; q_token_version : jsnum; q_status : jsstr; q_priority : jsnum;
  q_weight : jsnum; q_max_concurrency : jsnum; q_request_quota : jsnum; q_quota_window : jsnum; q_expires_at : jsnum;
  q_auto_pause : bool; q_proxy_id : jsnum; q_supported_models : list jsstr; q_model_mapping : list (jsstr * jsval);
  q_last_used_at : jsnum; q_rate_limited_until : jsnum; q_temp_disabled_until : jsnum; q_temp_disabled_reason : jsstr;
  q_last_error : jsstr }.

Definition at_least_0 (value : jsnum) : jsnum := math_max (num 0) (toInteger value).

Definition buildAccountPayload (values : AccountPoolAccountFormValues) (platform : option jsstr)
    : AccountPoolAccountCreateRequest + jsstr :=
  match buildCredentialPayload values platform with
  | inr e => inr e
  | inl credential =>
      match parseModelMapping (v_model_mapping_text values) with
      | inr e => inr e
      | inl mapping =>
          let s := v_secrets values in
          inl (mkAccountRequest (trim (v_name values)) (trim (v_identifier values)) credential (trim (s_access_token s))
                 (trim (s_token_refresh_token s)) (toInteger (s_token_expires_at s)) (toInteger (s_token_version s))
                 (str_or (v_status values) (js "enabled")) (toInteger (v_priority values)) (toInteger (v_weight values))
                 (at_least_0 (v_max_concurrency values)) (at_least_0 (v_request_quota values)) (at_least_0 (v_quota_window values))
                 (at_least_0 (v_expires_at values)) (v_auto_pause values) (toInteger (v_proxy_id values))
                 (normalizeModelListText (v_supported_models_text values)) mapping (toInteger (v_last_used_at values))
                 (toInteger (v_rate_limited_until values)) (toInteger (v_temp_disabled_until values))
                 (trim (v_temp_disabled_reason values)) (trim (v_last_error values)))
      end
  end.

Section Print.
(** The text of a number; the records printed here hold texts only. *)
Variable show : jsnum -> jsstr.

(** A record as the text of the form: nothing for an empty one. *)
Definition record_text (record : list (jsstr * jsval)) : jsstr :=
  match record with [] => [] | _ => stringify2 show (JObject record) end.

Definition inferred_type (account : AccountPoolAccount) : jsstr :=
  str_or (default [] (a_credential_type account))
    (if truthy (a_oauth_type account) || a_has_token account then js "oauth" else js "api_key").

Definition accountToFormValues (account : AccountPoolAccount) : AccountPoolAccountFormValues :=
  mkAccountForm (a_name account) (a_identifier account) (inferred_type account) (a_oauth_type account) no_secrets
    (default [] (a_base_url account)) (bool_decide (a_header_override_enabled account = Some true))
    (record_text (default [] (a_header_overrides account))) (a_status account) (a_priority account) (a_weight account)
    (a_max_concurrency account) (a_request_quota account) (a_quota_window account) (a_expires_at account) (a_auto_pause account)
    (a_proxy_id account) (join [10] (a_supported_models account)) (record_text (a_model_mapping account)) (a_last_used_at account)
    (a_rate_limited_until account) (a_temp_disabled_until account) (a_temp_disabled_reason account) (a_last_error account).

Definition account_with_status (status : jsstr) (v : AccountPoolAccountFormValues) : AccountPoolAccountFormValues :=
  mkAccountForm (v_name v) (v_identifier v) (v_credential_type v) (v_oauth_type v) (v_secrets v) (v_base_url v)
    (v_header_override_enabled v) (v_header_overrides_text v) status (v_priority v) (v_weight v) (v_max_concurrency v)
    (v_request_quota v) (v_quota_window v) (v_expires_at v) (v_auto_pause v) (v_proxy_id v) (v_supported_models_text v)
    (v_model_mapping_text v) (v_last_used_at v) (v_rate_limited_until v) (v_temp_disabled_until v) (v_temp_disabled_reason v)
    (v_last_error v).

(** The request by which the list of accounts changes the status of one. *)
Definition update_status (account : AccountPoolAccount) (status : jsstr) (platform : option jsstr)
    : AccountPoolAccountCreateRequest + jsstr :=
  buildAccountPayload (account_with_status status (accountToFormValues account)) platform.
End Print.

(** *** The result of signing in to xAI *)

Record AccountPoolXAIOAuthTokenResult := mkXAIResult {
  x_email : option jsstr; x_sub : option jsstr; x_team_id : option jsstr; x_subscription_tier : option jsstr;
  x_entitlement_status : option jsstr; x_expires_at : jsnum; x_credential : AccountPoolCredentialConfigRequest;
  x_access_token : jsstr; x_refresh_token : jsstr; x_token_expires_at : jsnum; x_token_version : jsnum }.

(** [first || second || ''] on optional texts. *)
Definition first_text (first second : option jsstr) : jsstr := str_or (default [] first) (default [] second).

Definition applyXAIOAuthResultToForm (current : AccountPoolAccountFormValues) (result : AccountPoolXAIOAuthTokenResult)
    : AccountPoolAccountFormValues :=
  let credential := x_credential result in
  let subject := first_text (c_sub credential) (x_sub result) in
  let teamID := first_text (c_team_id credential) (x_team_id result) in
  let email := str_or (c_email credential) (default [] (x_email result)) in
  let text value := default [] value in
  mkAccountForm (str_or (v_name current) (str_or email subject)) (str_or subject (str_or teamID (v_identifier current)))
    (js "oauth") (v_oauth_type current)
    (mkSecrets (s_api_key (v_secrets current)) (s_cf_clearance (v_secrets current)) email
       (str_or (c_refresh_token credential) (x_refresh_token result)) (text (c_id_token credential)) (text (c_client_id credential))
       (text (c_scope credential)) (text (c_token_type credential)) subject teamID
       (first_text (c_subscription_tier credential) (x_subscription_tier result))
       (first_text (c_entitlement_status credential) (x_entitlement_status result)) (x_access_token result) (x_refresh_token result)
       (num_or (x_token_expires_at result) (x_expires_at result)) (x_token_version result))
    (v_base_url current) (v_header_override_enabled current) (v_header_overrides_text current) (v_status current)
    (v_priority current) (v_weight current) (v_max_concurrency current) (v_request_quota current) (v_quota_window current)
    (v_expires_at current) (v_auto_pause current) (v_proxy_id current) (v_supported_models_text current)
    (v_model_mapping_text current) (v_last_used_at current) (v_rate_limited_until current) (v_temp_disabled_until current)
    (v_temp_disabled_reason current) (v_last_error current).

(** ** Proxies, imports and bound channels *)

Record AccountPoolProxyFormValues := mkProxyForm {
  y_name : jsstr; y_protocol : jsstr; y_host : jsstr; y_port : jsnum; y_username : jsstr; y_password : jsstr; y_status : jsstr;
  y_fallback_proxy_id : jsnum }.

Definition emptyProxyForm : AccountPoolProxyFormValues := mkProxyForm [] (js "http") [] (num 0) [] [] (js "enabled") (num 0).

(** A stored proxy has the fields of its form without the password. *)
Definition proxyToFormValues (proxy : AccountPoolProxyFormValues) : AccountPoolProxyFormValues :=
  mkProxyForm (y_name proxy) (y_protocol proxy) (y_host proxy) (y_port proxy) (y_username proxy) [] (y_status proxy)
    (y_fallback_proxy_id proxy).

Definition buildProxyPayload (values : AccountPoolProxyFormValues) : AccountPoolProxyFormValues :=
  mkProxyForm (trim (y_name values)) (str_or (y_protocol values) (js "http")) (trim (y_host values)) (toInteger (y_port values))
    (trim (y_username values)) (trim (y_password values)) (str_or (y_status values) (js "enabled"))
    (toInteger (y_fallback_proxy_id values)).

Definition buildAccountPoolProxyOptions (proxies : list (jsstr * jsstr)) (noProxyLabel : jsstr) (directProxyLabel : option jsstr)
    : list (jsstr * jsstr) :=
  (js "0", noProxyLabel)
  :: (if truthy (default [] directProxyLabel) then [(js "-1", default [] directProxyLabel)] else [])
  ++ proxies.

Record AccountImportFormValues := mkImportForm {
  i_format : jsstr; i_content : jsstr; i_priority : jsnum; i_weight : jsnum; i_max_concurrency : jsnum; i_proxy_id : jsnum;
  i_models_text : jsstr }.

Definition emptyAccountImportForm : AccountImportFormValues := mkImportForm (js "sub2api") [] (num 0) (num 0) (num 1) (num 0) [].

Record AccountPoolAccountImportRequest := mkImportRequest {
  j_format : jsstr; j_content : jsstr; j_dry_run : bool; j_status : jsstr; j_priority : jsnum; j_weight : jsnum;
  j_max_concurrency : jsnum; j_proxy_id : jsnum; j_models : list jsstr; j_mapping : list (jsstr * jsval) }.

Definition buildAccountImportPayload (values : AccountImportFormValues) : AccountPoolAccountImportRequest :=
  mkImportRequest (i_format values) (i_content values) false (js "enabled") (toInteger (i_priority values)) (toInteger (i_weight values))
    (at_least_0 (i_max_concurrency values)) (toInteger (i_proxy_id values)) (normalizeModelListText (i_models_text values)) [].

(** The request of a bound channel: name, type, strategy and models. *)
Definition buildBoundChannelPayload (name : jsstr) (type : jsnum) (fixed_models_text : jsstr) : jsstr * jsnum * jsstr * list jsstr :=
  (trim name, toInteger type, js "fixed", normalizeModelListText fixed_models_text).
