(* ===== verification/AccountPoolProofs.v ===== *)
(** * Properties of the forms of account pools

    What the requests of account-pool-form.ts hold: the errors of a request and the normal
    form of its fields, and that saving a stored account under another status
    (web/src/features/account-pools/index.tsx) sends the account back as it is stored. *)

From Stdlib Require Import SpecFloat.
From S2P Require Import Prelude JsValue Json JsText AccountPool.

Local Open Scope N_scope.

(** ** Numbers *)

(** A whole number, and one that is not negative ([-0] apart). *)
Definition whole_number (n : jsnum) : Prop := is_finite n = true /\ math_trunc n = n.
Definition natural_number (n : jsnum) : Prop := whole_number n /\ (n = num 0 \/ num_lt (num 0) n = true).

Lemma toInteger_whole n : whole_number n -> toInteger n = n.
Proof. intros [Hf Ht]. unfold toInteger. by rewrite Hf. Qed.

Lemma max_0_finite s m e :
  math_max (num 0) (S754_finite s m e) = if num_lt (num 0) (S754_finite s m e) then S754_finite s m e else num 0.
Proof. done. Qed.

Lemma at_least_0_natural n : natural_number n -> at_least_0 n = n.
Proof.
  intros [Hw Hn]. unfold at_least_0. rewrite toInteger_whole by done.
  destruct Hn as [->|Hn]; [done|]. destruct n as [s|s| |s m e]; try done.
  - by destruct s.
  - by rewrite max_0_finite, Hn.
Qed.

Lemma toInteger_sound n : num_valid n = true -> whole_number (toInteger n).
Proof.
  intros Hv. unfold toInteger. destruct (is_finite n) eqn:Hf; [|done].
  split; [by apply math_trunc_finite|by apply math_trunc_idem].
Qed.

Lemma at_least_0_sound n : num_valid n = true -> natural_number (at_least_0 n).
Proof.
  intros Hv. pose proof (toInteger_sound n Hv) as [Hf Ht]. unfold at_least_0.
  destruct (toInteger n) as [s|s| |s m e]; try done; [split; [done|by left]|].
  rewrite max_0_finite. destruct (num_lt (num 0) (S754_finite s m e)) eqn:Hl; [|split; [done|by left]].
  split; [done|by right].
Qed.

(** ** Lists of models *)

Definition pool_model (x : jsstr) : Prop := trimmed x /\ x <> [] /\ Forall (fun c => is_model_sep c = false) x.
Definition model_list (l : list jsstr) : Prop := NoDup l /\ Forall pool_model l.

Lemma pieces_app p s : forall b cur,
  Forall (fun c => is_model_sep c = false) p -> p <> [] ->
  model_pieces b cur (p ++ s) = model_pieces false (reverse p ++ cur) s.
Proof.
  induction p as [|c p IH]; intros b cur Hp Hne; [done|]. apply Forall_cons in Hp as [Hc Hp].
  cbn [app model_pieces]. rewrite Hc. destruct p as [|d p]; [done|].
  rewrite IH by done. by rewrite (reverse_cons (d :: p) c), <- app_assoc.
Qed.

Lemma pieces_join ps : forall b, ps <> [] -> Forall pool_model ps -> model_pieces b [] (join [10] ps) = ps.
Proof.
  induction ps as [|p ps IH]; intros b Hne Hf; [done|]. apply Forall_cons in Hf as [(_ & Hpn & Hp) Hf].
  destruct ps as [|q ps].
  - cbn [join]. rewrite <- (app_nil_r p) at 1. rewrite pieces_app by done. cbn [model_pieces].
    by rewrite app_nil_r, reverse_involutive.
  - rewrite join_cons by done. rewrite pieces_app by done. cbn [app model_pieces].
    change (is_model_sep 10) with true. cbv iota. rewrite app_nil_r, reverse_involutive.
    f_equal. by apply (IH true).
Qed.

Lemma pieces_free s : forall b cur,
  Forall (fun c => is_model_sep c = false) cur ->
  Forall (Forall (fun c => is_model_sep c = false)) (model_pieces b cur s).
Proof.
  induction s as [|c s IH]; intros b cur Hc; cbn [model_pieces].
  - apply Forall_cons; split; [by apply Forall_reverse|by apply Forall_nil].
  - destruct (is_model_sep c) eqn:Es; [|apply IH; by apply Forall_cons].
    destruct b; [by apply IH|]. apply Forall_cons; split; [by apply Forall_reverse|].
    apply IH. by apply Forall_nil.
Qed.

Lemma model_list_sound s : model_list (normalizeModelListText s).
Proof.
  split; [apply dedup_NoDup|]. apply Forall_forall. intros x (Hx & Hn & _)%dedup_elem_of.
  apply list_elem_of_fmap in Hx as (p & -> & Hp). split; [apply trim_trimmed|split; [done|]].
  assert (Hf := pieces_free s false [] ltac:(by apply Forall_nil)). rewrite Forall_forall in Hf.
  apply Forall_forall. intros c Hc%trim_elem_of. specialize (Hf p Hp). rewrite Forall_forall in Hf. by apply Hf.
Qed.

Lemma model_list_kept l : model_list l -> normalizeModelListText (join [10] l) = l.
Proof.
  intros [Hn Hm]. unfold normalizeModelListText. destruct l as [|x l]; [done|].
  rewrite pieces_join by done.
  assert (Ht : trim <$> x :: l = x :: l).
  { rewrite <- (list_fmap_id (x :: l)) at 2. apply list_fmap_ext. intros i y Hy%list_elem_of_lookup_2.
    rewrite Forall_forall in Hm. by apply trimmed_trim, Hm. }
  rewrite Ht. apply dedup_id; [done|]. eapply Forall_impl; [exact Hm|]. intros y (_ & Hy & _).
  split; [done|apply not_elem_of_nil].
Qed.

(** ** Records of texts *)

Definition text_record (fs : list (jsstr * jsval)) : Prop := forallb (fun kv => is_string kv.2) fs = true.

(** A text read by the form is good when it is blank or a JSON object of texts. *)
Definition record_of (text : jsstr) (fs : list (jsstr * jsval)) : Prop :=
  (trim text = [] /\ fs = []) \/ (trim text <> [] /\ JSON_parse (trim text) = Some (JObject fs) /\ text_record fs).
Definition good_record (text : jsstr) : Prop := exists fs, record_of text fs.

Lemma parse_record_inl message text fs : parse_record message text = inl fs <-> record_of text fs.
Proof.
  unfold parse_record, record_of. destruct (truthy (trim text)) eqn:Ht; cbn [negb].
  - apply truthy_true in Ht. split.
    + intros H. right. split; [done|]. destruct (JSON_parse (trim text)) as [v|]; [|done].
      destruct v; cbn [isStringRecord] in H; try done.
      destruct (forallb _ _) eqn:Hr in H; [|done]. injection H as ->. by split.
    + intros [[H _]|(_ & -> & Hr)]; [done|]. cbn [isStringRecord]. by rewrite Hr.
  - assert (He : trim text = []) by (by destruct (trim text)). rewrite He.
    split; [intros [= <-]; by left|]. by intros [[_ ->]|[H _]].
Qed.

Lemma parse_record_inr message text e : parse_record message text = inr e <-> e = message /\ ~ good_record text.
Proof.
  unfold good_record. setoid_rewrite <- (parse_record_inl message). split.
  - intros H. split; [|intros [fs Hf]; by rewrite Hf in H].
    unfold parse_record in H. destruct (negb _); [done|]. destruct (JSON_parse _) as [v|]; [|by injection H].
    destruct (isStringRecord v); [done|by injection H].
  - intros [-> Hg]. destruct (parse_record message text) as [fs|e] eqn:E; [destruct Hg; by exists fs|].
    unfold parse_record in E. destruct (negb _); [done|]. destruct (JSON_parse _) as [v|]; [|done].
    destruct (isStringRecord v); [done|done].
Qed.

Section Records.
Variable show : jsnum -> jsstr.

Lemma record_kept fs : fields_ok show fs = true -> text_record fs -> record_of (record_text show fs) fs.
Proof.
  intros Hok Hr. destruct fs as [|kv fs]; [by left|]. right. cbn [record_text]. unfold fields_ok in Hok.
  unfold stringify2. rewrite (trimmed_trim _ (print_trimmed show newline [32] 0 _ Hok)).
  split; [done|]. split; [exact (JSON_parse_stringify2 show _ Hok)|done].
Qed.

Lemma parse_record_text message fs :
  fields_ok show fs = true -> text_record fs -> parse_record message (record_text show fs) = inl fs.
Proof. intros Hok Hr. by apply parse_record_inl, record_kept. Qed.
End Records.

(** ** Requests *)

(** A stored account as the backend returns it: texts without surrounding white space, whole
    numbers, distinct names of models and records of texts. *)
Record account_ok (show : jsnum -> jsstr) (a : AccountPoolAccount) : Prop := {
  ok_texts : Forall trimmed [a_name a; a_identifier a; a_temp_disabled_reason a; a_last_error a; default [] (a_base_url a)];
  ok_numbers : Forall whole_number [a_priority a; a_weight a; a_proxy_id a; a_last_used_at a; a_rate_limited_until a; a_temp_disabled_until a];
  ok_naturals : Forall natural_number [a_max_concurrency a; a_request_quota a; a_quota_window a; a_expires_at a];
  ok_models : model_list (a_supported_models a);
  ok_mapping : fields_ok show (a_model_mapping a) = true /\ text_record (a_model_mapping a);
  ok_headers : fields_ok show (default [] (a_header_overrides a)) = true /\ text_record (default [] (a_header_overrides a)) }.

(** The credential of a request that sends no secret: the type of the account and, where the
    platform has them, its own overrides. *)
Definition kept_credential (a : AccountPoolAccount) (platform : option jsstr) : AccountPoolCredentialConfigRequest :=
  let type := inferred_type a in
  let cookie := bool_decide (type = js "grok_web_cookie") in
  let own {A} (x : A) := if negb cookie && platformSupportsAccountOutboundOverrides platform then Some x else None in
  mkCredential type (if cookie then [] else a_oauth_type a) [] [] [] (if cookie then Some [] else None)
    (own (default [] (a_base_url a))) (own (bool_decide (a_header_override_enabled a = Some true)))
    (own (default [] (a_header_overrides a))) None None None None None None None None.

(** The account itself as a request, under another status. *)
Definition kept_request (a : AccountPoolAccount) (status : jsstr) (platform : option jsstr) : AccountPoolAccountCreateRequest :=
  mkAccountRequest (a_name a) (a_identifier a) (kept_credential a platform) [] [] (num 0) (num 0) (str_or status (js "enabled"))
    (a_priority a) (a_weight a) (a_max_concurrency a) (a_request_quota a) (a_quota_window a) (a_expires_at a) (a_auto_pause a)
    (a_proxy_id a) (a_supported_models a) (a_model_mapping a) (a_last_used_at a) (a_rate_limited_until a)
    (a_temp_disabled_until a) (a_temp_disabled_reason a) (a_last_error a).

Lemma inferred_nonempty a : truthy (inferred_type a) = true.
Proof. unfold inferred_type, str_or. by destruct (truthy (default [] _)) eqn:E; [|destruct (_ || _)]. Qed.

Lemma kept_credential_spec show a platform status :
  account_ok show a ->
  buildCredentialPayload (account_with_status status (accountToFormValues show a)) platform = inl (kept_credential a platform).
Proof.
  intros [Ht _ _ _ _ [Hh Hr]]. rewrite !Forall_cons in Ht. destruct Ht as (_ & _ & _ & _ & Hu & _).
  unfold buildCredentialPayload, kept_credential. cbn [v_credential_type account_with_status accountToFormValues v_secrets].
  assert (Hg : str_or (inferred_type a) (js "api_key") = inferred_type a) by (unfold str_or; by rewrite inferred_nonempty).
  destruct (inferred_type a =s? js "grok_web_cookie") eqn:Eg.
  - apply str_eqb_eq in Eg as ->. by rewrite bool_decide_eq_true_2.
  - apply str_eqb_neq in Eg. rewrite (bool_decide_eq_false_2 _ Eg). cbn [negb andb].
    assert (Hs : forall b : bool, (if b then when_given [] else None) = None) by (by intros []).
    assert (Hb : forall b : bool, (if b then trim [] else []) = @nil N) by (by intros []).
    destruct (platformSupportsAccountOutboundOverrides platform);
      cbn [v_header_overrides_text v_base_url v_oauth_type v_header_override_enabled s_api_key s_email s_refresh_token s_id_token
           s_client_id s_scope s_token_type s_subject s_team_id s_subscription_tier s_entitlement_status no_secrets];
      [unfold parseHeaderOverrides; rewrite (parse_record_text show _ _ Hh Hr)|]; rewrite Hg, !Hs, Hb; [|done].
    cbn [v_base_url account_with_status accountToFormValues]. by rewrite (trimmed_trim _ Hu).
Qed.

(** The record of the headers is read by a form with another credential than the cookie, on
    a platform that has overrides. *)
Definition reads_headers (v : AccountPoolAccountFormValues) (platform : option jsstr) : bool :=
  negb (v_credential_type v =s? js "grok_web_cookie") && platformSupportsAccountOutboundOverrides platform.

Lemma credential_spec v platform :
  match buildCredentialPayload v platform with
  | inl c => if reads_headers v platform
             then exists fs, c_header_overrides c = Some fs /\ record_of (v_header_overrides_text v) fs
             else c_header_overrides c = None
  | inr e => e = HEADER_OVERRIDES_ERROR /\ reads_headers v platform = true /\ ~ good_record (v_header_overrides_text v)
  end.
Proof.
  unfold buildCredentialPayload, reads_headers. destruct (v_credential_type v =s? js "grok_web_cookie"); [done|].
  destruct (platformSupportsAccountOutboundOverrides platform); cbn [negb andb]; [|done].
  destruct (parseHeaderOverrides (v_header_overrides_text v)) as [fs|e] eqn:E.
  - apply parse_record_inl in E. by exists fs.
  - by apply parse_record_inr in E as [-> Hg].
Qed.

(** ** Claims *)

(** The numbers of a form are numbers of the language. *)
Definition form_numbers (v : AccountPoolAccountFormValues) : list jsnum :=
  [v_priority v; v_weight v; v_max_concurrency v; v_request_quota v; v_quota_window v; v_expires_at v; v_proxy_id v;
   v_last_used_at v; v_rate_limited_until v; v_temp_disabled_until v; s_token_expires_at (v_secrets v); s_token_version (v_secrets v)].

(** C33: the request of an account form fails exactly when the header overrides, where they are
    read, or the model mapping are neither blank nor a JSON object of texts, and the headers are
    reported first.  Any other request holds the records the texts describe, trimmed texts,
    whole numbers, limits and quotas that are not negative and distinct names of models. *)
Theorem account_request_spec v platform :
  Forall (fun n => num_valid n = true) (form_numbers v) ->
  match buildAccountPayload v platform with
  | inr e =>
      (e = HEADER_OVERRIDES_ERROR /\ reads_headers v platform = true /\ ~ good_record (v_header_overrides_text v)) \/
      (e = MODEL_MAPPING_ERROR /\ (reads_headers v platform = true -> good_record (v_header_overrides_text v)) /\
       ~ good_record (v_model_mapping_text v))
  | inl q =>
      (reads_headers v platform = true -> exists fs, c_header_overrides (q_credential q) = Some fs /\
         record_of (v_header_overrides_text v) fs) /\
      (reads_headers v platform = false -> c_header_overrides (q_credential q) = None) /\
      record_of (v_model_mapping_text v) (q_model_mapping q) /\
      Forall trimmed [q_name q; q_identifier q; q_access_token q; q_refresh_token q; q_temp_disabled_reason q; q_last_error q] /\
      Forall whole_number [q_priority q; q_weight q; q_proxy_id q; q_last_used_at q; q_rate_limited_until q;
                           q_temp_disabled_until q; q_token_expires_at q; q_token_version q] /\
      Forall natural_number [q_max_concurrency q; q_request_quota q; q_quota_window q; q_expires_at q] /\
      model_list (q_supported_models q) /\ q_status q <> []
  end.
Proof.
  unfold form_numbers. rewrite !Forall_cons. intros Hn. decompose [and] Hn. clear Hn.
  unfold buildAccountPayload. pose proof (credential_spec v platform) as Hc.
  destruct (buildCredentialPayload v platform) as [c|e]; [|by left].
  destruct (parseModelMapping (v_model_mapping_text v)) as [fs|e] eqn:E.
  - apply parse_record_inl in E. cbn. split_and!; try done.
    + intros Hr. by rewrite Hr in Hc.
    + intros Hr. by rewrite Hr in Hc.
    + rewrite !Forall_cons. split_and!; first [apply trim_trimmed|done].
    + rewrite !Forall_cons. split_and!; first [by apply toInteger_sound|done].
    + rewrite !Forall_cons. split_and!; first [by apply at_least_0_sound|done].
    + apply model_list_sound.
    + unfold str_or. destruct (truthy (v_status v)) eqn:Et; [by apply truthy_true|done].
  - apply parse_record_inr in E as [-> Hg]. right. split_and!; [done| |done]. intros Hr. rewrite Hr in Hc.
    destruct Hc as (gs & _ & Hgs). by exists gs.
Qed.

(** C23: changing the status of a stored account sends the account back as it is stored, under
    the new status (enabled when none is given): names, limits, models, mapping and overrides are
    unchanged, no secret and no token is sent. *)
Theorem status_change_keeps_account show a status platform :
  account_ok show a -> update_status show a status platform = inl (kept_request a status platform).
Proof.
  intros Hok. unfold update_status, buildAccountPayload. rewrite (kept_credential_spec show a platform status Hok).
  destruct Hok as [Ht Hw Hn Hm [Hf Hr] _]. cbn [v_model_mapping_text account_with_status accountToFormValues].
  unfold parseModelMapping. rewrite (parse_record_text show _ _ Hf Hr). rewrite !Forall_cons in Ht. rewrite !Forall_cons in Hw. rewrite !Forall_cons in Hn.
  decompose [and] Ht. decompose [and] Hw. decompose [and] Hn. clear Ht Hw Hn.
  unfold kept_request. cbn [v_name v_identifier v_secrets v_status v_priority v_weight v_max_concurrency v_request_quota v_quota_window
    v_expires_at v_auto_pause v_proxy_id v_supported_models_text v_last_used_at v_rate_limited_until v_temp_disabled_until
    v_temp_disabled_reason v_last_error account_with_status accountToFormValues].
  rewrite !trimmed_trim, !toInteger_whole, !at_least_0_natural, model_list_kept by done. done.
Qed.

(** *** Pools and proxies *)

(** A stored pool opened and saved unchanged is sent back as it is stored. *)
Theorem pool_saved_unchanged p :
  trimmed (pool_name p) -> trimmed (pool_remark p) -> pool_platform p <> [] -> pool_check_mode p <> [] ->
  pool_default_schedule_policy p ∈ [[]; js "random"; js "round_robin"] -> model_list (pool_check_models p) ->
  Forall whole_number [pool_default_proxy_id p; pool_check_interval_minutes p; pool_check_channel_id p; pool_check_timeout_seconds p] ->
  num_truthy (pool_check_interval_minutes p) = true -> num_truthy (pool_check_timeout_seconds p) = true ->
  pool_check_channel_id p = num 0 \/ num_truthy (pool_check_channel_id p) = true ->
  buildPoolPayload (poolToFormValues p) = p.
Proof.
  intros Hn Hr Hp Hm Hs Hl Hw Hi Ht Hc. rewrite !Forall_cons in Hw. destruct Hw as (W1 & W2 & W3 & W4 & _).
  apply truthy_true in Hp, Hm. unfold buildPoolPayload, poolToFormValues.
  cbn [pf_name pf_platform pf_default_proxy_id pf_default_monitor_enabled pf_default_schedule_policy pf_check_enabled
    pf_check_interval_minutes pf_check_mode pf_check_channel_id pf_check_models_text pf_check_timeout_seconds pf_check_merge pf_remark].
  assert (Ec : num_or (pool_check_channel_id p) (num 0) = pool_check_channel_id p).
  { unfold num_or. by destruct Hc as [->| ->]. }
  rewrite Ec. unfold str_or, num_or. rewrite Hi, Ht, Hp, Hm. cbn [truthy]. rewrite Hm.
  rewrite !trimmed_trim, !toInteger_whole, model_list_kept by done.
  assert (Es : normalizeOptionalAccountPoolSchedulePolicy (normalizeOptionalAccountPoolSchedulePolicy (pool_default_schedule_policy p))
               = pool_default_schedule_policy p).
  { rewrite !elem_of_cons in Hs. by destruct Hs as [->|[->|[->|[]%not_elem_of_nil]]]. }
  rewrite Es. by destruct p.
Qed.

(** ** Witnesses *)

Definition example_account : AccountPoolAccount :=
  mkAccount (js "main") (js "acct-1") (Some (js "api_key")) (js "enabled") [] (num 2) (num 1) (num 4) (num 0) (num 3600) (num 0)
    true (num 7) [js "gpt-4o"; js "o3"] [(js "gpt-4", JString (js "gpt-4o"))] (num 0) (num 0) (num 0) [] []
    true (Some (js "https://api.example.com")) (Some true) (Some [(js "X-Team", JString (js "core"))]).

Lemma status_change_keeps_account_witness :
  update_status show_int example_account (js "disabled") (Some (js "openai"))
  = inl (kept_request example_account (js "disabled") (Some (js "openai"))).
Proof.
  apply (status_change_keeps_account show_int example_account). split; try by vm_compute.
  - repeat (apply Forall_cons; split; [by vm_compute|]). by apply Forall_nil.
  - repeat (apply Forall_cons; split; [by vm_compute|]). by apply Forall_nil.
  - repeat (apply Forall_cons; split; [split; [by vm_compute|first [by left; vm_compute|by right; vm_compute]]|]). by apply Forall_nil.
  - split; [by_decision|].
    repeat (apply Forall_cons; split; [split; [by vm_compute|split; [done|]]; repeat (apply Forall_cons; split; [done|]); by apply Forall_nil|]).
    by apply Forall_nil.
Defined.

(** A mapping that is not an object is refused. *)
Definition example_form : AccountPoolAccountFormValues :=
  mkAccountForm (js " main ") (js "acct-1") (js "api_key") [] no_secrets [] false [] (js "enabled") (num 0) (num 1) (num (-3)) (num 0)
    (num 0) (num 0) false (num 0) (js "gpt-4o, o3") (js "[1]") (num 0) (num 0) (num 0) [] [].

Lemma account_request_spec_witness :
  buildAccountPayload example_form (Some (js "openai")) = inr MODEL_MAPPING_ERROR /\ ~ good_record (v_model_mapping_text example_form).
Proof.
  assert (E : buildAccountPayload example_form (Some (js "openai")) = inr MODEL_MAPPING_ERROR) by (by vm_compute).
  split; [exact E|].
  pose proof (account_request_spec example_form (Some (js "openai"))) as H. rewrite E in H.
  destruct H as [(He & _)|(_ & _ & Hg)]; [|done|exact Hg].
  repeat (apply Forall_cons; split; [by vm_compute|]). by apply Forall_nil.
Defined.
