(* ===== verification/NavConfig.v ===== *)
(** * Settings of the navigation

    web/src/features/system-settings/maintenance/config.ts: the settings editor reads and
    writes which entries of the top navigation and of the sidebar are shown.  Both settings
    are stored as JSON text.  The forms around it, header-navigation-section.tsx and
    sidebar-modules-section.tsx, are opened by site/section-registry.tsx with the parsed
    setting and its text.

    A configuration is an object with an entry for every key, so it is modelled by its fields
    in their order; a field is written with [obj_set].  Keys that name a member of
    [Object.prototype] are not considered: objects have their own fields only. *)

From S2P Require Import Prelude JsValue Json JsText.

Local Open Scope N_scope.

Abbreviation fields := (list (jsstr * jsval)).

(** [Object.entries(value)]; it throws on [null] and [undefined]. *)
Fixpoint indexed (i : N) (l : list jsval) : fields :=
  match l with [] => [] | v :: l' => (show_dec i, v) :: indexed (i + 1) l' end.

Definition entries (value : jsval) : option fields :=
  match value with
  | JUndefined | JNull => None
  | JObject fs => Some fs
  | JArray l => Some (indexed 0 l)
  | JString s => Some (indexed 0 ((fun c => JString [c]) <$> s))
  | JBool _ | JNumber _ => Some []
  end.

(** Access to a page: [HeaderNavAccessConfig] here, [ModuleAccess] in nav-modules.ts. *)
Record HeaderNavAccessConfig := mkAccess { enabled : bool; requireAuth : bool }.
Definition access_value (a : HeaderNavAccessConfig) : jsval :=
  JObject [(js "enabled", JBool (enabled a)); (js "requireAuth", JBool (requireAuth a))].

Definition default_access : HeaderNavAccessConfig := mkAccess true false.

Definition HEADER_NAV_DEFAULT : fields :=
  [(js "home", JBool true); (js "console", JBool true); (js "pricing", access_value default_access);
   (js "rankings", access_value default_access); (js "docs", JBool true); (js "about", JBool true)].

(** A section of the sidebar with all its modules shown. *)
Definition all_shown (modules : list string) : jsval :=
  JObject ((js "enabled", JBool true) :: ((fun m => (js m, JBool true)) <$> modules)).

Definition SIDEBAR_MODULES_DEFAULT : fields :=
  [(js "chat", all_shown ["playground"; "chat"]%string);
   (js "console", all_shown ["detail"; "token"; "log"; "midjourney"; "task"]%string);
   (js "personal", all_shown ["topup"; "personal"]%string);
   (js "admin", all_shown ["channel"; "models"; "redemption"; "user"; "setting"; "subscription"]%string)].

Definition toBoolean (value : jsval) (fallback : bool) : bool :=
  match value with
  | JBool b => b
  | JNumber n => num_eqb n (num 1)
  | JString s =>
      let normalized := lower_ascii (trim s) in
      if (normalized =s? js "true") || (normalized =s? js "1") then true
      else if (normalized =s? js "false") || (normalized =s? js "0") then false
      else fallback
  | _ => fallback
  end.

Definition parseAccessModule (raw : jsval) (fallback : HeaderNavAccessConfig) : HeaderNavAccessConfig :=
  match raw with
  | JBool _ | JString _ | JNumber _ => mkAccess (toBoolean raw (enabled fallback)) (requireAuth fallback)
  | JObject _ | JArray _ =>
      mkAccess (toBoolean (field "enabled" raw) (enabled fallback)) (toBoolean (field "requireAuth" raw) (requireAuth fallback))
  | JUndefined | JNull => fallback
  end.

(** ** Top navigation *)

(** One entry of the stored object; the defaults are the fall-back. *)
Definition read_entry (result : fields) (entry : jsstr * jsval) : fields :=
  let '(key, raw) := entry in
  if key =s? js "pricing" then obj_set (js "pricing") (access_value (parseAccessModule raw default_access)) result
  else if key =s? js "rankings" then obj_set (js "rankings") (access_value (parseAccessModule raw default_access)) result
  else match raw with
       | JBool b => obj_set key (JBool b) result
       | JString _ | JNumber _ => obj_set key (JBool (toBoolean raw (js_truthy (assoc key HEADER_NAV_DEFAULT)))) result
       | _ => result
       end.

Definition parseHeaderNavModules (value : option jsstr) : fields :=
  let base := HEADER_NAV_DEFAULT in
  match value with
  | None | Some [] => base
  | Some text =>
      match JSON_parse text ≫= entries with
      | Some es => foldl read_entry base es
      | None => base
      end
  end.

(** ** Sidebar *)

(** [section[module] ?? true] on a section of booleans. *)
Definition flag_or_true (value : jsval) : bool := match value with JBool b => b | _ => true end.

Definition read_section (section : jsstr) (raw : jsval) : jsval :=
  let defaultSection := match assoc section SIDEBAR_MODULES_DEFAULT with JObject fs => fs | _ => [(js "enabled", JBool true)] end in
  JObject (foldl (fun sectionConfig '(moduleKey, moduleValue) =>
                    if moduleKey =s? js "enabled" then sectionConfig
                    else obj_set moduleKey (JBool (toBoolean moduleValue (flag_or_true (assoc moduleKey defaultSection)))) sectionConfig)
             [(js "enabled", JBool (toBoolean (field "enabled" raw) (flag_or_true (assoc (js "enabled") defaultSection))))]
             (default [] (entries raw))).

Definition read_sections (parsed : fields) : fields :=
  foldl (fun result '(sectionKey, raw) =>
           match raw with
           | JObject _ | JArray _ => obj_set sectionKey (read_section sectionKey raw) result
           | _ => result
           end) [] parsed.

(** Sections and modules that are missing are taken from the defaults. *)
Definition add_module (section : fields) (entry : jsstr * jsval) : fields :=
  if has_key entry.1 section then section else obj_set entry.1 entry.2 section.

Definition add_section (result : fields) (entry : jsstr * jsval) : fields :=
  let '(sectionKey, config) := entry in
  match assoc sectionKey result with
  | JObject section => obj_set sectionKey (JObject (foldl add_module section (default [] (entries config)))) result
  | _ => obj_set sectionKey config result
  end.

Definition parseSidebarModulesAdmin (value : option jsstr) : fields :=
  let defaults := SIDEBAR_MODULES_DEFAULT in
  match value with
  | None => defaults
  | Some text =>
      if trim text =s? [] then defaults
      else match JSON_parse text ≫= entries with
           | Some es => foldl add_section (read_sections es) defaults
           | None => defaults
           end
  end.

Section Serialize.
Variable show : jsnum -> jsstr.
Definition serializeHeaderNavModules (config : fields) : jsstr := stringify show (JObject config).
Definition serializeSidebarModulesAdmin (config : fields) : jsstr := stringify show (JObject config).
End Serialize.

(** ** Forms *)

Record HeaderNavFormValues := mkHeaderForm {
  home : bool; console : bool; pricingEnabled : bool; pricingRequireAuth : bool; rankingsEnabled : bool;
  rankingsRequireAuth : bool; docs : bool; about : bool }.

(** [value === undefined ? fallback : Boolean(value)] *)
Definition shown_or (value : jsval) (fallback : bool) : bool :=
  match value with JUndefined => fallback | _ => js_truthy value end.

Definition toFormValues (config : fields) : HeaderNavFormValues :=
  let pricing := assoc (js "pricing") config in
  let rankings := assoc (js "rankings") config in
  mkHeaderForm (shown_or (assoc (js "home") config) true) (shown_or (assoc (js "console") config) true)
    (shown_or (field "enabled" pricing) true) (shown_or (field "requireAuth" pricing) false)
    (shown_or (field "enabled" rankings) true) (shown_or (field "requireAuth" rankings) false)
    (shown_or (assoc (js "docs") config) true) (shown_or (assoc (js "about") config) true).

(** The access of a page with the two switches of the form. *)
Definition with_switches (value : jsval) (on auth : bool) : jsval :=
  let own := match value with JObject fs => fs | _ => [(js "enabled", JBool true); (js "requireAuth", JBool false)] end in
  JObject (obj_set (js "requireAuth") (JBool auth) (obj_set (js "enabled") (JBool on) own)).

Definition header_payload (config : fields) (values : HeaderNavFormValues) : fields :=
  let set k v c := obj_set (js k) v c in
  set "rankings" (with_switches (assoc (js "rankings") config) (rankingsEnabled values) (rankingsRequireAuth values))
   (set "pricing" (with_switches (assoc (js "pricing") config) (pricingEnabled values) (pricingRequireAuth values))
    (set "about" (JBool (about values)) (set "docs" (JBool (docs values)) (set "console" (JBool (console values))
     (set "home" (JBool (home values)) config))))).

(** The form of the sidebar has a switch for every entry of every section of the opened setting. *)
Definition switched (choose : jsstr -> jsstr -> bool) (config : fields) : fields :=
  (fun '(sectionKey, sectionConfig) =>
     (sectionKey, JObject ((fun '(moduleKey, _) => (moduleKey, JBool (choose sectionKey moduleKey))) <$> default [] (entries sectionConfig))))
  <$> config.

Section Submit.
Variable show : jsnum -> jsstr.

(** What is saved: nothing when the text is that of the opened setting. *)
Definition submit (serialized initialSerialized : jsstr) : option jsstr :=
  if serialized =s? initialSerialized then None else Some serialized.

(** The form opened on the stored setting and submitted with the given switches. *)
Definition save_header (stored : option jsstr) (values : HeaderNavFormValues) : option jsstr :=
  let headerNavConfig := parseHeaderNavModules stored in
  let headerNavSerialized := serializeHeaderNavModules show headerNavConfig in
  submit (serializeHeaderNavModules show (header_payload headerNavConfig values)) headerNavSerialized.

Definition save_sidebar (stored : option jsstr) (values : fields) : option jsstr :=
  let sidebarConfig := parseSidebarModulesAdmin stored in
  submit (serializeSidebarModulesAdmin show values) (serializeSidebarModulesAdmin show sidebarConfig).
End Submit.
