(* ===== verification/NavModules.v ===== *)
(** * Navigation shown to visitors

    web/src/lib/nav-modules.ts and web/src/hooks/use-top-nav-links.ts read the top navigation
    from the status of the server, the routes of web/src/routes/pricing and
    web/src/routes/rankings guard their pages with it, and web/src/hooks/use-sidebar-config.ts
    filters the sidebar by the settings of the administrator and of the user.

    The status is an unknown value; its copy in local storage is a text that may be absent. *)

From S2P Require Import Prelude JsValue Json JsText NavConfig.

Local Open Scope N_scope.

(** [value[key]]; texts and arrays have none of the keys read here. *)
Definition read_key (key : jsstr) (value : jsval) : jsval := match value with JObject fs => assoc key fs | _ => JUndefined end.

(** [value === true] and [value === false] *)
Definition is_on (value : jsval) : bool := match value with JBool true => true | _ => false end.
Definition is_off (value : jsval) : bool := match value with JBool false => true | _ => false end.

(** ** Top navigation *)

Abbreviation ModuleAccess := HeaderNavAccessConfig.

Definition DEFAULT_HEADER_NAV_MODULES : fields :=
  [(js "home", JBool true); (js "console", JBool true); (js "pricing", access_value default_access);
   (js "rankings", access_value default_access); (js "docs", JBool true); (js "about", JBool true)].

Definition parseHeaderNavBoolean (raw : jsval) (fallback : bool) : bool :=
  match raw with
  | JBool b => b
  | JNumber n => if num_eqb n (num 1) then true else if num_eqb n (num 0) then false else fallback
  | JString s =>
      let normalized := lower_ascii (trim s) in
      if (normalized =s? js "true") || (normalized =s? js "1") then true
      else if (normalized =s? js "false") || (normalized =s? js "0") then false
      else fallback
  | _ => fallback
  end.

Definition parseAccess (raw : jsval) (fallback : ModuleAccess) : ModuleAccess :=
  match raw with
  | JBool _ | JNumber _ | JString _ => mkAccess (parseHeaderNavBoolean raw (enabled fallback)) (requireAuth fallback)
  | JObject _ | JArray _ =>
      mkAccess (parseHeaderNavBoolean (field "enabled" raw) (enabled fallback))
        (parseHeaderNavBoolean (field "requireAuth" raw) (requireAuth fallback))
  | JUndefined | JNull => fallback
  end.

(** An access that was written by [access_value]. *)
Definition access_of (value : jsval) : option ModuleAccess :=
  match field "enabled" value, field "requireAuth" value with
  | JBool e, JBool r => Some (mkAccess e r)
  | _, _ => None
  end.

Section Site.
Variable show : jsnum -> jsstr.

Definition parseHeaderNavRecord (raw : jsval) : jsval :=
  if negb (js_truthy raw) || (trim (js_string show raw) =s? []) then JNull
  else match raw with
       | JObject _ | JArray _ => raw
       | _ => default JNull (JSON_parse (js_string show raw))
       end.

(** One entry of the setting; what is known so far is the fall-back. *)
Definition site_entry (result : fields) (entry : jsstr * jsval) : fields :=
  let '(key, value) := entry in
  let page name := obj_set (js name) (access_value (parseAccess value (default default_access (access_of (assoc (js name) result))))) result in
  if key =s? js "pricing" then page "pricing"%string
  else if key =s? js "rankings" then page "rankings"%string
  else match assoc key result, value with
       | JBool fallback, _ => obj_set key (JBool (parseHeaderNavBoolean value fallback)) result
       | _, (JBool _ | JNumber _ | JString _) => obj_set key (JBool (parseHeaderNavBoolean value true)) result
       | _, _ => result
       end.

Definition parseHeaderNavModules (raw : jsval) : fields :=
  let parsed := parseHeaderNavRecord raw in
  if negb (js_truthy parsed) then DEFAULT_HEADER_NAV_MODULES
  else foldl site_entry DEFAULT_HEADER_NAV_MODULES (default [] (entries parsed)).

Definition parseHeaderNavModulesFromStatus (status : jsval) : fields := parseHeaderNavModules (field "HeaderNavModules" status).

(** *** Access to pages *)

Inductive HeaderNavModule := rankings | pricing.
Definition page_key (module : HeaderNavModule) : jsstr := match module with rankings => js "rankings" | pricing => js "pricing" end.

Definition getModuleAccessFromStatus (status : jsval) (module : HeaderNavModule) : ModuleAccess :=
  default default_access (access_of (assoc (page_key module) (parseHeaderNavModulesFromStatus status))).

(** The entry of local storage, and whether it can be read and written. *)
Record storage := mkStorage { stored_status : option jsstr; readable : bool; writable : bool }.

Definition getCachedStatus (st : storage) : jsval :=
  if negb (readable st) then JNull
  else match stored_status st with
       | None | Some [] => JNull
       | Some raw => default JNull (JSON_parse raw)
       end.

Definition cacheStatus (status : jsval) (st : storage) : storage :=
  if js_truthy status && writable st then mkStorage (Some (stringify show status)) (readable st) (writable st) else st.

Definition getModuleAccess (module : HeaderNavModule) (st : storage) : ModuleAccess :=
  getModuleAccessFromStatus (getCachedStatus st) module.

(** [None]: the request for the status failed. *)
Definition getFreshModuleAccess (module : HeaderNavModule) (answer : option jsval) (st : storage) : ModuleAccess * storage :=
  match answer with
  | Some status => (getModuleAccessFromStatus status module, cacheStatus status st)
  | None => (mkAccess false true, st)
  end.

(** The guard of the routes /pricing and /rankings. *)
Inductive Outcome := Opens | ToHome | ToSignIn.
Definition beforeLoad (module : HeaderNavModule) (answer : option jsval) (signed_in : bool) (st : storage) : Outcome * storage :=
  let '(access, st') := getFreshModuleAccess module answer st in
  (if negb (enabled access) then ToHome
   else if requireAuth access && negb signed_in then ToSignIn
   else Opens, st').

(** *** Links *)

Record TopNavLink := mkLink { title : jsstr; href : jsval; requiresAuth : option bool; external : option bool }.

Definition useTopNavLinks (status : jsval) (isAuthed : bool) : list TopNavLink :=
  let modules := parseHeaderNavModulesFromStatus status in
  let docsLink := field "docs_link" status in
  let shown key := negb (is_off (assoc (js key) modules)) in
  let page name label path :=
    match assoc (js name) modules with
    | JObject fs => if js_truthy (assoc (js "enabled") fs)
                    then [mkLink (js label) (JString (js path)) (Some (js_truthy (assoc (js "requireAuth") fs) && negb isAuthed)) None]
                    else []
    | _ => []
    end in
  (if shown "home"%string then [mkLink (js "Home") (JString (js "/")) None None] else [])
  ++ (if shown "console"%string then [mkLink (js "Console") (JString (js "/dashboard")) None None] else [])
  ++ page "pricing"%string "Model Square"%string "/pricing"%string
  ++ page "rankings"%string "Rankings"%string "/rankings"%string
  ++ (if shown "docs"%string
      then if js_truthy docsLink then [mkLink (js "Docs") docsLink None (Some true)]
           else [mkLink (js "Docs") (JString (js "/docs")) None None]
      else [])
  ++ (if shown "about"%string then [mkLink (js "About") (JString (js "/about")) None None] else []).

(** ** Sidebar *)

(** The guard of pages by the copy of the status. *)
Definition isSidebarModuleEnabled (section module : jsstr) (st : storage) : bool :=
  let status := getCachedStatus st in
  if negb (js_truthy status) then true
  else
    let raw := field "SidebarModulesAdmin" status in
    if negb (js_truthy raw) || (trim (js_string show raw) =s? []) then true
    else match JSON_parse (js_string show raw) with
         | None | Some JNull => true
         | Some parsed =>
             let sectionConfig := read_key section parsed in
             if negb (js_truthy sectionConfig) then true
             else if is_off (read_key (js "enabled") sectionConfig) then false
             else negb (is_off (read_key module sectionConfig))
         end.
End Site.

Definition DEFAULT_SIDEBAR_MODULES : fields :=
  [(js "chat", all_shown ["playground"; "chat"]%string);
   (js "console", all_shown ["detail"; "token"; "log"; "midjourney"; "task"]%string);
   (js "personal", all_shown ["topup"; "personal"]%string);
   (js "admin", all_shown ["channel"; "models"; "redemption"; "user"; "setting"; "subscription"]%string)].

(** [{ ...a, ...b }]: the entries of [b] over those of [a]; nothing is spread from [null]. *)
Definition spread_over (a b : jsval) : fields :=
  foldl (fun fs '(k, v) => obj_set k v fs) (default [] (entries a)) (default [] (entries b)).

Definition fill_module (defaultSection section : fields) (moduleKey : jsstr) : fields :=
  match assoc moduleKey section with
  | JUndefined => obj_set moduleKey (assoc moduleKey defaultSection) section
  | _ => section
  end.

Definition merge_section (merged : fields) (entry : jsstr * jsval) : fields :=
  let '(sectionKey, defaultSection) := entry in
  let existingSection := assoc sectionKey merged in
  if negb (js_truthy existingSection) then obj_set sectionKey defaultSection merged
  else
    let own := default [] (entries defaultSection) in
    obj_set sectionKey (JObject (foldl (fill_module own) (spread_over defaultSection existingSection) own.*1)) merged.

Definition mergeWithDefaultSidebarModules (config : jsval) : fields :=
  foldl merge_section (spread_over (JObject []) config) DEFAULT_SIDEBAR_MODULES.

Definition parseSidebarConfig (value : option jsstr) : fields :=
  match value with
  | None => DEFAULT_SIDEBAR_MODULES
  | Some text =>
      if trim text =s? [] then DEFAULT_SIDEBAR_MODULES
      else match JSON_parse text with
           | Some parsed => mergeWithDefaultSidebarModules parsed
           | None => DEFAULT_SIDEBAR_MODULES
           end
  end.

Definition parseUserSidebarConfig (value : option jsstr) : option jsval :=
  match value with
  | None => None
  | Some text =>
      if trim text =s? [] then None
      else match JSON_parse text with
           | Some (JObject fs) => Some (JObject fs)
           | Some (JArray l) => Some (JArray l)
           | _ => None
           end
  end.

Definition URL_TO_CONFIG_MAP : list (jsstr * (jsstr * jsstr)) :=
  (fun '(url, section, module) => (js url, (js section, js module))) <$>
  [("/playground", "chat", "playground"); ("/dashboard", "console", "detail"); ("/dashboard/overview", "console", "detail");
   ("/dashboard/models", "console", "detail"); ("/dashboard/users", "console", "detail"); ("/keys", "console", "token");
   ("/usage-logs", "console", "log"); ("/usage-logs/common", "console", "log"); ("/usage-logs/drawing", "console", "midjourney");
   ("/usage-logs/task", "console", "task"); ("/wallet", "personal", "topup"); ("/profile", "personal", "personal");
   ("/channels", "admin", "channel"); ("/models", "admin", "models"); ("/models/metadata", "admin", "models");
   ("/models/deployments", "admin", "models"); ("/users", "admin", "user"); ("/redemption-codes", "admin", "redemption");
   ("/subscriptions", "admin", "subscription"); ("/system-settings", "admin", "setting");
   ("/system-settings/site", "admin", "setting")]%string.

Fixpoint url_entry (url : jsstr) (table : list (jsstr * (jsstr * jsstr))) : option (jsstr * jsstr) :=
  match table with [] => None | (u, e) :: table' => if url =s? u then Some e else url_entry url table' end.

(** The two layers on one module: the administrator allows, the user may only hide. *)
Definition admin_allows (section module : jsstr) (adminConfig : fields) : bool :=
  let adminSection := assoc section adminConfig in
  js_truthy adminSection && js_truthy (read_key (js "enabled") adminSection) && is_on (read_key module adminSection).

Definition user_keeps (section module : jsstr) (userConfig : option jsval) : bool :=
  match userConfig with
  | None => true
  | Some config =>
      let userSection := read_key section config in
      if negb (js_truthy userSection) then true
      else if is_off (read_key (js "enabled") userSection) then false
      else negb (is_off (read_key module userSection))
  end.

Definition isModuleEnabled (url : jsstr) (adminConfig : fields) (userConfig : option jsval) : bool :=
  match url_entry url URL_TO_CONFIG_MAP with
  | None => true
  | Some (section, module) =>
      if negb (admin_allows section module adminConfig) then false else user_keeps section module userConfig
  end.

(** An item of the sidebar: a link, a group of links or the chat presets. *)
Inductive NavItem :=
| NavLink (item_title url : jsstr) (configUrls : option (list jsstr))
| NavCollapsible (item_title : jsstr) (subItems : list (jsstr * jsstr))
| NavChatPresets (item_title : jsstr).

Record NavGroup := mkGroup { group_title : jsstr; group_items : list NavItem }.

Definition isNavItemVisible (item : NavItem) (adminConfig : fields) (userConfig : option jsval) : bool :=
  match item with
  | NavChatPresets _ =>
      if negb (admin_allows (js "chat") (js "chat") adminConfig) then false
      else user_keeps (js "chat") (js "chat") userConfig
  | NavLink _ url configUrls =>
      if truthy url then existsb (fun u => isModuleEnabled u adminConfig userConfig) (default [url] configUrls) else true
  | NavCollapsible _ subItems => existsb (fun sub => isModuleEnabled (snd sub) adminConfig userConfig) subItems
  end.

Definition filter_sub_items (adminConfig : fields) (userConfig : option jsval) (item : NavItem) : NavItem :=
  match item with
  | NavCollapsible t subItems => NavCollapsible t (filter (fun sub => isModuleEnabled (snd sub) adminConfig userConfig = true) subItems)
  | _ => item
  end.

Definition filterNavItems (items : list NavItem) (adminConfig : fields) (userConfig : option jsval) : list NavItem :=
  filter (fun item => isNavItemVisible item adminConfig userConfig = true) (filter_sub_items adminConfig userConfig <$> items).

(** The overlay of the user is skipped when the user cannot configure the sidebar. *)
Definition user_layer (sidebar_settings : option bool) (sidebar_modules : option jsstr) : option jsval :=
  if bool_decide (sidebar_settings = Some false) then None else parseUserSidebarConfig sidebar_modules.

Definition useSidebarConfig (navGroups : list NavGroup) (setting : option jsstr) (sidebar_settings : option bool)
    (sidebar_modules : option jsstr) : list NavGroup :=
  let adminConfig := parseSidebarConfig setting in
  let userConfig := user_layer sidebar_settings sidebar_modules in
  filter (fun group => group_items group <> [])
    ((fun group => mkGroup (group_title group) (filterNavItems (group_items group) adminConfig userConfig)) <$> navGroups).

Definition useIsSidebarModuleVisible (url : jsstr) (setting : option jsstr) (sidebar_settings : option bool)
    (sidebar_modules : option jsstr) : bool :=
  isModuleEnabled url (parseSidebarConfig setting) (user_layer sidebar_settings sidebar_modules).
