(* ===== verification/NavProofs.v ===== *)
(** * Properties of the navigation settings

    The top navigation and the sidebar are set in the editor (NavConfig) and read by the site
    (NavModules) with code of its own.  The theorems say that the site honours what the editor
    saves: links, guards of pages and entries of the sidebar follow the switches, and the
    settings of a user only hide what the administrator allows. *)

From S2P Require Import Prelude JsValue Json JsText NavConfig NavModules.

Local Open Scope N_scope.

(** ** Objects *)

Lemma obj_set_right k v fs gs : k ∉ fs.*1 -> obj_set k v (fs ++ gs) = fs ++ obj_set k v gs.
Proof.
  induction fs as [|[k' w] fs IH]; intros H; [done|]. rewrite fmap_cons, not_elem_of_cons in H. destruct H as [Hk H].
  cbn [app obj_set]. by rewrite (proj2 (str_eqb_neq k k')), IH.
Qed.

Lemma obj_set_left k v fs gs : k ∈ fs.*1 -> obj_set k v (fs ++ gs) = obj_set k v fs ++ gs.
Proof.
  induction fs as [|[k' w] fs IH]; intros H; [by apply not_elem_of_nil in H|]. rewrite fmap_cons, elem_of_cons in H.
  cbn [app obj_set]. destruct (k =s? k') eqn:E; [done|]. apply str_eqb_neq in E. cbn [app]. f_equal. apply IH. by destruct H.
Qed.

Lemma obj_set_bools k b fs :
  Forall (fun kv => is_bool kv.2 = true) fs -> Forall (fun kv => is_bool kv.2 = true) (obj_set k (JBool b) fs).
Proof.
  induction 1 as [|[k' v] fs Hv Hf IH]; cbn [obj_set]; [by apply Forall_singleton|].
  destruct (k =s? k'); by apply Forall_cons.
Qed.

(** A reader that appends switches it does not know copies a list of new switches. *)
Lemma fold_fresh (read : fields -> jsstr * jsval -> fields) (known : list jsstr) :
  (forall acc k b, k ∉ acc.*1 -> k ∉ known -> read acc (k, JBool b) = acc ++ [(k, JBool b)]) ->
  forall rest acc, Forall (fun kv => is_bool kv.2 = true) rest -> NoDup (acc ++ rest).*1 -> known ⊆ acc.*1 ->
  foldl read acc rest = acc ++ rest.
Proof.
  intros Hr rest. induction rest as [|[k v] rest IH]; intros acc Hb Hn Hk; cbn [foldl]; [by rewrite app_nil_r|].
  apply Forall_cons in Hb as [Hv Hb]. cbn [snd] in Hv. apply is_bool_inv in Hv as [b ->].
  assert (Hf : k ∉ acc.*1).
  { intros Hin. rewrite fmap_app in Hn. apply NoDup_app in Hn as (_ & Hd & _). apply (Hd k Hin). by left. }
  rewrite Hr by set_solver. rewrite IH; [by rewrite <- app_assoc|done|by rewrite <- app_assoc|].
  rewrite fmap_app. set_solver.
Qed.

(** ** Top navigation *)

(** The switches of the form as fields, in the order of the defaults. *)
Definition header_fields (v : HeaderNavFormValues) : fields :=
  [(js "home", JBool (home v)); (js "console", JBool (console v));
   (js "pricing", access_value (mkAccess (pricingEnabled v) (pricingRequireAuth v)));
   (js "rankings", access_value (mkAccess (rankingsEnabled v) (rankingsRequireAuth v)));
   (js "docs", JBool (docs v)); (js "about", JBool (about v))].

Definition header_keys : list jsstr := HEADER_NAV_DEFAULT.*1.
Definition flag_keys : list jsstr := [js "home"; js "console"; js "docs"; js "about"].

(** The known entries come first and all others are switches. *)
Definition header_shape (c : fields) : Prop :=
  exists v rest, c = header_fields v ++ rest /\ Forall (fun kv => is_bool kv.2 = true) rest /\ NoDup c.*1.

Lemma header_fields_keys v : (header_fields v).*1 = header_keys.
Proof. done. Qed.

Lemma set_flag k b v : k ∈ flag_keys -> exists v', obj_set k (JBool b) (header_fields v) = header_fields v'.
Proof.
  intros H. unfold flag_keys in H. rewrite !elem_of_cons in H. destruct v as [h c pe pr re rr d a].
  destruct H as [->|[->|[->|[->|[]%not_elem_of_nil]]]].
  - by exists (mkHeaderForm b c pe pr re rr d a).
  - by exists (mkHeaderForm h b pe pr re rr d a).
  - by exists (mkHeaderForm h c pe pr re rr b a).
  - by exists (mkHeaderForm h c pe pr re rr d b).
Qed.

Lemma set_page k a v :
  k ∈ [js "pricing"; js "rankings"] -> exists v', obj_set k (access_value a) (header_fields v) = header_fields v'.
Proof.
  intros H. rewrite !elem_of_cons in H. destruct v as [h c pe pr re rr d ab], a as [e r].
  destruct H as [->|[->|[]%not_elem_of_nil]].
  - by exists (mkHeaderForm h c e r re rr d ab).
  - by exists (mkHeaderForm h c pe pr e r d ab).
Qed.

Lemma shape_set_page k a c : k ∈ [js "pricing"; js "rankings"] -> header_shape c -> header_shape (obj_set k (access_value a) c).
Proof.
  intros Hk (v & rest & -> & Hb & Hn). destruct (set_page k a v Hk) as [v' E].
  assert (Hin : k ∈ (header_fields v).*1).
  { rewrite !elem_of_cons in Hk. rewrite header_fields_keys.
    destruct Hk as [->|[->|[]%not_elem_of_nil]]; by_decision. }
  exists v', rest. rewrite obj_set_left by done. rewrite E. split; [done|]. split; [done|].
  rewrite <- E, <- obj_set_left by done. by apply obj_set_NoDup.
Qed.

Lemma shape_set_flag k b c :
  k <> js "pricing" -> k <> js "rankings" -> header_shape c -> header_shape (obj_set k (JBool b) c).
Proof.
  intros Hp Hr (v & rest & -> & Hb & Hn). destruct (decide (k ∈ (header_fields v).*1)) as [Hin|Hin].
  - destruct (set_flag k b v) as [v' E].
    { rewrite header_fields_keys in Hin. unfold header_keys, HEADER_NAV_DEFAULT in Hin. cbn [fmap list_fmap fst] in Hin.
      unfold flag_keys. rewrite !elem_of_cons in *. tauto. }
    exists v', rest. rewrite obj_set_left by done. rewrite E. split; [done|]. split; [done|].
    rewrite <- E, <- obj_set_left by done. by apply obj_set_NoDup.
  - exists v, (obj_set k (JBool b) rest). rewrite obj_set_right by done. split; [done|]. split; [by apply obj_set_bools|].
    rewrite <- obj_set_right by done. by apply obj_set_NoDup.
Qed.

Lemma read_entry_shape c e : header_shape c -> header_shape (read_entry c e).
Proof.
  intros Hc. destruct e as [k raw]. unfold read_entry.
  destruct (k =s? js "pricing") eqn:Ep; [apply shape_set_page; [by left|done]|].
  destruct (k =s? js "rankings") eqn:Er; [apply shape_set_page; [right; by left|done]|].
  apply str_eqb_neq in Ep, Er. destruct raw; try done; by apply shape_set_flag.
Qed.

Lemma default_shape : header_shape HEADER_NAV_DEFAULT.
Proof.
  exists (mkHeaderForm true true true false true false true true), []. split; [done|]. split; [done|].
  by_decision.
Qed.

(** Whatever is stored, the editor opens a configuration of the shape. *)
Lemma opened_shape stored : header_shape (NavConfig.parseHeaderNavModules stored).
Proof.
  unfold NavConfig.parseHeaderNavModules. destruct stored as [[|c s]|]; try apply default_shape.
  destruct (JSON_parse (c :: s) ≫= entries) as [es|]; [|apply default_shape].
  generalize default_shape. generalize HEADER_NAV_DEFAULT. induction es as [|e es IH]; intros r Hr; [done|].
  cbn [foldl]. apply IH, read_entry_shape, Hr.
Qed.

Lemma payload_fields v rest values :
  header_payload (header_fields v ++ rest) values = header_fields values ++ rest.
Proof. by destruct v, values. Qed.

Lemma editor_reads v rest :
  Forall (fun kv => is_bool kv.2 = true) rest -> NoDup (header_fields v ++ rest).*1 ->
  foldl read_entry HEADER_NAV_DEFAULT (header_fields v ++ rest) = header_fields v ++ rest.
Proof.
  intros Hb Hn. rewrite foldl_app. replace (foldl read_entry HEADER_NAV_DEFAULT (header_fields v)) with (header_fields v) by (by destruct v).
  apply (fold_fresh _ header_keys); [|done|done|by rewrite header_fields_keys].
  intros acc k b Hk Hu. unfold read_entry.
  rewrite (proj2 (str_eqb_neq k (js "pricing"))), (proj2 (str_eqb_neq k (js "rankings"))); [by apply obj_set_fresh| |];
    intros ->; apply Hu; by_decision.
Qed.

Lemma assoc_absent_fields k (fs : fields) : k ∉ fs.*1 -> assoc k fs = JUndefined.
Proof.
  induction fs as [|[k' v] fs IH]; intros H; [done|]. rewrite fmap_cons, not_elem_of_cons in H. destruct H as [Hk H].
  cbn [assoc]. rewrite (proj2 (str_eqb_neq k k')) by done. by apply IH.
Qed.

Lemma site_reads v rest :
  Forall (fun kv => is_bool kv.2 = true) rest -> NoDup (header_fields v ++ rest).*1 ->
  foldl site_entry DEFAULT_HEADER_NAV_MODULES (header_fields v ++ rest) = header_fields v ++ rest.
Proof.
  intros Hb Hn. rewrite foldl_app.
  replace (foldl site_entry DEFAULT_HEADER_NAV_MODULES (header_fields v)) with (header_fields v) by (by destruct v).
  apply (fold_fresh _ header_keys); [|done|done|by rewrite header_fields_keys].
  intros acc k b Hk Hu. unfold site_entry.
  rewrite (proj2 (str_eqb_neq k (js "pricing"))), (proj2 (str_eqb_neq k (js "rankings")));
    [|intros ->; apply Hu; by_decision
     |intros ->; apply Hu; by_decision].
  rewrite assoc_absent_fields by done. by apply obj_set_fresh.
Qed.

Lemma header_ok show v rest :
  Forall (fun k => str_ok k = true) (header_fields v ++ rest).*1 -> Forall (fun kv => is_bool kv.2 = true) rest ->
  NoDup (header_fields v ++ rest).*1 -> fields_ok show (header_fields v ++ rest) = true.
Proof.
  intros Hs Hb Hn. apply fields_ok_iff. split; [|done]. apply Forall_forall. intros [k w] Hin.
  rewrite Forall_forall in Hs. split; [apply Hs; by apply (list_elem_of_fmap_2 fst _ (k, w))|].
  apply elem_of_app in Hin as [Hin|Hin].
  - unfold header_fields in Hin. rewrite !elem_of_cons in Hin. cbn [snd].
    by destruct Hin as [[= _ ->]|[[= _ ->]|[[= _ ->]|[[= _ ->]|[[= _ ->]|[[= _ ->]|[]%not_elem_of_nil]]]]]].
  - rewrite Forall_forall in Hb. specialize (Hb _ Hin). cbn [snd] in *. by apply is_bool_inv in Hb as [b ->].
Qed.

Lemma stringified_record show raw fs :
  fields_ok show fs = true -> raw = JString (stringify show (JObject fs)) -> parseHeaderNavRecord show raw = JObject fs.
Proof.
  intros Hok ->. pose proof (parse_fields show fs Hok) as Hp. unfold parseHeaderNavRecord. cbn [js_string js_truthy].
  assert (Ht : trim (stringify show (JObject fs)) = stringify show (JObject fs)) by (apply trimmed_trim, print_trimmed, Hok).
  rewrite Ht. destruct (stringify show (JObject fs)) as [|c s] eqn:E; [done|]. cbn [truthy negb orb].
  rewrite (proj2 (str_eqb_neq _ _)) by done. by rewrite Hp.
Qed.

(** *** What the site shows of the switches *)

Lemma site_page v rest module :
  access_of (assoc (page_key module) (header_fields v ++ rest)) =
  Some (match module with
        | pricing => mkAccess (pricingEnabled v) (pricingRequireAuth v)
        | rankings => mkAccess (rankingsEnabled v) (rankingsRequireAuth v)
        end).
Proof. by destruct module. Qed.

Definition switches (v : HeaderNavFormValues) : list (jsstr * bool) :=
  [(js "Home", home v); (js "Console", console v); (js "Model Square", pricingEnabled v); (js "Rankings", rankingsEnabled v);
   (js "Docs", docs v); (js "About", about v)].

Definition page_outcome (on auth signed_in : bool) : Outcome :=
  if on then if auth && negb signed_in then ToSignIn else Opens else ToHome.

Lemma link_titles show status isAuthed v rest :
  parseHeaderNavModulesFromStatus show status = header_fields v ++ rest ->
  title <$> useTopNavLinks show status isAuthed = (filter (fun kb => kb.2 = true) (switches v)).*1.
Proof.
  intros E. unfold useTopNavLinks. rewrite E. destruct v as [h c pe pr re rr d a].
  destruct (js_truthy (field "docs_link" status)); destruct h, c, pe, re, d, a; reflexivity.
Qed.

(** *** The claim *)

(** C27: a saved setting of the top navigation is what the visitors get.  When the form is opened
    on any stored setting and saved, the text that is stored opens again with the same switches;
    the site reads from it the very configuration the editor wrote, its links are those whose
    switch is on, in order, and the guards of the pages of prices and of rankings send visitors home from a
    page that is off, to the sign-in from one that needs an account, and open it otherwise.
    When the status cannot be fetched the guards close the pages. *)
Theorem header_settings_honoured show stored values text status signed_in st :
  Forall (fun k => str_ok k = true) (NavConfig.parseHeaderNavModules stored).*1 ->
  save_header show stored values = Some text -> field "HeaderNavModules" status = JString text ->
  NavConfig.parseHeaderNavModules (Some text) = header_payload (NavConfig.parseHeaderNavModules stored) values /\
  toFormValues (NavConfig.parseHeaderNavModules (Some text)) = values /\
  NavModules.parseHeaderNavModulesFromStatus show status = NavConfig.parseHeaderNavModules (Some text) /\
  title <$> useTopNavLinks show status signed_in = (filter (fun kb => kb.2 = true) (switches values)).*1 /\
  fst (beforeLoad show pricing (Some status) signed_in st) = page_outcome (pricingEnabled values) (pricingRequireAuth values) signed_in /\
  fst (beforeLoad show rankings (Some status) signed_in st) = page_outcome (rankingsEnabled values) (rankingsRequireAuth values) signed_in /\
  (forall module, beforeLoad show module None signed_in st = (ToHome, st)).
Proof.
  intros Hs Hsave Hstatus. destruct (opened_shape stored) as (v & rest & E & Hb & Hn). rewrite E in *.
  unfold save_header, submit in Hsave. rewrite E, payload_fields in Hsave.
  destruct (_ =s? _) in Hsave; [done|]. apply (inj Some) in Hsave as <-. rewrite payload_fields.
  unfold serializeHeaderNavModules in *.
  assert (Hn' : NoDup (header_fields values ++ rest).*1) by exact Hn.
  assert (Hok := header_ok show values rest Hs Hb Hn'). pose proof (parse_fields show _ Hok) as Hp.
  assert (Hedit : NavConfig.parseHeaderNavModules (Some (stringify show (JObject (header_fields values ++ rest))))
                  = header_fields values ++ rest).
  { unfold NavConfig.parseHeaderNavModules. destruct (stringify show _) as [|c s] eqn:Et; [done|].
    rewrite Hp. cbn [mbind option_bind entries]. by apply editor_reads. }
  assert (Hsite : parseHeaderNavModulesFromStatus show status = header_fields values ++ rest).
  { unfold parseHeaderNavModulesFromStatus, parseHeaderNavModules. rewrite (stringified_record show _ _ Hok Hstatus).
    cbn [js_truthy negb entries default]. by apply site_reads. }
  rewrite Hedit. split_and!; [done|by destruct values|done|by apply (link_titles show _ _ _ rest)| | |done].
  - unfold beforeLoad, getFreshModuleAccess, getModuleAccessFromStatus. rewrite Hsite, site_page. by destruct values as [? ? [] [] ? ? ? ?].
  - unfold beforeLoad, getFreshModuleAccess, getModuleAccessFromStatus. rewrite Hsite, site_page. by destruct values as [? ? ? ? [] [] ? ?].
Qed.

(** A setting that the editor does not write: the editor shows the page off and saves nothing
    when it is left off, the site shows it. *)
Lemma number_switch_differs :
  let stored := js "{" ++ [34] ++ js "docs" ++ [34] ++ js ":2}" in
  docs (toFormValues (NavConfig.parseHeaderNavModules (Some stored))) = false /\
  save_header show_int (Some stored) (toFormValues (NavConfig.parseHeaderNavModules (Some stored))) = None /\
  js "Docs" ∈ title <$> useTopNavLinks show_int (JObject [(js "HeaderNavModules", JString stored)]) false.
Proof. split; [by vm_compute|]. split; [by vm_compute|]. by_decision. Qed.

Definition stored_header : jsstr := stringify show_int (JObject [(js "pricing", JBool false); (js "forum", JBool true)]).
Definition chosen_header : HeaderNavFormValues := mkHeaderForm true false true true false false true true.
Definition saved_header : jsstr :=
  stringify show_int (JObject (header_payload (NavConfig.parseHeaderNavModules (Some stored_header)) chosen_header)).

Lemma header_settings_honoured_witness :
  fst (beforeLoad show_int pricing (Some (JObject [(js "HeaderNavModules", JString saved_header)])) false (mkStorage None true true)) = ToSignIn.
Proof.
  refine (proj1 (proj2 (proj2 (proj2 (proj2 (header_settings_honoured show_int (Some stored_header) chosen_header saved_header
    (JObject [(js "HeaderNavModules", JString saved_header)]) false (mkStorage None true true) _ _ _)))))); [|by vm_compute|by vm_compute].
  by_decision.
Defined.

(** ** Sidebar *)

(** *** The shape of the opened setting *)

Definition keys_of (v : jsval) : list jsstr := match v with JObject fs => fs.*1 | _ => [] end.
Definition switch_fields (fs : fields) : Prop := Forall (fun kv => is_bool kv.2 = true) fs.

(** A section: its own switch first, then those of its modules. *)
Definition section_shape (v : jsval) : Prop :=
  exists e rest, v = JObject ((js "enabled", JBool e) :: rest) /\ switch_fields rest /\ NoDup (js "enabled" :: rest.*1).

Definition sections_shape (c : fields) : Prop := NoDup c.*1 /\ Forall (fun kv => section_shape kv.2) c.

(** A section of the configuration has a module. *)
Definition has_module (c : fields) (s m : jsstr) : Prop := exists fs, assoc s c = JObject fs /\ m ∈ fs.*1.

Lemma obj_set_Forall (P : jsval -> Prop) k v (fs : fields) :
  P v -> Forall (fun kv => P kv.2) fs -> Forall (fun kv => P kv.2) (obj_set k v fs).
Proof.
  intros Hv. induction 1 as [|[k' w] fs Hw Hf IH]; cbn [obj_set]; [by apply Forall_singleton|].
  destruct (k =s? k'); by apply Forall_cons.
Qed.

Lemma sections_set k v c : section_shape v -> sections_shape c -> sections_shape (obj_set k v c).
Proof. intros Hv [Hn Hf]. split; [by apply obj_set_NoDup|by apply obj_set_Forall]. Qed.

#[local] Instance JObject_inj : Inj (=) (=) JObject.
Proof. by intros a b [= ->]. Qed.

Lemma section_set m b fs :
  m <> js "enabled" -> section_shape (JObject fs) -> section_shape (JObject (obj_set m (JBool b) fs)).
Proof.
  intros Hm (e & rest & E & Hr & Hn). apply (inj JObject) in E as ->.
  exists e, (obj_set m (JBool b) rest). cbn [obj_set]. rewrite (proj2 (str_eqb_neq m (js "enabled"))) by done.
  split; [done|]. split; [by apply obj_set_bools|].
  apply NoDup_cons in Hn as [He Hn]. apply NoDup_cons. split; [|by apply obj_set_NoDup]. rewrite obj_set_keys. by intros [H|].
Qed.

Lemma read_section_shape s raw : section_shape (read_section s raw).
Proof.
  unfold read_section. set (d := match assoc s _ with JObject _ => _ | _ => _ end).
  assert (Hg : forall es fs, section_shape (JObject fs) -> section_shape (JObject (foldl (fun sectionConfig '(moduleKey, moduleValue) =>
      if moduleKey =s? js "enabled" then sectionConfig
      else obj_set moduleKey (JBool (toBoolean moduleValue (flag_or_true (assoc moduleKey d)))) sectionConfig) fs es))).
  { induction es as [|[k v] es IH]; intros fs Hf; [done|]. cbn [foldl]. apply IH.
    destruct (k =s? js "enabled") eqn:E; [done|]. apply str_eqb_neq in E. by apply section_set. }
  apply Hg. eexists _, []. split; [done|]. split; [by apply Forall_nil|apply NoDup_singleton].
Qed.

Lemma read_sections_shape es : sections_shape (read_sections es).
Proof.
  unfold read_sections. assert (H0 : sections_shape []) by (split; [apply NoDup_nil_2|by apply Forall_nil]).
  revert H0. generalize (@nil (jsstr * jsval)). induction es as [|[k raw] es IH]; intros r Hr; [done|]. cbn [foldl]. apply IH.
  destruct raw; try done; apply sections_set; try done; apply read_section_shape.
Qed.

Lemma add_module_spec section e m :
  m ∈ (add_module section e).*1 <-> m = e.1 \/ m ∈ section.*1.
Proof.
  unfold add_module, has_key. case_bool_decide as H; [|apply obj_set_keys]. split; [by right|]. by intros [->|].
Qed.

Lemma add_modules_keys es : forall section m,
  m ∈ (foldl add_module section es).*1 <-> m ∈ section.*1 \/ m ∈ es.*1.
Proof.
  induction es as [|e es IH]; intros section m; cbn [foldl]; [rewrite fmap_nil; set_solver|].
  rewrite IH, add_module_spec, fmap_cons, elem_of_cons. tauto.
Qed.

Lemma add_modules_shape es : forall section,
  switch_fields es -> section_shape (JObject section) -> section_shape (JObject (foldl add_module section es)).
Proof.
  induction es as [|[k v] es IH]; intros section Hb Hs; [done|]. apply Forall_cons in Hb as [Hv Hb]. cbn [snd] in Hv.
  apply is_bool_inv in Hv as [b ->]. cbn [foldl]. apply IH; [done|]. unfold add_module, has_key. cbn [fst snd].
  case_bool_decide as H; [done|]. apply section_set; [|done]. intros ->. apply H.
  destruct Hs as (e & rest & E & _). injection E as ->. by left.
Qed.

(** The defaults: sections of switches with their own switch first. *)
Lemma defaults_shape : sections_shape SIDEBAR_MODULES_DEFAULT.
Proof.
  split; [by_decision|]. unfold SIDEBAR_MODULES_DEFAULT. repeat (apply Forall_cons; split; [|]); try by apply Forall_nil.
  all: cbn [snd]; eexists _, _; split; [reflexivity|]; split; [repeat (apply Forall_cons; split; [done|]); by apply Forall_nil|by_decision].
Qed.

Lemma section_switches fs : section_shape (JObject fs) -> switch_fields fs /\ NoDup fs.*1.
Proof. intros (e & rest & [= ->] & Hr & Hn). split; [by apply Forall_cons|done]. Qed.

Lemma assoc_elem k (c : fields) : assoc k c = JUndefined \/ (k, assoc k c) ∈ c.
Proof.
  induction c as [|[k' v] c IH]; cbn [assoc]; [by left|]. destruct (k =s? k') eqn:E.
  - apply str_eqb_eq in E as ->. right. by left.
  - destruct IH as [IH|IH]; [by left|]. right. by right.
Qed.

Lemma section_of c k : sections_shape c -> assoc k c = JUndefined \/ section_shape (assoc k c).
Proof.
  intros [_ Hf]. destruct (assoc_elem k c) as [H|H]; [by left|right]. rewrite Forall_forall in Hf. by apply (Hf (k, assoc k c)).
Qed.

Lemma add_section_step c s d :
  sections_shape c -> section_shape d ->
  sections_shape (add_section c (s, d)) /\ (forall m, m ∈ keys_of d -> has_module (add_section c (s, d)) s m) /\
  (forall s' m, has_module c s' m -> has_module (add_section c (s, d)) s' m).
Proof.
  intros Hc Hd. assert (Hd' := Hd). destruct Hd as (e & ds & -> & Hds & Hdn). unfold add_section. cbn [entries default keys_of].
  destruct (section_of c s Hc) as [E|(e' & rest & E & Hr & Hn)]; rewrite E.
  - split; [by apply sections_set|]. split.
    + intros m Hm. exists ((js "enabled", JBool e) :: ds). by rewrite assoc_set_eq.
    + intros s' m (fs & Hs & Hm). exists fs. split; [|done]. rewrite assoc_set_ne; [done|]. intros ->. by rewrite E in Hs.
  - set (merged := foldl add_module _ _). split; [|split].
    + apply sections_set; [|done]. apply add_modules_shape; [by apply Forall_cons|by exists e', rest].
    + intros m Hm. exists merged. split; [apply assoc_set_eq|]. apply add_modules_keys. by right.
    + intros s' m (fs & Hs & Hm). destruct (decide (s' = s)) as [->|Hne].
      * exists merged. split; [apply assoc_set_eq|]. apply add_modules_keys. left. rewrite E in Hs. by injection Hs as <-.
      * exists fs. by rewrite assoc_set_ne.
Qed.

(** Every module of the defaults is there. *)
Definition all_modules (c : fields) : Prop :=
  forall s d m, (s, d) ∈ SIDEBAR_MODULES_DEFAULT -> m ∈ keys_of d -> has_module c s m.

Lemma add_sections_spec ds : forall c,
  sections_shape c -> Forall (fun kv => section_shape kv.2) ds ->
  sections_shape (foldl add_section c ds) /\
  (forall s d m, (s, d) ∈ ds -> m ∈ keys_of d -> has_module (foldl add_section c ds) s m) /\
  (forall s m, has_module c s m -> has_module (foldl add_section c ds) s m).
Proof.
  induction ds as [|[s d] ds IH]; intros c Hc Hd; cbn [foldl].
  - split; [done|]. split; [by intros s d m []%not_elem_of_nil|done].
  - apply Forall_cons in Hd as [Hd Hds]. destruct (add_section_step c s d Hc Hd) as (Hs & Hm & Hk).
    destruct (IH _ Hs Hds) as (Hs' & Hm' & Hk'). split; [done|]. split; [|intros s' m H; by apply Hk', Hk].
    intros s' d' m [[= -> ->]|Hin]%elem_of_cons H; [by apply Hk', Hm|by apply (Hm' s' d')].
Qed.

(** Whatever is stored, the editor opens sections of switches with every known module. *)
Lemma opened_sidebar stored :
  sections_shape (parseSidebarModulesAdmin stored) /\ all_modules (parseSidebarModulesAdmin stored).
Proof.
  assert (Hdef : sections_shape SIDEBAR_MODULES_DEFAULT /\ all_modules SIDEBAR_MODULES_DEFAULT).
  { split; [apply defaults_shape|]. intros s d m Hin Hm. destruct defaults_shape as [Hn Hf].
    unfold SIDEBAR_MODULES_DEFAULT in Hin. rewrite !elem_of_cons in Hin.
    destruct Hin as [[= -> ->]|[[= -> ->]|[[= -> ->]|[[= -> ->]|[]%not_elem_of_nil]]]]; eexists; by split. }
  unfold parseSidebarModulesAdmin. destruct stored as [text|]; [|done]. destruct (trim text =s? []); [done|].
  destruct (JSON_parse text ≫= entries) as [es|]; [|done].
  destruct (add_sections_spec SIDEBAR_MODULES_DEFAULT (read_sections es) (read_sections_shape es) (proj2 defaults_shape))
    as (Hs & Hm & _). by split.
Qed.

(** *** Switches *)

Section Switched.
Variable choose : jsstr -> jsstr -> bool.

Definition choose_all (s : jsstr) (fs : fields) : fields := (fun '(m, _) => (m, JBool (choose s m))) <$> fs.

Lemma choose_keys s fs : (choose_all s fs).*1 = fs.*1.
Proof. unfold choose_all. rewrite <- list_fmap_compose. apply list_fmap_ext. by intros ? [] ?. Qed.

Lemma choose_switches s fs : switch_fields (choose_all s fs).
Proof. apply Forall_fmap, Forall_forall. by intros [m v] _. Qed.

Lemma choose_assoc s m fs : m ∈ fs.*1 -> assoc m (choose_all s fs) = JBool (choose s m).
Proof.
  induction fs as [|[k v] fs IH]; intros H; [by apply not_elem_of_nil in H|]. cbn [choose_all fmap list_fmap assoc].
  destruct (m =s? k) eqn:E; [by apply str_eqb_eq in E as ->|]. apply str_eqb_neq in E. rewrite fmap_cons, elem_of_cons in H.
  apply IH. by destruct H.
Qed.

Lemma switched_assoc s c fs : assoc s c = JObject fs -> assoc s (switched choose c) = JObject (choose_all s fs).
Proof.
  induction c as [|[k v] c IH]; intros H; [done|]. cbn [switched fmap list_fmap assoc] in *.
  destruct (s =s? k) eqn:E; [|by apply IH]. apply str_eqb_eq in E as ->. by rewrite H.
Qed.

Lemma switched_keys c : (switched choose c).*1 = c.*1.
Proof. unfold switched. rewrite <- list_fmap_compose. apply list_fmap_ext. by intros ? [] ?. Qed.

Lemma switched_shape c : sections_shape c -> sections_shape (switched choose c).
Proof.
  intros [Hn Hf]. split; [by rewrite switched_keys|]. apply Forall_fmap. eapply Forall_impl; [exact Hf|].
  intros [s v] (e & rest & E & Hr & Hd). cbn [snd] in E. subst v. exists (choose s (js "enabled")), (choose_all s rest).
  split; [done|]. split; [apply choose_switches|by rewrite choose_keys].
Qed.

Lemma switched_module c s m : has_module c s m -> read_key m (assoc s (switched choose c)) = JBool (choose s m).
Proof. intros (fs & E & Hm). rewrite (switched_assoc _ _ _ E). by apply choose_assoc. Qed.

Lemma switched_has c s m : has_module c s m -> has_module (switched choose c) s m.
Proof. intros (fs & E & Hm). exists (choose_all s fs). rewrite choose_keys. split; [by apply switched_assoc|done]. Qed.

Lemma switched_complete c : all_modules c -> all_modules (switched choose c).
Proof. intros H s d m Hd Hm. by eapply switched_has, H. Qed.
End Switched.

(** *** Reading back *)

Lemma read_section_id s v : section_shape v -> read_section s v = v.
Proof.
  intros (e & rest & -> & Hr & Hn). unfold read_section. cbn [entries default id foldl]. rewrite str_eqb_refl.
  change (field "enabled" (JObject ((js "enabled", JBool e) :: rest))) with (JBool e). cbn [toBoolean]. f_equal.
  change ((js "enabled", JBool e) :: rest) with ([(js "enabled", JBool e)] ++ rest).
  apply (fold_fresh _ [js "enabled"]); [|done|done|done].
  intros acc k b Hk Hu. rewrite (proj2 (str_eqb_neq k (js "enabled"))) by set_solver. cbn [toBoolean]. by apply obj_set_fresh.
Qed.

Lemma read_sections_id c : sections_shape c -> read_sections c = c.
Proof.
  intros [Hn Hf]. unfold read_sections. change c with ([] ++ c) in Hn. change c with ([] ++ c) at 2.
  revert Hn. generalize (@nil (jsstr * jsval)). induction c as [|[k v] c IH]; intros acc Hn; cbn [foldl]; [by rewrite app_nil_r|].
  apply Forall_cons in Hf as [Hv Hf]. cbn [snd] in Hv. assert (Hv' := Hv). destruct Hv as (e & rest & -> & _).
  rewrite read_section_id by done. rewrite obj_set_fresh.
  - rewrite IH; [by rewrite <- app_assoc|done|by rewrite <- app_assoc].
  - intros Hin. rewrite fmap_app in Hn. apply NoDup_app in Hn as (_ & Hd & _). apply (Hd k Hin). by left.
Qed.

Lemma add_modules_id es : forall section, (forall m, m ∈ es.*1 -> m ∈ section.*1) -> foldl add_module section es = section.
Proof.
  induction es as [|e es IH]; intros section H; [done|]. cbn [foldl]. unfold add_module at 2. unfold has_key.
  rewrite bool_decide_eq_true_2 by (apply H; by left). apply IH. intros m Hm. apply H. by right.
Qed.

Lemma add_sections_id c ds :
  Forall (fun kv => section_shape kv.2) ds -> (forall s d m, (s, d) ∈ ds -> m ∈ keys_of d -> has_module c s m) ->
  foldl add_section c ds = c.
Proof.
  induction 1 as [|[s d] ds Hd Hds IH]; intros H; [done|]. cbn [foldl].
  assert (Hs : add_section c (s, d) = c); [|rewrite Hs; apply IH; intros; eapply H; [by right|done]].
  destruct Hd as (e & rest & Ed & _). cbn [snd] in Ed. subst d.
  destruct (H s _ (js "enabled") ltac:(by left) ltac:(by left)) as (fs & E & _).
  unfold add_section. rewrite E. cbn [entries default id]. rewrite add_modules_id; [by apply set_same|].
  intros m Hm. destruct (H s _ m ltac:(by left) Hm) as (gs & E' & Hin). rewrite E in E'. apply (inj JObject) in E' as ->. done.
Qed.

Lemma sidebar_reads c : sections_shape c -> all_modules c -> foldl add_section (read_sections c) SIDEBAR_MODULES_DEFAULT = c.
Proof. intros Hs Hc. rewrite read_sections_id by done. by apply add_sections_id; [apply defaults_shape|]. Qed.

(** *** The sidebar of the site *)

Lemma set_all_assoc m (b : fields) : forall a,
  NoDup b.*1 -> m ∈ b.*1 -> assoc m (foldl (fun fs '(k, v) => obj_set k v fs) a b) = assoc m b.
Proof.
  assert (Hother : forall (l a : fields), m ∉ l.*1 -> assoc m (foldl (fun fs '(k, v) => obj_set k v fs) a l) = assoc m a).
  { induction l as [|[k v] l IH]; intros a Hm; [done|]. rewrite fmap_cons, not_elem_of_cons in Hm. destruct Hm as [Hk Hm].
    cbn [foldl]. rewrite IH by done. by apply assoc_set_ne. }
  induction b as [|[k v] b IH]; intros a Hn Hm; [by apply not_elem_of_nil in Hm|].
  rewrite fmap_cons in Hn. apply NoDup_cons in Hn as [Hk Hn]. cbn [foldl assoc fst] in *. destruct (m =s? k) eqn:E.
  - apply str_eqb_eq in E as ->. rewrite Hother by done. apply assoc_set_eq.
  - apply str_eqb_neq in E. rewrite fmap_cons, elem_of_cons in Hm. apply IH; [done|]. by destruct Hm.
Qed.

Lemma set_all_fresh (c : fields) : forall acc : fields,
  NoDup (acc ++ c).*1 -> foldl (fun fs '(k, v) => obj_set k v fs) acc c = acc ++ c.
Proof.
  induction c as [|[k v] c IH]; intros acc Hn; cbn [foldl]; [by rewrite app_nil_r|]. rewrite obj_set_fresh.
  - rewrite IH; [by rewrite <- app_assoc|by rewrite <- app_assoc].
  - intros Hin. rewrite fmap_app in Hn. apply NoDup_app in Hn as (_ & Hd & _). apply (Hd k Hin). by left.
Qed.

Lemma set_all_NoDup (b : fields) : forall a : fields, NoDup a.*1 -> NoDup (foldl (fun fs '(k, v) => obj_set k v fs) a b).*1.
Proof. induction b as [|[k v] b IH]; intros a Ha; [done|]. cbn [foldl]. by apply IH, obj_set_NoDup. Qed.

Lemma fill_keeps own ks : forall fs m b,
  assoc m fs = JBool b -> NoDup fs.*1 ->
  assoc m (foldl (fill_module own) fs ks) = JBool b /\ NoDup (foldl (fill_module own) fs ks).*1.
Proof.
  induction ks as [|k ks IH]; intros fs m b E Hn; [done|]. cbn [foldl]. apply IH.
  - unfold fill_module. destruct (assoc k fs) eqn:Ek; try done. rewrite assoc_set_ne; [done|]. intros ->. by rewrite E in Ek.
  - unfold fill_module. destruct (assoc k fs); try done. by apply obj_set_NoDup.
Qed.

(** A switch of a section of switches. *)
Definition has_switch (c : fields) (s m : jsstr) (b : bool) : Prop :=
  exists fs, assoc s c = JObject fs /\ NoDup fs.*1 /\ m ∈ fs.*1 /\ assoc m fs = JBool b.

Lemma assoc_present m (fs : fields) v : assoc m fs = v -> v <> JUndefined -> m ∈ fs.*1.
Proof.
  intros <- Hv. destruct (assoc_elem m fs) as [E|Hin]; [done|]. by apply (list_elem_of_fmap_2 fst _ (m, assoc m fs)).
Qed.

Lemma merge_keeps c e s m b : section_shape e.2 -> has_switch c s m b -> has_switch (merge_section c e) s m b.
Proof.
  destruct e as [s0 d]. cbn [snd]. intros Hd (fs & E & Hn & Hm & Hb). unfold merge_section. destruct (decide (s = s0)) as [<-|Hne].
  - rewrite E. cbn [js_truthy negb]. destruct Hd as (e & rest & -> & Hr & Hdn). unfold spread_over. cbn [entries default id].
    set (own := (js "enabled", JBool e) :: rest).
    assert (Ha : assoc m (foldl (fun fs '(k, v) => obj_set k v fs) own fs) = JBool b) by (by rewrite set_all_assoc).
    assert (Hon : NoDup (foldl (fun fs '(k, v) => obj_set k v fs) own fs).*1) by (by apply set_all_NoDup).
    destruct (fill_keeps own own.*1 _ m b Ha Hon) as [Hf Hfn].
    eexists. split; [apply assoc_set_eq|]. split; [done|]. split; [by eapply assoc_present|done].
  - destruct (negb _); exists fs; rewrite assoc_set_ne by done; done.
Qed.

Lemma merged_switch c s m b :
  NoDup c.*1 -> has_switch c s m b -> has_switch (mergeWithDefaultSidebarModules (JObject c)) s m b.
Proof.
  intros Hn H. unfold mergeWithDefaultSidebarModules, spread_over. cbn [entries default id].
  rewrite (set_all_fresh c []) by done. cbn [app]. destruct defaults_shape as [_ Hd].
  change DEFAULT_SIDEBAR_MODULES with SIDEBAR_MODULES_DEFAULT. revert H. generalize c. clear c Hn.
  induction Hd as [|e ds He Hds IH]; intros c H; [done|]. cbn [foldl]. by apply IH, merge_keeps.
Qed.

Lemma admin_switches c s m on b :
  has_switch c s (js "enabled") on -> has_switch c s m b -> admin_allows s m c = on && b.
Proof.
  intros (fs & E & _ & _ & He) (gs & E' & _ & _ & Hm). rewrite E in E'. apply (inj JObject) in E' as ->.
  unfold admin_allows. rewrite E. cbn [read_key js_truthy]. rewrite He, Hm. by destruct on, b.
Qed.

(** The modules the urls stand for are modules of the defaults. *)
Definition known_modules : list (jsstr * jsstr) :=
  SIDEBAR_MODULES_DEFAULT ≫= (fun '(s, d) => (fun m => (s, m)) <$> keys_of d).

Lemma known_spec s m : (s, m) ∈ known_modules -> exists d, (s, d) ∈ SIDEBAR_MODULES_DEFAULT /\ m ∈ keys_of d /\ js "enabled" ∈ keys_of d.
Proof.
  unfold known_modules. intros ([s' d] & Hm & Hd)%list_elem_of_bind. apply list_elem_of_fmap in Hm as (m' & [= <- <-] & Hm).
  exists d. split; [done|]. split; [done|]. destruct defaults_shape as [_ Hf]. rewrite Forall_forall in Hf.
  destruct (Hf _ Hd) as (e & rest & E & _). cbn [snd] in E. rewrite E. by left.
Qed.

Lemma url_known url s m : url_entry url URL_TO_CONFIG_MAP = Some (s, m) -> (s, m) ∈ known_modules.
Proof.
  assert (H : Forall (fun e => e.2 ∈ known_modules) URL_TO_CONFIG_MAP) by by_decision.
  induction H as [|[u e] t He Ht IH]; [done|]. cbn [url_entry]. destruct (url =s? u); [|done]. by intros [= <-].
Qed.

(** The keys are texts of the language. *)
Definition keys_ok (c : fields) : Prop := Forall (fun kv => str_ok kv.1 = true /\ Forall (fun k => str_ok k = true) (keys_of kv.2)) c.

Lemma switches_ok show fs :
  switch_fields fs -> NoDup fs.*1 -> Forall (fun k => str_ok k = true) fs.*1 -> json_ok show (JObject fs) = true.
Proof.
  intros Hb Hn Hs. apply fields_ok_iff. split; [|done]. unfold switch_fields in Hb. rewrite Forall_forall in Hb. rewrite Forall_forall in Hs.
  apply Forall_forall. intros [k v] Hin. split; [apply Hs; by apply (list_elem_of_fmap_2 fst _ (k, v))|]. specialize (Hb _ Hin).
  cbn [snd] in *. by apply is_bool_inv in Hb as [b ->].
Qed.

Lemma switched_ok show choose c : sections_shape c -> keys_ok c -> fields_ok show (switched choose c) = true.
Proof.
  intros [Hn Hf] Hk. apply fields_ok_iff. split; [|by rewrite switched_keys]. unfold keys_ok in Hk. rewrite Forall_forall in Hf. rewrite Forall_forall in Hk.
  apply Forall_fmap, Forall_forall. intros [s v] Hin. destruct (Hf _ Hin) as (e & rest & E & Hr & Hd), (Hk _ Hin) as [Hs Hks].
  cbn [fst snd] in *. subst v. cbn [keys_of fmap list_fmap fst] in Hks. split; [done|].
  change (json_ok show (JObject (choose_all choose s ((js "enabled", JBool e) :: rest))) = true).
  apply switches_ok; [apply choose_switches| |]; rewrite choose_keys; [done|done].
Qed.

Lemma switched_switch choose c s m :
  sections_shape c -> has_module c s m -> has_switch (switched choose c) s m (choose s m).
Proof.
  intros Hc (fs & E & Hm). exists (choose_all choose s fs). split; [by apply switched_assoc|]. rewrite choose_keys.
  destruct (section_of c s Hc) as [E'|Hs]; [by rewrite E in E'|]. rewrite E in Hs. apply section_switches in Hs as [_ Hn].
  split; [done|]. split; [done|by apply choose_assoc].
Qed.

(** C28: a saved setting of the sidebar is what the site honours.  When the form is opened on any
    stored setting and saved with any choice of its switches, the text that is stored opens again
    with these switches; a page of the sidebar is visible exactly when the switches of its section
    and of its module are on and the user does not hide it, and the guard by the cached status
    admits a module under the same two switches. *)
Theorem sidebar_settings_honoured show stored choose text :
  keys_ok (parseSidebarModulesAdmin stored) ->
  save_sidebar show stored (switched choose (parseSidebarModulesAdmin stored)) = Some text ->
  parseSidebarModulesAdmin (Some text) = switched choose (parseSidebarModulesAdmin stored) /\
  (forall url s m perms modules, url_entry url URL_TO_CONFIG_MAP = Some (s, m) ->
     useIsSidebarModuleVisible url (Some text) perms modules
     = choose s (js "enabled") && choose s m && user_keeps s m (user_layer perms modules)) /\
  (forall s m st, (s, m) ∈ known_modules -> field "SidebarModulesAdmin" (getCachedStatus st) = JString text ->
     isSidebarModuleEnabled show s m st = choose s (js "enabled") && choose s m).
Proof.
  intros Hk Hsave. destruct (opened_sidebar stored) as [Hs Hc]. set (c := parseSidebarModulesAdmin stored) in *.
  unfold save_sidebar, submit in Hsave. destruct (_ =s? _) in Hsave; [done|]. apply (inj Some) in Hsave as <-.
  unfold serializeSidebarModulesAdmin. assert (Hok := switched_ok show choose c Hs Hk).
  pose proof (parse_fields show _ Hok) as Hp. set (text := stringify show _) in *.
  assert (Ht : trim text = text) by (apply trimmed_trim, print_trimmed, Hok).
  assert (Hne : text <> []) by (intros E; by rewrite E in Hp).
  assert (Hsw : forall s m, (s, m) ∈ known_modules ->
    has_switch (switched choose c) s (js "enabled") (choose s (js "enabled")) /\ has_switch (switched choose c) s m (choose s m)).
  { intros s m (d & Hd & Hm & He)%known_spec. split; apply switched_switch; try done; by apply (Hc s d). }
  split; [|split].
  - unfold parseSidebarModulesAdmin. rewrite Ht, (proj2 (str_eqb_neq _ _)), Hp by done. cbn [mbind option_bind entries].
    apply sidebar_reads; [by apply switched_shape|by apply switched_complete].
  - intros url s m perms modules Hu. unfold useIsSidebarModuleVisible, isModuleEnabled, parseSidebarConfig. rewrite Hu.
    rewrite Ht, (proj2 (str_eqb_neq _ _)), Hp by done. destruct (Hsw s m (url_known _ _ _ Hu)) as [He Hm].
    rewrite (admin_switches _ s m (choose s (js "enabled")) (choose s m));
      [by destruct (_ && _)| |]; apply merged_switch; try done; by apply switched_shape.
  - intros s m st Hin Hst. destruct (Hsw s m Hin) as [(fs & E & _ & _ & He) (gs & E' & _ & _ & Hm)].
    rewrite E in E'. apply (inj JObject) in E' as <-. unfold isSidebarModuleEnabled.
    assert (Htr : js_truthy (getCachedStatus st) = true) by (by destruct (getCachedStatus st)).
    rewrite Htr, Hst. cbn [negb js_truthy js_string]. rewrite Ht, (proj2 (str_eqb_neq _ _)), (proj2 (truthy_true _)), Hp by done.
    cbn [negb orb read_key]. rewrite E. cbn [negb js_truthy read_key]. rewrite He, Hm.
    by destruct (choose s (js "enabled")), (choose s m).
Qed.

(** A module whose switch is stored as a text: the sidebar hides it, its guard admits it. *)
Lemma text_switch_differs :
  let setting := stringify show_int (JObject [(js "chat", JObject [(js "playground", JString (js "false"))])]) in
  let status := stringify show_int (JObject [(js "SidebarModulesAdmin", JString setting)]) in
  useIsSidebarModuleVisible (js "/playground") (Some setting) None None = false /\
  isSidebarModuleEnabled show_int (js "chat") (js "playground") (mkStorage (Some status) true true) = true.
Proof. by vm_compute. Qed.

Definition chosen_sidebar (s m : jsstr) : bool := negb (m =s? js "playground").
Definition saved_sidebar : jsstr := stringify show_int (JObject (switched chosen_sidebar SIDEBAR_MODULES_DEFAULT)).

Lemma sidebar_settings_honoured_witness :
  useIsSidebarModuleVisible (js "/playground") (Some saved_sidebar) None None = false /\
  useIsSidebarModuleVisible (js "/keys") (Some saved_sidebar) None None = true.
Proof.
  assert (Hk : keys_ok (parseSidebarModulesAdmin None)) by by_decision.
  assert (Hs : save_sidebar show_int None (switched chosen_sidebar (parseSidebarModulesAdmin None)) = Some saved_sidebar) by (by vm_compute).
  pose proof (proj1 (proj2 (sidebar_settings_honoured show_int None chosen_sidebar saved_sidebar Hk Hs))) as H. split.
  - exact (H (js "/playground") (js "chat") (js "playground") None None eq_refl).
  - exact (H (js "/keys") (js "console") (js "token") None None eq_refl).
Defined.

(** *** The layer of the user *)

Lemma enabled_narrows url a u : isModuleEnabled url a u = true -> isModuleEnabled url a None = true.
Proof. unfold isModuleEnabled. destruct (url_entry _ _) as [[s m]|]; [|done]. by destruct (admin_allows s m a). Qed.

(** What an item leads to. *)
Definition targets (item : NavItem) : list jsstr :=
  match item with NavLink _ url _ => [url] | NavCollapsible _ subItems => subItems.*2 | NavChatPresets t => [t] end.
Definition sidebar_targets (groups : list NavGroup) : list jsstr := groups ≫= (fun g => group_items g ≫= targets).

Lemma filter_narrows {A} (P Q : A -> Prop) `{!forall x, Decision (P x), !forall x, Decision (Q x)} (l : list A) :
  (forall x, P x -> Q x) -> filter P l `sublist_of` filter Q l.
Proof.
  intros HPQ. induction l as [|x l IH]; [done|]. rewrite !filter_cons. destruct (decide (P x)) as [Hp|Hp].
  - rewrite decide_True by (by apply HPQ). by apply sublist_skip.
  - case_decide; [by apply sublist_cons|done].
Qed.

Lemma visible_narrows item a u :
  isNavItemVisible (filter_sub_items a u item) a u = true -> isNavItemVisible (filter_sub_items a None item) a None = true.
Proof.
  destruct item as [t url [urls|]|t subs|t]; cbn [filter_sub_items isNavItemVisible].
  - destruct (truthy url); [|done]. rewrite !existsb_exists. intros (x & Hin & Hx). exists x. split; [done|]. by eapply enabled_narrows.
  - destruct (truthy url); [|done]. rewrite !existsb_exists. intros (x & Hin & Hx). exists x. split; [done|]. by eapply enabled_narrows.
  - rewrite !existsb_exists. intros (x & Hin & Hx). apply list_elem_of_In, list_elem_of_filter in Hin as [_ Hin].
    apply enabled_narrows in Hx. exists x. split; [|done]. apply list_elem_of_In, list_elem_of_filter. by split.
  - by destruct (admin_allows _ _ a).
Qed.

Lemma items_narrow items a u :
  (filterNavItems items a u ≫= targets) `sublist_of` (filterNavItems items a None ≫= targets).
Proof.
  unfold filterNavItems. induction items as [|item items IH]; [done|]. rewrite !fmap_cons, !filter_cons.
  destruct (decide (isNavItemVisible (filter_sub_items a u item) a u = true)) as [Hv|Hv].
  - rewrite decide_True by (by eapply visible_narrows). cbn [mbind list_bind]. apply sublist_app; [|exact IH].
    destruct item; [done| |done]. cbn [filter_sub_items targets]. apply fmap_sublist, filter_narrows. intros sub. apply enabled_narrows.
  - case_decide; [|done]. cbn [mbind list_bind]. transitivity (filter (fun item => isNavItemVisible item a None = true)
      (filter_sub_items a None <$> items) ≫= targets); [exact IH|]. apply sublist_inserts_l. done.
Qed.

Lemma sidebar_targets_all groups a u :
  sidebar_targets (filter (fun group => group_items group <> [])
    ((fun group => mkGroup (group_title group) (filterNavItems (group_items group) a u)) <$> groups))
  = groups ≫= (fun g => filterNavItems (group_items g) a u ≫= targets).
Proof.
  unfold sidebar_targets. induction groups as [|g groups IH]; [done|]. rewrite fmap_cons, filter_cons. cbn [group_items].
  case_decide as H; cbn [mbind list_bind group_items]; [by f_equal|].
  rewrite H. exact IH.
Qed.

(** What both layers have to say for an item to be shown: a link is judged by its own page, or by
    the pages named for it; of a group only the pages that are allowed are left, at least one. *)
Definition allowed_item (a : fields) (u : option jsval) (item : NavItem) : Prop :=
  match item with
  | NavLink _ url None => url = [] \/ isModuleEnabled url a u = true
  | NavLink _ url (Some urls) => url = [] \/ exists page, page ∈ urls /\ isModuleEnabled page a u = true
  | NavCollapsible _ subItems => subItems <> [] /\ Forall (fun sub => isModuleEnabled sub.2 a u = true) subItems
  | NavChatPresets _ => admin_allows (js "chat") (js "chat") a = true /\ user_keeps (js "chat") (js "chat") u = true
  end.

Lemma shown_allowed items a u item : item ∈ filterNavItems items a u -> allowed_item a u item.
Proof.
  intros [Hv (item' & -> & _)%list_elem_of_fmap]%list_elem_of_filter.
  destruct item' as [t url [urls|]|t subs|t]; cbn [filter_sub_items isNavItemVisible allowed_item] in *.
  - destruct url; [by left|]. right. apply existsb_exists in Hv as (page & Hin%list_elem_of_In & Hp). eauto.
  - destruct url; [by left|]. right. cbn [default from_option id truthy existsb] in Hv. by rewrite orb_false_r in Hv.
  - split; [by intros E; rewrite E in Hv|]. apply Forall_forall. by intros sub [Hs _]%list_elem_of_filter.
  - by destruct (admin_allows _ _ a).
Qed.

Lemma allowed_by_admin a u item : allowed_item a u item -> allowed_item a None item.
Proof.
  destruct item as [t url [urls|]|t subs|t]; cbn [allowed_item].
  - intros [->|(page & Hin & Hp%enabled_narrows)]; eauto.
  - intros [->|H%enabled_narrows]; auto.
  - intros [Hne Hs]. split; [done|]. eapply Forall_impl; [exact Hs|]. intros sub. apply enabled_narrows.
  - by intros [-> _].
Qed.

(** C34: the settings of a user only hide.  Whatever the user has stored, the sidebar leads to pages
    it leads to without the layer of the user, in the same order; every item it shows is allowed by
    the administrator and by the user: the chat presets and the links of a group each by their own
    module, a link by its own page, or, when other pages are named for it, by one of those (so
    that it may lead to a page that is itself switched off: [task_logs_shown]); and a page that is
    visible to the user is visible by the settings of the administrator alone. *)
Theorem user_layer_narrows groups setting perms modules :
  let a := parseSidebarConfig setting in
  let shown := useSidebarConfig groups setting perms modules in
  sidebar_targets shown `sublist_of` sidebar_targets (useSidebarConfig groups setting (Some false) modules) /\
  (forall g item, g ∈ shown -> item ∈ group_items g ->
     allowed_item a (user_layer perms modules) item /\ allowed_item a None item) /\
  (forall url, useIsSidebarModuleVisible url setting perms modules = true ->
     useIsSidebarModuleVisible url setting (Some false) modules = true).
Proof.
  intros a shown. split; [|split].
  - unfold shown, useSidebarConfig. rewrite !sidebar_targets_all. change (user_layer (Some false) modules) with (@None jsval).
    induction groups as [|g groups IH]; [done|]. cbn [mbind list_bind]. apply sublist_app; [apply items_narrow|exact IH].
  - intros g item [_ (g' & -> & _)%list_elem_of_fmap]%list_elem_of_filter Hi%shown_allowed.
    split; [exact Hi|by eapply allowed_by_admin].
  - intros url. apply enabled_narrows.
Qed.

(** The link to the task logs of the shipped sidebar, with the drawing logs on and the task logs off. *)
Example task_logs_shown :
  let setting := stringify show_int (JObject [(js "console", JObject [(js "enabled", JBool true); (js "midjourney", JBool true);
                                                                 (js "task", JBool false)])]) in
  let item := NavLink (js "Task Logs") (js "/usage-logs/task") (Some [js "/usage-logs/drawing"; js "/usage-logs/task"]) in
  sidebar_targets (useSidebarConfig [mkGroup (js "General") [item]] (Some setting) None None) = [js "/usage-logs/task"] /\
  useIsSidebarModuleVisible (js "/usage-logs/task") (Some setting) None None = false.
Proof. by vm_compute. Qed.
