(* ===== verification/ParamOverride.v ===== *)
(** * The editor of parameter overrides

    web/src/features/channels/components/dialogs/param-override-editor-dialog.tsx: the
    rules an administrator writes to change requests before they are relayed, kept as a
    JSON text in the channel.  This file holds the data, the conversions between the
    text and the rules, and the validation; ParamReopen.v relates the two directions and
    ParamEditor.v models the dialog.

    Rules and conditions carry local identifiers drawn from a counter of the module, so
    the functions that create them run in a small monad with the counter as its state.
    An access to a property of [null] throws a TypeError. *)

From Stdlib Require Import SpecFloat.
From S2P Require Import Prelude JsValue Json JsText.

Local Open Scope N_scope.

(** ** Fresh identifiers and exceptions *)

(** A computation that draws identifiers and may throw. *)
Definition gen (A : Type) : Type := N -> option A * N.

Definition gret {A} (x : A) : gen A := fun seed => (Some x, seed).
Definition gthrow {A} : gen A := fun seed => (None, seed).
Definition gbind {A B} (m : gen A) (k : A -> gen B) : gen B := fun seed =>
  match m seed with
  | (Some x, seed') => k x seed'
  | (None, seed') => (None, seed')
  end.

Declare Scope gen_scope.
Delimit Scope gen_scope with gen.
Notation "x <~ m ; k" := (gbind m (fun x => k)) (at level 100, m at next level, right associativity) : gen_scope.
Local Open Scope gen_scope.

(** [Array.prototype.map] *)
Fixpoint gmapM {A B} (f : A -> gen B) (l : list A) : gen (list B) :=
  match l with
  | [] => gret []
  | x :: l' => y <~ f x; ys <~ gmapM f l'; gret (y :: ys)
  end.

(** ** Data *)

Record ParamOverrideCondition := mkCondition {
  c_id : jsstr; c_path : jsstr; c_mode : jsstr; c_value_text : jsstr; c_invert : bool; c_pass_missing_key : bool }.

Record ParamOverrideOperation := mkOperation {
  o_id : jsstr; o_description : jsstr; o_path : jsstr; o_mode : jsstr; o_from : jsstr; o_to : jsstr;
  o_value_text : jsstr; o_keep_origin : bool; o_logic : jsstr; o_conditions : list ParamOverrideCondition }.

Definition OPERATION_MODE_VALUES : list jsstr :=
  [ js "set"; js "delete"; js "append"; js "prepend"; js "copy"; js "move"; js "replace"; js "regex_replace";
    js "trim_prefix"; js "trim_suffix"; js "ensure_prefix"; js "ensure_suffix"; js "trim_space"; js "to_lower";
    js "to_upper"; js "return_error"; js "prune_objects"; js "pass_headers"; js "sync_fields"; js "set_header";
    js "delete_header"; js "copy_header"; js "move_header" ].

Definition CONDITION_MODE_VALUES : list jsstr :=
  [js "full"; js "prefix"; js "suffix"; js "contains"; js "gt"; js "gte"; js "lt"; js "lte"].

Record ModeMeta := mkMeta {
  m_path : bool; m_pathOptional : bool; m_value : bool; m_from : bool; m_to : bool; m_keepOrigin : bool;
  m_pathAlias : bool }.

Definition meta_set : ModeMeta := mkMeta true false true false false true false.

Definition MODE_META : list (jsstr * ModeMeta) :=
  let only_path := mkMeta true false false false false false false in
  let path_value := mkMeta true false true false false false false in
  let from_to := mkMeta false false false true true false false in
  let path_from := mkMeta true false false true false false false in
  let alias := mkMeta false false false true true true true in
  [ (js "delete", only_path); (js "set", meta_set); (js "append", meta_set); (js "prepend", meta_set);
    (js "copy", from_to); (js "move", from_to); (js "replace", path_from); (js "regex_replace", path_from);
    (js "trim_prefix", path_value); (js "trim_suffix", path_value); (js "ensure_prefix", path_value);
    (js "ensure_suffix", path_value); (js "trim_space", only_path); (js "to_lower", only_path);
    (js "to_upper", only_path); (js "return_error", mkMeta false false true false false false false);
    (js "prune_objects", mkMeta false true true false false false false);
    (js "pass_headers", mkMeta false false true false false true false); (js "sync_fields", from_to);
    (js "set_header", meta_set); (js "delete_header", only_path); (js "copy_header", alias);
    (js "move_header", alias) ].

(** [MODE_META[mode] || MODE_META.set] *)
Definition meta_of (mode : jsstr) : ModeMeta :=
  match find (fun km => mode =s? km.1) MODE_META with Some km => km.2 | None => meta_set end.

Definition VALUE_REQUIRED_MODES : list jsstr :=
  [ js "trim_prefix"; js "trim_suffix"; js "ensure_prefix"; js "ensure_suffix"; js "set_header"; js "return_error";
    js "prune_objects"; js "pass_headers" ].
Definition FROM_REQUIRED_MODES : list jsstr :=
  [ js "copy"; js "move"; js "replace"; js "regex_replace"; js "copy_header"; js "move_header"; js "sync_fields" ].
Definition TO_REQUIRED_MODES : list jsstr :=
  [ js "copy"; js "move"; js "copy_header"; js "move_header"; js "sync_fields" ].

Definition set_has (m : jsstr) (l : list jsstr) : bool := bool_decide (m ∈ l).

Section Override.
(** [Number.prototype.toString]; the milliseconds [Date.now()] returns when the
    identifier with a number is drawn; the translation of a message, with its line. *)
Variable show : jsnum -> jsstr.
Variable now : N -> N.
Variable t : jsstr -> option nat -> jsstr.

Definition local_id (seed : N) : jsstr := js "po_" ++ show_dec (now seed) ++ 95 :: show_dec seed.
Definition nextLocalId : gen jsstr := fun seed => (Some (local_id seed), seed + 1).

(** ** Values *)

Definition toValueText (value : jsval) : jsstr :=
  match value with
  | JUndefined => []
  | JString s => s
  | _ => stringify show value
  end.

Definition parseLooseValue (valueText : jsstr) : jsval :=
  let raw := trim valueText in
  if negb (truthy raw) then JString []
  else match JSON_parse raw with Some v => v | None => JString raw end.

Definition verifyJSON (text : jsstr) : bool := bool_decide (is_Some (JSON_parse text)).

(** ** Reading rules *)

(** [typeof v.k === 'string' ? v.k : ''] *)
Definition text_field (k : string) (v : jsval) : jsstr := match field k v with JString s => s | _ => [] end.
Arguments text_field k%_stdpp_scope v.
(** [v.k === true] *)
Definition flag_field (k : string) (v : jsval) : bool := match field k v with JBool b => b | _ => false end.
Arguments flag_field k%_stdpp_scope v.
(** [VALUES.has(v) ? v : d] *)
Definition known_mode (values : list jsstr) (d : jsstr) (v : jsval) : jsstr :=
  match v with JString m => if set_has m values then m else d | _ => d end.

Definition condition_of (condition : jsval) (id : jsstr) : ParamOverrideCondition :=
  mkCondition id (text_field "path" condition)
    (known_mode CONDITION_MODE_VALUES (js "full") (field "mode" condition))
    (toValueText (field "value" condition)) (flag_field "invert" condition)
    (flag_field "pass_missing_key" condition).

Definition normalizeCondition (condition : jsval) : gen ParamOverrideCondition :=
  id <~ nextLocalId;
  match condition with JNull => gthrow | _ => gret (condition_of condition id) end.

Definition createDefaultCondition : gen ParamOverrideCondition := normalizeCondition (JObject []).

Definition operation_of (operation : jsval) (id : jsstr) (conditions : list ParamOverrideCondition) :
  ParamOverrideOperation :=
  let logic := upper_ascii (js_string show (js_or (field "logic" operation) (JString (js "OR")))) in
  mkOperation id (text_field "description" operation) (text_field "path" operation)
    (known_mode OPERATION_MODE_VALUES (js "set") (field "mode" operation))
    (text_field "from" operation) (text_field "to" operation) (toValueText (field "value" operation))
    (flag_field "keep_origin" operation) (if logic =s? js "AND" then js "AND" else js "OR") conditions.

Definition normalizeOperation (operation : jsval) : gen ParamOverrideOperation :=
  id <~ nextLocalId;
  match operation with
  | JNull => gthrow
  | _ => conditions <~ match field "conditions" operation with
                       | JArray l => gmapM normalizeCondition l
                       | _ => gret []
                       end;
         gret (operation_of operation id conditions)
  end.

Definition createDefaultOperation : gen ParamOverrideOperation :=
  normalizeOperation (JObject [(js "mode", JString (js "set"))]).

(** ** Reordering *)

Inductive position := Before | After.

Fixpoint find_index (id : jsstr) (ops : list ParamOverrideOperation) : option nat :=
  match ops with
  | [] => None
  | o :: ops' => if o_id o =s? id then Some O else S <$> find_index id ops'
  end.

Definition reorderOperations (ops : list ParamOverrideOperation) (sourceId targetId : jsstr) (p : position) :
  list ParamOverrideOperation :=
  if negb (truthy sourceId) || negb (truthy targetId) || (sourceId =s? targetId) then ops
  else match find_index sourceId ops with
       | None => ops
       | Some srcIdx =>
           let next := take srcIdx ops ++ drop (S srcIdx) ops in
           match find_index targetId next with
           | None => ops
           | Some i =>
               let insertIdx := match p with Before => i | After => S i end in
               take insertIdx next ++ take 1 (drop srcIdx ops) ++ drop insertIdx next
           end
       end.

(** ** Writing rules *)

Definition blank (s : jsstr) : bool := negb (truthy (trim s)).

Definition condition_used (c : ParamOverrideCondition) : bool :=
  negb (blank (c_path c)) || negb (blank (c_value_text c)) || negb (c_mode c =s? js "full") || c_invert c
  || c_pass_missing_key c.

Definition isOperationBlank (operation : ParamOverrideOperation) : bool :=
  (o_mode operation =s? js "set") && blank (o_path operation) && blank (o_from operation)
  && blank (o_to operation) && blank (o_value_text operation) && negb (o_keep_origin operation)
  && negb (existsb condition_used (o_conditions operation)).

(** [if (b) payload.k = v] *)
Definition set_when (b : bool) (k : string) (v : jsval) (fs : list (jsstr * jsval)) : list (jsstr * jsval) :=
  if b then obj_set (js k) v fs else fs.
Arguments set_when b k%_stdpp_scope v fs.

Definition buildConditionPayload (condition : ParamOverrideCondition) : option jsval :=
  let path := trim (c_path condition) in
  if negb (truthy path) then None
  else Some (JObject
    (set_when (c_pass_missing_key condition) "pass_missing_key" (JBool true)
    (set_when (c_invert condition) "invert" (JBool true)
      [ (js "path", JString path); (js "mode", JString (c_mode condition ||| js "full"));
        (js "value", parseLooseValue (c_value_text condition)) ]))).

Definition operation_payload (operation : ParamOverrideOperation) : list (jsstr * jsval) :=
  let mode := o_mode operation ||| js "set" in
  let meta := meta_of mode in
  let description := trim (o_description operation) in
  let path := trim (o_path operation) in
  let from := trim (o_from operation) in
  let to := trim (o_to operation) in
  let conditions := omap buildConditionPayload (o_conditions operation) in
  let p0 := [(js "mode", JString mode)] in
  let p1 := set_when (truthy description) "description" (JString description) p0 in
  let p2 := set_when (m_path meta) "path" (JString path) p1 in
  let p3 := set_when (m_pathOptional meta && truthy path) "path" (JString path) p2 in
  let p4 := set_when (m_value meta) "value" (parseLooseValue (o_value_text operation)) p3 in
  let p5 := set_when (m_keepOrigin meta && o_keep_origin operation) "keep_origin" (JBool true) p4 in
  let p6 := set_when (m_from meta) "from" (JString from) p5 in
  let p7 := set_when (negb (m_to meta) && truthy to) "to" (JString to) p6 in
  let p8 := set_when (m_to meta) "to" (JString to) p7 in
  let p9 := set_when (m_pathAlias meta && negb (js_truthy (assoc (js "from") p8)) && truthy path)
              "from" (JString path) p8 in
  let p10 := set_when (m_pathAlias meta && negb (js_truthy (assoc (js "to") p9)) && truthy path)
               "to" (JString path) p9 in
  let has := bool_decide (conditions <> []) in
  set_when has "logic" (JString (if o_logic operation =s? js "AND" then js "AND" else js "OR"))
    (set_when has "conditions" (JArray conditions) p10).

(** ** Values with an editor of their own *)

Definition parseSyncTargetSpec (spec : jsstr) : jsstr * jsstr :=
  let raw := trim spec in
  if negb (truthy raw) then (js "json", [])
  else match index_of [58] raw with
       | None => (js "json", raw)
       | Some idx =>
           let prefix := lower_ascii (trim (take idx raw)) in
           let key := trim (drop (S idx) raw) in
           if prefix =s? js "header" then (js "header", key) else (js "json", key)
       end.

Definition buildSyncTargetSpec (type key : jsstr) : jsstr :=
  let normalizedType := if type =s? js "header" then js "header" else js "json" in
  let normalizedKey := trim key in
  if negb (truthy normalizedKey) then [] else normalizedType ++ 58 :: normalizedKey.

Record ReturnErrorDraft := mkReturnError {
  r_message : jsstr; r_statusCode : jsnum; r_code : jsstr; r_type : jsstr; r_skipRetry : bool; r_simpleMode : bool }.

(** A status code the draft accepts, or 400. *)
Definition status_or_400 (n : jsnum) : jsnum :=
  if is_integer n && num_le (num 100) n && num_le n (num 599) then n else num 400.

Definition parseReturnErrorDraft (valueText : jsstr) : ReturnErrorDraft :=
  let raw := trim valueText in
  if negb (truthy raw) then mkReturnError [] (num 400) [] [] true true
  else match JSON_parse raw with
       | Some (JObject fs) =>
           let parsed := JObject fs in
           let statusRaw := match field "status_code" parsed with JUndefined => field "status" parsed | v => v end in
           mkReturnError
             (trim (js_string show (js_or (js_or (field "message" parsed) (field "msg" parsed)) (JString []))))
             (status_or_400 (js_number show statusRaw))
             (trim (js_string show (js_or (field "code" parsed) (JString []))))
             (trim (js_string show (js_or (field "type" parsed) (JString []))))
             (match field "skip_retry" parsed with JBool false => false | _ => true end) false
       | _ => mkReturnError raw (num 400) [] [] true true
       end.

Definition buildReturnErrorValueText (draft : ReturnErrorDraft) : jsstr :=
  let message := trim (r_message draft) in
  if r_simpleMode draft then message
  else
    let code := trim (r_code draft) in
    let type := trim (r_type draft) in
    stringify show (JObject
      (set_when (negb (r_skipRetry draft)) "skip_retry" (JBool false)
      (set_when (truthy type) "type" (JString type)
      (set_when (truthy code) "code" (JString code)
        [ (js "message", JString message); (js "status_code", JNumber (status_or_400 (r_statusCode draft))) ])))).

Definition PruneRule : Type := ParamOverrideCondition.

Record PruneObjectsDraft := mkPrune {
  p_simpleMode : bool; p_typeText : jsstr; p_logic : jsstr; p_recursive : bool; p_rules : list PruneRule }.

Definition normalizePruneRule (rule : jsval) : gen PruneRule := normalizeCondition rule.

(** The rules of the entries of an object, with the mode [full]. *)
Definition entry_rules (fs : list (jsstr * jsval)) : gen (list PruneRule) :=
  gmapM (fun kv => normalizePruneRule
    (JObject [(js "path", JString kv.1); (js "mode", JString (js "full")); (js "value", kv.2)])) fs.

Definition is_defined (v : jsval) : bool := match v with JUndefined => false | _ => true end.

Definition prune_draft_of (fs : list (jsstr * jsval)) : gen PruneObjectsDraft :=
  let parsed := JObject fs in
  where_rules <~ match field "where" parsed with JObject ws => entry_rules ws | _ => gret [] end;
  condition_rules <~ match field "conditions" parsed with
                     | JArray l => gmapM normalizePruneRule (filter (fun v => isRecord v = true) l)
                     | JObject cs => entry_rules cs
                     | _ => gret []
                     end;
  let typeText := match field "type" parsed with JUndefined => [] | v => trim (js_string show v) end in
  let logic := if upper_ascii (js_string show (js_or (field "logic" parsed) (JString (js "AND")))) =s? js "OR"
               then js "OR" else js "AND" in
  let recursive := match field "recursive" parsed with JBool false => false | _ => true end in
  let advanced := is_defined (field "logic" parsed) || is_defined (field "recursive" parsed)
                  || is_defined (field "where" parsed) || is_defined (field "conditions" parsed) in
  gret (mkPrune (negb advanced) typeText logic recursive (where_rules ++ condition_rules)).

Definition parsePruneObjectsDraft (valueText : jsstr) : gen PruneObjectsDraft :=
  let simple typeText := mkPrune true typeText (js "AND") true [] in
  let raw := trim valueText in
  if negb (truthy raw) then gret (simple [])
  else match JSON_parse raw with
       | Some (JString s) => gret (simple (trim s))
       | Some (JObject fs) => prune_draft_of fs
       | Some JNull => gret (simple [])
       | Some v => gret (simple (trim (js_string show v)))
       | None => gret (simple raw)
       end.

Definition prune_condition_payload (rule : PruneRule) : jsval :=
  JObject
    (set_when (c_pass_missing_key rule) "pass_missing_key" (JBool true)
    (set_when (c_invert rule) "invert" (JBool true)
    (set_when (truthy (trim (c_value_text rule))) "value" (parseLooseValue (trim (c_value_text rule)))
      [ (js "path", JString (trim (c_path rule)));
        (js "mode", JString (if set_has (c_mode rule) CONDITION_MODE_VALUES then c_mode rule else js "full")) ]))).

Definition buildPruneObjectsValueText (draft : PruneObjectsDraft) : jsstr :=
  let typeText := trim (p_typeText draft) in
  if p_simpleMode draft then typeText
  else
    let conditions := prune_condition_payload <$> filter (fun r => truthy (trim (c_path r)) = true) (p_rules draft) in
    let has := bool_decide (conditions <> []) in
    if negb (truthy typeText) && negb has then stringify show (JObject [(js "logic", JString (js "AND"))])
    else stringify show (JObject
      (set_when has "conditions" (JArray conditions)
      (set_when (negb (p_recursive draft)) "recursive" (JBool false)
      (set_when (upper_ascii (p_logic draft ||| js "AND") =s? js "OR") "logic" (JString (js "OR"))
      (set_when (truthy typeText) "type" (JString typeText) []))))).

(** [String(i ?? '').trim()] *)
Definition header_name (v : jsval) : jsstr := if nullish v then [] else trim (js_string show v).

Definition parsePassHeaderNames (rawValue : jsval) : list jsstr :=
  match rawValue with
  | JArray l => filter (fun h => h <> []) (header_name <$> l)
  | JObject fs =>
      match field "headers" rawValue with
      | JArray l => filter (fun h => h <> []) (header_name <$> l)
      | _ => match field "header" rawValue with
             | JUndefined => []
             | v => filter (fun h => h <> []) [header_name v]
             end
      end
  | JString s => filter (fun h => h <> []) (trim <$> split 44 s)
  | _ => []
  end.

(** ** Validation *)

(** The message of a rule, empty when nothing is wrong. *)
Definition validate_operation (op : ParamOverrideOperation) (line : nat) : jsstr :=
  let mode := o_mode op ||| js "set" in
  let meta := meta_of mode in
  let error key := t (js key) (Some line) in
  let path := trim (o_path op) in
  let aliased := m_pathAlias meta && truthy path in
  let value := trim (o_value_text op) in
  if m_path meta && negb (truthy path) then error "Rule {{line}} is missing target path"%string
  else if set_has mode FROM_REQUIRED_MODES && negb (truthy (trim (o_from op))) && negb aliased
  then error "Rule {{line}} is missing source field"%string
  else if set_has mode TO_REQUIRED_MODES && negb (truthy (trim (o_to op))) && negb aliased
  then error "Rule {{line}} is missing target field"%string
  else if set_has mode VALUE_REQUIRED_MODES && negb (truthy value)
  then error "Rule {{line}} is missing value"%string
  else if (mode =s? js "return_error")
          && match JSON_parse value with
             | Some (JObject fs) =>
                 negb (truthy (trim (js_string show (js_or (field "message" (JObject fs)) (JString [])))))
             | _ => false
             end
  then error "Rule {{line}} return_error requires a message field"%string
  else if (mode =s? js "pass_headers")
          && bool_decide (parsePassHeaderNames (parseLooseValue value) = [])
  then error "Rule {{line}} pass_headers format is invalid"%string
  else [].

(** The loop: the first message returned ends it. *)
Fixpoint validate_from (i : nat) (ops : list ParamOverrideOperation) : jsstr :=
  match ops with
  | [] => []
  | op :: ops' => let message := validate_operation op (S i) in
                  if truthy message then message else validate_from (S i) ops'
  end.

Definition validateOperations (ops : list ParamOverrideOperation) : jsstr := validate_from 0 ops.

(** A text or the message of an exception. *)
Inductive Built := Text (s : jsstr) | Failed (message : jsstr).

Definition buildOperationsJson (sourceOperations : list ParamOverrideOperation) (validate : bool) : Built :=
  let filteredOps := filter (fun o => isOperationBlank o = false) sourceOperations in
  match filteredOps with
  | [] => Text []
  | _ =>
      let message := if validate then validateOperations filteredOps else [] in
      if truthy message then Failed message
      else Text (stringify2 show
             (JObject [(js "operations", JArray ((fun o => JObject (operation_payload o)) <$> filteredOps))]))
  end.

(** ** The initial state *)

Inductive EditMode := visual | json.
Inductive VisualMode := operations_mode | legacy_mode.

Record EditorState := mkEditorState {
  es_editMode : EditMode; es_visualMode : VisualMode; es_legacyValue : jsstr;
  es_operations : list ParamOverrideOperation; es_jsonText : jsstr; es_jsonError : jsstr }.

(** The rules of an array of the text, at least one. *)
Definition operations_of (l : list jsval) : gen (list ParamOverrideOperation) :=
  match l with
  | [] => op <~ createDefaultOperation; gret [op]
  | _ => gmapM normalizeOperation l
  end.

Definition parseInitialState (text : jsstr) : gen EditorState :=
  let trimmed := trim text in
  let default_with mode vmode legacy jsonText error :=
    op <~ createDefaultOperation; gret (mkEditorState mode vmode legacy [op] jsonText error) in
  if negb (truthy trimmed) then default_with visual operations_mode [] [] []
  else match JSON_parse trimmed with
       | None => default_with json operations_mode [] text (js "Invalid JSON format")
       | Some parsed =>
           let pretty := stringify2 show parsed in
           match parsed with
           | JObject fs =>
               match field "operations" parsed with
               | JArray l => ops <~ operations_of l; gret (mkEditorState visual operations_mode [] ops pretty [])
               | _ => default_with visual legacy_mode pretty pretty []
               end
           | _ => default_with json operations_mode [] pretty []
           end
       end.

End Override.
