(* ===== verification/ParamReopen.v ===== *)
(** * Parameter overrides: validation, and saving and reopening

    What ParamOverride.v writes, it reads back.  The identifiers of rules and conditions
    are local, so two rules are compared without them. *)

From Stdlib Require Import SpecFloat.
From S2P Require Import Prelude JsValue Json JsText ParamOverride.

Local Open Scope N_scope.
Local Open Scope gen_scope.

(** ** Computations that return *)

(** From every counter the computation returns a value that satisfies [P], and the
    counter does not go back. *)
Definition yields {A} (m : gen A) (P : A -> Prop) : Prop :=
  forall s, exists x s', m s = (Some x, s') /\ P x /\ s <= s'.

Lemma yields_ret {A} (x : A) (P : A -> Prop) : P x -> yields (gret x) P.
Proof. intros H s. exists x, s. split; [done|]. split; [done|lia]. Qed.

Lemma yields_bind {A B} (m : gen A) (k : A -> gen B) (P : A -> Prop) (Q : B -> Prop) :
  yields m P -> (forall x, P x -> yields (k x) Q) -> yields (gbind m k) Q.
Proof.
  intros Hm Hk s. destruct (Hm s) as (x & s' & E & Hx & Hs). destruct (Hk x Hx s') as (y & s2 & E2 & Hy & Hs2).
  exists y, s2. unfold gbind. rewrite E. split; [done|]. split; [done|lia].
Qed.

Lemma yields_mapM {A B} (f : A -> gen B) (R : A -> B -> Prop) l :
  Forall (fun x => yields (f x) (R x)) l -> yields (gmapM f l) (Forall2 R l).
Proof.
  induction 1 as [|x l Hx _ IH]; cbn [gmapM]; [apply yields_ret; by constructor|].
  eapply yields_bind; [exact Hx|]. intros y Hy. eapply yields_bind; [exact IH|]. intros ys Hys.
  apply yields_ret. by constructor.
Qed.

(** ** Rules without identifiers *)

Definition erase_condition (c : ParamOverrideCondition) : ParamOverrideCondition :=
  mkCondition [] (c_path c) (c_mode c) (c_value_text c) (c_invert c) (c_pass_missing_key c).
Definition erase (o : ParamOverrideOperation) : ParamOverrideOperation :=
  mkOperation [] (o_description o) (o_path o) (o_mode o) (o_from o) (o_to o) (o_value_text o) (o_keep_origin o)
    (o_logic o) (erase_condition <$> o_conditions o).

(** ** Properties of payloads *)

Lemma assoc_when_eq b k v fs : assoc (js k) (set_when b k v fs) = if b then v else assoc (js k) fs.
Proof. destruct b; [apply assoc_set_eq|done]. Qed.

Lemma assoc_when_ne b k k' v fs :
  (js k =s? js k') = false -> assoc (js k) (set_when b k' v fs) = assoc (js k) fs.
Proof. intros H%str_eqb_neq. destruct b; [by apply assoc_set_ne|done]. Qed.

Lemma assoc_literal k v rest : assoc (js k) ((js k, v) :: rest) = v.
Proof. cbn [assoc]. by rewrite str_eqb_refl. Qed.

(** Looks a property up in a payload. *)
Ltac look :=
  repeat first [rewrite assoc_when_eq | rewrite assoc_when_ne by (vm_compute; reflexivity)
               | rewrite assoc_literal | rewrite assoc_skip_field by (vm_compute; reflexivity)].

Lemma when_same b v w k (fs gs : list (jsstr * jsval)) :
  fs = gs -> (b = true -> v = w) -> set_when b k v fs = set_when b k w gs.
Proof. intros -> H. destruct b; [by rewrite H|done]. Qed.

Lemma set_set k v w fs : obj_set k v (obj_set k w fs) = obj_set k v fs.
Proof.
  induction fs as [|[k' x] fs IH]; cbn [obj_set]; [by rewrite str_eqb_refl|].
  destruct (k =s? k') eqn:E; cbn [obj_set]; rewrite E; [done|]. by rewrite IH.
Qed.

(** Assigning a property that exists keeps the order of the others. *)
Lemma set_swap k k' v u w fs :
  k <> k' -> obj_set k v (obj_set k' u (obj_set k w fs)) = obj_set k' u (obj_set k v fs).
Proof.
  intros Hk. assert (E1 : (k =s? k') = false) by (by apply str_eqb_neq).
  assert (E2 : (k' =s? k) = false) by (apply str_eqb_neq; congruence).
  induction fs as [|[k2 x] fs IH]; cbn [obj_set].
  - rewrite E2. cbn [obj_set]. by rewrite str_eqb_refl.
  - destruct (k =s? k2) eqn:E; cbn [obj_set].
    + apply str_eqb_eq in E as <-. rewrite E2. cbn [obj_set]. by rewrite str_eqb_refl.
    + destruct (k' =s? k2) eqn:E'; cbn [obj_set]; rewrite E; [by rewrite set_set|]. by rewrite IH.
Qed.

Section Reopen.
Variable show : jsnum -> jsstr.
Variable now : N -> N.

(** ** Values *)

(** A value text that keeps its type: a quoted string is shown without its quotes, so its
    content must be trimmed, not empty and not JSON itself; another JSON value can be printed. *)
Definition plain_value (text : jsstr) : bool :=
  match JSON_parse (trim text) with
  | Some (JString s) => truthy s && (trim s =s? s) && bool_decide (JSON_parse s = None)
  | Some v => json_ok show v
  | None => true
  end.

Lemma loose_trim text : parseLooseValue (trim text) = parseLooseValue text.
Proof. unfold parseLooseValue. by rewrite trim_idem. Qed.

Lemma parse_nil : JSON_parse [] = None.
Proof. reflexivity. Qed.

(** Reading a value and showing it again. *)
Definition shown_value (text : jsstr) : jsstr := toValueText show (parseLooseValue text).

Lemma shown_value_plain text :
  plain_value text = true ->
  parseLooseValue (shown_value text) = parseLooseValue text /\ blank (shown_value text) = blank text.
Proof.
  assert (E : parseLooseValue text = if negb (truthy (trim text)) then JString []
    else match JSON_parse (trim text) with Some v => v | None => JString (trim text) end) by reflexivity.
  unfold plain_value, shown_value, blank. rewrite E.
  destruct (truthy (trim text)) eqn:Et; cbn [negb]; [|done].
  destruct (JSON_parse (trim text)) as [v|] eqn:Ep.
  - assert (Hv : json_ok show v = true -> toValueText show v = stringify show v ->
       parseLooseValue (toValueText show v) = v /\ negb (truthy (trim (toValueText show v))) = negb true).
    { intros Hok ->. assert (Ht : trim (stringify show v) = stringify show v)
        by (apply trimmed_trim, print_trimmed, Hok).
      assert (Hp : JSON_parse (stringify show v) = Some v) by (by apply JSON_parse_stringify).
      assert (Hne : truthy (stringify show v) = true).
      { apply truthy_true. intros E0. by rewrite E0 in Hp. }
      unfold parseLooseValue. rewrite Ht, Hne, Hp. done. }
    destruct v; intros H; try (by apply Hv). apply andb_prop in H as [[Hs Ht%str_eqb_eq]%andb_prop Hn%bool_decide_eq_true].
    cbn [toValueText]. unfold parseLooseValue. by rewrite Ht, Hs, Hn.
  - intros _. cbn [toValueText]. unfold parseLooseValue. rewrite trim_idem, Et, Ep. done.
Qed.

(** ** Conditions *)

(** What is shown of a condition that was saved. *)
Definition canon_condition (c : ParamOverrideCondition) : ParamOverrideCondition :=
  mkCondition [] (trim (c_path c)) (c_mode c) (shown_value (c_value_text c)) (c_invert c) (c_pass_missing_key c).

Definition condition_wf (c : ParamOverrideCondition) : Prop :=
  c_mode c ∈ CONDITION_MODE_VALUES /\ plain_value (c_value_text c) = true.

Lemma mode_truthy m : m ∈ CONDITION_MODE_VALUES \/ m ∈ OPERATION_MODE_VALUES -> truthy m = true.
Proof.
  intros H. apply truthy_true. intros ->. revert H.
  assert (E : (set_has [] CONDITION_MODE_VALUES || set_has [] OPERATION_MODE_VALUES) = false) by reflexivity.
  unfold set_has in E. rewrite orb_false_iff, !bool_decide_eq_false in E. tauto.
Qed.

Lemma mode_or m d : m ∈ CONDITION_MODE_VALUES \/ m ∈ OPERATION_MODE_VALUES -> m ||| d = m.
Proof. intros H. unfold str_or. by rewrite mode_truthy. Qed.

Lemma known_mode_in values d m : m ∈ values -> known_mode values d (JString m) = m.
Proof. intros H. cbn [known_mode]. unfold set_has. by rewrite bool_decide_eq_true_2. Qed.

Lemma condition_read c v :
  condition_wf c -> buildConditionPayload c = Some v ->
  yields (normalizeCondition show now v) (fun c' => erase_condition c' = canon_condition c).
Proof.
  intros [Hm _]. unfold buildConditionPayload. destruct (truthy (trim (c_path c))); [|done]. cbn [negb].
  rewrite mode_or by (by left). intros [= <-] s. eexists _, _. split; [reflexivity|]. split; [|lia].
  unfold erase_condition, canon_condition, condition_of, text_field, flag_field.
  cbn [c_path c_mode c_value_text c_invert c_pass_missing_key field]. look. cbn [assoc].
  rewrite known_mode_in by done. f_equal; [by destruct (c_invert c)|by destruct (c_pass_missing_key c)].
Qed.

Lemma canon_payload c : condition_wf c -> buildConditionPayload (canon_condition c) = buildConditionPayload c.
Proof.
  intros [_ Hv]. unfold buildConditionPayload.
  cbn [canon_condition c_path c_mode c_value_text c_invert c_pass_missing_key]. rewrite trim_idem.
  by rewrite (proj1 (shown_value_plain _ Hv)).
Qed.

Lemma erase_payload c : buildConditionPayload (erase_condition c) = buildConditionPayload c.
Proof. reflexivity. Qed.

(** The conditions of a rule that are written. *)
Definition kept (cs : list ParamOverrideCondition) : list ParamOverrideCondition :=
  filter (fun c => truthy (trim (c_path c)) = true) cs.

Lemma payload_path c :
  buildConditionPayload c = None <-> truthy (trim (c_path c)) <> true.
Proof. unfold buildConditionPayload. by destruct (truthy (trim (c_path c))). Qed.

Lemma omap_kept cs :
  omap buildConditionPayload cs = omap buildConditionPayload (kept cs).
Proof.
  induction cs as [|c cs IH]; [done|]. unfold kept. rewrite filter_cons. cbn [omap list_omap]. fold (kept cs).
  case_decide as E.
  - cbn [omap list_omap]. by rewrite IH.
  - apply payload_path in E. by rewrite E.
Qed.

Lemma conditions_read cs :
  Forall condition_wf cs ->
  yields (gmapM (normalizeCondition show now) (omap buildConditionPayload cs))
    (fun cs' => erase_condition <$> cs' = canon_condition <$> kept cs).
Proof.
  intros Hwf. rewrite omap_kept.
  assert (H : Forall condition_wf (kept cs) /\ Forall (fun c => truthy (trim (c_path c)) = true) (kept cs)).
  { split; [|apply Forall_forall; intros c [Hc _]%list_elem_of_filter; done].
    rewrite Forall_forall in Hwf |- *. intros c [_ Hc]%list_elem_of_filter. by apply Hwf. }
  induction (kept cs) as [|c l IH]; [by apply yields_ret|]. destruct H as [H1 H2].
  apply Forall_cons in H1 as [Hc H1]. apply Forall_cons in H2 as [Hp H2].
  destruct (buildConditionPayload c) as [v|] eqn:Ev; [|by apply payload_path in Ev].
  cbn [omap list_omap]. rewrite Ev. cbn [gmapM]. eapply yields_bind; [by apply condition_read|].
  intros c' Hc'. eapply yields_bind; [apply IH; by split|]. intros cs' Hcs'. apply yields_ret.
  rewrite !fmap_cons. by f_equal.
Qed.

Lemma canon_conditions cs :
  Forall condition_wf cs ->
  omap buildConditionPayload (canon_condition <$> kept cs) = omap buildConditionPayload cs.
Proof.
  intros Hwf. rewrite (omap_kept cs). assert (H : Forall condition_wf (kept cs)).
  { rewrite Forall_forall in Hwf |- *. intros c [_ Hc]%list_elem_of_filter. by apply Hwf. }
  induction H as [|c l Hc _ IH]; [done|]. rewrite fmap_cons. cbn [omap list_omap].
  by rewrite (canon_payload c Hc), IH.
Qed.

(** ** Rules *)

(** The texts of a rule that are written: [from] and [to] of a rule on headers fall back
    to its path. *)
Definition written_from (o : ParamOverrideOperation) : jsstr :=
  let meta := meta_of (o_mode o) in
  let from := if m_from meta then trim (o_from o) else [] in
  if m_pathAlias meta && negb (truthy from) && truthy (trim (o_path o)) then trim (o_path o) else from.
Definition written_to (o : ParamOverrideOperation) : jsstr :=
  let to := trim (o_to o) in
  if m_pathAlias (meta_of (o_mode o)) && negb (truthy to) && truthy (trim (o_path o)) then trim (o_path o) else to.
Definition written_path (o : ParamOverrideOperation) : jsstr :=
  let meta := meta_of (o_mode o) in if m_path meta || m_pathOptional meta then trim (o_path o) else [].

(** What is shown of a rule that was saved. *)
Definition canon (o : ParamOverrideOperation) : ParamOverrideOperation :=
  let meta := meta_of (o_mode o) in
  mkOperation [] (trim (o_description o)) (written_path o) (o_mode o) (written_from o) (written_to o)
    (if m_value meta then shown_value (o_value_text o) else []) (m_keepOrigin meta && o_keep_origin o)
    (match kept (o_conditions o) with
     | [] => js "OR"
     | _ => if o_logic o =s? js "AND" then js "AND" else js "OR"
     end)
    (canon_condition <$> kept (o_conditions o)).

Definition operation_wf (o : ParamOverrideOperation) : Prop :=
  o_mode o ∈ OPERATION_MODE_VALUES /\ plain_value (o_value_text o) = true
  /\ Forall condition_wf (o_conditions o).

Lemma truthy_or (s : jsstr) : (if truthy s then s else []) = s.
Proof. by destruct s. Qed.

Lemma payload_kept cs : omap buildConditionPayload cs = [] <-> kept cs = [].
Proof.
  rewrite omap_kept. split; [|by intros ->]. intros H.
  assert (Hk : Forall (fun c => truthy (trim (c_path c)) = true) (kept cs))
    by (apply Forall_forall; intros c [Hc _]%list_elem_of_filter; done).
  destruct (kept cs) as [|c l]; [done|]. apply Forall_cons in Hk as [Hc _]. cbn [omap list_omap] in H.
  destruct (buildConditionPayload c) eqn:E; [done|]. by apply payload_path in E.
Qed.

(** What the payload of a rule holds. *)
Lemma payload_mode o : o_mode o ∈ OPERATION_MODE_VALUES ->
  assoc (js "mode") (operation_payload o) = JString (o_mode o).
Proof. intros H. unfold operation_payload. look. by rewrite mode_or by (by right). Qed.

Lemma payload_description o : text_field "description" (JObject (operation_payload o)) = trim (o_description o).
Proof.
  unfold text_field. cbn [field]. unfold operation_payload. look. cbn [assoc]. by destruct (trim (o_description o)).
Qed.

Lemma payload_written_path o : o_mode o ∈ OPERATION_MODE_VALUES ->
  text_field "path" (JObject (operation_payload o)) = written_path o.
Proof.
  intros H. unfold text_field. cbn [field]. unfold operation_payload. rewrite mode_or by (by right). look.
  cbn [assoc]. unfold written_path. destruct (meta_of (o_mode o)) as [[] [] ? ? ? ? ?]; cbn [m_path m_pathOptional andb orb];
    by destruct (trim (o_path o)).
Qed.

Lemma payload_value o : o_mode o ∈ OPERATION_MODE_VALUES ->
  assoc (js "value") (operation_payload o)
  = if m_value (meta_of (o_mode o)) then parseLooseValue (o_value_text o) else JUndefined.
Proof. intros H. unfold operation_payload. rewrite mode_or by (by right). look. cbn [assoc]. by case_match. Qed.

Lemma payload_keep o : o_mode o ∈ OPERATION_MODE_VALUES ->
  flag_field "keep_origin" (JObject (operation_payload o)) = m_keepOrigin (meta_of (o_mode o)) && o_keep_origin o.
Proof.
  intros H. unfold flag_field. cbn [field]. unfold operation_payload. rewrite mode_or by (by right). look.
  cbn [assoc]. by destruct (m_keepOrigin (meta_of (o_mode o)) && o_keep_origin o).
Qed.

Lemma payload_from o : o_mode o ∈ OPERATION_MODE_VALUES ->
  text_field "from" (JObject (operation_payload o)) = written_from o.
Proof.
  intros H. unfold text_field. cbn [field]. unfold operation_payload. rewrite mode_or by (by right). look.
  cbn [assoc]. unfold written_from. destruct (meta_of (o_mode o)) as [? ? ? [] ? ? []];
    cbn [m_from m_pathAlias andb js_truthy negb];
    try (destruct (truthy (trim (o_from o)))); cbn [negb andb truthy]; by destruct (trim (o_path o)).
Qed.

Lemma payload_to o : o_mode o ∈ OPERATION_MODE_VALUES ->
  text_field "to" (JObject (operation_payload o)) = written_to o.
Proof.
  intros H. unfold text_field. cbn [field]. unfold operation_payload. rewrite mode_or by (by right). look.
  cbn [assoc]. unfold written_to. destruct (meta_of (o_mode o)) as [? ? ? ? [] ? []];
    cbn [m_to m_pathAlias andb negb];
    destruct (trim (o_to o)); cbn [negb andb truthy js_truthy]; by destruct (trim (o_path o)).
Qed.

Lemma payload_conditions o :
  assoc (js "conditions") (operation_payload o)
  = match omap buildConditionPayload (o_conditions o) with [] => JUndefined | l => JArray l end.
Proof. unfold operation_payload. look. cbn [assoc]. by destruct (omap buildConditionPayload (o_conditions o)). Qed.

Lemma payload_logic o :
  assoc (js "logic") (operation_payload o)
  = match kept (o_conditions o) with
    | [] => JUndefined
    | _ => JString (if o_logic o =s? js "AND" then js "AND" else js "OR")
    end.
Proof.
  unfold operation_payload. look. cbn [assoc]. destruct (kept (o_conditions o)) eqn:E.
  - by rewrite (proj2 (payload_kept _) E).
  - rewrite bool_decide_eq_true_2; [done|]. intros H%payload_kept. congruence.
Qed.

Lemma yields_next : yields (nextLocalId now) (fun _ => True).
Proof. intros s. eexists _, _. split; [reflexivity|]. split; [exact I|lia]. Qed.

Lemma operation_read o :
  operation_wf o ->
  yields (normalizeOperation show now (JObject (operation_payload o))) (fun o' => erase o' = canon o).
Proof.
  intros (Hm & Hv & Hc). unfold normalizeOperation. eapply yields_bind; [exact yields_next|].
  intros id _. eapply (yields_bind _ _ (fun cs' => erase_condition <$> cs' = canon_condition <$> kept (o_conditions o))).
  - cbn [field]. rewrite payload_conditions. pose proof (conditions_read _ Hc) as Hr.
    destruct (omap buildConditionPayload (o_conditions o)) eqn:E; [|exact Hr].
    apply payload_kept in E. rewrite E. by apply yields_ret.
  - intros cs' Hcs. apply yields_ret. unfold operation_of, erase.
    cbn [o_description o_path o_mode o_from o_to o_value_text o_keep_origin o_logic o_conditions].
    rewrite payload_description, payload_written_path, payload_from, payload_to, payload_keep, Hcs by done.
    cbn [field]. rewrite payload_mode, payload_value, payload_logic, known_mode_in by done.
    unfold canon. f_equal; [by destruct (m_value (meta_of (o_mode o)))|].
    destruct (kept (o_conditions o)); [done|]. by destruct (o_logic o =s? js "AND").
Qed.

(** Rules on headers take [from] and [to], and no path of their own. *)
Lemma alias_meta mode : mode ∈ OPERATION_MODE_VALUES -> m_pathAlias (meta_of mode) = true ->
  m_from (meta_of mode) = true /\ m_to (meta_of mode) = true /\ m_path (meta_of mode) = false
  /\ m_pathOptional (meta_of mode) = false.
Proof.
  intros H. assert (Hall : Forall (fun m => m_pathAlias (meta_of m) = true ->
    m_from (meta_of m) = true /\ m_to (meta_of m) = true /\ m_path (meta_of m) = false
    /\ m_pathOptional (meta_of m) = false) OPERATION_MODE_VALUES).
  { repeat (apply Forall_cons; split; [vm_compute; by intros|]). by apply Forall_nil. }
  rewrite Forall_forall in Hall. by apply Hall.
Qed.

Lemma erase_operation_payload o : operation_payload (erase o) = operation_payload o.
Proof.
  unfold operation_payload. cbn [erase o_mode o_description o_path o_from o_to o_value_text o_keep_origin o_logic o_conditions].
  assert (E : omap buildConditionPayload (erase_condition <$> o_conditions o) = omap buildConditionPayload (o_conditions o)).
  { induction (o_conditions o) as [|c l IH]; [done|]. rewrite fmap_cons. cbn [omap list_omap]. by rewrite erase_payload, IH. }
  by rewrite E.
Qed.

Lemma trim_if (b : bool) s u : trim (if b then trim s else trim u) = if b then trim s else trim u.
Proof. destruct b; apply trim_idem. Qed.

(** The fallback of [from] and [to] to the path. *)
Lemma alias_tail from to path b :
  let p8 := set_when true "to" (JString to) (set_when true "from" (JString from) b) in
  let p9 := set_when (negb (js_truthy (assoc (js "from") p8)) && truthy path) "from" (JString path) p8 in
  set_when (negb (js_truthy (assoc (js "to") p9)) && truthy path) "to" (JString path) p9
  = set_when true "to" (JString (if negb (truthy to) && truthy path then path else to))
      (set_when true "from" (JString (if negb (truthy from) && truthy path then path else from)) b).
Proof.
  cbv zeta. look. cbn [js_truthy]. assert (Hne : js "from" <> js "to") by (by apply str_eqb_neq).
  destruct (truthy from), (truthy to), (truthy path); cbn [negb andb]; unfold set_when;
    rewrite ?set_swap, ?set_set by done; reflexivity.
Qed.

Lemma canon_operation_payload o : operation_wf o -> operation_payload (canon o) = operation_payload o.
Proof.
  intros (Hm & Hv & Hc). unfold operation_payload.
  cbn [canon o_mode o_description o_path o_from o_to o_value_text o_keep_origin o_logic o_conditions].
  rewrite (mode_or (o_mode o)), canon_conditions, trim_idem by (done || by right).
  set (cs := omap buildConditionPayload (o_conditions o)). set (meta := meta_of (o_mode o)).
  apply when_same; [apply when_same; [|done]|].
  - set (base := set_when (truthy (trim (o_description o))) "description" _ _). clearbody base.
    assert (Hval : m_value meta = true ->
      parseLooseValue (if m_value meta then shown_value (o_value_text o) else []) = parseLooseValue (o_value_text o)).
    { intros ->. apply (proj1 (shown_value_plain _ Hv)). }
    rewrite andb_assoc, andb_diag.
    unfold written_path, written_from, written_to. fold meta.
    destruct (m_pathAlias meta) eqn:Ea; cbn [andb].
    + destruct (alias_meta _ Hm Ea) as (Ef & Et & Ep & Eo). fold meta in Ef, Et, Ep, Eo.
      rewrite Ef, Et, Ep, Eo. cbn [andb orb negb].
      repeat change (set_when false ?k ?v ?x) with x. rewrite !alias_tail, !trim_if.
      change (truthy (trim [])) with false. rewrite !andb_false_r.
      do 2 (apply when_same; [|done]). apply when_same; [|done]. by apply when_same.
    + repeat change (set_when false ?k ?v ?x) with x. apply when_same; [|by intros _; rewrite trim_idem].
      rewrite trim_idem. apply when_same; [|done].
      destruct (m_from meta); apply when_same; rewrite ?trim_idem; try done;
      (apply when_same; [|done]); (apply when_same; [|exact Hval]);
      destruct (m_path meta), (m_pathOptional meta); cbn [andb orb]; by rewrite ?trim_idem.
  - intros Hh. f_equal. destruct (kept (o_conditions o)) eqn:E.
    + apply payload_kept in E. subst cs. by rewrite E in Hh.
    + by destruct (o_logic o =s? js "AND").
Qed.

(** ** Validation *)

(** The message a returned error has. *)
Definition error_message (fs : list (jsstr * jsval)) : jsstr :=
  trim (js_string show (js_or (assoc (js "message") fs) (JString []))).

(** What a rule needs: a path where its mode has one, what it reads from and writes to,
    a value, a message in a structured error, and the name of a header. *)
Definition valid_operation (o : ParamOverrideOperation) : Prop :=
  let mode := o_mode o in
  (m_path (meta_of mode) = true -> trim (o_path o) <> [])
  /\ (mode ∈ FROM_REQUIRED_MODES -> written_from o <> [])
  /\ (mode ∈ TO_REQUIRED_MODES -> written_to o <> [])
  /\ (mode ∈ VALUE_REQUIRED_MODES -> trim (o_value_text o) <> [])
  /\ (mode = js "return_error" -> forall fs, parseLooseValue (o_value_text o) = JObject fs -> error_message fs <> [])
  /\ (mode = js "pass_headers" -> parsePassHeaderNames show (parseLooseValue (o_value_text o)) <> []).

(** Modes that need a source or a value write one. *)
Lemma required_meta mode :
  (mode ∈ FROM_REQUIRED_MODES -> m_from (meta_of mode) = true)
  /\ (mode ∈ VALUE_REQUIRED_MODES -> m_value (meta_of mode) = true).
Proof.
  assert (H1 : Forall (fun m => m_from (meta_of m) = true) FROM_REQUIRED_MODES).
  { repeat (apply Forall_cons; split; [reflexivity|]). by apply Forall_nil. }
  assert (H2 : Forall (fun m => m_value (meta_of m) = true) VALUE_REQUIRED_MODES).
  { repeat (apply Forall_cons; split; [reflexivity|]). by apply Forall_nil. }
  rewrite Forall_forall in H1, H2. split; [apply H1|apply H2].
Qed.

Lemma falsy s : negb (truthy s) = false <-> s <> [].
Proof. rewrite negb_false_iff. apply truthy_true. Qed.

Lemma guard (b c : bool) (P Q : Prop) : (b = true <-> P) -> (c = false <-> Q) -> (b && c = false <-> (P -> Q)).
Proof. intros HP HQ. destruct b, c; cbn [andb]; intuition congruence. Qed.

Lemma has_in m l : set_has m l = true <-> m ∈ l.
Proof. apply bool_decide_eq_true. Qed.

Lemma nonempty_unless (b : bool) (s p : jsstr) :
  negb (truthy s) && negb (b && truthy p) = false <-> (if b && negb (truthy s) && truthy p then p else s) <> [].
Proof.
  destruct (truthy s) eqn:Es, b, (truthy p) eqn:Ep; cbn [negb andb];
    rewrite ?truthy_true, ?truthy_false in *; intuition congruence.
Qed.

Section Translated.
Variable t : jsstr -> option nat -> jsstr.
Hypothesis t_nonempty : forall key line, t key line <> [].

Lemma checked (b : bool) key line rest :
  (if b then t key line else rest) = [] <-> b = false /\ rest = [].
Proof. destruct b; [|intuition done]. split; [intros E; by apply t_nonempty in E|by intros [? _]]. Qed.

Lemma validate_operation_spec o line :
  o_mode o ∈ OPERATION_MODE_VALUES -> validate_operation show t o line = [] <-> valid_operation o.
Proof.
  intros Hm. unfold validate_operation. rewrite mode_or by (by right). rewrite !checked. unfold valid_operation.
  set (mode := o_mode o) in *. set (meta := meta_of mode).
  assert (H1 : m_path meta && negb (truthy (trim (o_path o))) = false <-> (m_path meta = true -> trim (o_path o) <> []))
    by (apply guard; [done|apply falsy]).
  assert (H2 : set_has mode FROM_REQUIRED_MODES && negb (truthy (trim (o_from o)))
                 && negb (m_pathAlias meta && truthy (trim (o_path o))) = false
               <-> (mode ∈ FROM_REQUIRED_MODES -> written_from o <> [])).
  { destruct (decide (mode ∈ FROM_REQUIRED_MODES)) as [Hf|Hf].
    - rewrite (proj2 (has_in _ _) Hf). cbn [andb]. rewrite nonempty_unless. unfold written_from. fold mode. fold meta.
      assert (E : m_from meta = true) by (by apply required_meta). rewrite E. tauto.
    - assert (E : set_has mode FROM_REQUIRED_MODES = false) by (by apply bool_decide_eq_false). rewrite E. cbn [andb]. tauto. }
  assert (H3 : set_has mode TO_REQUIRED_MODES && negb (truthy (trim (o_to o)))
                 && negb (m_pathAlias meta && truthy (trim (o_path o))) = false
               <-> (mode ∈ TO_REQUIRED_MODES -> written_to o <> [])).
  { rewrite <- andb_assoc. apply guard; [apply has_in|]. rewrite nonempty_unless. reflexivity. }
  assert (H4 : set_has mode VALUE_REQUIRED_MODES && negb (truthy (trim (o_value_text o))) = false
               <-> (mode ∈ VALUE_REQUIRED_MODES -> trim (o_value_text o) <> []))
    by (apply guard; [apply has_in|apply falsy]).
  assert (H5 : (mode =s? js "return_error") && match JSON_parse (trim (o_value_text o)) with
                 | Some (JObject fs) =>
                     negb (truthy (trim (js_string show (js_or (field "message" (JObject fs)) (JString [])))))
                 | _ => false end = false
               <-> (mode = js "return_error" -> forall fs, parseLooseValue (o_value_text o) = JObject fs -> error_message fs <> [])).
  { apply guard; [apply str_eqb_eq|]. unfold parseLooseValue. destruct (truthy (trim (o_value_text o))) eqn:Et.
    - cbn [negb]. destruct (JSON_parse (trim (o_value_text o))) as [[]|]; try (split; [by intros _ ? ?|done]).
      rewrite falsy. split; [by intros H fs [= <-]|]. intros H. by apply H.
    - apply truthy_false in Et. rewrite Et. split; [by intros _ ? ?|done]. }
  assert (H6 : (mode =s? js "pass_headers")
                 && bool_decide (parsePassHeaderNames show (parseLooseValue (trim (o_value_text o))) = []) = false
               <-> (mode = js "pass_headers" -> parsePassHeaderNames show (parseLooseValue (o_value_text o)) <> [])).
  { rewrite loose_trim. apply guard; [apply str_eqb_eq|apply bool_decide_eq_false]. }
  rewrite H1, H2, H3, H4, H5, H6. tauto.
Qed.

Lemma validate_from_spec ops : forall i,
  Forall (fun o => o_mode o ∈ OPERATION_MODE_VALUES) ops ->
  (validate_from show t i ops = [] <-> Forall valid_operation ops)
  /\ (validate_from show t i ops <> [] ->
      exists k o, ops !! k = Some o /\ ~ valid_operation o /\ Forall valid_operation (take k ops)
        /\ validate_from show t i ops = validate_operation show t o (S (i + k))).
Proof.
  induction ops as [|o ops IH]; intros i Hm; [by repeat split|]. apply Forall_cons in Hm as [Ho Hm].
  cbn [validate_from]. destruct (IH (S i) Hm) as [IH1 IH2].
  pose proof (validate_operation_spec o (S i) Ho) as Hspec.
  destruct (truthy (validate_operation show t o (S i))) eqn:E.
  - apply truthy_true in E. rewrite Forall_cons. split; [tauto|]. intros _. exists 0%nat, o.
    rewrite Nat.add_0_r. split; [done|]. split; [tauto|]. by split; [apply Forall_nil|].
  - apply truthy_false in E. rewrite Forall_cons. split; [tauto|]. intros H.
    destruct (IH2 H) as (k & o' & H1 & H2 & H3 & H4). exists (S k), o'. split; [done|]. split; [done|].
    split; [cbn [take]; apply Forall_cons; tauto|]. rewrite H4. f_equal. lia.
Qed.

(** C22: the validation of parameter overrides accepts exactly the lists in which every
    rule has what its mode needs, in terms of what is written for the rule; otherwise
    the message is that of the first rule that lacks something, with its line. *)
Theorem overrides_validated ops :
  Forall (fun o => o_mode o ∈ OPERATION_MODE_VALUES) ops ->
  (validateOperations show t ops = [] <-> Forall valid_operation ops)
  /\ (validateOperations show t ops <> [] ->
      exists k o, ops !! k = Some o /\ ~ valid_operation o /\ Forall valid_operation (take k ops)
        /\ validateOperations show t ops = validate_operation show t o (S k)).
Proof. apply (validate_from_spec ops 0). Qed.

(** ** Reopening *)

Lemma valid_erase o : valid_operation (erase o) <-> valid_operation o.
Proof. reflexivity. Qed.

Lemma blank_erase o : isOperationBlank (erase o) = isOperationBlank o.
Proof.
  unfold isOperationBlank. cbn [erase o_mode o_path o_from o_to o_value_text o_keep_origin o_conditions].
  do 2 f_equal. induction (o_conditions o) as [|c l IH]; [done|]. rewrite fmap_cons. cbn [existsb].
  by rewrite IH.
Qed.

Lemma canon_valid o : operation_wf o -> valid_operation o -> valid_operation (canon o).
Proof.
  intros (Hm & Hv & _) (H1 & H2 & H3 & H4 & H5 & H6). unfold valid_operation.
  pose proof (required_meta (o_mode o)) as [Hrf Hrv]. destruct (shown_value_plain _ Hv) as [Hp Hb].
  assert (Ht : forall s, s <> [] -> trimmed s -> trim s <> []) by (intros s Hs Ht; by rewrite trimmed_trim).
  assert (Hwf : trimmed (written_from o)) by (unfold written_from; repeat case_match; auto with js).
  assert (Hwt : trimmed (written_to o)) by (unfold written_to; case_match; auto with js).
  cbn [canon o_mode o_path o_value_text]. split_and!.
  - intros E. unfold written_path. rewrite E. cbn [orb]. rewrite trim_idem. by apply H1.
  - intros E. specialize (H2 E). unfold written_from at 1. cbn [canon o_mode o_path o_from]. rewrite (Hrf E).
    pose proof (Ht _ H2 Hwf) as Hne. rewrite (proj2 (truthy_true _) Hne). cbn [negb]. by rewrite andb_false_r.
  - intros E. specialize (H3 E). unfold written_to at 1. cbn [canon o_mode o_path o_to].
    pose proof (Ht _ H3 Hwt) as Hne. rewrite (proj2 (truthy_true _) Hne). cbn [negb]. by rewrite andb_false_r.
  - intros E. rewrite (Hrv E). specialize (H4 E). unfold blank in Hb. apply truthy_true in H4. rewrite H4 in Hb.
    apply truthy_true. by destruct (truthy (trim (shown_value (o_value_text o)))).
  - intros E fs. assert (Em : m_value (meta_of (o_mode o)) = true) by (by rewrite E). rewrite Em, Hp. by apply H5.
  - intros E. assert (Em : m_value (meta_of (o_mode o)) = true) by (by rewrite E). rewrite Em, Hp. by apply H6.
Qed.

Lemma valid_not_blank o : valid_operation o -> isOperationBlank o = false.
Proof.
  intros (H1 & _). unfold isOperationBlank. destruct (o_mode o =s? js "set") eqn:E; [|done].
  apply str_eqb_eq in E. rewrite E in H1. specialize (H1 eq_refl). unfold blank.
  by rewrite (proj2 (truthy_true _) H1).
Qed.

(** The object a list of rules is written as. *)
Definition payload_of (ops : list ParamOverrideOperation) : jsval :=
  JObject [(js "operations", JArray ((fun o => JObject (operation_payload o)) <$> ops))].

Lemma built_text ops :
  ops <> [] -> Forall (fun o => o_mode o ∈ OPERATION_MODE_VALUES) ops -> Forall valid_operation ops ->
  buildOperationsJson show t ops true = Text (stringify2 show (payload_of ops)).
Proof.
  intros Hne Hm Hv. unfold buildOperationsJson.
  assert (Hf : filter (fun o => isOperationBlank o = false) ops = ops).
  { apply filter_all. eapply Forall_impl; [exact Hv|]. apply valid_not_blank. }
  rewrite Hf. destruct (validate_from_spec ops 0 Hm) as [Hs _]. unfold validateOperations. rewrite (proj2 Hs Hv).
  by destruct ops.
Qed.

Lemma reopened_rules ops ops' :
  Forall operation_wf ops -> Forall valid_operation ops -> ops <> [] -> erase <$> ops' = canon <$> ops ->
  buildOperationsJson show t ops' true = Text (stringify2 show (payload_of ops)).
Proof.
  intros Hwf Hv Hne He.
  assert (H : Forall (fun o => o_mode o ∈ OPERATION_MODE_VALUES /\ valid_operation o) ops'
    /\ (fun o => JObject (operation_payload o)) <$> ops' = (fun o => JObject (operation_payload o)) <$> ops).
  { clear Hne. revert ops' He. induction ops as [|o ops IH]; intros ops' He.
    - apply fmap_nil_inv in He as ->. by split; [apply Forall_nil|].
    - destruct ops' as [|o' ops']; [done|]. rewrite !fmap_cons in He.
      assert (Ho : erase o' = canon o) by (by apply (f_equal (hd (canon o))) in He).
      apply (f_equal tail) in He. change (erase <$> ops' = canon <$> ops) in He.
      apply Forall_cons in Hwf as [Hw Hwf]. apply Forall_cons in Hv as [Hvo Hv].
      destruct (IH Hwf Hv ops' He) as [IH1 IH2]. split.
      + apply Forall_cons. split; [|done]. split.
        * assert (Em : o_mode o' = o_mode (canon o)) by (by rewrite <- Ho). rewrite Em. apply Hw.
        * apply (proj1 (valid_erase o')). rewrite Ho. by apply canon_valid.
      + rewrite !fmap_cons, IH2. f_equal. f_equal.
        by rewrite <- erase_operation_payload, Ho, canon_operation_payload. }
  destruct H as [H1 H2]. rewrite Forall_and in H1. destruct H1 as [Hm Hv'].
  rewrite built_text; [|by intros ->; symmetry in He; apply fmap_nil_inv in He|done|done].
  unfold payload_of. by rewrite H2.
Qed.

(** C4: what the editor of parameter overrides saves, it shows again.  Take rules with
    known modes whose value texts keep their type: a text that is not a quoted string, or
    one whose content is trimmed, not empty and not JSON itself (the editor shows a string
    without its quotes, so that a quoted 1 is read as the number when it is saved again:
    [quoted_value_retyped]).  When saving them gives a text, reopening that text gives the
    rules that were not blank, in their order, with texts trimmed and values normalised,
    and saving what is shown gives the same text. *)
Theorem overrides_reopen ops text :
  Forall operation_wf (filter (fun o => isOperationBlank o = false) ops) ->
  json_ok show (payload_of (filter (fun o => isOperationBlank o = false) ops)) = true ->
  buildOperationsJson show t ops true = Text text ->
  forall seed, exists st seed',
    parseInitialState show now text seed = (Some st, seed')
    /\ es_editMode st = visual /\ es_visualMode st = operations_mode /\ es_jsonText st = text
    /\ (text <> [] -> erase <$> es_operations st = canon <$> filter (fun o => isOperationBlank o = false) ops)
    /\ buildOperationsJson show t (es_operations st) true = Text text.
Proof.
  set (used := filter _ ops). intros Hwf Hok Hb seed. unfold buildOperationsJson in Hb. fold used in Hb.
  destruct used as [|o l] eqn:Eu; [injection Hb as <-; by eexists _, _|]. rewrite <- Eu in *. clearbody used.
  assert (Hne : used <> []) by (by rewrite Eu).
  destruct (truthy (validateOperations show t used)) eqn:Ev; [done|]. apply truthy_false in Ev. injection Hb as <-.
  fold (payload_of used).
  assert (Hm : Forall (fun o => o_mode o ∈ OPERATION_MODE_VALUES) used)
    by (eapply Forall_impl; [exact Hwf|]; by intros ? [? _]).
  apply (validate_from_spec used 0 Hm) in Ev.
  assert (Hy : yields (operations_of show now ((fun o => JObject (operation_payload o)) <$> used))
    (fun ops' => erase <$> ops' = canon <$> used)).
  { assert (Eo : operations_of show now ((fun o => JObject (operation_payload o)) <$> used)
      = gmapM (normalizeOperation show now) ((fun o => JObject (operation_payload o)) <$> used)) by (by rewrite Eu).
    rewrite Eo. clear Eu Hne Hok Hm Ev Eo. induction Hwf as [|x xs Hx _ IH]; [by apply yields_ret|].
    rewrite fmap_cons. cbn [gmapM]. eapply yields_bind; [by apply operation_read|]. intros x' Hx'.
    eapply yields_bind; [exact IH|]. intros xs' Hxs'. apply yields_ret. by rewrite !fmap_cons, Hx', Hxs'. }
  destruct (Hy seed) as (ops' & seed' & E & Hops & _).
  assert (Ht : trim (stringify2 show (payload_of used)) = stringify2 show (payload_of used))
    by (apply trimmed_trim, print_trimmed, Hok).
  assert (Hp : JSON_parse (stringify2 show (payload_of used)) = Some (payload_of used))
    by (by apply JSON_parse_stringify2).
  assert (Hg : parseInitialState show now (stringify2 show (payload_of used)) seed
    = (Some (mkEditorState visual operations_mode [] ops' (stringify2 show (payload_of used)) []), seed')).
  { assert (Hs : truthy (stringify2 show (payload_of used)) = true) by reflexivity.
    unfold parseInitialState. rewrite Ht, Hs, Hp. cbn [negb].
    change (gbind (operations_of show now ((fun o => JObject (operation_payload o)) <$> used))
      (fun ops => gret (mkEditorState visual operations_mode [] ops (stringify2 show (payload_of used)) [])) seed
      = (Some (mkEditorState visual operations_mode [] ops' (stringify2 show (payload_of used)) []), seed')).
    unfold gbind. by rewrite E. }
  eexists _, _. split; [exact Hg|]. cbn [es_editMode es_visualMode es_jsonText es_operations].
  repeat (split; [done|]). by apply reopened_rules.
Qed.

End Translated.

End Reopen.

(** ** A concrete rule *)

Definition message_of (key : jsstr) (line : option nat) : jsstr := 33 :: key.
Definition at_epoch (n : N) : N := 0.

Definition sample_rule : ParamOverrideOperation :=
  mkOperation (js "po_0_0") [] (js " temperature ") (js "set") [] [] (js "1") true (js "AND")
    [mkCondition (js "po_0_1") (js "model") (js "prefix") (js "openai/") false true].

Lemma sample_rule_wf : Forall (operation_wf show_int) [sample_rule].
Proof.
  apply Forall_singleton. split; [by_decision|].
  split; [vm_compute; reflexivity|]. apply Forall_singleton.
  split; [by_decision|vm_compute; reflexivity].
Qed.

Lemma overrides_validated_witness :
  validateOperations show_int message_of [sample_rule] = [] /\ Forall (valid_operation show_int) [sample_rule].
Proof.
  assert (E : validateOperations show_int message_of [sample_rule] = []) by (vm_compute; reflexivity).
  split; [exact E|]. revert E.
  apply (overrides_validated show_int message_of (fun _ _ H => eq_ind (33 :: _) (fun s => match s with [] => False | _ => True end) I [] H)
    [sample_rule]).
  apply Forall_singleton. refine (bool_decide_unpack _ _). vm_compute. exact I.
Defined.

Definition sample_text : jsstr :=
  match buildOperationsJson show_int message_of [sample_rule] true with Text s => s | Failed _ => [] end.

Lemma overrides_reopen_witness :
  exists st seed', parseInitialState show_int at_epoch sample_text 7 = (Some st, seed')
    /\ buildOperationsJson show_int message_of (es_operations st) true = Text sample_text.
Proof.
  destruct (overrides_reopen show_int at_epoch message_of
    (fun _ _ H => eq_ind (33 :: _) (fun s => match s with [] => False | _ => True end) I [] H)
    [sample_rule] sample_text) with (seed := 7) as (st & seed' & E & _ & _ & _ & _ & H).
  - exact sample_rule_wf.
  - vm_compute. reflexivity.
  - vm_compute. reflexivity.
  - exists st, seed'. split; [exact E|exact H].
Defined.

(** A text value that reads as something else loses its type: the rule below sets the
    text 1, is shown with the value text 1 and, saved again, sets the number. *)
Definition quoted_rule : ParamOverrideOperation :=
  mkOperation (js "po_0_0") [] (js "user") (js "set") [] [] (34 :: 49 :: [34]) false (js "OR") [].

Example quoted_value_retyped :
  assoc (js "value") (operation_payload quoted_rule) = JString (js "1")
  /\ exists o seed', normalizeOperation show_int at_epoch (JObject (operation_payload quoted_rule)) 0 = (Some o, seed')
     /\ assoc (js "value") (operation_payload o) = JNumber (num 1).
Proof. split; [vm_compute; reflexivity|]. eexists _, _. split; [reflexivity|]. vm_compute. reflexivity. Qed.

(** A rule that is [null] makes opening the dialog throw. *)
Example null_rule_throws :
  fst (parseInitialState show_int at_epoch (stringify show_int (JObject [(js "operations", JArray [JNull])])) 0) = None.
Proof. vm_compute. reflexivity. Qed.
