(* ===== verification/ParamEditor.v ===== *)
(** * The dialog of parameter overrides

    web/src/features/channels/components/dialogs/param-override-editor-dialog.tsx, the
    component: its state, its handlers and what saving sends.  The state includes the
    counter local identifiers are drawn from, a variable of the module.

    A handler that throws leaves the state as it is, less the identifiers drawn.  After
    every change an effect keeps the selected identifier among the rules.  What is only
    displayed (search text, drag feedback, expanded conditions) is left out. *)

From Stdlib Require Import SpecFloat.
From S2P Require Import Prelude JsValue Json JsText ParamOverride ParamReopen.

Local Open Scope N_scope.
Local Open Scope gen_scope.

(** ** Templates *)

Definition LEGACY_TEMPLATE : jsval := JObject [(js "temperature", JNumber (num 0)); (js "max_tokens", JNumber (num 1000))].

Definition condition_literal (path mode value : string) : jsval :=
  JObject [(js "path", JString (js path)); (js "mode", JString (js mode)); (js "value", JString (js value))].
Arguments condition_literal (path mode value)%_stdpp_scope.

(** [0.7] *)
Definition seven_tenths : jsnum := dec_to_num false 7 (-1).

Definition OPERATION_TEMPLATE : list jsval :=
  [ JObject [ (js "description", JString (js "Set default temperature for openai/* models."));
      (js "path", JString (js "temperature")); (js "mode", JString (js "set")); (js "value", JNumber seven_tenths);
      (js "conditions", JArray [condition_literal "model" "prefix" "openai/"]); (js "logic", JString (js "AND")) ] ].

Definition HEADER_PASSTHROUGH_TEMPLATE : list jsval :=
  [ JObject [ (js "description", JString (js "Pass through X-Request-Id header to upstream."));
      (js "mode", JString (js "pass_headers")); (js "value", JArray [JString (js "X-Request-Id")]);
      (js "keep_origin", JBool true) ] ].

Definition GEMINI_IMAGE_4K_TEMPLATE : list jsval :=
  [ JObject [ (js "description",
               JString (js "Set imageSize to 4K when model contains gemini/image and ends with 4k."));
      (js "mode", JString (js "set")); (js "path", JString (js "generationConfig.imageConfig.imageSize"));
      (js "value", JString (js "4K"));
      (js "conditions", JArray [ condition_literal "original_model" "contains" "gemini";
         condition_literal "original_model" "contains" "image"; condition_literal "original_model" "suffix" "4k" ]);
      (js "logic", JString (js "AND")) ] ].

Definition CODEX_CLI_HEADER_PASSTHROUGH_HEADERS : list jsstr :=
  [ js "Originator"; js "Session_id"; js "Thread_id"; js "Session-Id"; js "Thread-Id"; js "X-Client-Request-Id";
    js "User-Agent"; js "X-Codex-Beta-Features"; js "X-Codex-Turn-State"; js "X-Codex-Turn-Metadata";
    js "X-Codex-Window-Id"; js "X-Codex-Parent-Thread-Id"; js "X-OpenAI-Subagent"; js "X-OpenAI-Memgen-Request";
    js "X-ResponsesAPI-Include-Timing-Metrics"; js "X-OpenAI-Internal-Codex-Responses-Lite" ].

Definition CLAUDE_CLI_HEADER_PASSTHROUGH_HEADERS : list jsstr :=
  [ js "X-Stainless-Arch"; js "X-Stainless-Lang"; js "X-Stainless-Os"; js "X-Stainless-Package-Version";
    js "X-Stainless-Retry-Count"; js "X-Stainless-Runtime"; js "X-Stainless-Runtime-Version";
    js "X-Stainless-Timeout"; js "User-Agent"; js "X-App"; js "Anthropic-Beta";
    js "Anthropic-Dangerous-Direct-Browser-Access"; js "Anthropic-Version" ].

Definition buildPassHeadersTemplate (headers : list jsstr) : list jsval :=
  [ JObject [(js "mode", JString (js "pass_headers")); (js "value", JArray (JString <$> headers)); (js "keep_origin", JBool true)] ].

Definition CODEX_CLI_HEADER_PASSTHROUGH_TEMPLATE : list jsval :=
  [ JObject [(js "mode", JString (js "pass_headers"));
             (js "value", JArray (JString <$> CODEX_CLI_HEADER_PASSTHROUGH_HEADERS)); (js "keep_origin", JBool true)] ].
Definition CLAUDE_CLI_HEADER_PASSTHROUGH_TEMPLATE : list jsval :=
  buildPassHeadersTemplate CLAUDE_CLI_HEADER_PASSTHROUGH_HEADERS.

(** The tokens of the header, each with its replacement or [null]. *)
Definition bedrock_tokens : list (jsstr * jsval) :=
  let same k := (js k, JString (js k)) in
  let none k := (js k, JNull) in
  [ (js "advanced-tool-use-2025-11-20", JString (js "tool-search-tool-2025-10-19"));
    none "bash_20241022"; none "bash_20250124"; none "code-execution-2025-08-25"; same "compact-2026-01-12";
    same "computer-use-2025-01-24"; same "computer-use-2025-11-24"; same "context-1m-2025-08-07";
    same "context-management-2025-06-27"; none "effort-2025-11-24"; none "fast-mode-2026-02-01";
    none "files-api-2025-04-14"; none "fine-grained-tool-streaming-2025-05-14";
    same "interleaved-thinking-2025-05-14"; none "mcp-client-2025-11-20"; none "mcp-client-2025-04-04";
    none "mcp-servers-2025-12-04"; none "output-128k-2025-02-19"; none "structured-output-2024-03-01";
    none "prompt-caching-scope-2026-01-05"; none "skills-2025-10-02"; none "structured-outputs-2025-11-13";
    none "text_editor_20241022"; none "text_editor_20250124"; none "token-efficient-tools-2025-02-19";
    same "tool-search-tool-2025-10-19"; none "web-fetch-2025-09-10"; none "web-search-2025-03-05";
    none "oauth-2025-04-20" ]%string.

Definition AWS_BEDROCK_ANTHROPIC_COMPAT_TEMPLATE : list jsval :=
  [ JObject [ (js "description", JString (js "Normalize anthropic-beta header tokens for Bedrock compatibility."));
      (js "mode", JString (js "set_header")); (js "path", JString (js "anthropic-beta"));
      (js "value", JObject bedrock_tokens) ];
    JObject [ (js "description", JString (js "Remove all tools[*].custom.input_examples before upstream relay."));
      (js "mode", JString (js "delete")); (js "path", JString (js "tools.*.custom.input_examples")) ] ].

(** A preset: the object of a legacy template, or the rules of the other ones. *)
Inductive TemplatePreset := Legacy (payload : jsval) | Operations (rules : list jsval).

Definition TEMPLATE_PRESET_CONFIG : list (jsstr * TemplatePreset) :=
  [ (js "operations_default", Operations OPERATION_TEMPLATE); (js "legacy_default", Legacy LEGACY_TEMPLATE);
    (js "pass_headers_auth", Operations HEADER_PASSTHROUGH_TEMPLATE);
    (js "gemini_image_4k", Operations GEMINI_IMAGE_4K_TEMPLATE);
    (js "claude_cli_headers_passthrough", Operations CLAUDE_CLI_HEADER_PASSTHROUGH_TEMPLATE);
    (js "codex_cli_headers_passthrough", Operations CODEX_CLI_HEADER_PASSTHROUGH_TEMPLATE);
    (js "aws_bedrock_anthropic_beta_override", Operations AWS_BEDROCK_ANTHROPIC_COMPAT_TEMPLATE) ].

Definition preset_of (key : jsstr) : TemplatePreset :=
  match find (fun kp => key =s? kp.1) TEMPLATE_PRESET_CONFIG with
  | Some kp => kp.2
  | None => Operations OPERATION_TEMPLATE
  end.

(** ** State *)

Record Editor := mkEditor {
  editMode : EditMode; visualMode : VisualMode; legacyValue : jsstr; operations : list ParamOverrideOperation;
  jsonText : jsstr; jsonError : jsstr; selectedOperationId : jsstr; templatePresetKey : jsstr; localIdSeed : N }.

Definition set_operations (ops : list ParamOverrideOperation) (e : Editor) : Editor :=
  mkEditor (editMode e) (visualMode e) (legacyValue e) ops (jsonText e) (jsonError e) (selectedOperationId e)
    (templatePresetKey e) (localIdSeed e).
Definition select (id : jsstr) (e : Editor) : Editor :=
  mkEditor (editMode e) (visualMode e) (legacyValue e) (operations e) (jsonText e) (jsonError e) id
    (templatePresetKey e) (localIdSeed e).
Definition set_seed (seed : N) (e : Editor) : Editor :=
  mkEditor (editMode e) (visualMode e) (legacyValue e) (operations e) (jsonText e) (jsonError e)
    (selectedOperationId e) (templatePresetKey e) seed.
Definition set_json (mode : EditMode) (text error : jsstr) (e : Editor) : Editor :=
  mkEditor mode (visualMode e) (legacyValue e) (operations e) text error (selectedOperationId e)
    (templatePresetKey e) (localIdSeed e).

(** The effect that keeps the selection valid. *)
Definition keep_selected (e : Editor) : Editor :=
  match operations e with
  | [] => select [] e
  | o :: _ => if existsb (fun o => o_id o =s? selectedOperationId e) (operations e) then e else select (o_id o) e
  end.

(** [ops[0]?.id || ''] *)
Definition first_id (ops : list ParamOverrideOperation) : jsstr := match ops with [] => [] | o :: _ => o_id o end.

(** Runs a computation that draws identifiers. *)
Definition drawing {A} (m : gen A) (k : A -> Editor -> Editor) (e : Editor) : Editor :=
  match m (localIdSeed e) with
  | (Some x, seed) => k x (set_seed seed e)
  | (None, seed) => set_seed seed e
  end.

Section Dialog.
Variable show : jsnum -> jsstr.
Variable now : N -> N.
Variable t : jsstr -> option nat -> jsstr.

(** ** Opening *)

Definition open_dialog (value : jsstr) (e : Editor) : Editor :=
  drawing (parseInitialState show now value) (fun st e =>
    mkEditor (es_editMode st) (es_visualMode st) (es_legacyValue st) (es_operations st) (es_jsonText st)
      (es_jsonError st) (first_id (es_operations st))
      (match es_visualMode st with legacy_mode => js "legacy_default" | operations_mode => js "operations_default" end)
      (localIdSeed e)) e.

(** ** Rules *)

(** The fields the rule editor changes. *)
Record OperationPatch := mkPatch {
  pt_description : option jsstr; pt_path : option jsstr; pt_mode : option jsstr; pt_from : option jsstr;
  pt_to : option jsstr; pt_value_text : option jsstr; pt_keep_origin : option bool; pt_logic : option jsstr }.

Definition patch_operation (p : OperationPatch) (o : ParamOverrideOperation) : ParamOverrideOperation :=
  mkOperation (o_id o) (default (o_description o) (pt_description p)) (default (o_path o) (pt_path p))
    (default (o_mode o) (pt_mode p)) (default (o_from o) (pt_from p)) (default (o_to o) (pt_to p))
    (default (o_value_text o) (pt_value_text p)) (default (o_keep_origin o) (pt_keep_origin p))
    (default (o_logic o) (pt_logic p)) (o_conditions o).

(** [prev.map((o) => (o.id === id ? f(o) : o))] *)
Definition update_at (id : jsstr) (f : ParamOverrideOperation -> ParamOverrideOperation)
  (ops : list ParamOverrideOperation) : list ParamOverrideOperation :=
  (fun o => if o_id o =s? id then f o else o) <$> ops.

Definition updateOperation (id : jsstr) (patch : OperationPatch) (e : Editor) : Editor :=
  set_operations (update_at id (patch_operation patch) (operations e)) e.

Definition addOperation (e : Editor) : Editor :=
  drawing (createDefaultOperation show now)
    (fun created e => select (o_id created) (set_operations (operations e ++ [created]) e)) e.

(** The object a rule is copied from. *)
Definition copied (source : ParamOverrideOperation) : jsval :=
  JObject [ (js "description", JString (o_description source)); (js "path", JString (o_path source));
    (js "mode", JString (o_mode source)); (js "value", parseLooseValue (o_value_text source));
    (js "keep_origin", JBool (o_keep_origin source)); (js "from", JString (o_from source));
    (js "to", JString (o_to source)); (js "logic", JString (o_logic source));
    (js "conditions", JArray ((fun c => JObject [ (js "path", JString (c_path c)); (js "mode", JString (c_mode c));
        (js "value", parseLooseValue (c_value_text c)); (js "invert", JBool (c_invert c));
        (js "pass_missing_key", JBool (c_pass_missing_key c)) ]) <$> o_conditions source)) ].

(** [eager] tells that React runs the updater before the handler goes on, and so that
    the handler knows the identifier of the copy. *)
Definition duplicateOperation (eager : bool) (id : jsstr) (e : Editor) : Editor :=
  match find_index id (operations e) with
  | None => e
  | Some idx =>
      match operations e !! idx with
      | None => e
      | Some source =>
          drawing (normalizeOperation show now (copied source)) (fun cloned e =>
            let e := set_operations (take (S idx) (operations e) ++ cloned :: drop (S idx) (operations e)) e in
            if eager then select (o_id cloned) e else e) e
      end
  end.

Definition removeOperation (id : jsstr) (e : Editor) : Editor :=
  if (length (operations e) <=? 1)%nat
  then drawing (createDefaultOperation show now) (fun created e => set_operations [created] e) e
  else set_operations (filter (fun o => o_id o <> id) (operations e)) e.

(** ** Conditions *)

Definition set_conditions (f : list ParamOverrideCondition -> list ParamOverrideCondition)
  (o : ParamOverrideOperation) : ParamOverrideOperation :=
  mkOperation (o_id o) (o_description o) (o_path o) (o_mode o) (o_from o) (o_to o) (o_value_text o)
    (o_keep_origin o) (o_logic o) (f (o_conditions o)).

Definition addCondition (id : jsstr) (e : Editor) : Editor :=
  drawing (createDefaultCondition show now) (fun created e =>
    set_operations (update_at id (set_conditions (fun cs => cs ++ [created])) (operations e)) e) e.

Record ConditionPatch := mkConditionPatch {
  cp_path : option jsstr; cp_mode : option jsstr; cp_value_text : option jsstr; cp_invert : option bool;
  cp_pass_missing_key : option bool }.

Definition patch_condition (p : ConditionPatch) (c : ParamOverrideCondition) : ParamOverrideCondition :=
  mkCondition (c_id c) (default (c_path c) (cp_path p)) (default (c_mode c) (cp_mode p))
    (default (c_value_text c) (cp_value_text p)) (default (c_invert c) (cp_invert p))
    (default (c_pass_missing_key c) (cp_pass_missing_key p)).

Definition patch_at (id : jsstr) (p : ConditionPatch) (cs : list ParamOverrideCondition) : list ParamOverrideCondition :=
  (fun c => if c_id c =s? id then patch_condition p c else c) <$> cs.
Definition without (id : jsstr) (cs : list ParamOverrideCondition) : list ParamOverrideCondition :=
  filter (fun c => c_id c <> id) cs.

Definition updateCondition (id conditionId : jsstr) (patch : ConditionPatch) (e : Editor) : Editor :=
  set_operations (update_at id (set_conditions (patch_at conditionId patch)) (operations e)) e.

Definition removeCondition (id conditionId : jsstr) (e : Editor) : Editor :=
  set_operations (update_at id (set_conditions (without conditionId)) (operations e)) e.

(** ** Values with an editor of their own *)

Definition set_value_text (text : jsstr) (o : ParamOverrideOperation) : ParamOverrideOperation :=
  mkOperation (o_id o) (o_description o) (o_path o) (o_mode o) (o_from o) (o_to o) text (o_keep_origin o) (o_logic o)
    (o_conditions o).

(** [draftPatch] is the change of the draft. *)
Definition updateReturnErrorDraft (id : jsstr) (draftPatch : ReturnErrorDraft -> ReturnErrorDraft) (e : Editor) : Editor :=
  set_operations (update_at id (fun o =>
    set_value_text (buildReturnErrorValueText show (draftPatch (parseReturnErrorDraft show (o_value_text o)))) o)
    (operations e)) e.

(** The draft of a value is read again at every change. *)
Definition prune_operation (id : jsstr) (updater : PruneObjectsDraft -> gen PruneObjectsDraft)
  (o : ParamOverrideOperation) : gen ParamOverrideOperation :=
  if o_id o =s? id
  then draft <~ parsePruneObjectsDraft show now (o_value_text o);
       nextDraft <~ updater draft;
       gret (set_value_text (buildPruneObjectsValueText show nextDraft) o)
  else gret o.

Definition updatePruneObjectsDraft (id : jsstr) (updater : PruneObjectsDraft -> gen PruneObjectsDraft) (e : Editor) :
  Editor := drawing (gmapM (prune_operation id updater) (operations e)) set_operations e.

Definition set_rules (f : list PruneRule -> list PruneRule) (d : PruneObjectsDraft) : PruneObjectsDraft :=
  mkPrune (p_simpleMode d) (p_typeText d) (p_logic d) (p_recursive d) (f (p_rules d)).

Definition addPruneRule (id : jsstr) : Editor -> Editor :=
  updatePruneObjectsDraft id (fun draft =>
    rule <~ normalizePruneRule show now (JObject []);
    gret (mkPrune false (p_typeText draft) (p_logic draft) (p_recursive draft) (p_rules draft ++ [rule]))).

Definition updatePruneRule (id ruleId : jsstr) (patch : ConditionPatch) : Editor -> Editor :=
  updatePruneObjectsDraft id (fun draft => gret (set_rules (patch_at ruleId patch) draft)).

Definition removePruneRule (id ruleId : jsstr) : Editor -> Editor :=
  updatePruneObjectsDraft id (fun draft => gret (set_rules (without ruleId) draft)).

(** ** Reordering *)

Definition handleDrop (sourceId targetId : jsstr) (p : position) (e : Editor) : Editor :=
  if truthy sourceId && truthy targetId && negb (sourceId =s? targetId)
  then select sourceId (set_operations (reorderOperations (operations e) sourceId targetId p) e)
  else e.

(** ** Modes *)

Definition buildVisualJson (e : Editor) : Built :=
  match visualMode e with
  | legacy_mode =>
      let trimmed := trim (legacyValue e) in
      if negb (truthy trimmed) then Text []
      else match JSON_parse trimmed with
           | None => Failed (t (js "Parameter override must be valid JSON format") None)
           | Some (JObject fs) => Text (stringify2 show (JObject fs))
           | Some _ => Failed (t (js "Legacy format must be a JSON object") None)
           end
  | operations_mode => buildOperationsJson show t (operations e) true
  end.

Definition built_text_or (d : jsstr) (b : Built) : jsstr := match b with Text s => s | Failed _ => d end.

Definition switchToJsonMode (e : Editor) : Editor :=
  match editMode e with
  | json => e
  | visual =>
      match buildVisualJson e with
      | Text s => set_json json s [] e
      | Failed message =>
          set_json json
            (match visualMode e with
             | legacy_mode => legacyValue e
             | operations_mode => built_text_or [] (buildOperationsJson show t (operations e) false)
             end)
            (message ||| t (js "Parameter configuration error") None) e
      end
  end.

Definition to_operations (ops : list ParamOverrideOperation) (key : jsstr -> jsstr) (e : Editor) : Editor :=
  mkEditor visual operations_mode [] ops (jsonText e) [] (first_id ops) (key (templatePresetKey e)) (localIdSeed e).

Definition switchToVisualMode (e : Editor) : Editor :=
  match editMode e with
  | visual => e
  | json =>
      let trimmed := trim (jsonText e) in
      if negb (truthy trimmed)
      then drawing (createDefaultOperation show now) (fun fallback => to_operations [fallback] id) e
      else match JSON_parse trimmed with
           | None => e
           | Some (JObject fs) =>
               match field "operations" (JObject fs) with
               | JArray l => drawing (operations_of show now l)
                               (fun ops => to_operations ops (fun _ => js "operations_default")) e
               | _ => drawing (createDefaultOperation show now) (fun fallback e =>
                        mkEditor visual legacy_mode (stringify2 show (JObject fs)) [fallback] (jsonText e) []
                          (o_id fallback) (js "legacy_default") (localIdSeed e)) e
               end
           | Some _ => e
           end
  end.

(** ** Templates *)

(** [{ ...payload, ...current }] *)
Definition merge_objects (payload current : list (jsstr * jsval)) : list (jsstr * jsval) :=
  foldl (fun fs kv => obj_set kv.1 kv.2 fs) payload current.

Definition show_legacy (text : jsstr) (e : Editor) : Editor :=
  drawing (createDefaultOperation show now) (fun fallback e =>
    mkEditor visual legacy_mode text [fallback] text [] (selectedOperationId e) (templatePresetKey e) (localIdSeed e)) e.

(** The own properties a spread copies: those of an object; [null] and primitives have
    none, the indices of arrays and texts are not modelled. *)
Definition spread (v : jsval) : list (jsstr * jsval) := match v with JObject fs => fs | _ => [] end.

Definition fillTemplate (append : bool) (e : Editor) : Editor :=
  match preset_of (templatePresetKey e) with
  | Legacy payload =>
      match append, visualMode e with
      | true, legacy_mode =>
          let trimmed := trim (legacyValue e) in
          if negb (truthy trimmed) then show_legacy (stringify2 show payload) e
          else match JSON_parse trimmed with
               | None => e
               | Some current => show_legacy (stringify2 show (JObject (merge_objects (spread payload) (spread current)))) e
               end
      | _, _ => show_legacy (stringify2 show payload) e
      end
  | Operations rules =>
      if append
      then drawing (gmapM (normalizeOperation show now) rules) (fun appended e =>
             let existing := match visualMode e with
                             | operations_mode => filter (fun o => isOperationBlank o = false) (operations e)
                             | legacy_mode => []
                             end in
             let nextOps := existing ++ appended in
             mkEditor visual operations_mode [] nextOps [] [] (first_id nextOps) (templatePresetKey e) (localIdSeed e)) e
      else drawing (operations_of show now rules) (fun finalOps e =>
             mkEditor visual operations_mode (legacyValue e) finalOps
               (stringify2 show (JObject [(js "operations", JArray rules)])) [] (first_id finalOps)
               (templatePresetKey e) (localIdSeed e)) e
  end.

Definition resetEditorState (e : Editor) : Editor :=
  drawing (createDefaultOperation show now) (fun fallback e =>
    mkEditor visual operations_mode [] [fallback] [] [] (o_id fallback) (js "operations_default") (localIdSeed e)) e.

Definition handleJsonChange (nextValue : jsstr) (e : Editor) : Editor :=
  let trimmed := trim nextValue in
  set_json (editMode e) nextValue
    (if negb (truthy trimmed) || verifyJSON trimmed then [] else t (js "JSON format error") None) e.

Definition setLegacyValue (text : jsstr) (e : Editor) : Editor :=
  mkEditor (editMode e) (visualMode e) text (operations e) (jsonText e) (jsonError e) (selectedOperationId e)
    (templatePresetKey e) (localIdSeed e).

Definition setTemplatePresetKey (key : jsstr) (e : Editor) : Editor :=
  mkEditor (editMode e) (visualMode e) (legacyValue e) (operations e) (jsonText e) (jsonError e)
    (selectedOperationId e) key (localIdSeed e).

(** ** Saving *)

(** What [onSave] receives, or the message of the toast. *)
Definition handleSave (e : Editor) : Built :=
  match editMode e with
  | json =>
      let trimmed := trim (jsonText e) in
      if negb (truthy trimmed) then Text []
      else match JSON_parse trimmed with
           | None => Failed (t (js "Parameter override must be valid JSON format") None)
           | Some v => Text (stringify2 show v)
           end
  | visual => buildVisualJson e
  end.

(** ** Events *)

Inductive Event :=
| Opened (value : jsstr)
| UpdateOperation (id : jsstr) (patch : OperationPatch)
| AddOperation
| DuplicateOperation (eager : bool) (id : jsstr)
| RemoveOperation (id : jsstr)
| AddCondition (id : jsstr)
| UpdateCondition (id conditionId : jsstr) (patch : ConditionPatch)
| RemoveCondition (id conditionId : jsstr)
| UpdateReturnError (id : jsstr) (draftPatch : ReturnErrorDraft -> ReturnErrorDraft)
| UpdatePrune (id : jsstr) (draftPatch : PruneObjectsDraft -> PruneObjectsDraft)
| AddPruneRule (id : jsstr)
| UpdatePruneRule (id ruleId : jsstr) (patch : ConditionPatch)
| RemovePruneRule (id ruleId : jsstr)
| Dropped (sourceId targetId : jsstr) (p : position)
| SwitchToJson
| SwitchToVisual
| FillTemplate (append : bool)
| ResetEditor
| JsonChanged (text : jsstr)
| LegacyChanged (text : jsstr)
| PresetChosen (key : jsstr)
| Selected (id : jsstr).

Definition handle (ev : Event) (e : Editor) : Editor :=
  match ev with
  | Opened value => open_dialog value e
  | UpdateOperation id patch => updateOperation id patch e
  | AddOperation => addOperation e
  | DuplicateOperation eager id => duplicateOperation eager id e
  | RemoveOperation id => removeOperation id e
  | AddCondition id => addCondition id e
  | UpdateCondition id cid patch => updateCondition id cid patch e
  | RemoveCondition id cid => removeCondition id cid e
  | UpdateReturnError id p => updateReturnErrorDraft id p e
  | UpdatePrune id p => updatePruneObjectsDraft id (fun draft => gret (p draft)) e
  | AddPruneRule id => addPruneRule id e
  | UpdatePruneRule id rid patch => updatePruneRule id rid patch e
  | RemovePruneRule id rid => removePruneRule id rid e
  | Dropped source target p => handleDrop source target p e
  | SwitchToJson => switchToJsonMode e
  | SwitchToVisual => switchToVisualMode e
  | FillTemplate append => fillTemplate append e
  | ResetEditor => resetEditorState e
  | JsonChanged text => handleJsonChange text e
  | LegacyChanged text => setLegacyValue text e
  | PresetChosen key => setTemplatePresetKey key e
  | Selected id => select id e
  end.

(** The menus offer known modes only. *)
Definition offered (ev : Event) : Prop :=
  match ev with
  | UpdateOperation _ p => match pt_mode p with Some m => m ∈ OPERATION_MODE_VALUES | None => True end
  | UpdateCondition _ _ p => match cp_mode p with Some m => m ∈ CONDITION_MODE_VALUES | None => True end
  | _ => True
  end.

Definition step (e : Editor) (ev : Event) : Editor := keep_selected (handle ev e).

(** The state before the dialog is opened. *)
Definition initial (seed : N) : Editor :=
  keep_selected (resetEditorState (mkEditor visual operations_mode [] [] [] [] [] (js "operations_default") seed)).

Definition reached (seed : N) (evs : list Event) : Editor := foldl step (initial seed) evs.

End Dialog.
