(* ===== verification/ParamEditorProofs.v ===== *)
(** * The dialog of parameter overrides: its invariant

    The states the dialog of ParamEditor.v reaches: identifiers stay distinct, a rule is
    always selected, and modes are known ones; what reordering does; and why the editor
    of object pruning cannot change its conditions. *)

From Stdlib Require Import SpecFloat.
From S2P Require Import Prelude JsValue Json JsText ParamOverride ParamReopen ParamEditor.

Local Open Scope N_scope.
Local Open Scope gen_scope.

Section Proofs.
Variable show : jsnum -> jsstr.
Variable now : N -> N.
Variable t : jsstr -> option nat -> jsstr.

(** ** Fresh identifiers *)

Lemma show_dec_no_underscore n : 95 ∉ show_dec n.
Proof.
  intros H. pose proof (show_dec_all_digits n) as Hd. by pose proof (all_digits_elem_of _ _ Hd H).
Qed.

Lemma local_id_split n : split 95 (local_id now n) = [js "po"; show_dec (now n); show_dec n].
Proof.
  unfold local_id. change (js "po_" ++ ?x) with (js "po" ++ 95 :: x). rewrite split_cons, split_cons.
  - by rewrite split_single by apply show_dec_no_underscore.
  - apply show_dec_no_underscore.
  - refine (bool_decide_unpack _ _). vm_compute. exact I.
Qed.

Lemma local_id_inj i j : local_id now i = local_id now j -> i = j.
Proof.
  intros H. apply (f_equal (split 95)) in H. rewrite !local_id_split in H. injection H as _ H.
  by rewrite <- (parse_show_dec i), H, parse_show_dec.
Qed.

Lemma local_id_nonempty n : local_id now n <> [].
Proof. done. Qed.

(** The identifiers of [ids] were drawn with the numbers from [s] to [s']. *)
Definition drawn (s s' : N) (ids : list jsstr) : Prop :=
  NoDup ids /\ forall i, i ∈ ids -> exists k, s <= k < s' /\ i = local_id now k.

Lemma drawn_nil s s' : drawn s s' [].
Proof. split; [constructor|]. intros i H. by apply not_elem_of_nil in H. Qed.

Lemma drawn_app a b c xs ys : a <= b -> b <= c -> drawn a b xs -> drawn b c ys -> drawn a c (xs ++ ys).
Proof.
  intros Hab Hbc [Hx Hxs] [Hy Hys]. split.
  - apply NoDup_app. split; [done|]. split; [|done]. intros i Hi Hj. destruct (Hxs i Hi) as (k & Hk & ->).
    destruct (Hys _ Hj) as (k' & Hk' & E%local_id_inj). lia.
  - intros i [Hi|Hi]%elem_of_app; [destruct (Hxs i Hi) as (k & Hk & ->)|destruct (Hys i Hi) as (k & Hk & ->)];
      exists k; (split; [lia|done]).
Qed.

(** The identifiers of the result of a computation are the ones it draws. *)
Definition fresh {A} (m : gen A) (ids : A -> list jsstr) : Prop :=
  forall s r s', m s = (r, s') -> s <= s' /\ forall x, r = Some x -> drawn s s' (ids x).

Lemma fresh_ret {A} (x : A) (ids : A -> list jsstr) : ids x = [] -> fresh (gret x) ids.
Proof. intros H s r s' [= <- <-]. split; [lia|]. intros y [= <-]. rewrite H. apply drawn_nil. Qed.

Lemma fresh_throw {A} (ids : A -> list jsstr) : fresh gthrow ids.
Proof. intros s r s' [= <- <-]. split; [lia|done]. Qed.

Lemma fresh_next : fresh (nextLocalId now) (fun i => [i]).
Proof.
  intros s r s' [= <- <-]. split; [lia|]. intros i [= <-]. split; [apply NoDup_singleton|].
  intros i ->%list_elem_of_singleton. exists s. split; [lia|done].
Qed.

(** The identifiers of a sequence, when those of its result are those of its parts. *)
Lemma fresh_seq {A B} (m : gen A) (k : A -> gen B) (I : A -> list jsstr) (J : A -> B -> list jsstr) (K : B -> list jsstr) :
  fresh m I -> (forall x, fresh (k x) (J x)) ->
  (forall x s y s', k x s = (Some y, s') -> K y = I x ++ J x y) -> fresh (gbind m k) K.
Proof.
  intros Hm Hk HK s r s' E. unfold gbind in E. destruct (m s) as [[x|] s1] eqn:Em.
  - destruct (Hm _ _ _ Em) as [H1 Hx]. destruct (Hk x _ _ _ E) as [H2 Hy]. split; [lia|]. intros y ->.
    rewrite (HK x s1 y s' E). eapply drawn_app; [exact H1|exact H2|by apply Hx|by apply Hy].
  - injection E as <- <-. destruct (Hm _ _ _ Em) as [H1 _]. by split.
Qed.

Lemma fresh_bind {A B} (m : gen A) (k : A -> gen B) (I : A -> list jsstr) (J K : B -> list jsstr) :
  fresh m I -> (forall x, fresh (k x) J) ->
  (forall x s y s', k x s = (Some y, s') -> K y = I x ++ J y) -> fresh (gbind m k) K.
Proof. intros H1 H2 H3. by apply (fresh_seq m k I (fun _ => J) K). Qed.

Lemma fresh_mapM {A B} (f : A -> gen B) (ids : B -> list jsstr) l :
  (forall x, fresh (f x) ids) -> fresh (gmapM f l) (fun ys => ys ≫= ids).
Proof.
  intros Hf. induction l as [|x l IH]; cbn [gmapM]; [by apply fresh_ret|].
  intros s r s' E. unfold gbind in E. destruct (f x s) as [[y|] s1] eqn:Ef.
  - destruct (Hf x _ _ _ Ef) as [H1 Hy]. destruct (gmapM f l s1) as [[ys|] s2] eqn:El.
    + injection E as <- <-. destruct (IH _ _ _ El) as [H2 Hys]. split; [lia|]. intros zs [= <-].
      rewrite bind_cons. eapply drawn_app; [exact H1|exact H2|by apply Hy|by apply Hys].
    + injection E as <- <-. destruct (IH _ _ _ El) as [H2 _]. split; [lia|done].
  - injection E as <- <-. destruct (Hf x _ _ _ Ef) as [H1 _]. by split.
Qed.

(** The identifiers of a rule: its own and those of its conditions. *)
Definition ids_of (o : ParamOverrideOperation) : list jsstr := o_id o :: (c_id <$> o_conditions o).
Definition all_ids (ops : list ParamOverrideOperation) : list jsstr := ops ≫= ids_of.

Lemma fresh_condition v : fresh (normalizeCondition show now v) (fun c => [c_id c]).
Proof.
  eapply (fresh_bind _ _ (fun i => [i]) (fun _ => [])); [exact fresh_next| |].
  - intros i. destruct v; (apply fresh_throw || by apply fresh_ret).
  - intros i s c s' E. destruct v; try done; by injection E as <- <-.
Qed.

Lemma bind_ids (cs : list ParamOverrideCondition) : cs ≫= (fun c => [c_id c]) = c_id <$> cs.
Proof. induction cs as [|c cs IH]; [done|]. rewrite bind_cons, IH. done. Qed.

Lemma fresh_operation v : fresh (normalizeOperation show now v) ids_of.
Proof.
  eapply (fresh_bind _ _ (fun i => [i]) (fun o => c_id <$> o_conditions o)); [exact fresh_next| |].
  - intros i. assert (H : fresh (conditions <~ match field "conditions" v with
                       | JArray l => gmapM (normalizeCondition show now) l | _ => gret [] end;
         gret (operation_of show v i conditions)) (fun o => c_id <$> o_conditions o)).
    { eapply (fresh_bind _ _ (fun cs => c_id <$> cs) (fun _ => [])).
      - destruct (field "conditions" v); try (by apply fresh_ret).
        intros s r s' E. destruct (fresh_mapM _ _ l fresh_condition _ _ _ E) as [H1 H2]. split; [done|].
        intros cs Hcs. rewrite <- bind_ids. by apply H2.
      - intros cs. by apply fresh_ret.
      - intros cs s o s' [= <- <-]. cbn [operation_of o_conditions]. by rewrite app_nil_r. }
    destruct v; (apply fresh_throw || exact H).
  - intros i s o s' E. unfold ids_of. f_equal. destruct v; try done; unfold gbind in E;
      (match type of E with context [match ?m with _ => _ end] => destruct m as [[cs|] s1] end);
      try done; by injection E as <- <-.
Qed.

Lemma fresh_operations l : fresh (operations_of show now l) all_ids.
Proof.
  destruct l as [|v l]; [|apply fresh_mapM; intros x; apply fresh_operation]. cbn [operations_of].
  eapply (fresh_bind _ _ ids_of (fun _ => [])); [apply fresh_operation| |].
  - intros o. by apply fresh_ret.
  - intros o s ops s' [= <- <-]. unfold all_ids. by rewrite bind_cons.
Qed.

(** ** Known modes *)

Definition known (o : ParamOverrideOperation) : Prop :=
  o_mode o ∈ OPERATION_MODE_VALUES /\ Forall (fun c => c_mode c ∈ CONDITION_MODE_VALUES) (o_conditions o).

(** Every value the computation returns satisfies [P]. *)
Definition returns {A} (m : gen A) (P : A -> Prop) : Prop := forall s x s', m s = (Some x, s') -> P x.

Lemma known_mode_known values d v : d ∈ values -> known_mode values d v ∈ values.
Proof.
  intros Hd. destruct v; try done. cbn [known_mode]. destruct (set_has s values) eqn:E; [|done].
  by apply bool_decide_eq_true in E.
Qed.

Lemma condition_known v : returns (normalizeCondition show now v) (fun c => c_mode c ∈ CONDITION_MODE_VALUES).
Proof.
  intros s c s' E. destruct v; try done; injection E as <- <-; apply known_mode_known;
    by_decision.
Qed.

Lemma mapM_returns {A B} (f : A -> gen B) (P : B -> Prop) l :
  (forall x, returns (f x) P) -> returns (gmapM f l) (Forall P).
Proof.
  intros Hf. induction l as [|x l IH]; intros s ys s' E; [injection E as <- <-; by apply Forall_nil|].
  cbn [gmapM] in E. unfold gbind in E. destruct (f x s) as [[y|] s1] eqn:Ef; [|done].
  destruct (gmapM f l s1) as [[ys'|] s2] eqn:El; [|done]. injection E as <- <-.
  apply Forall_cons. split; [by apply (Hf x s y s1)|by apply (IH s1 ys' s2)].
Qed.

Lemma operation_known v : returns (normalizeOperation show now v) known.
Proof.
  intros s o s' E.
  assert (H : exists i cs, o = operation_of show v i cs /\ Forall (fun c => c_mode c ∈ CONDITION_MODE_VALUES) cs).
  { unfold normalizeOperation, gbind in E. cbn [nextLocalId] in E.
    assert (Hc : forall l s1 cs s2, gmapM (normalizeCondition show now) l s1 = (Some cs, s2) ->
        Forall (fun c => c_mode c ∈ CONDITION_MODE_VALUES) cs)
      by (intros l s1 cs s2; apply mapM_returns; exact condition_known).
    destruct v as [| |b|n|x|l|fs]; try done; try (injection E as <- <-; eexists _, []; split; [done|by apply Forall_nil]).
    destruct (field "conditions" (JObject fs)) as [| |b|n|x|l|fs'];
      try (injection E as <- <-; eexists _, []; split; [done|by apply Forall_nil]).
    destruct (gmapM (normalizeCondition show now) l (s + 1)) as [[cs|] s2] eqn:El; [|done]. injection E as <- <-.
    eexists _, cs. split; [done|]. by eapply Hc. }
  destruct H as (i & cs & -> & Hcs). split; [|exact Hcs]. apply known_mode_known.
  refine (bool_decide_unpack _ _). vm_compute. exact I.
Qed.

Lemma operations_known l : returns (operations_of show now l) (fun ops => ops <> [] /\ Forall known ops).
Proof.
  intros s ops s' E. destruct l as [|v l].
  - cbn [operations_of] in E. unfold gbind in E. destruct (createDefaultOperation show now s) as [[o|] s1] eqn:Eo; [|done].
    injection E as <- <-. split; [done|]. apply Forall_singleton. unfold createDefaultOperation in Eo. by eapply operation_known.
  - change (gmapM (normalizeOperation show now) (v :: l) s = (Some ops, s')) in E. split.
    + cbn [gmapM] in E. unfold gbind in E. repeat case_match; try done. by injection E as <- <-.
    + by eapply mapM_returns; [exact operation_known|exact E].
Qed.

(** ** The invariant *)

Definition Inv (e : Editor) : Prop :=
  operations e <> [] /\ drawn 0 (localIdSeed e) (all_ids (operations e)) /\ Forall known (operations e).

Lemma drawn_sub s s' xs ys : xs ⊆+ ys -> drawn s s' ys -> drawn s s' xs.
Proof.
  intros Hsub [Hn Hd]. apply submseteq_Permutation in Hsub as (zs & Hp). split.
  - rewrite Hp in Hn. by apply NoDup_app in Hn as (Hn & _).
  - intros i Hi. apply Hd. rewrite Hp. by apply elem_of_app; left.
Qed.

Lemma drawn_mono s s' s2 xs : s' <= s2 -> drawn s s' xs -> drawn s s2 xs.
Proof. intros Hs [Hn Hd]. split; [done|]. intros i Hi. destruct (Hd i Hi) as (k & Hk & ->). exists k. split; [lia|done]. Qed.

(** The invariant is about the rules and the counter only. *)
Lemma inv_ext e e' : operations e' = operations e -> localIdSeed e' = localIdSeed e -> Inv e -> Inv e'.
Proof. unfold Inv. by intros -> ->. Qed.

Lemma inv_seed e s : localIdSeed e <= s -> Inv e -> Inv (set_seed s e).
Proof. intros Hs (H1 & H2 & H3). split; [done|]. split; [|done]. by apply (drawn_mono 0 (localIdSeed e)). Qed.

Lemma inv_less ops e :
  Inv e -> ops <> [] -> all_ids ops ⊆+ all_ids (operations e) -> Forall known ops -> Inv (set_operations ops e).
Proof. intros (_ & Hd & _) Hne Hsub Hk. split; [done|]. split; [|done]. by eapply drawn_sub; [exact Hsub|]. Qed.

(** Rules over the identifiers there were and some drawn since. *)
Lemma inv_more ops new s e :
  Inv e -> localIdSeed e <= s -> drawn (localIdSeed e) s new -> ops <> [] ->
  all_ids ops ⊆+ all_ids (operations e) ++ new -> Forall known ops -> Inv (set_operations ops (set_seed s e)).
Proof.
  intros (_ & Hd & _) Hs Hnew Hne Hsub Hk. split; [done|]. split; [|done].
  eapply drawn_sub; [exact Hsub|]. by apply (drawn_app 0 (localIdSeed e) s); [lia| | |].
Qed.

Lemma drawing_inv {A} (m : gen A) (ids : A -> list jsstr) (P : A -> Prop) k e :
  Inv e -> fresh m ids -> returns m P ->
  (forall x s, localIdSeed e <= s -> drawn (localIdSeed e) s (ids x) -> P x -> Inv (k x (set_seed s e))) ->
  Inv (drawing m k e).
Proof.
  intros He Hf Hr Hk. unfold drawing. destruct (m (localIdSeed e)) as [[x|] s] eqn:E; destruct (Hf _ _ _ E) as [Hs Hx].
  - apply Hk; [done|by apply Hx|]. by eapply Hr.
  - by apply inv_seed.
Qed.

Lemma all_ids_app xs ys : all_ids (xs ++ ys) = all_ids xs ++ all_ids ys.
Proof. unfold all_ids. apply bind_app. Qed.

Lemma all_ids_cons o ops : all_ids (o :: ops) = ids_of o ++ all_ids ops.
Proof. unfold all_ids. apply bind_cons. Qed.

Lemma all_ids_one o : all_ids [o] = ids_of o.
Proof. rewrite all_ids_cons. apply app_nil_r. Qed.

(** New rules replace the old ones. *)
Lemma inv_fresh ops s e :
  localIdSeed e <= s -> drawn (localIdSeed e) s (all_ids ops) -> ops <> [] -> Forall known ops ->
  forall e', operations e' = ops -> localIdSeed e' = s -> Inv e'.
Proof.
  intros Hs [Hn Hd] Hne Hk e' E1 E2. unfold Inv. rewrite E1, E2. split; [done|]. split; [|done]. split; [done|].
  intros i Hi. destruct (Hd i Hi) as (k & Hk' & ->). exists k. split; [lia|done].
Qed.

(** *** Changes of single rules *)

Lemma update_at_sub id f ops :
  (forall o, ids_of (f o) ⊆+ ids_of o) -> all_ids (update_at id f ops) ⊆+ all_ids ops.
Proof.
  intros Hf. induction ops as [|o ops IH]; [done|]. unfold update_at in *. rewrite fmap_cons, !all_ids_cons.
  apply submseteq_app; [|exact IH]. destruct (o_id o =s? id); [apply Hf|done].
Qed.

Lemma update_at_known id f ops :
  (forall o, known o -> known (f o)) -> Forall known ops -> Forall known (update_at id f ops).
Proof.
  intros Hf H. induction H as [|o ops Ho _ IH]; [by apply Forall_nil|]. unfold update_at. rewrite fmap_cons.
  apply Forall_cons. split; [destruct (o_id o =s? id); [by apply Hf|done]|exact IH].
Qed.

Lemma inv_update_at id f e :
  (forall o, ids_of (f o) ⊆+ ids_of o) -> (forall o, known o -> known (f o)) -> Inv e ->
  Inv (set_operations (update_at id f (operations e)) e).
Proof.
  intros Hids Hk He. pose proof He as (Hne & _ & Hks). apply inv_less; [done| |by apply update_at_sub|by apply update_at_known].
  by destruct (operations e).
Qed.

Lemma update_at_absent id f ops : id ∉ all_ids ops -> update_at id f ops = ops.
Proof.
  induction ops as [|o ops IH]; [done|]. rewrite all_ids_cons, not_elem_of_app. intros [Ho Hops].
  unfold update_at in *. rewrite fmap_cons, IH by done. destruct (o_id o =s? id) eqn:E; [|done].
  apply str_eqb_eq in E. exfalso. apply Ho. unfold ids_of. rewrite E. by left.
Qed.

(** A condition is added to one rule at most. *)
Lemma add_condition_ids id c ops :
  NoDup (all_ids ops) ->
  all_ids (update_at id (set_conditions (fun cs => cs ++ [c])) ops) ⊆+ all_ids ops ++ [c_id c].
Proof.
  induction ops as [|o ops IH]; intros Hn; [by apply submseteq_nil_l|]. rewrite all_ids_cons in Hn.
  apply NoDup_app in Hn as (Ho & Hdis & Hn). unfold update_at in *. rewrite fmap_cons, !all_ids_cons.
  destruct (o_id o =s? id) eqn:E.
  - apply str_eqb_eq in E. fold (update_at id (set_conditions (fun cs => cs ++ [c])) ops).
    rewrite update_at_absent by (rewrite <- E; apply Hdis; by left).
    assert (Ei : ids_of (set_conditions (fun cs => cs ++ [c]) o) = ids_of o ++ [c_id c]).
    { unfold ids_of. cbn [set_conditions o_id o_conditions]. by rewrite fmap_app. }
    rewrite Ei, <- !app_assoc. apply submseteq_app; [done|]. by rewrite (Permutation_app_comm [c_id c]).
  - rewrite <- app_assoc. apply submseteq_app; [done|]. by apply IH.
Qed.

Lemma default_fresh : fresh (createDefaultOperation show now) ids_of.
Proof. apply fresh_operation. Qed.

Lemma default_known : returns (createDefaultOperation show now) known.
Proof. apply operation_known. Qed.

(** A new default rule alone. *)
Lemma inv_default k e :
  Inv e -> (forall o e', operations (k o e') = [o] /\ localIdSeed (k o e') = localIdSeed e') ->
  Inv (drawing (createDefaultOperation show now) k e).
Proof.
  intros He Hk. eapply drawing_inv; [done|exact default_fresh|exact default_known|]. intros o s Hs Hd Ho.
  destruct (Hk o (set_seed s e)) as [E1 E2].
  eapply (inv_fresh [o] s e Hs); [by rewrite all_ids_one|done|by apply Forall_singleton|exact E1|exact E2].
Qed.

Lemma inv_open value e : Inv e -> Inv (open_dialog show now value e).
Proof.
  intros He. unfold open_dialog.
  assert (Hdef : forall f : ParamOverrideOperation -> EditorState,
    (forall o, es_operations (f o) = [o]) ->
    fresh (op <~ createDefaultOperation show now; gret (f op)) (fun st => all_ids (es_operations st))
    /\ returns (op <~ createDefaultOperation show now; gret (f op))
         (fun st => es_operations st <> [] /\ Forall known (es_operations st))).
  { intros f Hf. split.
    - eapply (fresh_bind _ _ ids_of (fun _ => [])); [exact default_fresh|intros o; by apply fresh_ret|].
      intros o s st s' [= <- <-]. rewrite Hf, all_ids_one. by rewrite app_nil_r.
    - intros s st s' E. unfold gbind in E. destruct (createDefaultOperation show now s) as [[o|] s1] eqn:Eo; [|done].
      injection E as <- <-. rewrite Hf. split; [done|]. apply Forall_singleton. by eapply default_known. }
  assert (H : fresh (parseInitialState show now value) (fun st => all_ids (es_operations st))
    /\ returns (parseInitialState show now value) (fun st => es_operations st <> [] /\ Forall known (es_operations st))).
  { unfold parseInitialState. destruct (negb (truthy (trim value))); [by apply Hdef|].
    destruct (JSON_parse (trim value)) as [v|]; [|by apply Hdef]. destruct v as [| |b|n|x|l|fs]; try (by apply Hdef).
    destruct (field "operations" (JObject fs)) as [| |b|n|x|l|fs']; try (by apply Hdef). split.
    - eapply (fresh_bind _ _ all_ids (fun _ => [])); [apply fresh_operations|intros o; by apply fresh_ret|].
      intros ops s st s' [= <- <-]. cbn [es_operations]. by rewrite app_nil_r.
    - intros s st s' E. unfold gbind in E. destruct (operations_of show now l s) as [[ops|] s1] eqn:Eo; [|done].
      injection E as <- <-. cbn [es_operations]. by eapply operations_known. }
  destruct H as [Hf Hr]. eapply drawing_inv; [done|exact Hf|exact Hr|]. intros st s Hs Hd [Hne Hk].
  by eapply (inv_fresh (es_operations st) s e).
Qed.

Lemma filter_ids (P : ParamOverrideOperation -> Prop) `{!forall o, Decision (P o)} ops :
  all_ids (filter P ops) ⊆+ all_ids ops.
Proof.
  induction ops as [|o ops IH]; [done|]. rewrite filter_cons, all_ids_cons. case_decide.
  - rewrite all_ids_cons. by apply submseteq_app.
  - by apply submseteq_inserts_l.
Qed.

Lemma filter_known (P : ParamOverrideOperation -> Prop) `{!forall o, Decision (P o)} ops :
  Forall known ops -> Forall known (filter P ops).
Proof. rewrite !Forall_forall. intros Hall o [_ Ho]%list_elem_of_filter. by apply Hall. Qed.

Lemma inv_remove id e : Inv e -> Inv (removeOperation show now id e).
Proof.
  intros He. unfold removeOperation. destruct (length (operations e) <=? 1)%nat eqn:El; [by apply inv_default|].
  apply Nat.leb_gt in El. pose proof He as (_ & (Hn & _) & Hk). apply inv_less; [done| |apply filter_ids|by apply filter_known].
  destruct (operations e) as [|o1 [|o2 l]]; cbn [length] in El; [lia|lia|].
  rewrite !all_ids_cons in Hn. apply NoDup_app in Hn as (_ & Hd & _). rewrite !filter_cons.
  destruct (decide (o_id o1 = id)) as [<-|Hne]; [|by rewrite decide_True].
  rewrite decide_False by tauto. rewrite decide_True; [done|]. intros E.
  apply (Hd (o_id o1)); [by left|]. rewrite <- E. by left.
Qed.

(** *** Reordering *)

Lemma find_index_Some id ops i :
  find_index id ops = Some i -> exists o, ops !! i = Some o /\ o_id o = id.
Proof.
  revert i. induction ops as [|o ops IH]; intros i; cbn [find_index]; [done|].
  destruct (o_id o =s? id) eqn:E; [intros [= <-]; exists o; split; [done|by apply str_eqb_eq]|].
  destruct (find_index id ops) as [j|]; [|done]. intros [= <-]. destruct (IH j eq_refl) as (o' & H1 & H2). by exists o'.
Qed.

Lemma split_lookup {A} (l : list A) i x : l !! i = Some x -> l = take i l ++ x :: drop (S i) l /\ take 1 (drop i l) = [x].
Proof. intros H. split; [by rewrite take_drop_middle|]. by rewrite (drop_S l x i H). Qed.

(** Reordering puts the moved rule next to the target and keeps the order of the others. *)
Lemma reorder_cases ops source target p :
  reorderOperations ops source target p = ops
  \/ exists m o l1 l2 a b,
       o_id m = source /\ o_id o = target /\ ops = a ++ m :: b /\ a ++ b = l1 ++ o :: l2
       /\ reorderOperations ops source target p
          = match p with Before => l1 ++ m :: o :: l2 | After => l1 ++ o :: m :: l2 end.
Proof.
  unfold reorderOperations. destruct (_ || _); [by left|].
  destruct (find_index source ops) as [i|] eqn:Ei; [|by left].
  destruct (find_index target (take i ops ++ drop (S i) ops)) as [j|] eqn:Ej; [|by left]. right.
  apply find_index_Some in Ei as (m & Hm & Em). apply find_index_Some in Ej as (o & Ho & Eo).
  destruct (split_lookup ops i m Hm) as [Hops Htake]. destruct (split_lookup _ _ _ Ho) as [Hnext _].
  set (next := take i ops ++ drop (S i) ops) in *.
  exists m, o, (take j next), (drop (S j) next), (take i ops), (drop (S i) ops).
  split; [done|]. split; [done|]. split; [exact Hops|]. split; [exact Hnext|]. rewrite Htake. destruct p.
  - f_equal. rewrite (drop_S _ _ _ Ho). done.
  - rewrite (take_S_r _ _ _ Ho), <- app_assoc. done.
Qed.

Lemma reorder_permutes ops source target p : reorderOperations ops source target p ≡ₚ ops.
Proof.
  destruct (reorder_cases ops source target p) as [->|(m & o & l1 & l2 & a & b & _ & _ & E & E' & ->)]; [done|].
  assert (Hp : ops ≡ₚ m :: l1 ++ o :: l2) by (rewrite E, <- Permutation_middle, E'; done). rewrite Hp.
  destruct p; rewrite <- !Permutation_middle; [done|]. apply Permutation_swap.
Qed.

Lemma all_ids_permutes xs ys : xs ≡ₚ ys -> all_ids xs ≡ₚ all_ids ys.
Proof. intros H. unfold all_ids. by rewrite H. Qed.

Lemma inv_drop source target p e : Inv e -> Inv (handleDrop source target p e).
Proof.
  intros He. unfold handleDrop. destruct (_ && _); [|done]. pose proof He as (Hne & _ & Hk).
  pose proof (reorder_permutes (operations e) source target p) as Hp.
  assert (H : Inv (set_operations (reorderOperations (operations e) source target p) e)).
  { apply inv_less; [done| |by rewrite (all_ids_permutes _ _ Hp)|by rewrite Hp].
    intros E. rewrite E in Hp. by apply Permutation_nil_l in Hp. }
  by apply (inv_ext (set_operations (reorderOperations (operations e) source target p) e)).
Qed.

(** *** Copies *)

Lemma inv_duplicate eager id e : Inv e -> Inv (duplicateOperation show now eager id e).
Proof.
  intros He. unfold duplicateOperation. destruct (find_index id (operations e)) as [idx|]; [|done].
  destruct (operations e !! idx) as [source|] eqn:Es; [|done].
  eapply drawing_inv; [done|apply fresh_operation|apply operation_known|]. intros cloned s Hs Hd Hk.
  pose proof He as (Hne & _ & Hks).
  assert (H : Inv (set_operations (take (S idx) (operations e) ++ cloned :: drop (S idx) (operations e)) (set_seed s e))).
  { eapply (inv_more _ (ids_of cloned)); [done|done|done|by destruct (take _ _)| |].
    - rewrite <- (take_drop (S idx) (operations e)) at 3.
      rewrite !all_ids_app, all_ids_cons, <- !app_assoc.
      by rewrite (Permutation_app_comm (ids_of cloned)).
    - rewrite <- (take_drop (S idx) (operations e)) in Hks. rewrite Forall_app in Hks |- *. rewrite Forall_cons. tauto. }
  cbn [set_seed operations]. destruct eager; [|exact H].
  by apply (inv_ext (set_operations (take (S idx) (operations e) ++ cloned :: drop (S idx) (operations e)) (set_seed s e))).
Qed.

(** *** Drafts of pruned objects *)

(** A computation whose result holds no identifier of interest. *)
Lemma fresh_any {A} (m : gen A) ids : fresh m ids -> fresh m (fun _ => []).
Proof. intros H s r s' E. destruct (H s r s' E) as [H1 _]. split; [done|]. intros x _. apply drawn_nil. Qed.

Lemma any_bind {A B} (m : gen A) (k : A -> gen B) :
  fresh m (fun _ => []) -> (forall x, fresh (k x) (fun _ => [])) -> fresh (gbind m k) (fun _ => []).
Proof. intros H1 H2. by eapply fresh_bind. Qed.

Lemma any_mapM {A B} (f : A -> gen B) l : (forall x, fresh (f x) (fun _ => [])) -> fresh (gmapM f l) (fun _ => []).
Proof. intros H. eapply fresh_any, fresh_mapM, H. Qed.

Lemma any_ret {A} (x : A) : fresh (gret x) (fun _ => []).
Proof. by apply fresh_ret. Qed.

Lemma prune_draft_any text : fresh (parsePruneObjectsDraft show now text) (fun _ => []).
Proof.
  assert (Hr : forall v, fresh (normalizePruneRule show now v) (fun _ => []))
    by (intros v; eapply fresh_any, fresh_condition).
  unfold parsePruneObjectsDraft. destruct (negb (truthy (trim text))); [apply any_ret|].
  destruct (JSON_parse (trim text)) as [v|]; [|apply any_ret]. destruct v as [| |b|n|x|l|fs]; try apply any_ret.
  unfold prune_draft_of. apply any_bind; [|intros ws; apply any_bind; [|intros cs; apply any_ret]].
  - destruct (field "where" (JObject fs)); try apply any_ret. apply any_mapM. intros kv. apply Hr.
  - destruct (field "conditions" (JObject fs)); try apply any_ret; apply any_mapM; [apply Hr|intros kv; apply Hr].
Qed.

(** What the changes of a draft make of a rule. *)
Definition value_changed (o o' : ParamOverrideOperation) : Prop := ids_of o' = ids_of o /\ (known o -> known o').

Lemma prune_operation_same id updater o : returns (prune_operation show now id updater o) (value_changed o).
Proof.
  intros s o' s' E. unfold prune_operation in E. destruct (o_id o =s? id); [|by injection E as <- <-].
  unfold gbind in E. destruct (parsePruneObjectsDraft show now (o_value_text o) s) as [[d|] s1]; [|done].
  destruct (updater d s1) as [[d'|] s2]; [|done]. by injection E as <- <-.
Qed.

Lemma mapM_related {A B} (f : A -> gen B) (R : A -> B -> Prop) l :
  (forall x, returns (f x) (R x)) -> returns (gmapM f l) (Forall2 R l).
Proof.
  intros Hf. induction l as [|x l IH]; intros s ys s' E; [injection E as <- <-; by constructor|].
  cbn [gmapM] in E. unfold gbind in E. destruct (f x s) as [[y|] s1] eqn:Ef; [|done].
  destruct (gmapM f l s1) as [[ys'|] s2] eqn:El; [|done]. injection E as <- <-.
  constructor; [by apply (Hf x s y s1)|by apply (IH s1 ys' s2)].
Qed.

Lemma inv_prune id updater e :
  (forall d, fresh (updater d) (fun _ => [])) -> Inv e -> Inv (updatePruneObjectsDraft show now id updater e).
Proof.
  intros Hu He. unfold updatePruneObjectsDraft.
  eapply (drawing_inv _ (fun _ => []) (Forall2 value_changed (operations e))); [done| | |].
  - apply any_mapM. intros o. unfold prune_operation. destruct (o_id o =s? id); [|apply any_ret].
    apply any_bind; [apply prune_draft_any|]. intros d. apply any_bind; [apply Hu|]. intros d'. apply any_ret.
  - apply mapM_related. intros o. apply prune_operation_same.
  - intros ops s Hs _ H2. pose proof He as (Hne & _ & Hk).
    assert (Hnil : ops <> []) by (intros ->; by apply Forall2_nil_inv_r in H2).
    assert (E : all_ids ops = all_ids (operations e) /\ Forall known ops).
    { clear Hs Hne Hnil. induction H2 as [|o o' l l' [Ho Hko] _ IH]; [by split; [|apply Forall_nil]|].
      apply Forall_cons in Hk as [Hk1 Hk2]. destruct (IH Hk2) as [E H]. rewrite !all_ids_cons, Ho, E.
      split; [done|]. apply Forall_cons. auto. }
    destruct E as [E Hks]. apply inv_less; [by apply inv_seed|done|by rewrite E|done].
Qed.

(** *** Modes and templates *)

Lemma inv_add e : Inv e -> Inv (addOperation show now e).
Proof.
  intros He. eapply drawing_inv; [done|exact default_fresh|exact default_known|]. intros o s Hs Hd Ho.
  pose proof He as (Hne & _ & Hk).
  apply (inv_ext (set_operations (operations e ++ [o]) (set_seed s e))); [done|done|].
  eapply (inv_more _ (ids_of o)); [done|done|done|by destruct (operations e)|by rewrite all_ids_app, all_ids_one|].
  apply Forall_app. split; [done|]. by apply Forall_singleton.
Qed.

Lemma inv_add_condition id e : Inv e -> Inv (addCondition show now id e).
Proof.
  intros He. eapply (drawing_inv _ (fun c => [c_id c]) (fun c => c_mode c ∈ CONDITION_MODE_VALUES));
    [done|apply fresh_condition|apply condition_known|]. intros c s Hs Hd Hc. pose proof He as (Hne & (Hn & _) & Hk).
  eapply (inv_more _ [c_id c]); [done|done|done|by intros E%fmap_nil_inv|by apply add_condition_ids|].
  apply update_at_known; [|done]. intros o [H1 H2]. split; [done|]. cbn [set_conditions o_conditions].
  apply Forall_app. split; [done|]. by apply Forall_singleton.
Qed.

Lemma inv_to_operations ops key s e :
  localIdSeed e <= s -> drawn (localIdSeed e) s (all_ids ops) -> ops <> [] /\ Forall known ops ->
  Inv (to_operations ops key (set_seed s e)).
Proof. intros Hs Hd [Hne Hk]. by eapply (inv_fresh ops s e). Qed.

Lemma inv_visual e : Inv e -> Inv (switchToVisualMode show now e).
Proof.
  intros He. unfold switchToVisualMode. destruct (editMode e); [done|].
  destruct (negb (truthy (trim (jsonText e)))); [by apply inv_default|].
  destruct (JSON_parse (trim (jsonText e))) as [[]|]; try done.
  destruct (field "operations" _); try (by apply inv_default).
  eapply drawing_inv; [done|apply fresh_operations|apply operations_known|]. intros ops s Hs Hd Hk.
  by apply inv_to_operations.
Qed.

Lemma inv_json e : Inv e -> Inv (switchToJsonMode show t e).
Proof. intros He. unfold switchToJsonMode. destruct (editMode e); [|done]. by destruct (buildVisualJson show t e). Qed.

Lemma preset_rules key rules : preset_of key = Operations rules -> rules <> [].
Proof.
  unfold preset_of. destruct (find _ TEMPLATE_PRESET_CONFIG) as [[k p]|] eqn:E; [|by intros [= <-]].
  apply find_some in E as [Hin _]. cbn [snd]. intros ->.
  assert (H : Forall (fun kp => match kp.2 with Operations rules => rules <> [] | Legacy _ => True end) TEMPLATE_PRESET_CONFIG).
  { repeat (apply Forall_cons; split; [done|]). by apply Forall_nil. }
  rewrite Forall_forall in H. by apply (H (k, Operations rules)), list_elem_of_In.
Qed.

Lemma inv_fill append e : Inv e -> Inv (fillTemplate show now append e).
Proof.
  intros He. unfold fillTemplate. destruct (preset_of (templatePresetKey e)) as [payload|rules] eqn:E.
  - destruct append; [|by apply inv_default]. destruct (visualMode e); [by apply inv_default|].
    destruct (negb (truthy (trim (legacyValue e)))); [by apply inv_default|].
    destruct (JSON_parse (trim (legacyValue e))); [by apply inv_default|done].
  - destruct append.
    + assert (Hr : returns (gmapM (normalizeOperation show now) rules) (fun ops => ops <> [] /\ Forall known ops)).
      { destruct rules as [|v l]; [by apply preset_rules in E|]. exact (operations_known (v :: l)). }
      eapply drawing_inv; [done|apply fresh_mapM; intros x; apply fresh_operation|exact Hr|].
      intros ops s Hs Hd [Hne Hk]. cbn [set_seed visualMode operations]. pose proof He as (_ & _ & Hks).
      set (existing := match visualMode e with
        | operations_mode => filter (fun o => isOperationBlank o = false) (operations e) | legacy_mode => [] end).
      apply (inv_ext (set_operations (existing ++ ops) (set_seed s e))); [done|done|].
      eapply (inv_more _ (all_ids ops)); [done|done|done|by destruct existing| |].
      * rewrite all_ids_app. apply submseteq_app; [|done]. subst existing.
        destruct (visualMode e); [apply filter_ids|apply submseteq_nil_l].
      * apply Forall_app. split; [|done]. subst existing. destruct (visualMode e); [by apply filter_known|by apply Forall_nil].
    + eapply drawing_inv; [done|apply fresh_operations|apply operations_known|]. intros ops s Hs Hd [Hne Hk].
      by eapply (inv_fresh ops s e).
Qed.

(** *** Every event *)

Lemma patch_ids p o : ids_of (patch_operation p o) = ids_of o.
Proof. reflexivity. Qed.

Lemma inv_handle ev e : offered ev -> Inv e -> Inv (handle show now t ev e).
Proof.
  intros Ho He. destruct ev; cbn [handle offered] in *; try done.
  - by apply inv_open.
  - apply inv_update_at; [done| |done]. intros o [H1 H2]. split; [|done]. cbn [patch_operation o_mode].
    by destruct (pt_mode patch).
  - by apply inv_add.
  - by apply inv_duplicate.
  - by apply inv_remove.
  - by apply inv_add_condition.
  - apply inv_update_at; [| |done].
    + intros o. unfold ids_of. cbn [set_conditions o_id o_conditions]. unfold patch_at. rewrite <- list_fmap_compose.
      assert (E : (c_id ∘ fun c => if c_id c =s? conditionId then patch_condition patch c else c) <$> o_conditions o
        = c_id <$> o_conditions o) by (apply list_fmap_ext; intros i c _; unfold compose; by destruct (c_id c =s? conditionId)).
      by rewrite E.
    + intros o [H1 H2]. split; [done|]. cbn [set_conditions o_conditions]. unfold patch_at. apply Forall_fmap.
      eapply Forall_impl; [exact H2|]. intros c Hc. unfold compose.
      destruct (c_id c =s? conditionId); [|done]. cbn [patch_condition c_mode]. by destruct (cp_mode patch).
  - apply inv_update_at; [| |done].
    + intros o. unfold ids_of. cbn [set_conditions o_id o_conditions]. apply submseteq_skip, sublist_submseteq.
      apply fmap_sublist, sublist_filter.
    + intros o [H1 H2]. split; [done|]. cbn [set_conditions o_conditions]. unfold without.
      rewrite Forall_forall in H2 |- *. intros c [_ Hc]%list_elem_of_filter. by apply H2.
  - by apply inv_update_at.
  - apply inv_prune; [|done]. intros d. apply any_ret.
  - apply inv_prune; [|done]. intros d. apply any_bind; [eapply fresh_any, fresh_condition|]. intros r. apply any_ret.
  - apply inv_prune; [|done]. intros d. apply any_ret.
  - apply inv_prune; [|done]. intros d. apply any_ret.
  - by apply inv_drop.
  - by apply inv_json.
  - by apply inv_visual.
  - by apply inv_fill.
  - by apply inv_default.
Qed.

Lemma inv_keep e : Inv e -> Inv (keep_selected e) /\ selectedOperationId (keep_selected e) ∈ o_id <$> operations (keep_selected e).
Proof.
  intros He. pose proof He as (Hne & _). unfold keep_selected. destruct (operations e) as [|o l] eqn:E; [done|].
  destruct (existsb _ (o :: l)) eqn:Ex.
  - split; [done|]. rewrite E. apply existsb_exists in Ex as (o' & Hin & Eo%str_eqb_eq). rewrite <- Eo.
    by apply list_elem_of_fmap_2, list_elem_of_In.
  - split; [by apply (inv_ext e)|]. cbn [select selectedOperationId operations]. rewrite E. by left.
Qed.

Lemma inv_initial seed : Inv (initial show now seed) /\ selectedOperationId (initial show now seed) ∈ o_id <$> operations (initial show now seed).
Proof.
  apply inv_keep. unfold resetEditorState, drawing. cbn [localIdSeed].
  destruct (createDefaultOperation show now seed) as [[o|] s] eqn:E; [|done].
  destruct (default_fresh _ _ _ E) as [Hs Hd]. pose proof (default_known _ _ _ E) as Ho.
  eapply (inv_fresh [o] s (mkEditor visual operations_mode [] [] [] [] [] [] seed)); [exact Hs| |done|by apply Forall_singleton|done|done].
  rewrite all_ids_one. by apply Hd.
Qed.

Lemma inv_reached seed evs :
  Forall offered evs ->
  Inv (reached show now t seed evs)
  /\ selectedOperationId (reached show now t seed evs) ∈ o_id <$> operations (reached show now t seed evs).
Proof.
  unfold reached. intros Ho. generalize (inv_initial seed). generalize (initial show now seed).
  induction Ho as [|ev evs Hev _ IH]; intros e He; [done|]. cbn [foldl]. apply IH. apply inv_keep, inv_handle; [done|apply He].
Qed.

(** C10: in every state the dialog reaches there is a rule, the selected identifier is that
    of a rule, all identifiers of rules and conditions are distinct, so that a change
    addressed to one of them changes nothing else, and all modes are known ones. *)
Theorem override_editor_invariant seed evs :
  Forall offered evs ->
  let e := reached show now t seed evs in
  operations e <> [] /\ selectedOperationId e ∈ o_id <$> operations e /\ NoDup (all_ids (operations e))
  /\ Forall known (operations e).
Proof. intros Ho. destruct (inv_reached seed evs Ho) as [(H1 & [H2 _] & H3) H4]. done. Qed.

(** ** The editor of object pruning *)

Lemma patch_at_absent id p cs : id ∉ c_id <$> cs -> patch_at id p cs = cs.
Proof.
  induction cs as [|c cs IH]; [done|]. rewrite fmap_cons, elem_of_cons. intros H. unfold patch_at in *.
  rewrite fmap_cons, IH by (intros E; apply H; by right). rewrite (proj2 (str_eqb_neq (c_id c) id)) by (intros E; apply H; by left). done.
Qed.

Lemma without_absent id cs : id ∉ c_id <$> cs -> without id cs = cs.
Proof.
  induction cs as [|c cs IH]; [done|]. rewrite fmap_cons, elem_of_cons. intros H. unfold without in *.
  rewrite filter_cons, IH by (intros E; apply H; by right). rewrite decide_True by (intros E; apply H; by left). done.
Qed.

(** The conditions of a draft get new identifiers whenever it is read. *)
Lemma draft_ids text : fresh (parsePruneObjectsDraft show now text) (fun d => c_id <$> p_rules d).
Proof.
  assert (Hr : forall A (f : A -> jsval) l, fresh (gmapM (fun x => normalizePruneRule show now (f x)) l) (fun cs => c_id <$> cs)).
  { intros A f l s r s' E. destruct (fresh_mapM _ _ l (fun x => fresh_condition (f x)) _ _ _ E) as [H1 H2].
    split; [done|]. intros cs Hcs. rewrite <- bind_ids. by apply H2. }
  unfold parsePruneObjectsDraft. destruct (negb (truthy (trim text))); [by apply fresh_ret|].
  destruct (JSON_parse (trim text)) as [v|]; [|by apply fresh_ret]. destruct v as [| |b|n|x|l|fs]; try (by apply fresh_ret).
  unfold prune_draft_of.
  eapply (fresh_seq _ _ (fun cs => c_id <$> cs) (fun ws d => drop (length ws) (c_id <$> p_rules d))).
  - destruct (field "where" (JObject fs)); try (by apply fresh_ret). apply Hr.
  - intros ws. eapply (fresh_bind _ _ (fun cs => c_id <$> cs) (fun _ => [])).
    + destruct (field "conditions" (JObject fs)); try (by apply fresh_ret); [apply (Hr _ (fun v => v))|apply Hr].
    + intros cs. by apply fresh_ret.
    + intros cs s d s' [= <- <-]. cbn [p_rules]. rewrite fmap_app, app_nil_r, drop_app_length'; [done|]. by rewrite length_fmap.
  - intros ws s d s' E. unfold gbind in E.
    match type of E with context [match ?m with _ => _ end] => destruct m as [[cs|] s1] end; [|done].
    injection E as <- <-. cbn [p_rules]. rewrite fmap_app, drop_app_length'; [done|]. by rewrite length_fmap.
Qed.

Lemma mapM_ext_seed {A B} (f g : A -> gen B) l :
  (forall x s, f x s = g x s) -> forall s, gmapM f l s = gmapM g l s.
Proof.
  intros H. induction l as [|x l IH]; intros s; [done|]. cbn [gmapM]. unfold gbind. rewrite H.
  destruct (g x s) as [[y|] s1]; [|done]. by rewrite IH.
Qed.

(** From a counter on, a computation and another one do the same. *)
Lemma mapM_ext_from {A B} (f g : A -> gen B) ids l n :
  (forall x, fresh (g x) ids) -> (forall x s, n <= s -> f x s = g x s) -> forall s, n <= s -> gmapM f l s = gmapM g l s.
Proof.
  intros Hg H. induction l as [|x l IH]; intros s Hs; [done|]. cbn [gmapM]. unfold gbind. rewrite (H x s Hs).
  destruct (g x s) as [[y|] s1] eqn:E; [|done]. destruct (Hg x _ _ _ E) as [Hle _]. by rewrite IH by lia.
Qed.

(** A change of the conditions of a draft that only looks for an identifier drawn before
    the draft was read changes nothing. *)
Lemma stale_rule_edit f id k e :
  k < localIdSeed e -> (forall rules, local_id now k ∉ c_id <$> rules -> f rules = rules) ->
  updatePruneObjectsDraft show now id (fun draft => gret (set_rules f draft)) e
  = updatePruneObjectsDraft show now id gret e.
Proof.
  intros Hk Hf. unfold updatePruneObjectsDraft, drawing.
  assert (E : gmapM (prune_operation show now id (fun draft => gret (set_rules f draft))) (operations e) (localIdSeed e)
    = gmapM (prune_operation show now id gret) (operations e) (localIdSeed e)).
  { apply (mapM_ext_from _ _ (fun _ => []) _ (localIdSeed e)); [| |lia].
    - intros o. unfold prune_operation. destruct (o_id o =s? id); [|apply any_ret].
      apply any_bind; [apply prune_draft_any|]. intros d. apply any_bind; [apply any_ret|]. intros d'. apply any_ret.
    - intros o s Hs. unfold prune_operation. destruct (o_id o =s? id); [|done]. unfold gbind.
      destruct (parsePruneObjectsDraft show now (o_value_text o) s) as [[d|] s1] eqn:Ed; [|done].
      destruct (draft_ids _ _ _ _ Ed) as [_ Hd]. destruct (Hd d eq_refl) as [_ Hids].
      assert (Hr : f (p_rules d) = p_rules d).
      { apply Hf. intros Hin. destruct (Hids _ Hin) as (k' & Hk' & E%local_id_inj). lia. }
      unfold gret, set_rules. rewrite Hr. by destruct d. }
  by rewrite E.
Qed.

(** The new condition has no path, and is not written. *)
Lemma blank_rule_dropped rules n :
  filter (fun r => truthy (trim (c_path r)) = true) (rules ++ [condition_of show (JObject []) (local_id now n)])
  = filter (fun r => truthy (trim (c_path r)) = true) rules.
Proof. rewrite filter_app, filter_cons, decide_False, filter_nil, app_nil_r; done. Qed.

(** An object with a type and nothing else is read as a simple draft. *)
Lemma type_only_simple ty seed :
  trim ty = ty -> ty <> [] -> str_ok ty = true ->
  parsePruneObjectsDraft show now (stringify show (JObject [(js "type", JString ty)])) seed
  = (Some (mkPrune true ty (js "AND") true []), seed).
Proof.
  intros Ht Hne Hok. set (text := stringify show _).
  assert (Hj : json_ok show (JObject [(js "type", JString ty)]) = true) by (cbn [json_ok forallb fst snd]; by rewrite Hok).
  assert (Htr : trim text = text) by (apply trimmed_trim, print_trimmed, Hj).
  assert (Hp : JSON_parse text = Some (JObject [(js "type", JString ty)])) by (by apply JSON_parse_stringify).
  assert (Htt : truthy text = true) by reflexivity.
  unfold parsePruneObjectsDraft. rewrite Htr, Htt, Hp. cbn [negb].
  change (gret (mkPrune true (trim ty) (js "AND") true []) seed = (Some (mkPrune true ty (js "AND") true []), seed)).
  by rewrite Ht.
Qed.

(** *** What the editor writes for conditions it reads back *)

Definition written_rules (d : PruneObjectsDraft) : list PruneRule :=
  filter (fun r => truthy (trim (c_path r)) = true) (p_rules d).

Definition prune_fields (d : PruneObjectsDraft) : list (jsstr * jsval) :=
  set_when true "conditions" (JArray (prune_condition_payload <$> written_rules d))
  (set_when (negb (p_recursive d)) "recursive" (JBool false)
  (set_when (upper_ascii (p_logic d ||| js "AND") =s? js "OR") "logic" (JString (js "OR"))
  (set_when (truthy (trim (p_typeText d))) "type" (JString (trim (p_typeText d))) []))).

Lemma build_advanced d :
  p_simpleMode d = false -> written_rules d <> [] -> buildPruneObjectsValueText show d = stringify show (JObject (prune_fields d)).
Proof.
  intros Hs Hne. unfold buildPruneObjectsValueText. rewrite Hs. fold (written_rules d).
  rewrite bool_decide_true by (by destruct (written_rules d)). by rewrite andb_false_r.
Qed.

(** A text the editor writes for a draft with a condition, whose value texts keep their type. *)
Definition prune_written (text : jsstr) : Prop :=
  exists d, p_simpleMode d = false /\ written_rules d <> [] /\ Forall (condition_wf show) (written_rules d)
    /\ json_ok show (JObject (prune_fields d)) = true /\ text = buildPruneObjectsValueText show d.

(** What is read of a condition that was written. *)
Definition canon_prune (r : PruneRule) : PruneRule :=
  mkCondition [] (trim (c_path r)) (c_mode r) (if truthy (trim (c_value_text r)) then shown_value show (c_value_text r) else [])
    (c_invert r) (c_pass_missing_key r).

Lemma prune_rule_read r :
  condition_wf show r ->
  yields (normalizePruneRule show now (prune_condition_payload r)) (fun r' => erase_condition r' = canon_prune r).
Proof.
  intros [Hm _] s. eexists _, _. split; [reflexivity|]. split; [|lia].
  unfold erase_condition, canon_prune, condition_of, text_field, flag_field, prune_condition_payload.
  cbn [c_path c_mode c_value_text c_invert c_pass_missing_key field]. look. cbn [assoc].
  unfold set_has at 1. rewrite bool_decide_eq_true_2, known_mode_in by done. rewrite loose_trim.
  f_equal; [by destruct (truthy (trim (c_value_text r)))|by destruct (c_invert r)|by destruct (c_pass_missing_key r)].
Qed.

Lemma canon_prune_payload r : condition_wf show r -> prune_condition_payload (canon_prune r) = prune_condition_payload r.
Proof.
  intros [_ Hv]. destruct (shown_value_plain show _ Hv) as [Hp Hb]. unfold blank in Hb. unfold prune_condition_payload, canon_prune.
  cbn [c_path c_mode c_value_text c_invert c_pass_missing_key]. rewrite trim_idem.
  destruct (truthy (trim (c_value_text r))) eqn:E; [|done].
  assert (E' : truthy (trim (shown_value show (c_value_text r))) = true)
    by (by destruct (truthy (trim (shown_value show (c_value_text r))))).
  by rewrite E', !loose_trim, Hp.
Qed.

Lemma erase_prune_payload r : prune_condition_payload (erase_condition r) = prune_condition_payload r.
Proof. reflexivity. Qed.

Lemma prune_rules_read rs :
  Forall (condition_wf show) rs ->
  yields (gmapM (normalizePruneRule show now) (filter (fun v => isRecord v = true) (prune_condition_payload <$> rs)))
    (fun rs' => erase_condition <$> rs' = canon_prune <$> rs).
Proof.
  induction 1 as [|r rs Hr _ IH]; [by apply yields_ret|]. rewrite fmap_cons, filter_cons_True by done. cbn [gmapM].
  eapply yields_bind; [by apply prune_rule_read|]. intros r' Hr'. eapply yields_bind; [exact IH|]. intros rs' Hrs'.
  apply yields_ret. by rewrite !fmap_cons, Hr', Hrs'.
Qed.

(** Conditions that are read as these have the same paths set and the same payloads. *)
Lemma prune_rules_same l rs :
  Forall (condition_wf show) l -> Forall (fun r => truthy (trim (c_path r)) = true) l ->
  erase_condition <$> rs = canon_prune <$> l ->
  Forall (fun r => truthy (trim (c_path r)) = true) rs /\ prune_condition_payload <$> rs = prune_condition_payload <$> l.
Proof.
  intros Hwf Hw. revert rs. induction l as [|r l IH]; intros rs Hrs.
  - apply fmap_nil_inv in Hrs as ->. by split; [apply Forall_nil|].
  - destruct rs as [|r' rs]; [done|]. rewrite !fmap_cons in Hrs.
    assert (Hr : erase_condition r' = canon_prune r) by (by apply (f_equal (hd (canon_prune r))) in Hrs).
    apply (f_equal tail) in Hrs. change (erase_condition <$> rs = canon_prune <$> l) in Hrs.
    apply Forall_cons in Hwf as [Hr1 Hwf]. apply Forall_cons in Hw as [Hr2 Hw].
    destruct (IH Hwf Hw rs Hrs) as [IH1 IH2]. split.
    + apply Forall_cons. split; [|done]. assert (Ep : c_path r' = c_path (canon_prune r)) by (by rewrite <- Hr).
      rewrite Ep. cbn [canon_prune c_path]. by rewrite trim_idem.
    + rewrite !fmap_cons, IH2. f_equal. by rewrite <- erase_prune_payload, Hr, canon_prune_payload.
Qed.

(** The properties of the object that is written. *)
Lemma prune_fields_read d :
  field "where" (JObject (prune_fields d)) = JUndefined
  /\ field "conditions" (JObject (prune_fields d)) = JArray (prune_condition_payload <$> written_rules d)
  /\ field "type" (JObject (prune_fields d)) = (if truthy (trim (p_typeText d)) then JString (trim (p_typeText d)) else JUndefined)
  /\ field "logic" (JObject (prune_fields d))
     = (if upper_ascii (p_logic d ||| js "AND") =s? js "OR" then JString (js "OR") else JUndefined)
  /\ field "recursive" (JObject (prune_fields d)) = (if negb (p_recursive d) then JBool false else JUndefined).
Proof. cbn [field]. unfold prune_fields. split_and!; look; done. Qed.

(** Such a text is read as an advanced draft, which is written as the same text. *)
Lemma prune_reread text :
  prune_written text ->
  yields (parsePruneObjectsDraft show now text) (fun d => p_simpleMode d = false /\ buildPruneObjectsValueText show d = text).
Proof.
  intros (d & Hs & Hne & Hwf & Hok & ->). rewrite (build_advanced d Hs Hne).
  assert (Ht : trim (stringify show (JObject (prune_fields d))) = stringify show (JObject (prune_fields d)))
    by (apply trimmed_trim, print_trimmed, Hok).
  unfold parsePruneObjectsDraft. rewrite Ht, (JSON_parse_stringify _ _ Hok). cbn [stringify truthy negb].
  destruct (prune_fields_read d) as (E1 & E2 & E3 & E4 & E5).
  unfold prune_draft_of. rewrite E1, E2, E3, E4, E5. cbn [is_defined orb].
  eapply yields_bind; [by apply (yields_ret [] (fun ws => ws = []))|]. intros ws ->.
  eapply yields_bind; [by apply prune_rules_read|]. intros rs Hrs. apply yields_ret. rewrite !orb_true_r. split; [done|].
  set (d' := mkPrune _ _ _ _ _).
  destruct (prune_rules_same (written_rules d) rs) as [Hp1 Hp2]; [done| |done|].
  { apply Forall_forall. by intros r [Hr _]%list_elem_of_filter. }
  assert (Hwd : written_rules d' = rs) by (by apply (filter_all _ rs)).
  rewrite build_advanced; [|done|].
  - f_equal. f_equal. unfold prune_fields. rewrite Hwd, Hp2. unfold d'. cbn [p_typeText p_logic p_recursive].
    destruct (truthy (trim (p_typeText d))) eqn:Et; cbn [js_string]; rewrite ?trim_idem, ?Et;
      by destruct (upper_ascii (p_logic d ||| js "AND") =s? js "OR"), (p_recursive d).
  - rewrite Hwd. intros ->. by destruct (written_rules d).
Qed.

(** The rules after a change of the draft of some of them. *)
Lemma prune_operations updater F id e :
  (forall o s, o ∈ operations e -> o_id o = id -> localIdSeed e <= s -> exists s',
     gbind (parsePruneObjectsDraft show now (o_value_text o)) (fun d => gbind (updater d) (fun d' => gret (buildPruneObjectsValueText show d'))) s
     = (Some (F o), s') /\ s <= s') ->
  operations (updatePruneObjectsDraft show now id updater e)
  = (fun o => if o_id o =s? id then set_value_text (F o) o else o) <$> operations e.
Proof.
  intros H. unfold updatePruneObjectsDraft, drawing.
  assert (Hm : forall l s, (forall o, o ∈ l -> o ∈ operations e) -> localIdSeed e <= s -> exists s',
    gmapM (prune_operation show now id updater) l s
    = (Some ((fun o => if o_id o =s? id then set_value_text (F o) o else o) <$> l), s') /\ localIdSeed e <= s').
  { induction l as [|o l IH]; intros s Hl Hs; [by exists s|].
    assert (Ho : exists s1, prune_operation show now id updater o s
      = (Some (if o_id o =s? id then set_value_text (F o) o else o), s1) /\ localIdSeed e <= s1).
    { unfold prune_operation. destruct (o_id o =s? id) eqn:E; [|by exists s]. apply str_eqb_eq in E.
      destruct (H o s (Hl o (list_elem_of_here _ _)) E Hs) as (s1 & E1 & Hle). exists s1. split; [|lia].
      unfold gbind in *. destruct (parsePruneObjectsDraft show now (o_value_text o) s) as [[d|] s2]; [|done].
      destruct (updater d s2) as [[d'|] s3]; [|done]. unfold gret in *. by injection E1 as -> ->. }
    destruct Ho as (s1 & E1 & H1). destruct (IH s1) as (s2 & E2 & H2); [intros o' Ho'; apply Hl; by right|done|].
    exists s2. split; [|done]. cbn [gmapM]. unfold gbind. by rewrite E1, E2. }
  destruct (Hm (operations e) (localIdSeed e)) as (s' & -> & _); [done|lia|done].
Qed.

Lemma set_same_value o : set_value_text (o_value_text o) o = o.
Proof. by destruct o. Qed.

Lemma prune_same updater id e :
  (forall o s, o ∈ operations e -> o_id o = id -> localIdSeed e <= s -> exists s',
     gbind (parsePruneObjectsDraft show now (o_value_text o)) (fun d => gbind (updater d) (fun d' => gret (buildPruneObjectsValueText show d'))) s
     = (Some (o_value_text o), s') /\ s <= s') ->
  operations (updatePruneObjectsDraft show now id updater e) = operations e.
Proof.
  intros H. rewrite (prune_operations updater o_value_text id e H). rewrite <- (list_fmap_id (operations e)) at 2.
  apply list_fmap_ext. intros i o _. destruct (o_id o =s? id); [apply set_same_value|done].
Qed.

(** An advanced draft is written the same with the new condition. *)
Lemma blank_rule_unwritten d n :
  p_simpleMode d = false ->
  buildPruneObjectsValueText show (mkPrune false (p_typeText d) (p_logic d) (p_recursive d)
    (p_rules d ++ [condition_of show (JObject []) (local_id now n)])) = buildPruneObjectsValueText show d.
Proof.
  intros Hs. unfold buildPruneObjectsValueText. cbn [p_typeText p_simpleMode p_rules p_logic p_recursive].
  by rewrite Hs, blank_rule_dropped.
Qed.

(** With a type only, the new condition leaves an object with the type. *)
Lemma type_only_written ty n :
  trim ty = ty -> ty <> [] ->
  buildPruneObjectsValueText show (mkPrune false ty (js "AND") true ([] ++ [condition_of show (JObject []) (local_id now n)]))
  = stringify show (JObject [(js "type", JString ty)]).
Proof.
  intros Ht Hne. unfold buildPruneObjectsValueText. cbn [p_typeText p_simpleMode p_rules p_logic p_recursive].
  rewrite blank_rule_dropped, Ht, (proj2 (truthy_true _) Hne). reflexivity.
Qed.

(** C35: the conditions of object pruning cannot be edited.  Every change reads the draft
    again from the text of the rule, and a draft that is read gets new identifiers, so
    that a change or a removal addressed to a condition that is shown (its identifier was
    drawn before) finds none; and a new condition has an empty path, with which it is not
    written.  For a rule whose text is one the editor writes for a draft with a condition,
    with value texts that keep their type, all three leave every rule as it was.  For
    a rule whose text is a plain type, adding a condition writes the type as an object,
    which is read as a simple draft without conditions: the advanced mode is left again. *)
Theorem prune_conditions_uneditable id k patch e ty :
  k < localIdSeed e ->
  let holds P := Forall (fun o => o_id o = id -> P (o_value_text o)) (operations e) in
  (holds prune_written ->
     operations (updatePruneRule show now id (local_id now k) patch e) = operations e
     /\ operations (removePruneRule show now id (local_id now k) e) = operations e
     /\ operations (addPruneRule show now id e) = operations e)
  /\ (trim ty = ty -> ty <> [] -> str_ok ty = true -> JSON_parse ty = None -> holds (eq ty) ->
     let text := stringify show (JObject [(js "type", JString ty)]) in
     operations (addPruneRule show now id e) = (fun o => if o_id o =s? id then set_value_text text o else o) <$> operations e
     /\ forall seed, parsePruneObjectsDraft show now text seed = (Some (mkPrune true ty (js "AND") true []), seed)).
Proof.
  intros Hk holds. split.
  - intros Hw. unfold holds in Hw. rewrite Forall_forall in Hw.
    assert (Hsame : operations (updatePruneObjectsDraft show now id gret e) = operations e).
    { apply prune_same. intros o s Ho Hid _. destruct (prune_reread _ (Hw o Ho Hid) s) as (d & s' & E & [_ Hb] & Hle).
      exists s'. unfold gbind, gret. by rewrite E, Hb. }
    split; [|split].
    + etrans; [|exact Hsame]. f_equal. apply (stale_rule_edit _ id k e Hk). intros rules. apply patch_at_absent.
    + etrans; [|exact Hsame]. f_equal. apply (stale_rule_edit _ id k e Hk). intros rules. apply without_absent.
    + apply prune_same. intros o s Ho Hid _.
      destruct (prune_reread _ (Hw o Ho Hid) s) as (d & s' & E & [Hs Hb] & Hle).
      exists (s' + 1). split; [|lia]. rewrite <- Hb at 2. rewrite <- (blank_rule_unwritten d s' Hs).
      unfold gbind. by rewrite E.
  - intros Ht Hne Hok Hp Hty. unfold holds in Hty. rewrite Forall_forall in Hty. split.
    + apply (prune_operations _ (fun _ => stringify show (JObject [(js "type", JString ty)])) id e).
      intros o s Ho Hid _. exists (s + 1). split; [|lia].
      rewrite <- (Hty o Ho Hid). unfold parsePruneObjectsDraft. rewrite Ht, (proj2 (truthy_true _) Hne), Hp.
      pose proof (type_only_written ty s Ht Hne) as Hb. unfold gbind. cbn [negb]. by rewrite <- Hb.
    + intros seed. by apply type_only_simple.
Qed.


(** ** Values with an editor that works *)

Lemma sync_target_text (type key : jsstr) :
  buildSyncTargetSpec type key
  = if negb (truthy (trim key)) then [] else (if type =s? js "header" then js "header" else js "json") ++ 58 :: trim key.
Proof. reflexivity. Qed.

(** The target of a synchronisation is read back as it was built. *)
Lemma sync_target_read (h : bool) key :
  trim key <> [] ->
  parseSyncTargetSpec ((if h then js "header" else js "json") ++ 58 :: trim key)
  = (if h then js "header" else js "json", trim key).
Proof.
  intros Hne. set (pre := if h then js "header" else js "json"). unfold parseSyncTargetSpec.
  assert (Ht : trimmed (pre ++ 58 :: trim key)).
  { destruct (trim_trimmed key) as [_ Hr]. split; [by destruct h|]. rewrite reverse_app, reverse_cons.
    destruct (reverse (trim key)) as [|c r] eqn:E; [|exact Hr].
    apply (f_equal reverse) in E. by rewrite reverse_involutive in E. }
  rewrite (trimmed_trim _ Ht). assert (Hi : index_of [58] (pre ++ 58 :: trim key) = Some (length pre)).
  { apply (index_of_app [58] pre (trim key)); [by exists 58, []; split; [|apply not_elem_of_nil]|]. by destruct h. }
  rewrite Hi, take_app_length. change (pre ++ 58 :: trim key) with (pre ++ [58] ++ trim key).
  rewrite app_assoc, drop_app_length' by (by rewrite length_app, Nat.add_1_r). rewrite trim_idem.
  by destruct h.
Qed.

(** The fields of a structured error. *)
Definition error_fields (d : ReturnErrorDraft) : list (jsstr * jsval) :=
  set_when (negb (r_skipRetry d)) "skip_retry" (JBool false)
  (set_when (truthy (trim (r_type d))) "type" (JString (trim (r_type d)))
  (set_when (truthy (trim (r_code d))) "code" (JString (trim (r_code d)))
    [ (js "message", JString (trim (r_message d))); (js "status_code", JNumber (status_or_400 (r_statusCode d))) ])).

Lemma status_idem n : status_or_400 (status_or_400 n) = status_or_400 n.
Proof. unfold status_or_400 at 2 3. destruct (_ && _) eqn:E; [|done]. unfold status_or_400. by rewrite E. Qed.

(** [String(v || '').trim()] on a text that was trimmed. *)
Lemma text_read s : trim (js_string show (js_or (JString (trim s)) (JString []))) = trim s.
Proof.
  unfold js_or. cbn [js_truthy]. destruct (truthy (trim s)) eqn:E; cbn [js_string]; [apply trim_idem|].
  apply truthy_false in E. by rewrite E.
Qed.

Lemma text_read_when b s : (truthy (trim s) = b) ->
  trim (js_string show (js_or (if b then JString (trim s) else JUndefined) (JString []))) = trim s.
Proof. intros <-. destruct (truthy (trim s)) eqn:E; [apply text_read|]. apply truthy_false in E. by rewrite E. Qed.

Lemma error_draft_read d :
  json_ok show (JObject (error_fields d)) = true -> r_simpleMode d = false ->
  parseReturnErrorDraft show (buildReturnErrorValueText show d)
  = mkReturnError (trim (r_message d)) (status_or_400 (r_statusCode d)) (trim (r_code d)) (trim (r_type d))
      (r_skipRetry d) false.
Proof.
  intros Hok Hs. unfold buildReturnErrorValueText. rewrite Hs. fold (error_fields d).
  assert (Ht : trim (stringify show (JObject (error_fields d))) = stringify show (JObject (error_fields d)))
    by (apply trimmed_trim, print_trimmed, Hok).
  assert (Htt : truthy (stringify show (JObject (error_fields d))) = true) by reflexivity.
  unfold parseReturnErrorDraft. rewrite Ht, Htt, (JSON_parse_stringify _ _ Hok). cbn [negb].
  assert (E1 : field "message" (JObject (error_fields d)) = JString (trim (r_message d))) by (cbn [field]; unfold error_fields; look; done).
  assert (E2 : field "msg" (JObject (error_fields d)) = JUndefined) by (cbn [field]; unfold error_fields; look; done).
  assert (E3 : field "status_code" (JObject (error_fields d)) = JNumber (status_or_400 (r_statusCode d)))
    by (cbn [field]; unfold error_fields; look; done).
  assert (E4 : field "code" (JObject (error_fields d)) = if truthy (trim (r_code d)) then JString (trim (r_code d)) else JUndefined)
    by (cbn [field]; unfold error_fields; look; done).
  assert (E5 : field "type" (JObject (error_fields d)) = if truthy (trim (r_type d)) then JString (trim (r_type d)) else JUndefined)
    by (cbn [field]; unfold error_fields; look; done).
  assert (E6 : field "skip_retry" (JObject (error_fields d)) = if negb (r_skipRetry d) then JBool false else JUndefined)
    by (cbn [field]; unfold error_fields; look; done).
  rewrite E1, E2, E3, E4, E5, E6, !text_read_when by done. cbn [js_number]. rewrite status_idem. f_equal.
  - unfold js_or at 2. cbn [js_truthy]. destruct (truthy (trim (r_message d))) eqn:E; [apply text_read|].
    apply truthy_false in E. by rewrite E.
  - by destruct (r_skipRetry d).
Qed.

(** The other values with an editor of their own are read back as they were built: a
    structured error with its texts trimmed and its status code in range, a plain error
    that is not itself a JSON object with its message, and the target of a field
    synchronisation with its kind and key. *)
Theorem value_editors_roundtrip d key (header : bool) :
  json_ok show (JObject (error_fields d)) = true ->
  JSON_parse (trim (r_message d)) = None -> trim (r_message d) <> [] -> trim key <> [] ->
  parseReturnErrorDraft show (buildReturnErrorValueText show d)
  = (if r_simpleMode d then mkReturnError (trim (r_message d)) (num 400) [] [] true true
     else mkReturnError (trim (r_message d)) (status_or_400 (r_statusCode d)) (trim (r_code d)) (trim (r_type d))
            (r_skipRetry d) false)
  /\ parseSyncTargetSpec (buildSyncTargetSpec (if header then js "header" else js "json") key)
     = (if header then js "header" else js "json", trim key).
Proof.
  intros Hok Hp Hm Hk. split.
  - destruct (r_simpleMode d) eqn:Es; [|by apply error_draft_read].
    unfold buildReturnErrorValueText. rewrite Es. unfold parseReturnErrorDraft. rewrite trim_idem, Hp.
    by rewrite (proj2 (truthy_true _) Hm).
  - rewrite sync_target_text, (proj2 (truthy_true _) Hk). cbn [negb]. pose proof (sync_target_read header key Hk) as H.
    by destruct header.
Qed.

End Proofs.

(** ** Witnesses *)

Lemma override_editor_invariant_witness :
  let e := reached show_int at_epoch message_of 0 [AddOperation; FillTemplate true; ResetEditor] in
  operations e <> [].
Proof.
  refine (proj1 (override_editor_invariant show_int at_epoch message_of 0 [AddOperation; FillTemplate true; ResetEditor] _)).
  repeat (apply Forall_cons; split; [exact I|]). apply Forall_nil. exact I.
Defined.

Definition no_condition_patch : ConditionPatch := mkConditionPatch (Some (js "type")) None None None None.

(** A rule of object pruning with one condition, as the editor writes it. *)
Definition pruning_draft : PruneObjectsDraft :=
  mkPrune false (js "redacted") (js "OR") true
    [mkCondition (local_id at_epoch 3) (js " role ") (js "prefix") (js "assist") false false].
Definition pruning_rule : ParamOverrideOperation :=
  mkOperation (js "po_0_0") [] (js "messages") (js "prune_objects") [] [] (buildPruneObjectsValueText show_int pruning_draft)
    false (js "OR") [].
Definition pruning_editor : Editor := mkEditor visual operations_mode [] [pruning_rule] [] [] (js "po_0_0") [] 5.

Lemma prune_conditions_uneditable_witness :
  operations (updatePruneRule show_int at_epoch (js "po_0_0") (local_id at_epoch 3) no_condition_patch pruning_editor)
    = [pruning_rule]
  /\ operations (removePruneRule show_int at_epoch (js "po_0_0") (local_id at_epoch 3) pruning_editor) = [pruning_rule]
  /\ operations (addPruneRule show_int at_epoch (js "po_0_0") pruning_editor) = [pruning_rule].
Proof.
  refine (proj1 (prune_conditions_uneditable show_int at_epoch (js "po_0_0") 3 no_condition_patch pruning_editor [] _) _).
  - reflexivity.
  - apply Forall_singleton. intros _. exists pruning_draft. split; [reflexivity|]. split; [discriminate|].
    split; [|split; [vm_compute; reflexivity|reflexivity]].
    apply Forall_singleton. split; [by_decision|vm_compute; reflexivity].
Defined.

Definition sample_error : ReturnErrorDraft := mkReturnError (js "quota exceeded") (num 429) (js "quota") [] false false.

Lemma value_editors_roundtrip_witness :
  parseSyncTargetSpec (buildSyncTargetSpec (js "header") (js " X-Id ")) = (js "header", trim (js " X-Id ")).
Proof.
  refine (proj2 (value_editors_roundtrip show_int sample_error (js " X-Id ") true _ _ _ _)).
  - vm_compute. reflexivity.
  - vm_compute. reflexivity.
  - vm_compute. discriminate.
  - vm_compute. discriminate.
Defined.
