(* ===== verification/UpstreamRules.v ===== *)
(** * Rules of upstream sources

    web/src/features/upstream-sources/rules.ts: keyword lists, the per-rule
    overrides and their resolution against defaults, the built-in templates, the
    user templates kept as JSON in local storage, and the normal form in which
    rules are sent to the backend.

    [toLowerCase] is Unicode's; what the code relies on is the class
    [LowerCase], of which ASCII lowering is an instance.  The printing of
    numbers ([String(n)]) is the variable [show]. *)

From Stdlib Require Import SpecFloat.
From S2P Require Import Prelude JsValue Json.

(** ** Lower case *)

(** The separators of a keyword list: line feed, comma, full-width comma. *)
Definition is_sep (c : N) : bool := ((c =? 10) || (c =? 44) || (c =? 65292))%N.

Class LowerCase (lower : jsstr -> jsstr) : Prop := {
  lower_idem s : lower (lower s) = lower s;
  lower_nil s : lower s = [] <-> s = [];
  lower_sep s c : is_sep c = true -> c ∈ lower s -> c ∈ s;
  lower_trimmed s : trimmed s -> trimmed (lower s) }.

Definition ascii_lower_unit (c : N) : N := if ((65 <=? c) && (c <=? 90))%N then (c + 32)%N else c.
Definition ascii_lower (s : jsstr) : jsstr := ascii_lower_unit <$> s.

(** ** Data *)

Definition UPSTREAM_SOURCE_MODEL_STRATEGY_ALL := js "all_upstream".
Definition UPSTREAM_SOURCE_MODEL_STRATEGY_FIXED := js "fixed".

(** A switch with an interval: [monitor], [auto_sync] (minutes), or
    [auto_priority] (hours). *)
Record Switch := mkSwitch { sw_enabled : option bool; sw_every : option jsnum }.

Record UpstreamSourceLocalGroupRule := mkRule {
  name : jsstr;
  local_group : jsstr;
  platforms : option (list jsstr);
  name_contains : option (list jsstr);
  description_contains : option (list jsstr);
  exclude_keywords : option (list jsstr);
  channel_type : option jsnum;
  priority : option jsnum;
  weight : option jsnum;
  monitor : option Switch;
  auto_sync : option Switch;
  auto_priority : option Switch;
  codex_image_generation_bridge_policy : option jsstr;
  model_strategy : option jsstr;
  fixed_models : option (list jsstr) }.

#[export] Instance Switch_eq_dec : EqDecision Switch.
Proof. solve_decision. Defined.
#[export] Instance UpstreamSourceLocalGroupRule_eq_dec : EqDecision UpstreamSourceLocalGroupRule.
Proof. solve_decision. Defined.

Inductive LocalGroupRuleTemplateKey := openai | openai_pro | anthropic | anthropic_pro.

Record LocalGroupRuleTemplateDefaults := mkTemplateDefaults {
  defaultLocalGroup : jsstr; proLocalGroup : jsstr; td_channelType : option jsnum;
  td_priority : option jsnum; td_weight : option jsnum; td_monitor : option Switch;
  td_autoSync : option Switch; td_autoPriority : option Switch; td_bridge : option jsstr;
  td_modelStrategy : option jsstr; td_fixedModels : option (list jsstr) }.

(** The inherited strategy: switches with their interval. *)
Record LocalGroupRuleStrategyDefaults := mkStrategyDefaults {
  sd_monitor : bool * jsnum; sd_autoSync : bool * jsnum; sd_autoPriority : bool * jsnum;
  sd_bridge : jsstr; sd_modelStrategy : jsstr; sd_fixedModels : list jsstr }.

Definition DEFAULT_LOCAL_GROUP_RULE_STRATEGY_DEFAULTS : LocalGroupRuleStrategyDefaults :=
  mkStrategyDefaults (false, num 10) (false, num 30) (false, num 24) (js "follow")
    UPSTREAM_SOURCE_MODEL_STRATEGY_ALL [].

Inductive LocalGroupRuleStrategyOrigin := inherit | override.
Inductive LocalGroupRuleStrategyOverrideKey :=
  | K_monitor | K_auto_sync | K_auto_priority | K_codex_image_generation_bridge | K_model_strategy.

Record ResolvedSwitch := mkResolvedSwitch {
  rs_origin : LocalGroupRuleStrategyOrigin; rs_enabled : bool; rs_every : jsnum }.

Record LocalGroupRuleStrategyResolution := mkResolution {
  has_overrides : bool;
  override_keys : list LocalGroupRuleStrategyOverrideKey;
  res_monitor : ResolvedSwitch;
  res_auto_sync : ResolvedSwitch;
  res_auto_priority : ResolvedSwitch;
  res_bridge : LocalGroupRuleStrategyOrigin * jsstr;
  res_model : LocalGroupRuleStrategyOrigin * jsstr * list jsstr }.

Record LocalGroupRuleUserTemplate := mkUserTemplate {
  ut_id : jsstr; ut_name : jsstr; created_at : jsnum; ut_rule : UpstreamSourceLocalGroupRule }.

(** ** Lists of keywords and models *)

(** [s.split(/[\n,，]+/)]: the pieces between runs of separators; [in_run] tells
    that the unit before was a separator. *)
Fixpoint split_runs (in_run : bool) (cur : jsstr) (s : jsstr) : list jsstr :=
  match s with
  | [] => [reverse cur]
  | c :: s' =>
      if is_sep c then if in_run then split_runs true cur s' else reverse cur :: split_runs true [] s'
      else split_runs false (c :: cur) s'
  end.

Section Keywords.
Variable lower : jsstr -> jsstr.

(** On a string. *)
Definition normalizeKeywordText (raw : jsstr) : list jsstr :=
  dedup_nonempty [] ((fun item => lower (trim item)) <$> split_runs false [] raw).

(** On an array of strings, which is joined first. *)
Definition normalizeKeywordList (value : list jsstr) : list jsstr :=
  normalizeKeywordText (join (js ",") value).

Definition normalizeModelList (values : list jsstr) : list jsstr := dedup_nonempty [] (trim <$> values).

Definition formatKeywordList (values : list jsstr) : jsstr := join (js ", ") values.

Definition hasLocalGroupRuleMatcher (r : UpstreamSourceLocalGroupRule) : bool :=
  negb (bool_decide (normalizeKeywordList (default [] (platforms r)) = []))
  || negb (bool_decide (normalizeKeywordList (default [] (name_contains r)) = []))
  || negb (bool_decide (normalizeKeywordList (default [] (description_contains r)) = [])).

(** ** Scalars *)

Definition normalizeModelStrategy (value : option jsstr) : jsstr :=
  if bool_decide (value = Some UPSTREAM_SOURCE_MODEL_STRATEGY_FIXED)
  then UPSTREAM_SOURCE_MODEL_STRATEGY_FIXED else UPSTREAM_SOURCE_MODEL_STRATEGY_ALL.

Definition normalizeCodexImageGenerationBridgePolicy (value : option jsstr) : jsstr :=
  match value with
  | Some v => if (v =s? js "enabled") || (v =s? js "disabled") then v else js "follow"
  | None => js "follow"
  end.

Definition hasCodexImageGenerationBridgePolicy (value : option jsstr) : bool :=
  match value with Some v => truthy (trim v) | None => false end.

(** A value that is not a finite number is dropped. *)
Definition finite (value : option jsnum) : option jsnum :=
  match value with Some n => if is_finite n then Some n else None | None => None end.

Definition normalizeRuleChannelType (value : option jsnum) : option jsnum :=
  (fun n => math_max (num 1) (math_trunc n)) <$> finite value.
Definition normalizeRulePriority (value : option jsnum) : option jsnum := math_trunc <$> finite value.
Definition normalizeRuleWeight (value : option jsnum) : option jsnum :=
  (fun n => math_max (num 0) (math_trunc n)) <$> finite value.

Definition normalizeRuleAutoPriority (value : option Switch) : option Switch :=
  match value with
  | None => None
  | Some v =>
      match mkSwitch (sw_enabled v) ((fun n => math_max (num 1) (math_trunc n)) <$> finite (sw_every v)) with
      | mkSwitch None None => None
      | normalized => Some normalized
      end
  end.

Definition sameStringList (l r : list jsstr) : bool := bool_decide (l = r).

Definition strategyOrigin (isOverride : bool) : LocalGroupRuleStrategyOrigin :=
  if isOverride then override else inherit.

(** ** Resolution *)

(** [rule.x?.enabled ?? default.enabled] and the interval when it is a number. *)
Definition effective (s : option Switch) (d : bool * jsnum) : bool * jsnum :=
  (match s with Some v => default d.1 (sw_enabled v) | None => d.1 end,
   match s with Some v => default d.2 (sw_every v) | None => d.2 end).

(** [!==] on the flag or on the interval. *)
Definition switchOverride (x d : bool * jsnum) : bool :=
  negb (Bool.eqb x.1 d.1) || negb (num_eqb x.2 d.2).

Definition resolveLocalGroupRuleStrategy (r : UpstreamSourceLocalGroupRule) (d : LocalGroupRuleStrategyDefaults) :
    LocalGroupRuleStrategyResolution :=
  let defaultModelStrategy := normalizeModelStrategy (Some (sd_modelStrategy d)) in
  let defaultFixedModels :=
    if defaultModelStrategy =s? UPSTREAM_SOURCE_MODEL_STRATEGY_FIXED
    then normalizeModelList (sd_fixedModels d) else [] in
  let m := effective (monitor r) (sd_monitor d) in
  let s := effective (auto_sync r) (sd_autoSync d) in
  let p := effective (auto_priority r) (sd_autoPriority d) in
  let defaultBridgePolicy := normalizeCodexImageGenerationBridgePolicy (Some (sd_bridge d)) in
  let hasBridgePolicy := hasCodexImageGenerationBridgePolicy (codex_image_generation_bridge_policy r) in
  let bridgePolicy :=
    if hasBridgePolicy then normalizeCodexImageGenerationBridgePolicy (codex_image_generation_bridge_policy r)
    else defaultBridgePolicy in
  let hasRuleModelStrategy := match model_strategy r with Some v => truthy (trim v) | None => false end in
  let modelStrategy :=
    if hasRuleModelStrategy then normalizeModelStrategy (model_strategy r) else defaultModelStrategy in
  let fixedModels :=
    if modelStrategy =s? UPSTREAM_SOURCE_MODEL_STRATEGY_FIXED
    then normalizeModelList (default [] (fixed_models r)) else [] in
  let monitorOverride := switchOverride m (sd_monitor d) in
  let autoSyncOverride := switchOverride s (sd_autoSync d) in
  let autoPriorityOverride := switchOverride p (sd_autoPriority d) in
  let bridgeOverride := hasBridgePolicy && negb (bridgePolicy =s? defaultBridgePolicy) in
  let modelOverride := negb (modelStrategy =s? defaultModelStrategy)
                       || negb (sameStringList fixedModels defaultFixedModels) in
  let overrideKeys :=
    (if monitorOverride then [K_monitor] else []) ++ (if autoSyncOverride then [K_auto_sync] else [])
    ++ (if autoPriorityOverride then [K_auto_priority] else [])
    ++ (if bridgeOverride then [K_codex_image_generation_bridge] else [])
    ++ (if modelOverride then [K_model_strategy] else []) in
  mkResolution (negb (length overrideKeys =? 0)%nat) overrideKeys
    (mkResolvedSwitch (strategyOrigin monitorOverride) m.1 m.2)
    (mkResolvedSwitch (strategyOrigin autoSyncOverride) s.1 s.2)
    (mkResolvedSwitch (strategyOrigin autoPriorityOverride) p.1 p.2)
    (strategyOrigin bridgeOverride, bridgePolicy)
    (strategyOrigin modelOverride, modelStrategy, fixedModels).

(** ** Built-in templates *)

Definition is_pro (key : LocalGroupRuleTemplateKey) : bool :=
  match key with openai_pro | anthropic_pro => true | _ => false end.

Definition buildLocalGroupRuleTemplate (key : LocalGroupRuleTemplateKey) (d : LocalGroupRuleTemplateDefaults) :
    UpstreamSourceLocalGroupRule :=
  let modelStrategy := normalizeModelStrategy (td_modelStrategy d) in
  let build nm pl nc dc ek :=
    mkRule nm
      (if is_pro key && truthy (proLocalGroup d) then proLocalGroup d else defaultLocalGroup d)
      (Some pl) (Some nc) (Some dc) (Some ek)
      (normalizeRuleChannelType (td_channelType d)) (normalizeRulePriority (td_priority d))
      (normalizeRuleWeight (td_weight d)) (td_monitor d) (td_autoSync d)
      (normalizeRuleAutoPriority (td_autoPriority d))
      (if truthy (default [] (td_bridge d))
          && negb (normalizeCodexImageGenerationBridgePolicy (td_bridge d) =s? js "follow")
       then Some (normalizeCodexImageGenerationBridgePolicy (td_bridge d)) else None)
      (Some modelStrategy)
      (Some (if modelStrategy =s? UPSTREAM_SOURCE_MODEL_STRATEGY_FIXED
             then normalizeModelList (default [] (td_fixedModels d)) else [])) in
  match key with
  | openai => build (js "OpenAI") [js "openai"] [js "gpt"] [] [js "pro"]
  | openai_pro => build (js "OpenAI Pro") [js "openai"] [js "pro"] [js "pro"] []
  | anthropic => build (js "Anthropic") [js "anthropic"] [] [] [js "pro"]
  | anthropic_pro => build (js "Anthropic Pro") [js "anthropic"] [js "pro"] [js "pro"] []
  end.

(** ** The normal form of a rule *)

Definition normalizeSyncRule (r : UpstreamSourceLocalGroupRule) : UpstreamSourceLocalGroupRule :=
  let modelStrategy := normalizeModelStrategy (model_strategy r) in
  mkRule (trim (name r)) (trim (local_group r))
    (Some (normalizeKeywordList (default [] (platforms r))))
    (Some (normalizeKeywordList (default [] (name_contains r))))
    (Some (normalizeKeywordList (default [] (description_contains r))))
    (Some (normalizeKeywordList (default [] (exclude_keywords r))))
    (normalizeRuleChannelType (channel_type r)) (normalizeRulePriority (priority r))
    (normalizeRuleWeight (weight r)) (monitor r) (auto_sync r) (normalizeRuleAutoPriority (auto_priority r))
    (if hasCodexImageGenerationBridgePolicy (codex_image_generation_bridge_policy r)
     then Some (normalizeCodexImageGenerationBridgePolicy (codex_image_generation_bridge_policy r)) else None)
    (Some modelStrategy)
    (Some (if modelStrategy =s? UPSTREAM_SOURCE_MODEL_STRATEGY_FIXED
           then normalizeModelList (default [] (fixed_models r)) else [])).

Definition normalizeSyncRules (rules : list UpstreamSourceLocalGroupRule) : list UpstreamSourceLocalGroupRule :=
  normalizeSyncRule <$> rules.

Record DiscoverySignature := mkSignature {
  sig_channel_type : jsnum; sig_platforms : list jsstr; sig_name_contains : list jsstr;
  sig_description_contains : list jsstr; sig_exclude_keywords : list jsstr }.

Definition buildRuleModelDiscoverySignature (rules : list UpstreamSourceLocalGroupRule) : list DiscoverySignature :=
  (fun r => mkSignature (default (num 0) (channel_type r)) (default [] (platforms r))
              (default [] (name_contains r)) (default [] (description_contains r))
              (default [] (exclude_keywords r))) <$> normalizeSyncRules rules.

End Keywords.

(** ** Lemmas on keyword lists *)

Lemma letter_not_space c : (33 <= c <= 159)%N -> is_space c = false.
Proof.
  intros H. unfold is_space. repeat (apply orb_false_iff; split); try (apply N.eqb_neq; lia);
    apply andb_false_iff; first [right; apply N.leb_gt; lia|left; apply N.leb_gt; lia].
Qed.

Lemma ascii_lower_unit_space c : is_space (ascii_lower_unit c) = is_space c.
Proof.
  unfold ascii_lower_unit. destruct ((65 <=? c) && (c <=? 90))%N eqn:E; [|done]. bool_to_prop.
  rewrite !letter_not_space by lia. done.
Qed.

Lemma ascii_lower_unit_idem c : ascii_lower_unit (ascii_lower_unit c) = ascii_lower_unit c.
Proof.
  unfold ascii_lower_unit at 2 3. destruct ((65 <=? c) && (c <=? 90))%N eqn:E; unfold ascii_lower_unit; [|by rewrite E].
  bool_to_prop. rewrite (proj2 (N.leb_gt (c + 32) 90)), andb_false_r by lia. done.
Qed.

#[export] Instance ascii_LowerCase : LowerCase ascii_lower.
Proof.
  assert (Hl : forall s, no_lead s -> no_lead (ascii_lower s)).
  { intros [|c s]; [done|]. simpl. by rewrite ascii_lower_unit_space. }
  split.
  - intros s. unfold ascii_lower. rewrite <- list_fmap_compose. apply list_fmap_ext.
    intros. apply ascii_lower_unit_idem.
  - intros s. unfold ascii_lower. by destruct s.
  - intros s c Hc (d & -> & Hd)%list_elem_of_fmap. unfold ascii_lower_unit in *.
    destruct ((65 <=? d) && (d <=? 90))%N eqn:E; [|done]. bool_to_prop. unfold is_sep in Hc.
    repeat rewrite orb_true_iff in Hc. rewrite !N.eqb_eq in Hc. lia.
  - intros s [H1 H2]. split; [by apply Hl|]. unfold ascii_lower. rewrite <- fmap_reverse. by apply Hl.
Qed.

(** *** Pieces *)

Definition sep_free (s : jsstr) : Prop := Forall (fun c => is_sep c = false) s.

Lemma split_runs_free s : forall b cur, sep_free cur -> Forall sep_free (split_runs b cur s).
Proof.
  induction s as [|c s IH]; intros b cur Hc; simpl.
  - apply Forall_singleton. by apply Forall_reverse.
  - destruct (is_sep c) eqn:E; [destruct b|].
    + by apply IH.
    + apply Forall_cons. split; [by apply Forall_reverse|]. apply IH. constructor.
    + apply IH. by constructor.
Qed.

(** Nothing but the separators is lost. *)
Lemma split_runs_concat s : forall b cur,
  concat (split_runs b cur s) = reverse cur ++ filter (fun c => is_sep c = false) s.
Proof.
  induction s as [|c s IH]; intros b cur; simpl; [by rewrite filter_nil|].
  rewrite filter_cons. destruct (is_sep c) eqn:E; [destruct b|]; simpl.
  - by rewrite IH.
  - by rewrite IH.
  - rewrite IH, reverse_cons, <- app_assoc. done.
Qed.

Lemma split_runs_app p s : forall b cur,
  sep_free p -> p <> [] -> split_runs b cur (p ++ s) = split_runs false (reverse p ++ cur) s.
Proof.
  induction p as [|c p IH]; intros b cur Hp Hne; [done|]. apply Forall_cons in Hp as [Hc Hp].
  simpl. rewrite Hc. destruct p as [|d p]; [done|].
  rewrite IH by done. by rewrite (reverse_cons (d :: p) c), <- app_assoc.
Qed.

Lemma split_runs_join ps : forall b,
  ps <> [] -> Forall (fun p => sep_free p /\ p <> []) ps -> split_runs b [] (join (js ",") ps) = ps.
Proof.
  induction ps as [|p ps IH]; intros b Hne Hf; [done|]. apply Forall_cons in Hf as [[Hp Hpn] Hf].
  destruct ps as [|q ps].
  - simpl. rewrite <- (app_nil_r p) at 1. rewrite split_runs_app by done. simpl.
    by rewrite app_nil_r, reverse_involutive.
  - rewrite join_cons by done. rewrite split_runs_app by done. change (js ",") with [44%N]. cbn [app split_runs].
    change (is_sep 44) with true. cbv iota. rewrite app_nil_r, reverse_involutive.
    f_equal. by apply (IH true).
Qed.

(** *** Keyword lists *)

Section KeywordFacts.
Context (lower : jsstr -> jsstr) `{HL : !LowerCase lower}.

(** The normal form: distinct, non-empty, trimmed, lower-case words without
    separators. *)
Definition keyword (x : jsstr) : Prop := x <> [] /\ trimmed x /\ lower x = x /\ sep_free x.
Definition canonical (l : list jsstr) : Prop := NoDup l /\ Forall keyword l.

Lemma keyword_of_piece p : sep_free p -> lower (trim p) <> [] -> keyword (lower (trim p)).
Proof.
  intros Hp Hne. split_and!; [done|apply lower_trimmed, trim_trimmed|apply lower_idem|].
  apply Forall_forall. intros c Hc. destruct (is_sep c) eqn:E; [|done].
  apply (lower_sep _ _ E), trim_elem_of in Hc. unfold sep_free in Hp. rewrite Forall_forall in Hp.
  specialize (Hp _ Hc). congruence.
Qed.

Lemma normalizeKeywordText_canonical raw : canonical (normalizeKeywordText lower raw).
Proof.
  split; [apply dedup_NoDup|]. apply Forall_forall. intros x (Hx & Hne & _)%dedup_elem_of.
  apply list_elem_of_fmap in Hx as (p & -> & Hp). apply keyword_of_piece; [|done].
  pose proof (split_runs_free raw false [] ltac:(constructor)) as Hf. rewrite Forall_forall in Hf. by apply Hf.
Qed.

Lemma canonical_fixed l : canonical l -> normalizeKeywordList lower l = l.
Proof.
  intros [Hnd Hf]. unfold normalizeKeywordList, normalizeKeywordText. destruct l as [|x l].
  - assert (Hn : lower (trim []) = []) by (by apply lower_nil).
    change (dedup_nonempty [] [lower (trim [])] = []). by rewrite Hn.
  - rewrite split_runs_join; [|done|eapply Forall_impl; [exact Hf|]; by intros y (? & _ & _ & ?)].
    assert (Hm : (fun item => lower (trim item)) <$> (x :: l) = x :: l).
    { rewrite <- (list_fmap_id (x :: l)) at 2. apply list_fmap_ext. intros i y Hy.
      rewrite Forall_lookup in Hf. destruct (Hf i y Hy) as (_ & Ht & Hlo & _). rewrite (trimmed_trim y Ht). done. }
    rewrite Hm. apply dedup_id; [done|]. eapply Forall_impl; [exact Hf|].
    intros y (? & _). split; [done|apply not_elem_of_nil].
Qed.

Lemma normalizeKeywordList_idem l :
  normalizeKeywordList lower (normalizeKeywordList lower l) = normalizeKeywordList lower l.
Proof. apply canonical_fixed, normalizeKeywordText_canonical. Qed.

End KeywordFacts.

(** ** Lemmas on the normal form of a rule *)

Definition opt_valid (v : option jsnum) : bool := match v with Some n => num_valid n | None => true end.

(** The numbers of a rule are binary64 numbers. *)
Definition rule_valid (r : UpstreamSourceLocalGroupRule) : bool :=
  opt_valid (channel_type r) && opt_valid (priority r) && opt_valid (weight r)
  && match auto_priority r with Some s => opt_valid (sw_every s) | None => true end.

Lemma finite_map_idem (f : jsnum -> jsnum) v :
  (forall n, num_valid n = true -> f (f n) = f n) ->
  (forall n, num_valid n = true -> is_finite n = true -> is_finite (f n) = true) ->
  opt_valid v = true ->
  f <$> finite (f <$> finite v) = f <$> finite v.
Proof.
  intros H1 H2 Hv. destruct v as [n|]; [|done]. simpl in Hv |- *. destruct (is_finite n) eqn:E; [|done]. simpl.
  rewrite H2 by done. simpl. by rewrite H1.
Qed.

Lemma max_trunc_finite k n :
  is_finite k = true -> num_valid n = true -> is_finite n = true -> is_finite (math_max k (math_trunc n)) = true.
Proof. intros. apply math_max_finite; [done|]. by apply math_trunc_finite. Qed.

Lemma max_trunc_opt_idem k v :
  is_finite k = true -> math_trunc k = k -> math_max k k = k -> opt_valid v = true ->
  (fun n => math_max k (math_trunc n)) <$> finite ((fun n => math_max k (math_trunc n)) <$> finite v)
  = (fun n => math_max k (math_trunc n)) <$> finite v.
Proof.
  intros Hf Ht Hm Hv. apply (finite_map_idem (fun n => math_max k (math_trunc n))); [| |done].
  - intros n Hn. by apply max_trunc_idem.
  - intros n Hn1 Hn2. by apply max_trunc_finite.
Qed.

Lemma auto_priority_idem v :
  match v with Some s => opt_valid (sw_every s) | None => true end = true ->
  normalizeRuleAutoPriority (normalizeRuleAutoPriority v) = normalizeRuleAutoPriority v.
Proof.
  destruct v as [[en ev]|]; [|done]. simpl sw_every. intros Hv.
  pose proof (max_trunc_opt_idem (num 1) ev eq_refl eq_refl eq_refl Hv) as Hi.
  unfold normalizeRuleAutoPriority. cbn [sw_enabled sw_every].
  set (x := (fun n => math_max (num 1) (math_trunc n)) <$> finite ev) in *. clearbody x.
  destruct en, x; cbn [sw_enabled sw_every]; try rewrite Hi; done.
Qed.

Lemma bridge_idem b :
  let n := if hasCodexImageGenerationBridgePolicy b
           then Some (normalizeCodexImageGenerationBridgePolicy b) else None in
  (if hasCodexImageGenerationBridgePolicy n
   then Some (normalizeCodexImageGenerationBridgePolicy n) else None) = n.
Proof.
  destruct b as [v|]; [|done]. cbv zeta. destruct (hasCodexImageGenerationBridgePolicy (Some v)); [|done].
  cbn [normalizeCodexImageGenerationBridgePolicy].
  destruct (v =s? js "enabled") eqn:E1; [apply str_eqb_eq in E1 as ->; done|].
  destruct (v =s? js "disabled") eqn:E2; [apply str_eqb_eq in E2 as ->; done|]. done.
Qed.

Lemma model_strategy_idem s : normalizeModelStrategy (Some (normalizeModelStrategy s)) = normalizeModelStrategy s.
Proof. unfold normalizeModelStrategy at 2 3. by case_bool_decide. Qed.

Lemma normalizeModelList_idem l : normalizeModelList (normalizeModelList l) = normalizeModelList l.
Proof.
  unfold normalizeModelList. set (d := dedup_nonempty [] (trim <$> l)).
  assert (Hm : trim <$> d = d).
  { rewrite <- (list_fmap_id d) at 2. apply list_fmap_ext. intros i x Hx%list_elem_of_lookup_2.
    apply dedup_elem_of in Hx as (Hx & _). apply list_elem_of_fmap in Hx as (y & -> & _). apply trim_idem. }
  rewrite Hm. apply dedup_idem.
Qed.

Section RuleFacts.
Context (lower : jsstr -> jsstr) `{HL : !LowerCase lower}.

Lemma normalizeSyncRule_idem r :
  rule_valid r = true ->
  normalizeSyncRule lower (normalizeSyncRule lower r) = normalizeSyncRule lower r.
Proof.
  unfold rule_valid. rewrite !andb_true_iff. intros (((H1 & H2) & H3) & H4).
  unfold normalizeSyncRule at 1. cbn [name local_group platforms name_contains description_contains
    exclude_keywords channel_type priority weight monitor auto_sync auto_priority
    codex_image_generation_bridge_policy model_strategy fixed_models normalizeSyncRule default].
  rewrite !trim_idem. cbn [default]. unfold id.
  rewrite !normalizeKeywordList_idem by done. rewrite model_strategy_idem, bridge_idem, auto_priority_idem by done.
  unfold normalizeRuleChannelType, normalizeRuleWeight, normalizeRulePriority.
  rewrite !max_trunc_opt_idem by done.
  rewrite (finite_map_idem math_trunc) by first [done|apply math_trunc_idem|apply math_trunc_finite].
  unfold normalizeSyncRule. f_equal. f_equal.
  destruct (normalizeModelStrategy (model_strategy r) =s? _); [apply normalizeModelList_idem|done].
Qed.

End RuleFacts.

(** ** User templates *)

Definition is_slug (c : N) : bool := ((97 <=? c) && (c <=? 122) || is_digit c)%N.

(** [replaceAll(/[^a-z0-9]+/g, '-')] *)
Fixpoint slugify (in_run : bool) (s : jsstr) : jsstr :=
  match s with
  | [] => []
  | c :: s' =>
      if is_slug c then c :: slugify false s'
      else if in_run then slugify true s' else 45%N :: slugify true s'
  end.

(** [replaceAll(/^-+|-+$/g, '')] *)
Definition strip_dashes (s : jsstr) : jsstr :=
  reverse (drop_while (N.eqb 45) (reverse (drop_while (N.eqb 45) s))).

Section UserTemplates.
Variable lower : jsstr -> jsstr.
Variable show : jsnum -> jsstr.

Definition normalizeTemplateID (value : jsstr) (createdAt : jsnum) : jsstr :=
  strip_dashes (slugify false (lower (trim value))) ||| (js "template-" ++ show createdAt).

(** [normalizeTemplateRule] on a rule of the declared type. *)
Definition normalizeTemplateRule (r : UpstreamSourceLocalGroupRule) : UpstreamSourceLocalGroupRule :=
  let modelStrategy := normalizeModelStrategy (model_strategy r) in
  mkRule (trim (name r)) (trim (local_group r))
    (Some (normalizeKeywordList lower (default [] (platforms r))))
    (Some (normalizeKeywordList lower (default [] (name_contains r))))
    (Some (normalizeKeywordList lower (default [] (description_contains r))))
    (Some (normalizeKeywordList lower (default [] (exclude_keywords r))))
    (normalizeRuleChannelType (channel_type r)) (normalizeRulePriority (priority r))
    (normalizeRuleWeight (weight r)) (monitor r) (auto_sync r) (normalizeRuleAutoPriority (auto_priority r))
    (if hasCodexImageGenerationBridgePolicy (codex_image_generation_bridge_policy r)
     then Some (normalizeCodexImageGenerationBridgePolicy (codex_image_generation_bridge_policy r)) else None)
    (Some modelStrategy)
    (Some (if modelStrategy =s? UPSTREAM_SOURCE_MODEL_STRATEGY_FIXED
           then normalizeModelList (default [] (fixed_models r)) else [])).

Definition createLocalGroupRuleUserTemplate (nm : jsstr) (r : UpstreamSourceLocalGroupRule) (createdAt : jsnum) :
    LocalGroupRuleUserTemplate :=
  let trimmedName := trim nm ||| trim (name r) ||| (js "Template " ++ show createdAt) in
  mkUserTemplate (normalizeTemplateID trimmedName createdAt) trimmedName createdAt
    (normalizeTemplateRule
       (mkRule (name r ||| trimmedName) (local_group r) (platforms r) (name_contains r)
          (description_contains r) (exclude_keywords r) (channel_type r) (priority r) (weight r)
          (monitor r) (auto_sync r) (auto_priority r) (codex_image_generation_bridge_policy r)
          (model_strategy r) (fixed_models r))).

(** *** The JSON form *)

Definition of_strings (l : list jsstr) : jsval := JArray (JString <$> l).

Definition encode_switch (every : string) (s : Switch) : jsval :=
  JObject (of_option JBool "enabled" (sw_enabled s) ++ of_option JNumber every (sw_every s)).

Definition encode_rule (r : UpstreamSourceLocalGroupRule) : jsval :=
  JObject ([(js "name", JString (name r)); (js "local_group", JString (local_group r))]
    ++ of_option of_strings "platforms" (platforms r)
    ++ of_option of_strings "name_contains" (name_contains r)
    ++ of_option of_strings "description_contains" (description_contains r)
    ++ of_option of_strings "exclude_keywords" (exclude_keywords r)
    ++ of_option JNumber "channel_type" (channel_type r)
    ++ of_option JNumber "priority" (priority r)
    ++ of_option JNumber "weight" (weight r)
    ++ of_option (encode_switch "interval_minutes") "monitor" (monitor r)
    ++ of_option (encode_switch "interval_minutes") "auto_sync" (auto_sync r)
    ++ of_option (encode_switch "window_hours") "auto_priority" (auto_priority r)
    ++ of_option JString "codex_image_generation_bridge_policy" (codex_image_generation_bridge_policy r)
    ++ of_option JString "model_strategy" (model_strategy r)
    ++ of_option of_strings "fixed_models" (fixed_models r)).

Definition encode_template (x : LocalGroupRuleUserTemplate) : jsval :=
  JObject [(js "id", JString (ut_id x)); (js "name", JString (ut_name x));
           (js "created_at", JNumber (created_at x)); (js "rule", encode_rule (ut_rule x))].

Definition serializeLocalGroupRuleUserTemplates (ts : list LocalGroupRuleUserTemplate) : jsstr :=
  stringify show (JArray (encode_template <$> ts)).

(** [String(v ?? '')] for a string or a missing value. *)
Definition decode_text (v : jsval) : Decoded jsstr :=
  match v with
  | JString s => Ok s
  | _ => if nullish v then Ok [] else IllTyped
  end.

(** [toStringArray] on an array of strings, a string or anything that is neither. *)
Fixpoint strings_of (l : list jsval) : Decoded (list jsstr) :=
  match l with
  | [] => Ok []
  | JString s :: l' => decoded_map2 cons (Ok s) (strings_of l')
  | _ :: l' => decoded_map2 (fun _ ss => ss) (@IllTyped jsstr) (strings_of l')
  end.
Definition toStringArray (v : jsval) : Decoded (list jsstr) :=
  match v with
  | JArray l => strings_of l
  | JString s => Ok [s]
  | _ => Ok []
  end.

Definition optional {A} (f : jsval -> option A) (v : jsval) : Decoded (option A) :=
  match v with
  | JUndefined => Ok None
  | _ => match f v with Some x => Ok (Some x) | None => IllTyped end
  end.

(** [rule.monitor ? { monitor: rule.monitor } : {}]; properties other than the
    declared ones, which the code carries along, are not modelled. *)
Definition decode_switch (every : string) (v : jsval) : Decoded (option Switch) :=
  if negb (js_truthy v) then Ok None
  else decoded_map2 (fun e i => Some (mkSwitch e i))
         (optional as_bool (field "enabled" v)) (optional as_number (field every v)).

(** [normalizeRuleAutoPriority] checks the types of what it reads. *)
Definition read_switch (every : string) (v : jsval) : option Switch :=
  if js_truthy v then Some (mkSwitch (as_bool (field "enabled" v)) (as_number (field every v))) else None.

(** The rule read from an object. *)
Definition decode_rule (v : jsval) : Decoded UpstreamSourceLocalGroupRule :=
  decoded_map2
    (fun '(nm, lg) '((pl, nc), ((dc, ek), ((mo, sy), fm))) =>
       mkRule nm lg (Some pl) (Some nc) (Some dc) (Some ek)
         (as_number (field "channel_type" v)) (as_number (field "priority" v)) (as_number (field "weight" v))
         mo sy (read_switch "window_hours" (field "auto_priority" v))
         (as_string (field "codex_image_generation_bridge_policy" v))
         (as_string (field "model_strategy" v)) (Some fm))
    (decoded_map2 pair (decode_text (field "name" v)) (decode_text (field "local_group" v)))
    (decoded_map2 pair
       (decoded_map2 pair (toStringArray (field "platforms" v)) (toStringArray (field "name_contains" v)))
       (decoded_map2 pair
          (decoded_map2 pair (toStringArray (field "description_contains" v))
             (toStringArray (field "exclude_keywords" v)))
          (decoded_map2 pair
             (decoded_map2 pair (decode_switch "interval_minutes" (field "monitor" v))
                (decode_switch "interval_minutes" (field "auto_sync" v)))
             (toStringArray (field "fixed_models" v))))).

(** [Ok None] is [null]. *)
Definition parseUserTemplate (v : jsval) : Decoded (option LocalGroupRuleUserTemplate) :=
  if negb (isRecord v) then Ok None
  else match field "id" v, field "name" v, field "created_at" v with
  | JString id, JString nm, JNumber at_ =>
      if negb (truthy (trim id)) || negb (truthy (trim nm)) || negb (is_finite at_)
         || negb (isRecord (field "rule" v)) then Ok None
      else match decode_rule (field "rule" v) with
           | Ok r =>
               let rule := normalizeTemplateRule r in
               if negb (hasLocalGroupRuleMatcher lower rule) then Ok None
               else Ok (Some (mkUserTemplate (trim id) (trim nm) at_ rule))
           | Throws => Throws
           | IllTyped => IllTyped
           end
  | _, _, _ => Ok None
  end.

Fixpoint parse_all (l : list jsval) : Decoded (list LocalGroupRuleUserTemplate) :=
  match l with
  | [] => Ok []
  | v :: l' => decoded_map2 (fun o ts => match o with Some x => x :: ts | None => ts end)
                 (parseUserTemplate v) (parse_all l')
  end.

Definition parseLocalGroupRuleUserTemplates (raw : option jsstr) : Decoded (list LocalGroupRuleUserTemplate) :=
  match raw with
  | None | Some [] => Ok []
  | Some text =>
      match JSON_parse text with
      | Some (JArray l) => match parse_all l with Throws => Ok [] | d => d end
      | _ => Ok []
      end
  end.

End UserTemplates.

(** *** Reading back what was written *)

(** Look up one property of an encoded rule. *)
Ltac find_field o :=
  unfold encode_rule, field; cbn [app];
  rewrite <- (app_nil_r (of_option of_strings "fixed_models" _));
  rewrite ?assoc_skip_field by (vm_compute; reflexivity);
  rewrite ?assoc_skip by (vm_compute; reflexivity);
  rewrite assoc_here; destruct o; [reflexivity|];
  rewrite ?assoc_skip by (vm_compute; reflexivity); reflexivity.

Lemma field_platforms r : field "platforms" (encode_rule r) = opt_val of_strings (platforms r).
Proof. find_field (platforms r). Qed.
Lemma field_name_contains r : field "name_contains" (encode_rule r) = opt_val of_strings (name_contains r).
Proof. find_field (name_contains r). Qed.
Lemma field_description_contains r :
  field "description_contains" (encode_rule r) = opt_val of_strings (description_contains r).
Proof. find_field (description_contains r). Qed.
Lemma field_exclude_keywords r : field "exclude_keywords" (encode_rule r) = opt_val of_strings (exclude_keywords r).
Proof. find_field (exclude_keywords r). Qed.
Lemma field_channel_type r : field "channel_type" (encode_rule r) = opt_val JNumber (channel_type r).
Proof. find_field (channel_type r). Qed.
Lemma field_priority r : field "priority" (encode_rule r) = opt_val JNumber (priority r).
Proof. find_field (priority r). Qed.
Lemma field_weight r : field "weight" (encode_rule r) = opt_val JNumber (weight r).
Proof. find_field (weight r). Qed.
Lemma field_monitor r : field "monitor" (encode_rule r) = opt_val (encode_switch "interval_minutes") (monitor r).
Proof. find_field (monitor r). Qed.
Lemma field_auto_sync r : field "auto_sync" (encode_rule r) = opt_val (encode_switch "interval_minutes") (auto_sync r).
Proof. find_field (auto_sync r). Qed.
Lemma field_auto_priority r :
  field "auto_priority" (encode_rule r) = opt_val (encode_switch "window_hours") (auto_priority r).
Proof. find_field (auto_priority r). Qed.
Lemma field_bridge r :
  field "codex_image_generation_bridge_policy" (encode_rule r)
  = opt_val JString (codex_image_generation_bridge_policy r).
Proof. find_field (codex_image_generation_bridge_policy r). Qed.
Lemma field_model_strategy r : field "model_strategy" (encode_rule r) = opt_val JString (model_strategy r).
Proof. find_field (model_strategy r). Qed.
Lemma field_fixed_models r : field "fixed_models" (encode_rule r) = opt_val of_strings (fixed_models r).
Proof. find_field (fixed_models r). Qed.

Lemma strings_of_encode l : strings_of (JString <$> l) = Ok l.
Proof. induction l as [|s l IH]; [done|]. rewrite fmap_cons. cbn [strings_of]. by rewrite IH. Qed.

Lemma toStringArray_encode o : toStringArray (opt_val of_strings o) = Ok (default [] o).
Proof. destruct o; [|done]. apply strings_of_encode. Qed.

Lemma decode_switch_minutes o :
  decode_switch "interval_minutes" (opt_val (encode_switch "interval_minutes") o) = Ok o.
Proof. by destruct o as [[[] []]|]. Qed.

Lemma read_switch_hours o : read_switch "window_hours" (opt_val (encode_switch "window_hours") o) = o.
Proof. by destruct o as [[[] []]|]. Qed.

Lemma as_number_opt o : as_number (opt_val JNumber o) = o.
Proof. by destruct o. Qed.
Lemma as_string_opt o : as_string (opt_val JString o) = o.
Proof. by destruct o. Qed.

(** The lists of a rule in normal form are present. *)
Definition complete (r : UpstreamSourceLocalGroupRule) : Prop :=
  is_Some (platforms r) /\ is_Some (name_contains r) /\ is_Some (description_contains r)
  /\ is_Some (exclude_keywords r) /\ is_Some (fixed_models r).

Lemma decode_rule_encode r : complete r -> decode_rule (encode_rule r) = Ok r.
Proof.
  intros ([? Hp] & [? Hn] & [? Hd] & [? He] & [? Hf]). unfold decode_rule.
  rewrite field_platforms, field_name_contains, field_description_contains, field_exclude_keywords,
    field_channel_type, field_priority, field_weight, field_monitor, field_auto_sync, field_auto_priority,
    field_bridge, field_model_strategy, field_fixed_models.
  rewrite !toStringArray_encode, !decode_switch_minutes, read_switch_hours, !as_number_opt, !as_string_opt.
  destruct r. simpl in *. subst. reflexivity.
Qed.

Lemma unspaced_trimmed s : Forall (fun c => is_space c = false) s -> trimmed s.
Proof.
  assert (Hl : forall t, Forall (fun c => is_space c = false) t -> no_lead t).
  { intros [|c t]; [done|]. by intros [H _]%Forall_cons. }
  intros H. split; apply Hl; [done|by apply Forall_reverse].
Qed.

Lemma trimmed_app a b :
  a <> [] -> b <> [] -> no_lead a -> Forall (fun c => is_space c = false) b -> trimmed (a ++ b).
Proof.
  intros Ha Hb Hla Hfb. split; [by destruct a|]. rewrite reverse_app. apply Forall_reverse in Hfb.
  assert (reverse b <> []) by (intros E; apply Hb; rewrite <- (reverse_involutive b), E; done).
  destruct (reverse b) as [|c r]; [done|]. by apply Forall_cons in Hfb as [? _].
Qed.

Lemma str_or_trimmed a b : trimmed a -> trimmed b -> trimmed (a ||| b).
Proof. unfold str_or. by case_match. Qed.

Lemma str_or_nonempty a b : b <> [] -> a ||| b <> [].
Proof. unfold str_or. intros H. case_match; [by apply truthy_true|done]. Qed.

Lemma slugify_chars s : forall b, Forall (fun c => is_slug c = true \/ c = 45%N) (slugify b s).
Proof.
  induction s as [|c s IH]; intros b; simpl; [constructor|]. destruct (is_slug c) eqn:E; [constructor; auto|].
  destruct b; [done|constructor; auto].
Qed.

Lemma drop_while_Forall (P : N -> Prop) f s : Forall P s -> Forall P (drop_while f s).
Proof. intros H. destruct (drop_while_suffix f s) as (p & E & _). rewrite E in H. by apply Forall_app in H as [_ H]. Qed.

Lemma slug_trimmed s : trimmed (strip_dashes (slugify false s)).
Proof.
  apply unspaced_trimmed. unfold strip_dashes.
  apply Forall_reverse, drop_while_Forall, Forall_reverse, drop_while_Forall.
  eapply Forall_impl; [apply slugify_chars|]. intros c [H| ->]; [|done]. apply letter_not_space.
  unfold is_slug, is_digit in H. rewrite orb_true_iff, !andb_true_iff, !N.leb_le in H. lia.
Qed.

(** The printed instant has no white space and is not empty. *)
Definition printed (s : jsstr) : Prop := s <> [] /\ Forall (fun c => is_space c = false) s.

Section TemplateFacts.
Context (lower : jsstr -> jsstr) `{HL : !LowerCase lower}.
Variable show : jsnum -> jsstr.

Definition template_ok (x : LocalGroupRuleUserTemplate) : Prop :=
  trimmed (ut_id x) /\ ut_id x <> [] /\ trimmed (ut_name x) /\ ut_name x <> []
  /\ is_finite (created_at x) = true /\ complete (ut_rule x)
  /\ normalizeTemplateRule lower (ut_rule x) = ut_rule x
  /\ hasLocalGroupRuleMatcher lower (ut_rule x) = true.

Lemma parseUserTemplate_encode x : template_ok x -> parseUserTemplate lower (encode_template x) = Ok (Some x).
Proof.
  intros (Hi & Hi' & Hn & Hn' & Hc & Hr & Hnorm & Hm). destruct x as [i n at_ r]. simpl in *.
  unfold parseUserTemplate, encode_template. cbn [isRecord negb].
  change (field "id" _) with (JString i). change (field "name" _) with (JString n).
  change (field "created_at" _) with (JNumber at_). change (field "rule" _) with (encode_rule r). cbv iota.
  rewrite (trimmed_trim i Hi), (trimmed_trim n Hn), Hc. apply truthy_true in Hi', Hn'. rewrite Hi', Hn'.
  cbn [ut_id ut_name created_at ut_rule negb orb isRecord encode_rule]. rewrite decode_rule_encode by done.
  rewrite Hnorm, Hm. done.
Qed.

Lemma parse_all_encode ts : Forall template_ok ts -> parse_all lower (encode_template <$> ts) = Ok ts.
Proof.
  induction 1 as [|x ts Hx _ IH]; [done|]. rewrite fmap_cons. cbn [parse_all].
  by rewrite parseUserTemplate_encode, IH.
Qed.

Lemma matcher_normalize r :
  hasLocalGroupRuleMatcher lower (normalizeTemplateRule lower r) = hasLocalGroupRuleMatcher lower r.
Proof.
  unfold hasLocalGroupRuleMatcher, normalizeTemplateRule.
  cbn [platforms name_contains description_contains default]. unfold id.
  by rewrite !normalizeKeywordList_idem by done.
Qed.

Lemma created_template_ok nm r at_ :
  rule_valid r = true -> hasLocalGroupRuleMatcher lower r = true -> is_finite at_ = true -> printed (show at_) ->
  template_ok (createLocalGroupRuleUserTemplate lower show nm r at_).
Proof.
  intros Hv Hm Hf [Hs1 Hs2]. unfold createLocalGroupRuleUserTemplate.
  set (tn := trim nm ||| trim (name r) ||| (js "Template " ++ show at_)).
  assert (Ht : trimmed tn).
  { apply str_or_trimmed; [apply str_or_trimmed; apply trim_trimmed|]. by apply trimmed_app. }
  assert (Htn : tn <> []) by (by apply str_or_nonempty).
  split_and!; cbn [ut_id ut_name created_at ut_rule]; try done.
  - apply str_or_trimmed; [apply slug_trimmed|]. by apply trimmed_app.
  - by apply str_or_nonempty.
  - apply (normalizeSyncRule_idem lower). done.
  - rewrite matcher_normalize. done.
Qed.

Lemma parse_serialize ts :
  Forall template_ok ts -> json_ok show (JArray (encode_template <$> ts)) = true ->
  parseLocalGroupRuleUserTemplates lower (Some (serializeLocalGroupRuleUserTemplates show ts)) = Ok ts.
Proof.
  intros Ht Hj. unfold parseLocalGroupRuleUserTemplates, serializeLocalGroupRuleUserTemplates.
  assert (Hhd : exists c t, stringify show (JArray (encode_template <$> ts)) = c :: t) by (by eexists _, _).
  destruct Hhd as (c & t & E). rewrite E. rewrite <- E. rewrite JSON_parse_stringify by done.
  by rewrite parse_all_encode.
Qed.

End TemplateFacts.

(** ** Properties *)

(** A keyword list, given as text or as an array, becomes distinct, non-empty,
    trimmed, lower-case words without separators; a word is in it exactly when it
    is the lower-cased, trimmed form of a piece of the text between separators,
    and the pieces lose nothing but separators; normalising again, or joining and
    normalising, changes nothing. *)
Theorem keyword_list_spec lower (HL : LowerCase lower) raw values :
  canonical lower (normalizeKeywordText lower raw)
  /\ (forall x, x ∈ normalizeKeywordText lower raw
        <-> (x <> [] /\ exists p, p ∈ split_runs false [] raw /\ x = lower (trim p)))
  /\ Forall sep_free (split_runs false [] raw)
  /\ concat (split_runs false [] raw) = filter (fun c => is_sep c = false) raw
  /\ normalizeKeywordList lower (normalizeKeywordText lower raw) = normalizeKeywordText lower raw
  /\ normalizeKeywordList lower (normalizeKeywordList lower values) = normalizeKeywordList lower values.
Proof.
  split_and!.
  - by apply normalizeKeywordText_canonical.
  - intros x. unfold normalizeKeywordText. rewrite dedup_elem_of, list_elem_of_fmap. set_solver.
  - apply split_runs_free. constructor.
  - by rewrite split_runs_concat.
  - apply canonical_fixed; [done|]. by apply normalizeKeywordText_canonical.
  - by apply normalizeKeywordList_idem.
Qed.

Lemma keyword_list_spec_witness :
  normalizeKeywordText ascii_lower (js "GPT, pro,,gpt ") = [js "gpt"; js "pro"]
  /\ canonical ascii_lower (normalizeKeywordText ascii_lower (js "GPT, pro,,gpt ")).
Proof.
  split; [vm_compute; reflexivity|].
  exact (proj1 (keyword_list_spec ascii_lower ascii_LowerCase (js "GPT, pro,,gpt ") [])).
Defined.

(** C39: The normal form in which rules are sent: as many rules as given (a rule
    without matchers is kept), keyword lists in their normal form, a channel type
    of at least one and a weight of at least zero, a known model strategy with
    models only when it is the fixed one; sending the normal form again changes
    neither the rules nor the discovery signature. *)
Theorem sync_rules_normal_form lower (HL : LowerCase lower) rules :
  Forall (fun r => rule_valid r = true) rules ->
  let out := normalizeSyncRules lower rules in
  length out = length rules
  /\ normalizeSyncRules lower out = out
  /\ buildRuleModelDiscoverySignature lower out = buildRuleModelDiscoverySignature lower rules
  /\ Forall (fun r =>
       (exists pl nc dc ek, platforms r = Some pl /\ name_contains r = Some nc
          /\ description_contains r = Some dc /\ exclude_keywords r = Some ek
          /\ Forall (canonical lower) [pl; nc; dc; ek])
       /\ (forall n, channel_type r = Some n -> num_lt n (num 1) = false)
       /\ (forall n, weight r = Some n -> num_lt n (num 0) = false)
       /\ (model_strategy r = Some UPSTREAM_SOURCE_MODEL_STRATEGY_ALL /\ fixed_models r = Some []
           \/ model_strategy r = Some UPSTREAM_SOURCE_MODEL_STRATEGY_FIXED)) out.
Proof.
  intros Hv out. assert (Hidem : normalizeSyncRules lower out = out).
  { unfold out, normalizeSyncRules. rewrite <- list_fmap_compose. apply list_fmap_ext. intros i r Hr.
    apply normalizeSyncRule_idem; [done|]. by eapply Forall_lookup_1 in Hv. }
  split_and!; [apply length_fmap|done| |].
  - unfold buildRuleModelDiscoverySignature. by rewrite Hidem.
  - unfold out, normalizeSyncRules. apply Forall_fmap, Forall_forall. intros r _. simpl. split_and!.
    + do 4 eexists. split_and!; try reflexivity.
      repeat (apply Forall_cons; split); try apply Forall_nil_2; by apply normalizeKeywordText_canonical.
    + intros n Hn. unfold normalizeRuleChannelType in Hn. apply fmap_Some in Hn as (m & _ & ->).
      by apply math_max_ge.
    + intros n Hn. unfold normalizeRuleWeight in Hn. apply fmap_Some in Hn as (m & _ & ->).
      apply math_max_0_nonneg.
    + unfold normalizeModelStrategy. case_bool_decide; [by right|by left].
Qed.

Definition sample_rule : UpstreamSourceLocalGroupRule :=
  mkRule (js " Mine ") (js "default") (Some [js "OpenAI, openai"]) (Some [js "GPT"]) None None
    (Some (num (-3))) None (Some (num 7)) None None None None None None.

Lemma sync_rules_normal_form_witness :
  normalizeSyncRules ascii_lower (normalizeSyncRules ascii_lower [sample_rule])
  = normalizeSyncRules ascii_lower [sample_rule].
Proof.
  refine (proj1 (proj2 (sync_rules_normal_form ascii_lower ascii_LowerCase [sample_rule] _))).
  by repeat constructor.
Defined.

(** User templates survive local storage: what is created from a rule with a
    matcher, printed as JSON and read back is the same list of templates, whatever
    the names, and each has a non-empty trimmed name and identifier. *)
Theorem user_templates_roundtrip lower (HL : LowerCase lower) show inputs :
  let ts := (fun '(nm, r, at_) => createLocalGroupRuleUserTemplate lower show nm r at_) <$> inputs in
  Forall (fun '(nm, r, at_) => rule_valid r = true /\ hasLocalGroupRuleMatcher lower r = true
            /\ is_finite at_ = true /\ printed (show at_)) inputs ->
  json_ok show (JArray (encode_template <$> ts)) = true ->
  parseLocalGroupRuleUserTemplates lower (Some (serializeLocalGroupRuleUserTemplates show ts)) = Ok ts
  /\ Forall (fun x => ut_name x <> [] /\ trimmed (ut_name x) /\ ut_id x <> [] /\ trimmed (ut_id x)) ts.
Proof.
  intros ts Hin Hj. assert (Hok : Forall (template_ok lower) ts).
  { unfold ts. apply Forall_fmap. eapply Forall_impl; [exact Hin|].
    intros [[nm r] at_] (Hv & Hm & Hf & Hp). by apply created_template_ok. }
  split; [by apply parse_serialize|]. eapply Forall_impl; [exact Hok|]. intros x (? & ? & ? & ? & _). done.
Qed.

Definition show_sample (n : jsnum) : jsstr := if num_eqb n (num 1) then js "1" else if num_eqb n (num 7) then js "7" else js "5".

Lemma user_templates_roundtrip_witness :
  let ts := [createLocalGroupRuleUserTemplate ascii_lower show_sample (js "My rule!") sample_rule (num 5)] in
  parseLocalGroupRuleUserTemplates ascii_lower (Some (serializeLocalGroupRuleUserTemplates show_sample ts)) = Ok ts.
Proof.
  refine (proj1 (user_templates_roundtrip ascii_lower ascii_LowerCase show_sample [(js "My rule!", sample_rule, num 5)] _ _)).
  - apply Forall_singleton. split_and!; try (vm_compute; reflexivity). split; [done|by repeat constructor].
  - vm_compute. reflexivity.
Defined.

(** The overridden parts a list of tests selects. *)
Lemma selected_keys (m s p b o : bool) :
  let keys := (if m then [K_monitor] else []) ++ (if s then [K_auto_sync] else [])
    ++ (if p then [K_auto_priority] else []) ++ (if b then [K_codex_image_generation_bridge] else [])
    ++ (if o then [K_model_strategy] else []) in
  NoDup keys /\ (K_monitor ∈ keys <-> m = true) /\ (K_auto_sync ∈ keys <-> s = true)
  /\ (K_auto_priority ∈ keys <-> p = true) /\ (K_codex_image_generation_bridge ∈ keys <-> b = true)
  /\ (K_model_strategy ∈ keys <-> o = true).
Proof. destruct m, s, p, b, o; simpl; split_and!; try (split; set_solver); by repeat constructor; set_solver. Qed.

Lemma origin_override b : strategyOrigin b = override <-> b = true.
Proof. by destruct b. Qed.

(** Resolution against the defaults: the effective values are the rule's own
    where it has them and the default ones otherwise; a part is listed as
    overridden, once, exactly when its effective value differs from the default,
    and its origin says the same. *)
Theorem resolve_spec r d :
  let res := resolveLocalGroupRuleStrategy r d in
  let keys := override_keys res in
  let m := effective (monitor r) (sd_monitor d) in
  let s := effective (auto_sync r) (sd_autoSync d) in
  let p := effective (auto_priority r) (sd_autoPriority d) in
  let defaultModels := if normalizeModelStrategy (Some (sd_modelStrategy d)) =s? UPSTREAM_SOURCE_MODEL_STRATEGY_FIXED
                       then normalizeModelList (sd_fixedModels d) else [] in
  (has_overrides res = true <-> keys <> []) /\ NoDup keys
  /\ (rs_enabled (res_monitor res), rs_every (res_monitor res)) = m
  /\ (rs_enabled (res_auto_sync res), rs_every (res_auto_sync res)) = s
  /\ (rs_enabled (res_auto_priority res), rs_every (res_auto_priority res)) = p
  /\ (K_monitor ∈ keys <-> switchOverride m (sd_monitor d) = true)
  /\ (K_auto_sync ∈ keys <-> switchOverride s (sd_autoSync d) = true)
  /\ (K_auto_priority ∈ keys <-> switchOverride p (sd_autoPriority d) = true)
  /\ (K_codex_image_generation_bridge ∈ keys <->
        (res_bridge res).2 <> normalizeCodexImageGenerationBridgePolicy (Some (sd_bridge d)))
  /\ (K_model_strategy ∈ keys <->
        ((res_model res).1.2, (res_model res).2)
        <> (normalizeModelStrategy (Some (sd_modelStrategy d)), defaultModels))
  /\ (rs_origin (res_monitor res) = override <-> K_monitor ∈ keys)
  /\ (rs_origin (res_auto_sync res) = override <-> K_auto_sync ∈ keys)
  /\ (rs_origin (res_auto_priority res) = override <-> K_auto_priority ∈ keys)
  /\ ((res_bridge res).1 = override <-> K_codex_image_generation_bridge ∈ keys)
  /\ ((res_model res).1.1 = override <-> K_model_strategy ∈ keys).
Proof.
  intros res keys m s p defaultModels.
  set (hb := hasCodexImageGenerationBridgePolicy (codex_image_generation_bridge_policy r)).
  set (db := normalizeCodexImageGenerationBridgePolicy (Some (sd_bridge d))).
  set (bp := (res_bridge res).2). set (ms := (res_model res).1.2). set (fm := (res_model res).2).
  set (bo := hb && negb (bp =s? db)).
  set (mo := negb (ms =s? normalizeModelStrategy (Some (sd_modelStrategy d))) || negb (sameStringList fm defaultModels)).
  assert (HK : NoDup keys /\ (K_monitor ∈ keys <-> switchOverride m (sd_monitor d) = true)
    /\ (K_auto_sync ∈ keys <-> switchOverride s (sd_autoSync d) = true)
    /\ (K_auto_priority ∈ keys <-> switchOverride p (sd_autoPriority d) = true)
    /\ (K_codex_image_generation_bridge ∈ keys <-> bo = true) /\ (K_model_strategy ∈ keys <-> mo = true))
    by exact (selected_keys _ _ _ _ _).
  destruct HK as (K0 & K1 & K2 & K3 & K4 & K5).
  assert (Hb : bo = true <-> bp <> db).
  { unfold bo. rewrite andb_true_iff, negb_true_iff, str_eqb_neq. split; [tauto|]. intros Hne. split; [|done].
    destruct hb eqn:E; [done|]. exfalso. apply Hne. unfold bp, res, resolveLocalGroupRuleStrategy. simpl.
    fold hb. by rewrite E. }
  assert (Hm : mo = true <-> (ms, fm) <> (normalizeModelStrategy (Some (sd_modelStrategy d)), defaultModels)).
  { unfold mo. rewrite orb_true_iff, !negb_true_iff, str_eqb_neq. unfold sameStringList. rewrite bool_decide_eq_false.
    split; [intros [?|?] [= ??]; done|]. intros Hne. destruct (decide (ms = normalizeModelStrategy (Some (sd_modelStrategy d)))) as [E|]; [|by left].
    right. intros E'. apply Hne. by rewrite E, E'. }
  split_and!; try done.
  - change (negb (length keys =? 0)%nat = true <-> keys <> []). by destruct keys.
  - by rewrite K4.
  - by rewrite K5.
  - rewrite K1. apply origin_override.
  - rewrite K2. apply origin_override.
  - rewrite K3. apply origin_override.
  - rewrite K4. apply origin_override.
  - rewrite K5. apply origin_override.
Qed.

(** The built-in templates are usable as they are: each has a matcher, keeps its
    keyword lists when it is sent, and goes to the professional group exactly when
    it is a professional template and such a group is set. *)
Lemma builtin_templates_spec lower (HL : LowerCase lower) key d :
  Forall (fun s => lower s = s) [js "openai"; js "anthropic"; js "gpt"; js "pro"] ->
  let r := buildLocalGroupRuleTemplate key d in
  hasLocalGroupRuleMatcher lower r = true
  /\ platforms (normalizeSyncRule lower r) = platforms r
  /\ name_contains (normalizeSyncRule lower r) = name_contains r
  /\ description_contains (normalizeSyncRule lower r) = description_contains r
  /\ exclude_keywords (normalizeSyncRule lower r) = exclude_keywords r
  /\ local_group r = (if is_pro key && truthy (proLocalGroup d) then proLocalGroup d else defaultLocalGroup d)
  /\ (model_strategy r <> Some UPSTREAM_SOURCE_MODEL_STRATEGY_FIXED -> fixed_models r = Some []).
Proof.
  intros Hw r. rewrite !Forall_cons in Hw. destruct Hw as (W1 & W2 & W3 & W4 & _).
  assert (Hk : forall w, lower w = w -> w <> [] -> Forall (fun c => is_space c = false /\ is_sep c = false) w ->
                 normalizeKeywordList lower [w] = [w]).
  { intros w Hl Hne Hc. apply canonical_fixed; [done|]. split; [apply NoDup_singleton|].
    apply Forall_singleton. split_and!; [done| |done|].
    - apply unspaced_trimmed. eapply Forall_impl; [exact Hc|]. by intros ? [? _].
    - eapply Forall_impl; [exact Hc|]. by intros ? [_ ?]. }
  assert (H0 : normalizeKeywordList lower [] = []) by (by apply canonical_fixed; [|split; constructor]).
  assert (H1 := Hk _ W1 ltac:(done) ltac:(by repeat constructor)).
  assert (H2 := Hk _ W2 ltac:(done) ltac:(by repeat constructor)).
  assert (H3 := Hk _ W3 ltac:(done) ltac:(by repeat constructor)).
  assert (H4 := Hk _ W4 ltac:(done) ltac:(by repeat constructor)).
  destruct key; unfold r, buildLocalGroupRuleTemplate, normalizeSyncRule, hasLocalGroupRuleMatcher;
    cbn [platforms name_contains description_contains exclude_keywords local_group model_strategy fixed_models
         default is_pro]; unfold id; rewrite ?H0, ?H1, ?H2, ?H3, ?H4; split_and!; try done.
  all: intros Hs; by destruct (normalizeModelStrategy (td_modelStrategy d) =s? _) eqn:E;
    [apply str_eqb_eq in E; congruence|].
Qed.
